(** * sg3_utils: sg_simple1, sg_readcap, sg_requests, sg_decode_sense

    A shallow embedding of the four utilities and the properties of their
    command construction, response decoding, option handling and
    descriptor discipline.

    Integers of the C code are [Z] with the wrap-around written where a
    conversion narrows; device buffers are [list byte]; arrays filled by
    the program are [list Z].  Calls that leave the program (open, ioctl,
    the pass-through layer, close) are answered by an explicit [world]
    record and logged as a list of [event]s. *)

From Stdlib Require Import ZArith List Bool String Ascii Lia.
From Stdlib Require Import Strings.Byte.
Import ListNotations.
Local Open Scope Z_scope.

(** ** Numeric helpers *)

Definition wrap (w : Z) (x : Z) : Z := x mod 2 ^ w.

Definition u8 (b : byte) : Z := Z.of_N (Byte.to_N b).

(** [p[k]] for a [uint8_t *] into a device buffer. *)
Definition byte_at (p : list byte) (k : nat) : Z := u8 (nth k p x00).

(** C's [!!x]. *)
Definition notnot (x : Z) : Z := if x =? 0 then 0 else 1.

(** C truth value of an [int]. *)
Definition truthy (x : Z) : bool := negb (x =? 0).

(** ** sg_unaligned.h *)

Module SgUnaligned.

(** Modelled from the spec: sg_unaligned.h is not among the sources; the
    helper reads four bytes at [p], most significant first, as the
    "big-endian 32-bit integer" of a positionally decoded response
    buffer, by shifts and ors. *)
Definition sg_get_unaligned_be32 (p : list byte) : Z :=
  Z.lor (Z.lor (Z.lor (Z.shiftl (byte_at p 0) 24)
                      (Z.shiftl (byte_at p 1) 16))
               (Z.shiftl (byte_at p 2) 8))
        (byte_at p 3).

(** Modelled from the spec: sg_unaligned.h is not among the sources; eight
    bytes at [p], most significant first, composed of two 32-bit reads. *)
Definition sg_get_unaligned_be64 (p : list byte) : Z :=
  Z.lor (Z.shiftl (sg_get_unaligned_be32 p) 32)
        (sg_get_unaligned_be32 (skipn 4 p)).

End SgUnaligned.

(** ** What the documentation of a response layout says *)

Module Layout.

(** The big-endian integer held in a run of bytes. *)
Definition be_value (bs : list byte) : Z :=
  fold_left (fun acc b => acc * 256 + u8 b) bs 0.

(** Bytes [lo .. lo+n-1] of a buffer. *)
Definition bytes_from (buf : list byte) (lo n : nat) : list byte :=
  firstn n (skipn lo buf).

(** Bits [hi .. lo] of a byte value, as a number. *)
Definition bits (x : Z) (hi lo : Z) : Z := (x / 2 ^ lo) mod 2 ^ (hi - lo + 1).

(** One bit of a byte value, as 0 or 1. *)
Definition bit (x : Z) (k : Z) : Z := if Z.testbit x k then 1 else 0.

End Layout.

(** ** The boundary of the programs

    A run of a utility is the list of the calls it makes on the outside
    (in order) and its exit status. *)

Inductive command :=
| SgIo (cdb : list Z) (timeout_ms : Z)   (* ioctl(SG_IO) on an sg_io_hdr_t *)
| Readcap10 (pmi : bool) (lba : Z)       (* sg_ll_readcap_10 *)
| Readcap16 (pmi : bool) (llba : Z)      (* sg_ll_readcap_16 *)
| ScsiPt (cdb : list Z) (tmo_secs : Z).  (* do_scsi_pt *)

(** How a submitted command came back: without complaint, completed but
    classified in a sense category, or the submitting call itself failed. *)
Inductive status :=
| Done
| CheckCond (cat : Z)
| CallFailed (err : Z).

Inductive event :=
| Open (name : string) (fd : Z)
| OpenFailed (name : string) (err : Z)
| Close (fd : Z)
| Ioctl (fd : Z) (request : string)     (* a control call that is no SCSI command *)
| Submit (fd : Z) (c : command) (st : status)
| Out (fmt : string) (args : list Z)
| JsNv (name : string) (v : Z)
| RepInvocation (argv : list string).    (* sg_rep_invocation, on stderr *)

Definition run : Type := list event * Z.
Definition trace (r : run) : list event := fst r.
Definition exit_code (r : run) : Z := snd r.

(** Events that happen before the rest of a run. *)
Definition before (pre : list event) (r : run) : run :=
  (pre ++ trace r, exit_code r).


(** The commands of a run, in order. *)
Fixpoint submitted (tr : list event) : list (command * status) :=
  match tr with
  | [] => []
  | Submit _ c st :: tl => (c, st) :: submitted tl
  | _ :: tl => submitted tl
  end.

Definition call_failed (st : status) : bool :=
  match st with CallFailed _ => true | _ => false end.

(** Does some command follow one whose status is [bad]? *)
Fixpoint submits_after (bad : status -> bool) (cs : list (command * status))
  : bool :=
  match cs with
  | [] => false
  | (_, st) :: tl =>
      (bad st && negb (Nat.eqb (List.length tl) 0)) || submits_after bad tl
  end.

(** Scoped use of a descriptor: [cur] is the descriptor held.  An open
    happens only when none is held, a close and a command only on the one
    held, and none is held at the end. *)
Fixpoint fd_scoped (cur : option Z) (tr : list event) : bool :=
  match tr with
  | [] => match cur with None => true | Some _ => false end
  | Open _ fd :: tl =>
      match cur with None => fd_scoped (Some fd) tl | Some _ => false end
  | Close fd :: tl =>
      match cur with
      | Some fd' => (fd =? fd') && fd_scoped None tl
      | None => false
      end
  | Submit fd _ _ :: tl =>
      match cur with
      | Some fd' => (fd =? fd') && fd_scoped cur tl
      | None => false
      end
  | _ :: tl => fd_scoped cur tl
  end.

(** Opening, closing or using a device. *)
Definition touches_device (e : event) : bool :=
  match e with
  | Open _ _ | OpenFailed _ _ | Close _ | Ioctl _ _ | Submit _ _ _ => true
  | Out _ _ | JsNv _ _ | RepInvocation _ => false
  end.

(** ** sg_lib.h

    The header and the library behind it are not among the sources: the
    exit-status macros the utilities name and the library functions whose
    result they use are parameters of the models. *)

Record sg_lib_h := {
  SG_LIB_SYNTAX_ERROR : Z;
  SG_LIB_CAT_NOT_READY : Z;
  SG_LIB_CAT_ILLEGAL_REQ : Z;
  SG_LIB_CAT_UNIT_ATTENTION : Z;
  SG_LIB_CAT_INVALID_OP : Z;
  SG_LIB_FILE_ERROR : Z;
  SG_LIB_CAT_NO_SENSE : Z;
  SG_LIB_CAT_RECOVERED : Z;
  SG_LIB_LBA_OUT_OF_RANGE : Z;
  SG_LIB_CONTRADICT : Z;
  SG_LIB_TRANSPORT_ERROR : Z;
  SG_LIB_OK_FALSE : Z;
  SG_LIB_CAT_OTHER : Z;
  ENOMEM : Z;
  sg_convert_errno : Z -> Z;
  sg_if_can2stderr : Z -> bool;
  sg_get_llnum : string -> Z;       (* int64_t, -1 on error *)
  sg_get_num : string -> Z;         (* int, -1 on error *)
  sg_get_num_nomult : string -> Z;  (* int, -1 on error *)
  (* progress indication found in sense data, if any *)
  sg_get_sense_progress_fld : list byte -> Z -> option Z;
  (* sense_key, asc and ascq of well-formed sense data *)
  sg_scsi_normalize_sense : list byte -> Z -> option (Z * Z * Z);
  sg_err_category_sense : list byte -> Z -> Z
}.

(** ** The C library calls that read numbers

    [strtol(s, &endptr, 16)] and [sscanf(s, "%" SCNx64, &uu)] on an LP64
    platform: white space is skipped, a sign and a [0x] prefix are
    optional, the longest run of hexadecimal digits is taken. *)

Module Libc.

Definition code (c : ascii) : Z := Z.of_nat (nat_of_ascii c).

Definition isspace (c : ascii) : bool :=
  (code c =? 32) || ((9 <=? code c) && (code c <=? 13)).

Definition hex_digit (c : ascii) : option Z :=
  let n := code c in
  if (48 <=? n) && (n <=? 57) then Some (n - 48)
  else if (97 <=? n) && (n <=? 102) then Some (n - 87)
  else if (65 <=? n) && (n <=? 70) then Some (n - 55)
  else None.

Definition isxdigit (c : ascii) : bool :=
  match hex_digit c with Some _ => true | None => false end.

Fixpoint skip_space (s : list ascii) : list ascii :=
  match s with
  | c :: tl => if isspace c then skip_space tl else s
  | [] => []
  end.

Fixpoint hex_digits (s : list ascii) (acc : Z) : Z * list ascii :=
  match s with
  | c :: tl =>
      match hex_digit c with
      | Some d => hex_digits tl (acc * 16 + d)
      | None => (acc, s)
      end
  | [] => (acc, [])
  end.

Definition skip_sign (s : list ascii) : bool * list ascii :=
  match s with
  | c :: tl =>
      if Ascii.eqb c "-" then (true, tl)
      else if Ascii.eqb c "+" then (false, tl)
      else (false, s)
  | [] => (false, [])
  end.

Definition skip_0x (s : list ascii) : list ascii :=
  match s with
  | z :: x :: d :: tl =>
      if Ascii.eqb z "0" && (Ascii.eqb x "x" || Ascii.eqb x "X") && isxdigit d
      then d :: tl else s
  | _ => s
  end.

(** The subject sequence: sign, magnitude and what follows it; [None]
    when there is no digit to convert. *)
Definition hex_subject (s : list ascii) : option (bool * Z * list ascii) :=
  let '(neg, s1) := skip_sign (skip_space s) in
  let s2 := skip_0x s1 in
  match s2 with
  | c :: _ =>
      if isxdigit c
      then let '(v, rest) := hex_digits s2 0 in Some (neg, v, rest)
      else None
  | [] => None
  end.

Definition LONG_MAX : Z := 2 ^ 63 - 1.
Definition LONG_MIN : Z := - 2 ^ 63.
Definition ULLONG_MAX : Z := 2 ^ 64 - 1.

(** [strtol(s, &endptr, 16)]: the value and the text at [endptr]. *)
Definition strtol16 (s : list ascii) : Z * list ascii :=
  match hex_subject s with
  | None => (0, s)
  | Some (neg, v, rest) =>
      let x := if neg then - v else v in
      (if x <? LONG_MIN then LONG_MIN
       else if LONG_MAX <? x then LONG_MAX else x, rest)
  end.

(** [sscanf(s, "%" SCNx64, &uu)]: [Some uu] when it returns 1. *)
Definition sscanf_SCNx64 (s : list ascii) : option Z :=
  match hex_subject s with
  | None => None
  | Some (neg, v, _) =>
      Some (if ULLONG_MAX <? v then ULLONG_MAX
            else if neg then wrap 64 (- v) else v)
  end.

(** [0 == strncmp(lit, cp, strlen(lit))]. *)
Fixpoint has_prefix (lit cp : list ascii) : bool :=
  match lit, cp with
  | [], _ => true
  | a :: lit', b :: cp' => Ascii.eqb a b && has_prefix lit' cp'
  | _ :: _, [] => false
  end.

End Libc.

Definition chars (s : string) : list ascii := list_ascii_of_string s.

(** ** sg_readcap *)

Module SgReadcap.

Definition RCAP_REPLY_LEN : Z := 8.
Definition RCAP16_REPLY_LEN : Z := 32.

(** [struct opts_t]; [json_st] is kept by the JSON library.  The [int]
    counters cannot wrap: each grows by one per command-line option. *)
Record opts_t := {
  do_brief : bool;
  do_json : bool;
  do_long : bool;
  do_pmi : bool;
  do_raw : bool;
  o_readonly : bool;
  do_zbc : bool;
  opt_new : bool;
  verbose_given : bool;
  version_given : bool;
  do_help : Z;
  do_hex : Z;
  do_lba : Z;
  verbose : Z;
  llba : Z;
  device_name : option string;
  inhex_fn : option string;
  json_arg : option string;
  js_file : option string
}.

Definition set_do_brief (v : bool) (op : opts_t) : opts_t :=
  let '(Build_opts_t _ f1 f2 f3 f4 f5 f6 f7 f8 f9 f10 f11 f12 f13 f14 f15 f16 f17 f18) := op in
  Build_opts_t v f1 f2 f3 f4 f5 f6 f7 f8 f9 f10 f11 f12 f13 f14 f15 f16 f17 f18.

Definition set_do_json (v : bool) (op : opts_t) : opts_t :=
  let '(Build_opts_t f0 _ f2 f3 f4 f5 f6 f7 f8 f9 f10 f11 f12 f13 f14 f15 f16 f17 f18) := op in
  Build_opts_t f0 v f2 f3 f4 f5 f6 f7 f8 f9 f10 f11 f12 f13 f14 f15 f16 f17 f18.

Definition set_do_long (v : bool) (op : opts_t) : opts_t :=
  let '(Build_opts_t f0 f1 _ f3 f4 f5 f6 f7 f8 f9 f10 f11 f12 f13 f14 f15 f16 f17 f18) := op in
  Build_opts_t f0 f1 v f3 f4 f5 f6 f7 f8 f9 f10 f11 f12 f13 f14 f15 f16 f17 f18.

Definition set_do_pmi (v : bool) (op : opts_t) : opts_t :=
  let '(Build_opts_t f0 f1 f2 _ f4 f5 f6 f7 f8 f9 f10 f11 f12 f13 f14 f15 f16 f17 f18) := op in
  Build_opts_t f0 f1 f2 v f4 f5 f6 f7 f8 f9 f10 f11 f12 f13 f14 f15 f16 f17 f18.

Definition set_do_raw (v : bool) (op : opts_t) : opts_t :=
  let '(Build_opts_t f0 f1 f2 f3 _ f5 f6 f7 f8 f9 f10 f11 f12 f13 f14 f15 f16 f17 f18) := op in
  Build_opts_t f0 f1 f2 f3 v f5 f6 f7 f8 f9 f10 f11 f12 f13 f14 f15 f16 f17 f18.

Definition set_o_readonly (v : bool) (op : opts_t) : opts_t :=
  let '(Build_opts_t f0 f1 f2 f3 f4 _ f6 f7 f8 f9 f10 f11 f12 f13 f14 f15 f16 f17 f18) := op in
  Build_opts_t f0 f1 f2 f3 f4 v f6 f7 f8 f9 f10 f11 f12 f13 f14 f15 f16 f17 f18.

Definition set_do_zbc (v : bool) (op : opts_t) : opts_t :=
  let '(Build_opts_t f0 f1 f2 f3 f4 f5 _ f7 f8 f9 f10 f11 f12 f13 f14 f15 f16 f17 f18) := op in
  Build_opts_t f0 f1 f2 f3 f4 f5 v f7 f8 f9 f10 f11 f12 f13 f14 f15 f16 f17 f18.

Definition set_opt_new (v : bool) (op : opts_t) : opts_t :=
  let '(Build_opts_t f0 f1 f2 f3 f4 f5 f6 _ f8 f9 f10 f11 f12 f13 f14 f15 f16 f17 f18) := op in
  Build_opts_t f0 f1 f2 f3 f4 f5 f6 v f8 f9 f10 f11 f12 f13 f14 f15 f16 f17 f18.

Definition set_verbose_given (v : bool) (op : opts_t) : opts_t :=
  let '(Build_opts_t f0 f1 f2 f3 f4 f5 f6 f7 _ f9 f10 f11 f12 f13 f14 f15 f16 f17 f18) := op in
  Build_opts_t f0 f1 f2 f3 f4 f5 f6 f7 v f9 f10 f11 f12 f13 f14 f15 f16 f17 f18.

Definition set_version_given (v : bool) (op : opts_t) : opts_t :=
  let '(Build_opts_t f0 f1 f2 f3 f4 f5 f6 f7 f8 _ f10 f11 f12 f13 f14 f15 f16 f17 f18) := op in
  Build_opts_t f0 f1 f2 f3 f4 f5 f6 f7 f8 v f10 f11 f12 f13 f14 f15 f16 f17 f18.

Definition set_do_help (v : Z) (op : opts_t) : opts_t :=
  let '(Build_opts_t f0 f1 f2 f3 f4 f5 f6 f7 f8 f9 _ f11 f12 f13 f14 f15 f16 f17 f18) := op in
  Build_opts_t f0 f1 f2 f3 f4 f5 f6 f7 f8 f9 v f11 f12 f13 f14 f15 f16 f17 f18.

Definition set_do_hex (v : Z) (op : opts_t) : opts_t :=
  let '(Build_opts_t f0 f1 f2 f3 f4 f5 f6 f7 f8 f9 f10 _ f12 f13 f14 f15 f16 f17 f18) := op in
  Build_opts_t f0 f1 f2 f3 f4 f5 f6 f7 f8 f9 f10 v f12 f13 f14 f15 f16 f17 f18.

Definition set_do_lba (v : Z) (op : opts_t) : opts_t :=
  let '(Build_opts_t f0 f1 f2 f3 f4 f5 f6 f7 f8 f9 f10 f11 _ f13 f14 f15 f16 f17 f18) := op in
  Build_opts_t f0 f1 f2 f3 f4 f5 f6 f7 f8 f9 f10 f11 v f13 f14 f15 f16 f17 f18.

Definition set_verbose (v : Z) (op : opts_t) : opts_t :=
  let '(Build_opts_t f0 f1 f2 f3 f4 f5 f6 f7 f8 f9 f10 f11 f12 _ f14 f15 f16 f17 f18) := op in
  Build_opts_t f0 f1 f2 f3 f4 f5 f6 f7 f8 f9 f10 f11 f12 v f14 f15 f16 f17 f18.

Definition set_llba (v : Z) (op : opts_t) : opts_t :=
  let '(Build_opts_t f0 f1 f2 f3 f4 f5 f6 f7 f8 f9 f10 f11 f12 f13 _ f15 f16 f17 f18) := op in
  Build_opts_t f0 f1 f2 f3 f4 f5 f6 f7 f8 f9 f10 f11 f12 f13 v f15 f16 f17 f18.

Definition set_device_name (v : option string) (op : opts_t) : opts_t :=
  let '(Build_opts_t f0 f1 f2 f3 f4 f5 f6 f7 f8 f9 f10 f11 f12 f13 f14 _ f16 f17 f18) := op in
  Build_opts_t f0 f1 f2 f3 f4 f5 f6 f7 f8 f9 f10 f11 f12 f13 f14 v f16 f17 f18.

Definition set_inhex_fn (v : option string) (op : opts_t) : opts_t :=
  let '(Build_opts_t f0 f1 f2 f3 f4 f5 f6 f7 f8 f9 f10 f11 f12 f13 f14 f15 _ f17 f18) := op in
  Build_opts_t f0 f1 f2 f3 f4 f5 f6 f7 f8 f9 f10 f11 f12 f13 f14 f15 v f17 f18.

Definition set_json_arg (v : option string) (op : opts_t) : opts_t :=
  let '(Build_opts_t f0 f1 f2 f3 f4 f5 f6 f7 f8 f9 f10 f11 f12 f13 f14 f15 f16 _ f18) := op in
  Build_opts_t f0 f1 f2 f3 f4 f5 f6 f7 f8 f9 f10 f11 f12 f13 f14 f15 f16 v f18.

Definition set_js_file (v : option string) (op : opts_t) : opts_t :=
  let '(Build_opts_t f0 f1 f2 f3 f4 f5 f6 f7 f8 f9 f10 f11 f12 f13 f14 f15 f16 f17 _) := op in
  Build_opts_t f0 f1 f2 f3 f4 f5 f6 f7 f8 f9 f10 f11 f12 f13 f14 f15 f16 f17 v.

Definition opts_zero : opts_t :=
  Build_opts_t false false false false false false false false false false
               0 0 0 0 0 None None None None.

(** What [getopt_long] hands back on one call: the option code and
    [optarg]. *)
Record getopt_ev := { g_c : ascii; g_optarg : option string }.

(** The command line as the two parsers see it. *)
Record invocation := {
  argv : list string;             (* argv[1 .. argc-1] *)
  getopt_opts : list getopt_ev;   (* the calls of getopt_long before -1 *)
  getopt_rest : list string;      (* argv[optind .. argc-1] after them *)
  SG3_UTILS_OLD_OPTS : bool;      (* getenv finds it *)
  SG3_UTILS_INVOCATION : bool     (* getenv finds it *)
}.

(** Lines 566-567: the command line is reported on stderr when the
    environment asks for it. *)
Definition rep_invocation (inv : invocation) : list event :=
  if SG3_UTILS_INVOCATION inv then [RepInvocation (argv inv)] else [].

Inductive parse_step :=
| Next (op : opts_t) (msgs : list event)
| Return (code : Z) (op : opts_t) (msgs : list event).

Section Program.

Variable K : sg_lib_h.

Definition usage : list event := [Out "Usage: sg_readcap [--10] [--16] ..." []].
Definition usage_old : list event := [Out "Usage:  sg_readcap [-16] [-b] ..." []].
Definition usage_for (op : opts_t) : list event :=
  if opt_new op then usage else usage_old.

Definition ch_is (c : ascii) (lit : ascii) : bool := Ascii.eqb c lit.

Definition chk_short_opts (sopt_ch : ascii) (op : opts_t)
  : Z * opts_t * list event :=
  if ch_is sopt_ch "1" then (0, op, [])        (* ++a_one, a local *)
  else if ch_is sopt_ch "6" then (0, op, [])   (* a_one is 0 in this call *)
  else if ch_is sopt_ch "b" then (0, set_do_brief true op, [])
  else if ch_is sopt_ch "h" || ch_is sopt_ch "?"
  then (0, set_do_help (do_help op + 1) op, [])
  else if ch_is sopt_ch "H" then (0, set_do_hex (do_hex op + 1) op, [])
  else if ch_is sopt_ch "j" then (0, op, [])
  else if ch_is sopt_ch "l" then (0, set_do_long true op, [])
  else if ch_is sopt_ch "N" then (0, op, [])
  else if ch_is sopt_ch "O" then (0, set_opt_new false op, [])
  else if ch_is sopt_ch "p" then (0, set_do_pmi true op, [])
  else if ch_is sopt_ch "r" then (0, set_do_raw true op, [])
  else if ch_is sopt_ch "R" then (0, set_o_readonly true op, [])
  else if ch_is sopt_ch "T" then (0, set_do_long false op, [])
  else if ch_is sopt_ch "v"
  then (0, set_verbose (verbose op + 1) (set_verbose_given true op), [])
  else if ch_is sopt_ch "V" then (0, set_version_given true op, [])
  else if ch_is sopt_ch "z" then (0, set_do_zbc true op, [])
  else (SG_LIB_SYNTAX_ERROR K, op,
        [Out "unrecognised option code %c [0x%x] ??" [Libc.code sopt_ch]]).

(** The loop over the characters of [-j]'s argument. *)
Fixpoint chk_short_loop (cs : list ascii) (op : opts_t) : parse_step :=
  match cs with
  | [] => Next op []
  | ch :: tl =>
      let '(q, op1, msgs) := chk_short_opts ch op in
      if SG_LIB_SYNTAX_ERROR K =? q then Return (SG_LIB_SYNTAX_ERROR K) op1 msgs
      else if SG_LIB_OK_FALSE K =? q then Return 0 op1 msgs
      else match chk_short_loop tl op1 with
           | Next op2 m => Next op2 (msgs ++ m)
           | Return c op2 m => Return c op2 (msgs ++ m)
           end
  end.

(** [case 'L'] of new_parse_cmd_line. *)
Definition new_opt_L (optarg : string) (op : opts_t) : parse_step :=
  let nn := sg_get_llnum K optarg in
  if -1 =? nn
  then Return (SG_LIB_SYNTAX_ERROR K) op
              (Out "bad argument to '--lba='" [] :: usage)
  else
    let op1 := set_llba (wrap 64 nn) op in
    (* force READ_CAPACITY16 for large lbas *)
    let op2 := if 0xfffffffe <? llba op1 then set_do_long true op1 else op1 in
    Next (set_do_lba (do_lba op2 + 1) op2) [].

(** The body of the [switch] of new_parse_cmd_line; [a_one] is the local
    counter of ['1'] options. *)
Definition new_opt (g : getopt_ev) (a_one : Z) (op : opts_t)
  : parse_step * Z :=
  let c := g_c g in
  let optarg := g_optarg g in
  if ch_is c "1" then (Next op [], a_one + 1)
  else if ch_is c "6"
  then (Next (if truthy a_one then set_do_long true op else op) [], a_one)
  else if ch_is c "b" then (Next (set_do_brief true op) [], a_one)
  else if ch_is c "h" || ch_is c "?"
  then (Next (set_do_help (do_help op + 1) op) [], a_one)
  else if ch_is c "H" then (Next (set_do_hex (do_hex op + 1) op) [], a_one)
  else if ch_is c "i" then (Next (set_inhex_fn optarg op) [], a_one)
  else if ch_is c "j" || ch_is c "^" then
    let op1 := set_do_json true op in
    match optarg with
    | Some a =>
        if ch_is "^" c then (Next (set_json_arg (Some a) op1) [], a_one)
        else match a with
             | String "=" rest => (Next (set_json_arg (Some rest) op1) [], a_one)
             | _ => (chk_short_loop (chars a) op1, a_one)
             end
    | None => (Next (set_json_arg None op1) [], a_one)
    end
  else if ch_is c "J"
  then (Next (set_js_file optarg (set_do_json true op)) [], a_one)
  else if ch_is c "l" then (Next (set_do_long true op) [], a_one)
  else if ch_is c "L" then
    (match optarg with
     | Some a => new_opt_L a op
     | None => new_opt_L EmptyString op   (* required_argument: not reached *)
     end, a_one)
  else if ch_is c "N" then (Next op [], a_one)
  else if ch_is c "O" then (Return 0 (set_opt_new false op) [], a_one)
  else if ch_is c "p" then (Next (set_do_pmi true op) [], a_one)
  else if ch_is c "r" then (Next (set_do_raw true op) [], a_one)
  else if ch_is c "R" then (Next (set_o_readonly true op) [], a_one)
  else if ch_is c "T" then (Next (set_do_long false op) [], a_one)
  else if ch_is c "v"
  then (Next (set_verbose (verbose op + 1) (set_verbose_given true op)) [],
        a_one)
  else if ch_is c "V" then (Next (set_version_given true op) [], a_one)
  else if ch_is c "z" then (Next (set_do_zbc true op) [], a_one)
  else
    let m := Out "unrecognised option code %c [0x%x]" [Libc.code c] in
    if truthy (do_help op) then (Next op [m], a_one)
    else (Return (SG_LIB_SYNTAX_ERROR K) op (m :: usage), a_one).

(** After the options: the DEVICE argument and anything left over. *)
Definition new_positional (rest : list string) (op : opts_t) : parse_step :=
  match rest with
  | [] => Return 0 op []
  | a :: tl =>
      let '(op1, tl1) :=
        match device_name op with
        | None => (set_device_name (Some a) op, tl)
        | Some _ => (op, rest)
        end in
      match tl1 with
      | [] => Return 0 op1 []
      | _ :: _ =>
          Return (SG_LIB_SYNTAX_ERROR K) op1
                 (map (fun _ => Out "Unexpected extra argument: %s" []) tl1
                  ++ usage)
      end
  end.

Fixpoint new_parse_loop (gs : list getopt_ev) (rest : list string)
         (a_one : Z) (op : opts_t) : parse_step :=
  match gs with
  | [] => new_positional rest op
  | g :: tl =>
      match new_opt g a_one op with
      | (Next op1 m, a1) =>
          match new_parse_loop tl rest a1 op1 with
          | Next op2 m2 => Next op2 (m ++ m2)
          | Return c op2 m2 => Return c op2 (m ++ m2)
          end
      | (Return c op1 m, _) => Return c op1 m
      end
  end.

Definition new_parse_cmd_line (inv : invocation) (op : opts_t) : parse_step :=
  new_parse_loop (getopt_opts inv) (getopt_rest inv) 0 op.

(** The inner [for] of old_parse_cmd_line over the characters after the
    leading ['-'].  [plen] is the length of [cp] throughout. *)
Inductive old_scan_res :=
| ScanReturn (op : opts_t)
| ScanStop (cp : list ascii) (jmp_out : bool) (op : opts_t).

Fixpoint old_scan (cp : list ascii) (op : opts_t) : old_scan_res :=
  match cp with
  | [] => ScanStop [] false op
  | c :: cp1 =>
      if ch_is c "1" then
        match cp1 with
        | c2 :: cp2 =>
            if ch_is "6" c2 then old_scan cp2 (set_do_long true op)
            else ScanStop cp true op
        | [] => ScanStop cp true op
        end
      else if ch_is c "b" then old_scan cp1 (set_do_brief true op)
      else if ch_is c "h" || ch_is c "?"
      then old_scan cp1 (set_do_help (do_help op + 1) op)
      else if ch_is c "H" then old_scan cp1 (set_do_hex (do_hex op + 1) op)
      else if ch_is c "j" then old_scan cp1 (set_do_json true op)
      else if ch_is c "N" then ScanReturn (set_opt_new true op)
      else if ch_is c "O" then old_scan cp1 op
      else if ch_is c "p" then
        match cp1 with
        | m :: i :: cp3 =>
            if ch_is "m" m && ch_is "i" i then old_scan cp3 (set_do_pmi true op)
            else ScanStop cp true op
        | _ => ScanStop cp true op
        end
      else if ch_is c "r" then old_scan cp1 (set_do_raw true op)
      else if ch_is c "R" then old_scan cp1 (set_o_readonly true op)
      else if ch_is c "v"
      then old_scan cp1 (set_verbose (verbose op + 1)
                                     (set_verbose_given true op))
      else if ch_is c "V" then old_scan cp1 (set_version_given true op)
      else if ch_is c "z" then old_scan cp1 (set_do_zbc true op)
      else ScanStop cp true op
  end.

(** The [lba=] branch of old_parse_cmd_line; [val] is the text after
    [lba=]. *)
Definition old_opt_lba (val : list ascii) (op : opts_t) : parse_step :=
  match Libc.sscanf_SCNx64 val with
  | None =>
      Return (SG_LIB_SYNTAX_ERROR K) op
             (Out "Bad value after 'lba=' option" [] :: usage)
  | Some uu =>
      (* force READ_CAPACITY16 for large lbas *)
      let op1 := if 0xfffffffe <? uu then set_do_long true op else op in
      let op2 := set_llba uu op1 in
      Next (set_do_lba (do_lba op2 + 1) op2) []
  end.

(** One [argv[k]] of old_parse_cmd_line. *)
Definition old_arg (a : string) (op : opts_t) : parse_step :=
  match chars a with
  | [] => Next op []
  | c :: cp0 =>
      if ch_is "-" c then
        match old_scan cp0 op with
        | ScanReturn op1 => Return 0 op1 []
        | ScanStop [] _ op1 => Next op1 []
        | ScanStop cp jmp_out op1 =>
            if Libc.has_prefix (chars "lba=") cp
            then old_opt_lba (skipn 4 cp) op1
            else if Libc.has_prefix (chars "-old") cp then Next op1 []
            else if jmp_out
            then Return (SG_LIB_SYNTAX_ERROR K) op1
                        (Out "Unrecognized option: %s" [] :: usage)
            else Next op1 []
        end
      else
        match device_name op with
        | None => Next (set_device_name (Some a) op) []
        | Some _ =>
            Return (SG_LIB_SYNTAX_ERROR K) op
                   (Out "too many arguments, got: %s, not expecting: %s" []
                    :: usage)
        end
  end.

Fixpoint old_parse_loop (args : list string) (op : opts_t) : parse_step :=
  match args with
  | [] => Return 0 op []
  | a :: tl =>
      match old_arg a op with
      | Next op1 m =>
          match old_parse_loop tl op1 with
          | Next op2 m2 => Next op2 (m ++ m2)
          | Return c op2 m2 => Return c op2 (m ++ m2)
          end
      | Return c op1 m => Return c op1 m
      end
  end.

Definition old_parse_cmd_line (inv : invocation) (op : opts_t) : parse_step :=
  old_parse_loop (argv inv) op.

(** The result of a parser as [main] sees it: return value, options and
    what was written to stderr. *)
Definition finished (p : parse_step) : Z * opts_t * list event :=
  match p with
  | Next op m => (0, op, m)
  | Return c op m => (c, op, m)
  end.

Definition parse_cmd_line (inv : invocation) (op : opts_t)
  : Z * opts_t * list event :=
  if SG3_UTILS_OLD_OPTS inv then
    let '(res, op1, m) :=
      finished (old_parse_cmd_line inv (set_opt_new false op)) in
    if (res =? 0) && opt_new op1 then
      let '(res2, op2, m2) := finished (new_parse_cmd_line inv op1) in
      (res2, op2, m ++ m2)
    else (res, op1, m)
  else
    let '(res, op1, m) :=
      finished (new_parse_cmd_line inv (set_opt_new true op)) in
    if (res =? 0) && negb (opt_new op1) then
      let '(res2, op2, m2) := finished (old_parse_cmd_line inv op1) in
      (res2, op2, m ++ m2)
    else (res, op1, m).

(** The answers of the outside to one run of [main]. *)
Record world := {
  w_sgj_init_state : bool;             (* sgj_init_state succeeds *)
  w_pr_as_json : bool;                 (* jsp->pr_as_json afterwards *)
  w_set_binary_mode : Z;               (* sg_set_binary_mode *)
  w_memalign : bool;                   (* sg_memalign returns a buffer *)
  w_f2hex_arr : Z * Z * list byte;     (* sg_f2hex_arr: result, in_len, data *)
  w_open : Z;                          (* sg_cmds_open_device, line 671 *)
  w_reopen : Z;                        (* sg_cmds_open_device, line 762 *)
  w_readcap_10 : Z * list byte;        (* sg_ll_readcap_10: result, resp_buff *)
  w_readcap_16 : Z * list byte;        (* sg_ll_readcap_16: result, resp_buff *)
  w_close : Z;                         (* sg_cmds_close_device at fini *)
  w_js_fopen : bool                    (* fopen(js_file, "w") succeeds *)
}.

Variable w : world.

Definition status_of (res : Z) : status :=
  if res =? 0 then Done else CheckCond res.

(** The locals [main] fills from a READ CAPACITY (10) response. *)
Record rcap10 := { last_blk_addr : Z; block_size : Z }.

Definition decode_rcap10 (resp_buff : list byte) : rcap10 :=
  {| last_blk_addr := SgUnaligned.sg_get_unaligned_be32 (skipn 0 resp_buff);
     block_size := SgUnaligned.sg_get_unaligned_be32 (skipn 4 resp_buff) |}.

(** The locals [main] fills from a READ CAPACITY (16) response. *)
Record rcap16 := {
  llast_blk_addr : Z;
  block_size16 : Z;
  rc_basis : Z;
  prot_en : Z;
  p_type : Z;
  p_i_exponent : Z;
  lbppbe : Z;
  lbpme : bool;
  lbprz : bool;
  lalba : Z
}.

Definition decode_rcap16 (resp_buff : list byte) : rcap16 :=
  {| llast_blk_addr := SgUnaligned.sg_get_unaligned_be64 (skipn 0 resp_buff);
     block_size16 := SgUnaligned.sg_get_unaligned_be32 (skipn 8 resp_buff);
     rc_basis := Z.land (Z.shiftr (byte_at resp_buff 12) 4) 0x3;
     prot_en := notnot (Z.land (byte_at resp_buff 12) 0x1);
     p_type := Z.land (Z.shiftr (byte_at resp_buff 12) 1) 0x7;
     p_i_exponent := Z.land (Z.shiftr (byte_at resp_buff 13) 4) 0xf;
     lbppbe := Z.land (byte_at resp_buff 13) 0xf;
     lbpme := truthy (notnot (Z.land (byte_at resp_buff 14) 0x80));
     lbprz := truthy (notnot (Z.land (byte_at resp_buff 14) 0x40));
     lalba := Z.shiftl (Z.land (byte_at resp_buff 14) 0x3f) 8
              + byte_at resp_buff 15 |}.

Definition Zb (b : bool) : Z := if b then 1 else 0.

Definition rc10_pd_sn : string := "read_capacity_10_parameter_data".
Definition rc16_pd_sn : string := "read_capacity_16_parameter_data".
Definition rlba_sn : string := "returned_logical_block_address".
Definition lblib_sn : string := "logical_block_length_in_bytes".

(** Raw or hexadecimal output of a response ([dStrRaw], [hex2stdout]). *)
Definition dump (op : opts_t) (name : string) (len : Z) : list event :=
  if do_raw op then [Out "dStrRaw" [len]]
  else if 2 <? do_hex op
  then (if 3 <? do_hex op then [Out "# %s" []] else [])
       ++ [Out "hex2stdout" [len; -1]]
  else [Out "hex2stdout" [len; Zb (1 =? do_hex op)]].

(** The label [fini] and what follows it.  [res] is the variable of that
    name as the jump finds it. *)
Definition fini (op : opts_t) (sg_fd ret res : Z) : run :=
  let '(ev1, ret1, res1) :=
    if 0 <=? sg_fd then
      let res := w_close w in
      if res <? 0
      then ([Close sg_fd; Out "close error: %s" []],
            (if 0 =? ret then sg_convert_errno K (- res) else ret), res)
      else ([Close sg_fd], ret, res)
    else ([], ret, res) in
  let ev2 :=
    if (0 =? verbose op) && negb (sg_if_can2stderr K ret1)
    then [Out "Some error occurred, try again with '-v' or '-vv' for more information" []]
    else [] in
  let ret2 := if 0 <=? ret1 then ret1 else SG_LIB_CAT_OTHER K in
  if do_json op then
    let '(ev3, res2) :=
      match js_file op with
      | Some f =>
          if negb (String.eqb f "-") && negb (w_js_fopen w)
          then ([Out "unable to open file: %s" []], SG_LIB_FILE_ERROR K)
          else ([], res1)
      | None => ([], res1)
      end in
    (ev1 ++ ev2 ++ ev3, if (0 =? ret2) && (0 <? res2) then res2 else ret2)
  else (ev1 ++ ev2, ret2).

(** The tail of [main] after the two command blocks: line 900. *)
Definition after_commands (op : opts_t) (sg_fd ret res : Z) : run :=
  before (if do_brief op then [Out "0x0 0x0" []] else [])
         (fini op sg_fd ret res).

(** "Hence: Device size ..."; the MiB and GB figures are floating point
    and are left out of the logged arguments. *)
Definition device_size (blocks bsize : Z) : list event :=
  [Out "Hence:" []; Out "   Device size: %u bytes, ..." [wrap 64 (blocks * bsize)]].

(** The block [if (op->do_long)] at line 777. *)
Definition long_block (op : opts_t) (sg_fd ret res : Z)
           (resp_buff : list byte) : run :=
  if do_long op then
    let '(res, resp_buff, ev) :=
      if 0 <=? sg_fd
      then (fst (w_readcap_16 w), snd (w_readcap_16 w),
            [Submit sg_fd (Readcap16 (do_pmi op) (llba op))
                    (status_of (fst (w_readcap_16 w)))])
      else (0, resp_buff, []) in
    let ret := res in
    if 0 =? res then
      if truthy (do_hex op) || do_raw op
      then before (ev ++ dump op rc16_pd_sn RCAP16_REPLY_LEN)
                  (fini op sg_fd ret res)
      else
        let d := decode_rcap16 resp_buff in
        let ev1 := [JsNv rlba_sn (llast_blk_addr d);
                    JsNv lblib_sn (block_size16 d)] in
        if do_brief op
        then before (ev ++ ev1 ++
                     [Out "0x%x 0x%x" [wrap 64 (llast_blk_addr d + 1);
                                       block_size16 d]])
                    (fini op sg_fd ret res)
        else
          before
            (ev ++ ev1 ++
             [JsNv "rc_basis" (rc_basis d);
              JsNv "p_type" (p_type d);
              JsNv "prot_en" (prot_en d);
              Out "Read Capacity results:" [];
              (if truthy (prot_en d)
               then Out "   Protection: prot_en=%d, p_type=%d, p_i_exponent=%d [type %d protection]"
                        [prot_en d; p_type d; p_i_exponent d; p_type d + 1]
               else Out "   Protection: prot_en=%d, p_type=%d, p_i_exponent=%d"
                        [prot_en d; p_type d; p_i_exponent d]);
              JsNv "p_i_exponent" (p_i_exponent d)] ++
             (if do_zbc op then [Out "   ZBC's rc_basis=%d [%s]" [rc_basis d]]
              else []) ++
             [JsNv "logical_blocks_per_physical_block_exponent" (lbppbe d);
              Out "   Logical block provisioning: lbpme=%d, lbprz=%d"
                  [Zb (lbpme d); Zb (lbprz d)];
              JsNv "lbpme" (Zb (lbpme d));
              JsNv "lbprz" (Zb (lbprz d));
              JsNv "lowest_aligned_logical_block_address" (lalba d);
              (if do_pmi op
               then Out "   PMI mode: given lba=0x%x, last lba before delay=0x%x   Logical block length=%u bytes"
                        [llba op; llast_blk_addr d; block_size16 d]
               else Out "   Last LBA=%u (0x%x), Number of logical blocks=%u   Logical block length=%u bytes"
                        [llast_blk_addr d; llast_blk_addr d;
                         wrap 64 (llast_blk_addr d + 1); block_size16 d]);
              (if 0 <? lbppbe d
               then Out "   Logical blocks per physical block exponent=%d [so physical block length=%u bytes]"
                        [lbppbe d;
                         wrap 32 (block_size16 d * Z.shiftl 1 (lbppbe d))]
               else Out "   Logical blocks per physical block exponent=%d"
                        [lbppbe d]);
              Out "   Lowest aligned LBA=%d"
                  [Z.shiftl (Z.land (byte_at resp_buff 14) 0x3f) 8
                   + byte_at resp_buff 15]] ++
             (if do_pmi op then []
              else device_size (wrap 64 (llast_blk_addr d + 1))
                               (block_size16 d)))
            (fini op sg_fd ret res)
    else if SG_LIB_CAT_ILLEGAL_REQ K =? res
    then before (ev ++ [Out "bad field in READ CAPACITY (16) cdb including unsupported service action" []])
                (after_commands op sg_fd ret res)
    else before (ev ++ [Out "READ CAPACITY (16) failed: %s" [res]])
                (after_commands op sg_fd ret res)
  else after_commands op sg_fd ret res.

(** The block [if (! op->do_long)] at line 680 and what it leads to. *)
Definition short_block (op : opts_t) (sg_fd res0 : Z)
           (resp_buff : list byte) : run :=
  let '(res, resp_buff, ev) :=
    if 0 <=? sg_fd
    then (fst (w_readcap_10 w), snd (w_readcap_10 w),
          [Submit sg_fd (Readcap10 (do_pmi op) (wrap 32 (llba op)))
                  (status_of (fst (w_readcap_10 w)))])
    else (0, resp_buff, []) in
  let ret := res in
  if 0 =? res then
    if truthy (do_hex op) || do_raw op
    then before (ev ++ dump op rc10_pd_sn RCAP_REPLY_LEN)
                (fini op sg_fd ret res)
    else
      let d := decode_rcap10 resp_buff in
      let ev1 := [JsNv rlba_sn (last_blk_addr d);
                  JsNv lblib_sn (block_size d)] in
      if negb (0xffffffff =? last_blk_addr d) then
        if do_brief op
        then before (ev ++ ev1 ++
                     [Out "0x%x 0x%x" [wrap 32 (last_blk_addr d + 1);
                                       block_size d]])
                    (fini op sg_fd ret res)
        else
          before
            (ev ++ ev1 ++
             [Out "Read Capacity results:" [];
              (if do_pmi op
               then Out "   PMI mode: given lba=0x%x, last lba before delay=0x%x"
                        [llba op; last_blk_addr d]
               else Out "   Last LBA=%u (0x%x), Number of logical blocks=%u"
                        [last_blk_addr d; last_blk_addr d;
                         wrap 32 (last_blk_addr d + 1)]);
              Out "   Logical block length=%u bytes" [block_size d]] ++
             (if do_pmi op then []
              else device_size (wrap 32 (last_blk_addr d + 1))
                               (block_size d)))
            (fini op sg_fd ret res)
      else
        before (ev ++ ev1 ++
                [Out "READ CAPACITY (10) indicates device capacity too large  now trying 16 byte cdb variant" []])
               (long_block (set_do_long true op) sg_fd ret res resp_buff)
  else if (SG_LIB_CAT_INVALID_OP K =? res) && (0 <=? sg_fd) then
    let op1 := set_do_long true op in
    let sg_fd1 := w_reopen w in
    if sg_fd1 <? 0
    then before (ev ++ [Close sg_fd;
                        OpenFailed (match device_name op with
                                    | Some n => n | None => EmptyString end)
                                   sg_fd1;
                        Out "error re-opening file: %s (rw): %s" []])
                (fini op1 sg_fd1 (sg_convert_errno K (- sg_fd1)) res)
    else before (ev ++ [Close sg_fd;
                        Open (match device_name op with
                              | Some n => n | None => EmptyString end)
                             sg_fd1] ++
                 (if truthy (verbose op)
                  then [Out "READ CAPACITY (10) not supported, trying READ CAPACITY (16)" []]
                  else []))
                (long_block op1 sg_fd1 ret res resp_buff)
  else
    (* here res is not 0 *)
    before (ev ++ [Out "READ CAPACITY (10) failed: %s" [res]])
           (long_block op sg_fd ret res resp_buff).

Definition commands (op : opts_t) (sg_fd res : Z) (resp_buff : list byte)
  : run :=
  if negb (do_long op) then short_block op sg_fd res resp_buff
  else long_block op sg_fd 0 res resp_buff.

Definition name_of (n : option string) : string :=
  match n with Some s => s | None => EmptyString end.

(** [main] from line 571 on: [op] is what parse_cmd_line left, which
    returned 0. *)
Definition main_body (op : opts_t) : run :=
  if truthy (do_help op) then (usage_for op, 0)
  else before (if verbose_given op && version_given op
               then [Out "Not in DEBUG mode, so '-vV' has no special action" []]
               else []) (
  if version_given op then ([Out "Version string: %s" []], 0)
  else if do_json op && negb (w_sgj_init_state w)
  then ([Out "sg_json_usage" []], SG_LIB_SYNTAX_ERROR K)
  else
    let as_json := do_json op && w_pr_as_json w in
    let missing :=
      match inhex_fn op, device_name op with
      | None, None => true
      | _, _ => false
      end in
    if missing
    then (Out "No DEVICE argument given" [] :: usage_for op,
          SG_LIB_SYNTAX_ERROR K)
    else
      let ev0 :=
        match inhex_fn op, device_name op with
        | Some _, Some _ =>
            if as_json then []
            else [Out "ignoring DEVICE, best to give DEVICE or --inhex=FN, but not both" []]
        | _, _ => []
        end in
      let op :=
        match inhex_fn op with
        | Some _ => set_device_name None op
        | None => op
        end in
      before ev0 (
      if do_raw op && (w_set_binary_mode w <? 0)
      then ([Out "sg_set_binary_mode" []], SG_LIB_FILE_ERROR K)
      else
        let op := if do_zbc op then set_do_long true op else op in
        if negb (do_pmi op) && (0 <? llba op)
        then before (Out "%slba can only be non-zero when '--pmi' is set" []
                     :: usage_for op)
                    (fini op (-1) (SG_LIB_CONTRADICT K) 0)
        else if negb (w_memalign w)
        then ([Out "Unable to allocate %d bytes on heap" [RCAP16_REPLY_LEN]],
              sg_convert_errno K (ENOMEM K))
        else
          match inhex_fn op with
          | Some _ =>
              let '(res, in_len, data) := w_f2hex_arr w in
              if truthy res
              then before (if SG_LIB_LBA_OUT_OF_RANGE K =? res
                           then [Out "decode buffer [%d] not large enough??" []]
                           else [])
                          (fini op (-1) res res)
              else
                let ev1 := if 2 <? verbose op
                           then [Out "Read %d [0x%x] bytes of user supplied data"
                                     [in_len; in_len]]
                           else [] in
                let op := set_do_raw false op in
                if in_len <? 4
                then before (ev1 ++ [Out "--inhex=%s only decoded %d bytes (needs 4 at least)" [in_len]])
                            (fini op (-1) (SG_LIB_SYNTAX_ERROR K) res)
                else before ev1 (commands op (-1) res data)
          | None =>
              let sg_fd := w_open w in
              if sg_fd <? 0
              then before [OpenFailed (name_of (device_name op)) sg_fd;
                           Out "%serror opening file: %s: %s" []]
                          (fini op sg_fd (sg_convert_errno K (- sg_fd)) 0)
              else before [Open (name_of (device_name op)) sg_fd]
                          (commands op sg_fd 0 (repeat x00 32))
          end)).

Definition main (inv : invocation) : run :=
  before (rep_invocation inv) (
  let '(res, op, msgs) := parse_cmd_line inv opts_zero in
  if truthy res then (msgs, res)
  else before msgs (main_body op)).

End Program.

End SgReadcap.

(** ** sg_simple1 *)

Module SgSimple1.

Definition INQ_REPLY_LEN : Z := 96.
Definition INQ_CMD_LEN : Z := 6.
Definition TUR_CMD_LEN : Z := 6.

Definition inqCmdBlk : list Z := [0x12; 0; 0; 0; INQ_REPLY_LEN; 0].
Definition turCmdBlk : list Z := [0x00; 0; 0; 0; 0; 0].

(** sg_err.h is not among the sources: the two categories [main] names
    are parameters. *)
Record sg_err_h := {
  SG_ERR_CAT_CLEAN : Z;
  SG_ERR_CAT_RECOVERED : Z
}.

(** What an SG_IO call leaves behind: the return value of [ioctl], the
    result of sg_err_category3 on the header, and the header's [duration],
    [resid] and [msg_status]. *)
Record sg_io_reply := {
  io_ret : Z;
  io_category : Z;
  io_duration : Z;
  io_resid : Z;
  io_msg_status : Z
}.

Record world := {
  w_open : Z;                  (* open(file_name, O_RDONLY) *)
  w_version : Z * Z;           (* ioctl(SG_GET_VERSION_NUM): result and k *)
  w_inquiry : sg_io_reply;
  w_inqBuff : list byte;       (* inqBuff after the INQUIRY *)
  w_test_unit_ready : sg_io_reply
}.

Section Program.

Variable E : sg_err_h.
Variable w : world.

(** The loop over [argv[1 ..]]: [do_extra] and [file_name] at the end, and
    what was printed. *)
Fixpoint parse_args (args : list string) (do_extra : Z)
         (file_name : option string) : Z * option string * list event :=
  match args with
  | [] => (do_extra, file_name, [])
  | a :: tl =>
      if Libc.has_prefix (chars "-x") (chars a)
      then parse_args tl 1 file_name
      else if Libc.has_prefix (chars "-") (chars a)
      then (do_extra, None, [Out "Unrecognized switch: %s" []])
      else match file_name with
           | None => parse_args tl do_extra (Some a)
           | Some _ => (do_extra, None, [Out "too many arguments" []])
           end
  end.

Definition status_of (r : sg_io_reply) : status :=
  if io_ret r <? 0 then CallFailed (io_ret r)
  else if io_category r =? SG_ERR_CAT_CLEAN E then Done
  else CheckCond (io_category r).

(** The [switch] on sg_err_category3: [ok] and what is printed. *)
Definition classify (what : string) (r : sg_io_reply) : bool * list event :=
  if io_category r =? SG_ERR_CAT_CLEAN E then (true, [])
  else if io_category r =? SG_ERR_CAT_RECOVERED E
  then (true, [Out ("Recovered error on " ++ what ++ ", continuing") []])
  else (false, [Out (what ++ " command error") [io_category r]]).

Definition extra (do_extra : Z) (what : string) (r : sg_io_reply)
  : list event :=
  if truthy do_extra
  then [Out (what ++ " duration=%u millisecs, resid=%d, msg_status=%d")
            [io_duration r; io_resid r; io_msg_status r]]
  else [].

(** [(int)*(p + 7)] for [char * p]. *)
Definition signed_char (b : Z) : Z := if 128 <=? b then b - 256 else b.

Definition main (args : list string) : run :=
  let '(do_extra, file_name, ev0) := parse_args args 0 None in
  match file_name with
  | None => (ev0 ++ [Out "Usage: 'sg_simple1 [-x] <sg_device>'" []], 1)
  | Some file_name =>
      let sg_fd := w_open w in
      if sg_fd <? 0
      then (ev0 ++ [OpenFailed file_name sg_fd;
                    Out "sg_simple1: error opening file: %s" []], 1)
      else
        let ev1 := ev0 ++ [Open file_name sg_fd;
                           Ioctl sg_fd "SG_GET_VERSION_NUM"] in
        if (fst (w_version w) <? 0) || (snd (w_version w) <? 30000)
        then (ev1 ++ [Out "sg_simple1: %s doesn't seem to be an new sg device" [];
                      Close sg_fd], 1)
        else
          (* INQUIRY *)
          let inq := w_inquiry w in
          let ev2 := ev1 ++ [Submit sg_fd (SgIo inqCmdBlk 20000)
                                    (status_of inq)] in
          if io_ret inq <? 0
          then (ev2 ++ [Out "sg_simple1: Inquiry SG_IO ioctl error" [];
                        Close sg_fd], 1)
          else
            let '(ok, evc) := classify "INQUIRY" inq in
            let f := signed_char (byte_at (w_inqBuff w) 7) in
            let ev3 :=
              ev2 ++ evc ++
              (if ok
               then [Out "Some of the INQUIRY command's results:" [];
                     Out "    %.8s  %.16s  %.4s  " [];
                     Out "[wide=%d sync=%d cmdque=%d sftre=%d]"
                         [notnot (Z.land f 0x20); notnot (Z.land f 0x10);
                          notnot (Z.land f 2); notnot (Z.land f 1)]]
                    ++ extra do_extra "INQUIRY" inq
               else []) in
            (* TEST UNIT READY *)
            let tur := w_test_unit_ready w in
            let ev4 := ev3 ++ [Submit sg_fd (SgIo turCmdBlk 20000)
                                      (status_of tur)] in
            if io_ret tur <? 0
            then (ev4 ++ [Out "sg_simple1: Test Unit Ready SG_IO ioctl error" [];
                          Close sg_fd], 1)
            else
              let '(ok, evc) := classify "Test Unit Ready" tur in
              (ev4 ++ evc ++
               [if ok
                then Out "Test Unit Ready successful so unit is ready!" []
                else Out "Test Unit Ready failed so unit may _not_ be ready!" []]
               ++ extra do_extra "TEST UNIT READY" tur
               ++ [Close sg_fd], 0)
  end.

End Program.

End SgSimple1.

(** ** sg_requests *)

Module SgRequests.

Definition MAX_REQS_RESP_LEN : Z := 255.
Definition DEF_REQS_RESP_LEN : Z := 252.
Definition SENSE_BUFF_LEN : Z := 96.
Definition DEF_PT_TIMEOUT : Z := 60.
Definition REQUEST_SENSE_CMD : Z := 0x3.
Definition REQUEST_SENSE_CMDLEN : Z := 6.

(** The locals of [main] that the option loop sets. *)
Record locals := {
  desc : bool;
  do_error : Z;
  do_hex : Z;
  maxlen : Z;
  num_rs : Z;
  do_progress : bool;
  do_raw : bool;
  do_status : bool;
  do_time : bool;
  tmo : Z;
  verbose : Z;
  verbose_given : bool;
  version_given : bool;
  device_name : option string
}.

Definition locals_init : locals :=
  {| desc := false; do_error := 0; do_hex := 0; maxlen := 0; num_rs := 1;
     do_progress := false; do_raw := false; do_status := false;
     do_time := false; tmo := 0; verbose := 0; verbose_given := false;
     version_given := false; device_name := None |}.

Record getopt_ev := { g_c : ascii; g_optarg : string }.

Record invocation := {
  argv : list string;             (* argv[1 .. argc-1] *)
  getopt_opts : list getopt_ev;   (* the calls of getopt_long before -1 *)
  getopt_rest : list string;      (* argv[optind .. argc-1] after them *)
  SG3_UTILS_INVOCATION : bool     (* getenv finds it *)
}.

(** Lines 155-156: the command line is reported on stderr when the
    environment asks for it. *)
Definition rep_invocation (inv : invocation) : list event :=
  if SG3_UTILS_INVOCATION inv then [RepInvocation (argv inv)] else [].

(** What one REQUEST SENSE leaves behind. *)
Record pt_reply := {
  r_n : Z;               (* sg_cmds_process_resp *)
  r_sense_cat : Z;       (* sense_cat, set when r_n is -2 *)
  r_transport_err : Z;   (* get_scsi_pt_transport_err *)
  r_os_err : Z;          (* get_scsi_pt_os_err *)
  r_rsBuff : list byte   (* rsBuff after the command *)
}.

Record world := {
  w_set_binary_mode : Z;         (* sg_set_binary_mode *)
  w_open : Z;                    (* sg_cmds_open_device *)
  w_construct : option Z;        (* construct_scsi_pt_obj_with_fd: None is
                                    NULL, Some err is get_scsi_pt_os_err *)
  w_reply : nat -> pt_reply;     (* the k-th do_scsi_pt *)
  w_start_tm : bool;             (* gettimeofday gave a time other than 0 *)
  w_close : Z                    (* sg_cmds_close_device *)
}.

Inductive parsed :=
| Parsed (l : locals)
| Exit (code : Z) (msgs : list event).

Section Program.

Variable K : sg_lib_h.

Definition usage : list event := [Out "Usage: sg_requests [--desc] [--error] ..." []].

Definition ch_is (c : ascii) (lit : ascii) : bool := Ascii.eqb c lit.

(** The body of the [switch] of the option loop. *)
Definition opt (g : getopt_ev) (l : locals) : parsed :=
  let c := g_c g in
  let optarg := g_optarg g in
  let '(Build_locals desc do_error do_hex maxlen num_rs do_progress do_raw
                     do_status do_time tmo verbose verbose_given
                     version_given device_name) := l in
  if ch_is c "d"
  then Parsed (Build_locals true do_error do_hex maxlen num_rs do_progress
                 do_raw do_status do_time tmo verbose verbose_given
                 version_given device_name)
  else if ch_is c "e"
  then Parsed (Build_locals desc (do_error + 1) do_hex maxlen num_rs
                 do_progress do_raw do_status do_time tmo verbose
                 verbose_given version_given device_name)
  else if ch_is c "h" || ch_is c "?" then Exit 0 usage
  else if ch_is c "H"
  then Parsed (Build_locals desc do_error (do_hex + 1) maxlen num_rs
                 do_progress do_raw do_status do_time tmo verbose
                 verbose_given version_given device_name)
  else if ch_is c "m" then
    let maxlen := sg_get_num K optarg in
    if (maxlen <? 0) || (MAX_REQS_RESP_LEN <? maxlen)
    then Exit (SG_LIB_SYNTAX_ERROR K)
              [Out "argument to '--maxlen' should be %d or less"
                   [MAX_REQS_RESP_LEN]]
    else Parsed (Build_locals desc do_error do_hex maxlen num_rs do_progress
                   do_raw do_status do_time tmo verbose verbose_given
                   version_given device_name)
  else if ch_is c "n" then
    let num_rs := sg_get_num K optarg in
    if num_rs <? 1
    then Exit (SG_LIB_SYNTAX_ERROR K) [Out "bad argument to '--num'" []]
    else Parsed (Build_locals desc do_error do_hex maxlen num_rs do_progress
                   do_raw do_status do_time tmo verbose verbose_given
                   version_given device_name)
  else if ch_is c "p"
  then Parsed (Build_locals desc do_error do_hex maxlen num_rs true do_raw
                 do_status do_time tmo verbose verbose_given version_given
                 device_name)
  else if ch_is c "r"
  then Parsed (Build_locals desc do_error do_hex maxlen num_rs do_progress
                 true do_status do_time tmo verbose verbose_given
                 version_given device_name)
  else if ch_is c "s"
  then Parsed (Build_locals desc do_error do_hex maxlen num_rs do_progress
                 do_raw true do_time tmo verbose verbose_given version_given
                 device_name)
  else if ch_is c "t"
  then Parsed (Build_locals desc do_error do_hex maxlen num_rs do_progress
                 do_raw do_status true tmo verbose verbose_given
                 version_given device_name)
  else if ch_is c "T" then
    let tmo := sg_get_num K optarg in
    if tmo <? 0
    then Exit (SG_LIB_SYNTAX_ERROR K) [Out "bad argument to '--timeout='" []]
    else Parsed (Build_locals desc do_error do_hex maxlen num_rs do_progress
                   do_raw do_status do_time tmo verbose verbose_given
                   version_given device_name)
  else if ch_is c "v"
  then Parsed (Build_locals desc do_error do_hex maxlen num_rs do_progress
                 do_raw do_status do_time tmo (verbose + 1) true
                 version_given device_name)
  else if ch_is c "V"
  then Parsed (Build_locals desc do_error do_hex maxlen num_rs do_progress
                 do_raw do_status do_time tmo verbose verbose_given true
                 device_name)
  else Exit (SG_LIB_SYNTAX_ERROR K)
            (Out "unrecognised option code 0x%x ??" [Libc.code c] :: usage).

Fixpoint options (gs : list getopt_ev) (l : locals) : parsed :=
  match gs with
  | [] => Parsed l
  | g :: tl =>
      match opt g l with
      | Parsed l1 => options tl l1
      | Exit c m => Exit c m
      end
  end.

(** After the options: the DEVICE argument and anything left over. *)
Definition positional (rest : list string) (l : locals) : parsed :=
  match rest with
  | [] => Parsed l
  | a :: tl =>
      let '(Build_locals desc do_error do_hex maxlen num_rs do_progress
                         do_raw do_status do_time tmo verbose verbose_given
                         version_given device_name) := l in
      let '(device_name1, tl1) :=
        match device_name with
        | None => (Some a, tl)
        | Some _ => (device_name, rest)
        end in
      match tl1 with
      | [] => Parsed (Build_locals desc do_error do_hex maxlen num_rs
                        do_progress do_raw do_status do_time tmo verbose
                        verbose_given version_given device_name1)
      | _ :: _ =>
          Exit (SG_LIB_SYNTAX_ERROR K)
               (map (fun _ => Out "Unexpected extra argument: %s" []) tl1
                ++ usage)
      end
  end.

Definition parse (inv : invocation) : parsed :=
  match options (getopt_opts inv) locals_init with
  | Parsed l => positional (getopt_rest inv) l
  | Exit c m => Exit c m
  end.

(** [rs_cdb] as the loops send it: lines 147-148 and 308-312. *)
Definition rs_cdb (l : locals) (maxlen : Z) : list Z :=
  let cdb0 := [REQUEST_SENSE_CMD; 0; 0; 0; 0; 0] in
  [ (if truthy (do_error l) then 0xff else nth 0 cdb0 0);
    (if desc l then Z.lor (nth 1 cdb0 0) 0x1 else nth 1 cdb0 0);
    nth 2 cdb0 0;
    nth 3 cdb0 0;
    wrap 8 maxlen;
    nth 5 cdb0 0 ].

Variable w : world.

(** [num_errs], [num_din_errs] and [most_recent_skey]. *)
Record counters := {
  num_errs : Z;
  num_din_errs : Z;
  most_recent_skey : Z
}.

Definition counters_init : counters :=
  {| num_errs := 0; num_din_errs := 0; most_recent_skey := 0 |}.

Definition add_err (c : counters) : counters :=
  {| num_errs := num_errs c + 1; num_din_errs := num_din_errs c;
     most_recent_skey := most_recent_skey c |}.

Definition add_din_err (skey : Z) (c : counters) : counters :=
  {| num_errs := num_errs c; num_din_errs := num_din_errs c + 1;
     most_recent_skey := skey |}.

(** The label [finish] and what follows it. *)
Definition finish (l : locals) (not_raw_hex : bool) (sg_fd ret : Z)
           (c : counters) : run :=
  let ev1 :=
    if not_raw_hex
    then (if 0 <? num_errs c
          then [Out "Number of command errors detected: %d" [num_errs c]]
          else [])
         ++ (if 0 <? num_din_errs c
             then [Out "Number of data-in errors detected: %d, most recent sense_key=%d"
                       [num_din_errs c; most_recent_skey c]]
             else [])
    else [] in
  let '(ev2, ret1) :=
    if 0 <=? sg_fd then
      let res := w_close w in
      if res <? 0
      then (Close sg_fd
            :: (if not_raw_hex then [Out "close error: %s" []] else []),
            if 0 =? ret then sg_convert_errno K (- res) else ret)
      else ([Close sg_fd], ret)
    else ([], ret) in
  let ev3 :=
    if not_raw_hex && (0 =? verbose l) && negb (sg_if_can2stderr K ret1)
    then [Out "Some error occurred, try again with '-v' or '-vv' for more information" []]
    else [] in
  (ev1 ++ ev2 ++ ev3, if 0 <=? ret1 then ret1 else SG_LIB_CAT_OTHER K).

Definition status_of (r : pt_reply) : status :=
  if -1 =? r_n r then CallFailed (r_os_err r)
  else if -2 =? r_n r then CheckCond (r_sense_cat r)
  else Done.

Definition zeros (n : nat) : list byte := repeat x00 n.

(** One pass of a loop up to the result of the command: [n], [rsBuff],
    what happened and the counters.  With [--error] given twice the call
    is skipped. *)
Definition request (l : locals) (cdb : list Z) (tmo sg_fd : Z) (k : nat)
           (c : counters) : Z * list byte * list event * counters :=
  if 1 <? do_error l
  then (0, zeros 256, [], add_err c)
  else
    let r := w_reply w k in
    (r_n r, r_rsBuff r,
     (if truthy (verbose l) && Nat.eqb k 0 then [Out "    cdb: %s" cdb] else [])
     ++ [Submit sg_fd (ScsiPt cdb tmo) (status_of r)],
     c).

(** The [switch (sense_cat)] both loops share: counters, [ret] and what
    is printed. *)
Definition on_sense (l : locals) (sense_cat ret : Z) (c : counters)
  : counters * Z * list event :=
  if (sense_cat =? SG_LIB_CAT_RECOVERED K)
     || (sense_cat =? SG_LIB_CAT_NO_SENSE K)
  then (c, ret, [])
  else if sense_cat =? SG_LIB_CAT_NOT_READY K
  then if 1 =? num_rs l
       then (add_err c, sense_cat, [Out "device not ready" []])
       else (add_err c, ret, [])
  else if sense_cat =? SG_LIB_CAT_UNIT_ATTENTION K
  then (add_err c, ret,
        if truthy (verbose l)
        then [Out "Ignoring Unit attention (sense key)" []] else [])
  else if 1 =? num_rs l
       then (add_err c, sense_cat, [Out "%s" [sense_cat]])
       else (add_err c, ret, []).

(** [ret] when [n] is -1. *)
Definition pt_error (r : pt_reply) : Z :=
  if truthy (r_transport_err r) then SG_LIB_TRANSPORT_ERROR K
  else sg_convert_errno K (r_os_err r).

(** The [--progress] loop (line 314) from pass [k] with [fuel] passes
    left, and the jump to [finish] after it. *)
Fixpoint progress_loop (l : locals) (not_raw_hex : bool) (cdb : list Z)
         (tmo sg_fd : Z) (fuel : nat) (k : nat) (ret : Z) (c : counters)
  : run :=
  match fuel with
  | O => finish l not_raw_hex sg_fd ret c
  | S fuel' =>
      let '(n, rsBuff, ev, c0) := request l cdb tmo sg_fd k c in
      if -1 =? n
      then before ev (finish l not_raw_hex sg_fd (pt_error (w_reply w k)) c0)
      else
        let '(c1, ret1, ev1) :=
          if -2 =? n then on_sense l (r_sense_cat (w_reply w k)) ret c0
          else (c0, ret, []) in
        let act_din_len := if 0 <=? n then n else 0 in
        if truthy ret1
        then before (ev ++ ev1) (finish l not_raw_hex sg_fd ret1 c1)
        else
          let ev2 := if 1 <? verbose l
                     then [Out "Parameter data in hex" [act_din_len]] else [] in
          let progress :=
            match sg_get_sense_progress_fld K rsBuff act_din_len with
            | Some p => p
            | None => -1
            end in
          if progress <? 0
          then before (ev ++ ev1 ++ ev2 ++
                       (if 1 <? verbose l
                        then [Out "No progress indication found, iteration %d"
                                  [Z.of_nat k + 1]]
                        else []))
                      (finish l not_raw_hex sg_fd 0 c1)
          else before (ev ++ ev1 ++ ev2 ++
                       [Out "Progress indication: %d.%02d%% done"
                            [(progress * 100) / 65536;
                             ((progress * 100) mod 65536) / 656]])
                      (progress_loop l not_raw_hex cdb tmo sg_fd fuel' (S k)
                                     ret1 c1)
  end.

(** Lines 501-511 and the timing report, then [finish]. *)
Definition after_loop (l : locals) (not_raw_hex : bool) (sg_fd : Z)
           (act_din_len ret : Z) (rsBuff : list byte) (c : counters) : run :=
  let ret1 :=
    if (0 =? ret) && do_status l then
      let r := sg_err_category_sense K rsBuff act_din_len in
      if SG_LIB_CAT_NO_SENSE K =? r then
        match sg_scsi_normalize_sense K rsBuff act_din_len with
        | Some (_, asc, ascq) =>
            if (0 =? asc) && (0 =? ascq) then 0 else r
        | None => r
        end
      else r
    else ret in
  before (if not_raw_hex && do_time l && w_start_tm w
          then [Out "time to perform commands was %d.%06d secs" []]
          else [])
         (finish l not_raw_hex sg_fd ret1 c).

(** The plain loop (line 411) from pass [k] with [fuel] passes left, and
    what follows it. *)
Fixpoint plain_loop (l : locals) (not_raw_hex : bool) (cdb : list Z)
         (tmo sg_fd : Z) (fuel : nat) (k : nat) (act_din_len ret : Z)
         (rsBuff : list byte) (c : counters) : run :=
  match fuel with
  | O => after_loop l not_raw_hex sg_fd act_din_len ret rsBuff c
  | S fuel' =>
      let '(n, rsBuff, ev, c0) := request l cdb tmo sg_fd k c in
      if -1 =? n
      then before ev (finish l not_raw_hex sg_fd (pt_error (w_reply w k)) c0)
      else
        let '(c1, ret1, ev1) :=
          if -2 =? n then on_sense l (r_sense_cat (w_reply w k)) 0 c0
          else (c0, 0, []) in
        let act_din_len := if 0 <=? n then n else 0 in
        let '(c2, ev2) :=
          if 7 <? act_din_len then
            match sg_scsi_normalize_sense K rsBuff act_din_len with
            | Some (sense_key, _, _) =>
                (if 0 <? sense_key then add_din_err sense_key c1 else c1,
                 if not_raw_hex && ((1 =? num_rs l) || truthy (verbose l))
                 then [Out "data-in decoded as sense:" []] else [])
            | None => (c1, [])
            end
          else (c1, []) in
        if truthy ret1
        then before (ev ++ ev1 ++ ev2) (finish l not_raw_hex sg_fd ret1 c2)
        else
          before (ev ++ ev1 ++ ev2 ++
                  (if 0 <? act_din_len
                   then if do_raw l then [Out "dStrRaw" [act_din_len]]
                        else if truthy (do_hex l)
                             then [Out "hex2stdout" [act_din_len; 1]]
                             else []
                   else []))
                 (plain_loop l not_raw_hex cdb tmo sg_fd fuel' (S k)
                             act_din_len ret1 rsBuff c2)
  end.

(** [main] after the option loop. *)
Definition main_body (l : locals) : run :=
  before (if verbose_given l && version_given l
          then [Out "Not in DEBUG mode, so '-vV' has no special action" []]
          else []) (
  if version_given l then ([Out "%sversion: %s" []], 0)
  else
    let maxlen := if 0 =? maxlen l then DEF_REQS_RESP_LEN else maxlen l in
    match device_name l with
    | None => (Out "Missing device name!" [] :: usage, SG_LIB_SYNTAX_ERROR K)
    | Some dev =>
        let tmo := if 0 =? tmo l then DEF_PT_TIMEOUT else tmo l in
        if do_raw l && (w_set_binary_mode w <? 0)
        then ([Out "sg_set_binary_mode" []], SG_LIB_FILE_ERROR K)
        else
          let not_raw_hex := negb (do_raw l || truthy (do_hex l)) in
          if negb not_raw_hex && (do_progress l || do_time l)
          then before [Out "With either --raw or --hex, --progress and --time contradict" []]
                      (finish l false (-1) (SG_LIB_CONTRADICT K) counters_init)
          else
            let sg_fd := w_open w in
            if sg_fd <? 0
            then before (OpenFailed dev sg_fd
                         :: (if not_raw_hex && truthy (verbose l)
                             then [Out "%sopen error: %s: %s" []] else []))
                        (finish l not_raw_hex sg_fd
                                (sg_convert_errno K (- sg_fd)) counters_init)
            else
              before [Open dev sg_fd] (
              let err := match w_construct w with
                         | Some err => err | None => 0 end in
              let bad := match w_construct w with
                         | Some err => truthy err | None => true end in
              if bad
              then before (if not_raw_hex
                           then [Out "%s: unable to construct pt object" []]
                           else [])
                          (finish l not_raw_hex sg_fd
                                  (sg_convert_errno K
                                     (if truthy err then err else ENOMEM K))
                                  counters_init)
              else
                let cdb := rs_cdb l maxlen in
                if do_progress l
                then progress_loop l not_raw_hex cdb tmo sg_fd
                                   (Z.to_nat (num_rs l)) 0 0 counters_init
                else plain_loop l not_raw_hex cdb tmo sg_fd
                                (Z.to_nat (num_rs l)) 0 0 0 (zeros 256)
                                counters_init)
    end).

Definition main (inv : invocation) : run :=
  before (rep_invocation inv) (
  match parse inv with
  | Exit code msgs => (msgs, code)
  | Parsed l => main_body l
  end).

End Program.

End SgRequests.

(** ** sg_decode_sense: the command line *)

Module SgDecodeSense.

Definition MAX_SENSE_LEN : Z := 8192.

(** [sizeof(concat_buff)]. *)
Definition CONCAT_BUFF_SZ : Z := 1024.

(** Where [no_space_str] points: nowhere, at an argument, or at the
    static [concat_buff]. *)
Inductive ns_ptr :=
| NsNull
| NsArg (avp : string)
| NsConcat.

(** [struct opts_t]; [json_st] is kept by the JSON library.  [sense] has
    [MAX_SENSE_LEN + 4] elements. *)
Record opts_t := {
  do_binary : bool;
  do_cdb : bool;
  do_help : bool;
  do_json : bool;
  do_list_err : bool;
  do_status : bool;
  no_decode : bool;
  no_space : bool;
  verbose_given : bool;
  version_given : bool;
  err_given : bool;
  file_given : bool;
  ignore_first : bool;
  fname : option string;
  es_val : Z;
  es_up_val : Z;
  hex_count : Z;
  sense_len : Z;
  sstatus : Z;
  verbose : Z;
  wfname : option string;
  json_arg : option string;
  js_file : option string;
  no_space_str : ns_ptr;
  sense : list Z
}.

Definition set_do_binary (v : bool) (op : opts_t) : opts_t :=
  let '(Build_opts_t _ f1 f2 f3 f4 f5 f6 f7 f8 f9 f10 f11 f12 f13 f14 f15
        f16 f17 f18 f19 f20 f21 f22 f23 f24) := op in
  Build_opts_t v f1 f2 f3 f4 f5 f6 f7 f8 f9 f10 f11 f12 f13 f14 f15 f16 f17
    f18 f19 f20 f21 f22 f23 f24.

Definition set_do_cdb (v : bool) (op : opts_t) : opts_t :=
  let '(Build_opts_t f0 _ f2 f3 f4 f5 f6 f7 f8 f9 f10 f11 f12 f13 f14 f15
        f16 f17 f18 f19 f20 f21 f22 f23 f24) := op in
  Build_opts_t f0 v f2 f3 f4 f5 f6 f7 f8 f9 f10 f11 f12 f13 f14 f15 f16 f17
    f18 f19 f20 f21 f22 f23 f24.

Definition set_do_help (v : bool) (op : opts_t) : opts_t :=
  let '(Build_opts_t f0 f1 _ f3 f4 f5 f6 f7 f8 f9 f10 f11 f12 f13 f14 f15
        f16 f17 f18 f19 f20 f21 f22 f23 f24) := op in
  Build_opts_t f0 f1 v f3 f4 f5 f6 f7 f8 f9 f10 f11 f12 f13 f14 f15 f16 f17
    f18 f19 f20 f21 f22 f23 f24.

Definition set_do_json (v : bool) (op : opts_t) : opts_t :=
  let '(Build_opts_t f0 f1 f2 _ f4 f5 f6 f7 f8 f9 f10 f11 f12 f13 f14 f15
        f16 f17 f18 f19 f20 f21 f22 f23 f24) := op in
  Build_opts_t f0 f1 f2 v f4 f5 f6 f7 f8 f9 f10 f11 f12 f13 f14 f15 f16 f17
    f18 f19 f20 f21 f22 f23 f24.

Definition set_do_list_err (v : bool) (op : opts_t) : opts_t :=
  let '(Build_opts_t f0 f1 f2 f3 _ f5 f6 f7 f8 f9 f10 f11 f12 f13 f14 f15
        f16 f17 f18 f19 f20 f21 f22 f23 f24) := op in
  Build_opts_t f0 f1 f2 f3 v f5 f6 f7 f8 f9 f10 f11 f12 f13 f14 f15 f16 f17
    f18 f19 f20 f21 f22 f23 f24.

Definition set_do_status (v : bool) (op : opts_t) : opts_t :=
  let '(Build_opts_t f0 f1 f2 f3 f4 _ f6 f7 f8 f9 f10 f11 f12 f13 f14 f15
        f16 f17 f18 f19 f20 f21 f22 f23 f24) := op in
  Build_opts_t f0 f1 f2 f3 f4 v f6 f7 f8 f9 f10 f11 f12 f13 f14 f15 f16 f17
    f18 f19 f20 f21 f22 f23 f24.

Definition set_no_decode (v : bool) (op : opts_t) : opts_t :=
  let '(Build_opts_t f0 f1 f2 f3 f4 f5 _ f7 f8 f9 f10 f11 f12 f13 f14 f15
        f16 f17 f18 f19 f20 f21 f22 f23 f24) := op in
  Build_opts_t f0 f1 f2 f3 f4 f5 v f7 f8 f9 f10 f11 f12 f13 f14 f15 f16 f17
    f18 f19 f20 f21 f22 f23 f24.

Definition set_no_space (v : bool) (op : opts_t) : opts_t :=
  let '(Build_opts_t f0 f1 f2 f3 f4 f5 f6 _ f8 f9 f10 f11 f12 f13 f14 f15
        f16 f17 f18 f19 f20 f21 f22 f23 f24) := op in
  Build_opts_t f0 f1 f2 f3 f4 f5 f6 v f8 f9 f10 f11 f12 f13 f14 f15 f16 f17
    f18 f19 f20 f21 f22 f23 f24.

Definition set_verbose_given (v : bool) (op : opts_t) : opts_t :=
  let '(Build_opts_t f0 f1 f2 f3 f4 f5 f6 f7 _ f9 f10 f11 f12 f13 f14 f15
        f16 f17 f18 f19 f20 f21 f22 f23 f24) := op in
  Build_opts_t f0 f1 f2 f3 f4 f5 f6 f7 v f9 f10 f11 f12 f13 f14 f15 f16 f17
    f18 f19 f20 f21 f22 f23 f24.

Definition set_version_given (v : bool) (op : opts_t) : opts_t :=
  let '(Build_opts_t f0 f1 f2 f3 f4 f5 f6 f7 f8 _ f10 f11 f12 f13 f14 f15
        f16 f17 f18 f19 f20 f21 f22 f23 f24) := op in
  Build_opts_t f0 f1 f2 f3 f4 f5 f6 f7 f8 v f10 f11 f12 f13 f14 f15 f16 f17
    f18 f19 f20 f21 f22 f23 f24.

Definition set_err_given (v : bool) (op : opts_t) : opts_t :=
  let '(Build_opts_t f0 f1 f2 f3 f4 f5 f6 f7 f8 f9 _ f11 f12 f13 f14 f15 f16
        f17 f18 f19 f20 f21 f22 f23 f24) := op in
  Build_opts_t f0 f1 f2 f3 f4 f5 f6 f7 f8 f9 v f11 f12 f13 f14 f15 f16 f17
    f18 f19 f20 f21 f22 f23 f24.

Definition set_file_given (v : bool) (op : opts_t) : opts_t :=
  let '(Build_opts_t f0 f1 f2 f3 f4 f5 f6 f7 f8 f9 f10 _ f12 f13 f14 f15 f16
        f17 f18 f19 f20 f21 f22 f23 f24) := op in
  Build_opts_t f0 f1 f2 f3 f4 f5 f6 f7 f8 f9 f10 v f12 f13 f14 f15 f16 f17
    f18 f19 f20 f21 f22 f23 f24.

Definition set_ignore_first (v : bool) (op : opts_t) : opts_t :=
  let '(Build_opts_t f0 f1 f2 f3 f4 f5 f6 f7 f8 f9 f10 f11 _ f13 f14 f15 f16
        f17 f18 f19 f20 f21 f22 f23 f24) := op in
  Build_opts_t f0 f1 f2 f3 f4 f5 f6 f7 f8 f9 f10 f11 v f13 f14 f15 f16 f17
    f18 f19 f20 f21 f22 f23 f24.

Definition set_fname (v : option string) (op : opts_t) : opts_t :=
  let '(Build_opts_t f0 f1 f2 f3 f4 f5 f6 f7 f8 f9 f10 f11 f12 _ f14 f15 f16
        f17 f18 f19 f20 f21 f22 f23 f24) := op in
  Build_opts_t f0 f1 f2 f3 f4 f5 f6 f7 f8 f9 f10 f11 f12 v f14 f15 f16 f17
    f18 f19 f20 f21 f22 f23 f24.

Definition set_es_val (v : Z) (op : opts_t) : opts_t :=
  let '(Build_opts_t f0 f1 f2 f3 f4 f5 f6 f7 f8 f9 f10 f11 f12 f13 _ f15 f16
        f17 f18 f19 f20 f21 f22 f23 f24) := op in
  Build_opts_t f0 f1 f2 f3 f4 f5 f6 f7 f8 f9 f10 f11 f12 f13 v f15 f16 f17
    f18 f19 f20 f21 f22 f23 f24.

Definition set_es_up_val (v : Z) (op : opts_t) : opts_t :=
  let '(Build_opts_t f0 f1 f2 f3 f4 f5 f6 f7 f8 f9 f10 f11 f12 f13 f14 _ f16
        f17 f18 f19 f20 f21 f22 f23 f24) := op in
  Build_opts_t f0 f1 f2 f3 f4 f5 f6 f7 f8 f9 f10 f11 f12 f13 f14 v f16 f17
    f18 f19 f20 f21 f22 f23 f24.

Definition set_hex_count (v : Z) (op : opts_t) : opts_t :=
  let '(Build_opts_t f0 f1 f2 f3 f4 f5 f6 f7 f8 f9 f10 f11 f12 f13 f14 f15 _
        f17 f18 f19 f20 f21 f22 f23 f24) := op in
  Build_opts_t f0 f1 f2 f3 f4 f5 f6 f7 f8 f9 f10 f11 f12 f13 f14 f15 v f17
    f18 f19 f20 f21 f22 f23 f24.

Definition set_sense_len (v : Z) (op : opts_t) : opts_t :=
  let '(Build_opts_t f0 f1 f2 f3 f4 f5 f6 f7 f8 f9 f10 f11 f12 f13 f14 f15
        f16 _ f18 f19 f20 f21 f22 f23 f24) := op in
  Build_opts_t f0 f1 f2 f3 f4 f5 f6 f7 f8 f9 f10 f11 f12 f13 f14 f15 f16 v
    f18 f19 f20 f21 f22 f23 f24.

Definition set_sstatus (v : Z) (op : opts_t) : opts_t :=
  let '(Build_opts_t f0 f1 f2 f3 f4 f5 f6 f7 f8 f9 f10 f11 f12 f13 f14 f15
        f16 f17 _ f19 f20 f21 f22 f23 f24) := op in
  Build_opts_t f0 f1 f2 f3 f4 f5 f6 f7 f8 f9 f10 f11 f12 f13 f14 f15 f16 f17
    v f19 f20 f21 f22 f23 f24.

Definition set_verbose (v : Z) (op : opts_t) : opts_t :=
  let '(Build_opts_t f0 f1 f2 f3 f4 f5 f6 f7 f8 f9 f10 f11 f12 f13 f14 f15
        f16 f17 f18 _ f20 f21 f22 f23 f24) := op in
  Build_opts_t f0 f1 f2 f3 f4 f5 f6 f7 f8 f9 f10 f11 f12 f13 f14 f15 f16 f17
    f18 v f20 f21 f22 f23 f24.

Definition set_wfname (v : option string) (op : opts_t) : opts_t :=
  let '(Build_opts_t f0 f1 f2 f3 f4 f5 f6 f7 f8 f9 f10 f11 f12 f13 f14 f15
        f16 f17 f18 f19 _ f21 f22 f23 f24) := op in
  Build_opts_t f0 f1 f2 f3 f4 f5 f6 f7 f8 f9 f10 f11 f12 f13 f14 f15 f16 f17
    f18 f19 v f21 f22 f23 f24.

Definition set_json_arg (v : option string) (op : opts_t) : opts_t :=
  let '(Build_opts_t f0 f1 f2 f3 f4 f5 f6 f7 f8 f9 f10 f11 f12 f13 f14 f15
        f16 f17 f18 f19 f20 _ f22 f23 f24) := op in
  Build_opts_t f0 f1 f2 f3 f4 f5 f6 f7 f8 f9 f10 f11 f12 f13 f14 f15 f16 f17
    f18 f19 f20 v f22 f23 f24.

Definition set_js_file (v : option string) (op : opts_t) : opts_t :=
  let '(Build_opts_t f0 f1 f2 f3 f4 f5 f6 f7 f8 f9 f10 f11 f12 f13 f14 f15
        f16 f17 f18 f19 f20 f21 _ f23 f24) := op in
  Build_opts_t f0 f1 f2 f3 f4 f5 f6 f7 f8 f9 f10 f11 f12 f13 f14 f15 f16 f17
    f18 f19 f20 f21 v f23 f24.

Definition set_no_space_str (v : ns_ptr) (op : opts_t) : opts_t :=
  let '(Build_opts_t f0 f1 f2 f3 f4 f5 f6 f7 f8 f9 f10 f11 f12 f13 f14 f15
        f16 f17 f18 f19 f20 f21 f22 _ f24) := op in
  Build_opts_t f0 f1 f2 f3 f4 f5 f6 f7 f8 f9 f10 f11 f12 f13 f14 f15 f16 f17
    f18 f19 f20 f21 f22 v f24.

Definition set_sense (v : list Z) (op : opts_t) : opts_t :=
  let '(Build_opts_t f0 f1 f2 f3 f4 f5 f6 f7 f8 f9 f10 f11 f12 f13 f14 f15
        f16 f17 f18 f19 f20 f21 f22 f23 _) := op in
  Build_opts_t f0 f1 f2 f3 f4 f5 f6 f7 f8 f9 f10 f11 f12 f13 f14 f15 f16 f17
    f18 f19 f20 f21 f22 f23 v.

(** The structure as sg_memalign returns it, zeroed. *)
Definition opts_zero : opts_t :=
  Build_opts_t false false false false false false false false false false
               false false false None 0 0 0 0 0 0 None None None NsNull
               (repeat 0 (Z.to_nat (MAX_SENSE_LEN + 4))).

Record getopt_ev := { g_c : ascii; g_optarg : option string }.

Record invocation := {
  argv : list string;             (* argv[1 .. argc-1] *)
  getopt_opts : list getopt_ev;   (* the calls of getopt_long before -1 *)
  getopt_rest : list string;      (* argv[optind .. argc-1] after them *)
  SG3_UTILS_INVOCATION : bool     (* getenv finds it *)
}.

(** How parse_cmd_line ends: it returns [code] with the options and
    [concat_buff] as they then are, or it has written outside an array. *)
Inductive outcome :=
| Returned (code : Z) (op : opts_t) (concat_buff : string)
| Overrun (array : string) (index : Z).

(** [a[i] = v] on an array of fixed size; [None] outside it. *)
Fixpoint store (a : list Z) (i : nat) (v : Z) : option (list Z) :=
  match a, i with
  | [], _ => None
  | _ :: tl, O => Some (v :: tl)
  | x :: tl, S i' =>
      match store tl i' v with
      | Some tl' => Some (x :: tl')
      | None => None
      end
  end.

Section Program.

Variable K : sg_lib_h.

Definition ch_is (c : ascii) (lit : ascii) : bool := Ascii.eqb c lit.

Inductive parse_step :=
| Next (op : opts_t)
| Return (code : Z) (op : opts_t).

Definition chk_short_opts (sopt_ch : ascii) (op : opts_t) : Z * opts_t :=
  if ch_is sopt_ch "c" then (0, set_do_cdb true op)
  else if ch_is sopt_ch "h" || ch_is sopt_ch "?"
  then (0, set_do_help true op)
  else if ch_is sopt_ch "H" then (0, set_hex_count (hex_count op + 1) op)
  else if ch_is sopt_ch "I" then (0, set_ignore_first true op)
  else if ch_is sopt_ch "j" then (0, op)
  else if ch_is sopt_ch "l" then (0, set_do_list_err true op)
  else if ch_is sopt_ch "n" then (0, set_no_space true op)
  else if ch_is sopt_ch "N" then (0, set_no_decode true op)
  else if ch_is sopt_ch "v"
  then (0, set_verbose (verbose op + 1) (set_verbose_given true op))
  else if ch_is sopt_ch "V" then (0, set_version_given true op)
  else (SG_LIB_SYNTAX_ERROR K, op).

Fixpoint chk_short_loop (cs : list ascii) (op : opts_t) : parse_step :=
  match cs with
  | [] => Next op
  | ch :: tl =>
      let '(q, op1) := chk_short_opts ch op in
      if SG_LIB_SYNTAX_ERROR K =? q then Return (SG_LIB_SYNTAX_ERROR K) op1
      else if SG_LIB_OK_FALSE K =? q then Return 0 op1
      else chk_short_loop tl op1
  end.

(** [strchr(optarg, ',')], one past the comma. *)
Fixpoint after_comma (s : string) : option string :=
  match s with
  | EmptyString => None
  | String c tl => if ch_is c "," then Some tl else after_comma tl
  end.

(** [sscanf(optarg, "%x", &ui)]: [Some ui] when it returns 1.  The
    number is read as an [unsigned long], as strtoul reads it, and its
    low 32 bits are stored in [ui]. *)
Definition sscanf_x (s : string) : option Z :=
  match Libc.hex_subject (chars s) with
  | None => None
  | Some (neg, v, _) =>
      Some (wrap 32 (if Libc.ULLONG_MAX <? v then Libc.ULLONG_MAX
                     else if neg then wrap 64 (- v) else v))
  end.

Definition one_file (optarg : option string) (binary : bool) (op : opts_t)
  : parse_step :=
  match fname op with
  | Some _ => Return (SG_LIB_CONTRADICT K) op
  | None =>
      Next (set_fname optarg
              (if binary then set_do_binary true op
               else set_file_given true op))
  end.

(** The body of the [switch] of the option loop. *)
Definition opt (g : getopt_ev) (op : opts_t) : parse_step :=
  let c := g_c g in
  let optarg := g_optarg g in
  let arg := match optarg with Some a => a | None => EmptyString end in
  if ch_is c "b" then one_file optarg true op
  else if ch_is c "c" then Next (set_do_cdb true op)
  else if ch_is c "e" then
    let ccp := after_comma arg in
    let n := sg_get_num_nomult K arg in
    if (n <? 0) || (255 <? n) then Return (SG_LIB_SYNTAX_ERROR K) op
    else
      let op1 := set_es_val n (set_err_given true op) in
      match ccp with
      | Some up =>
          let n := sg_get_num_nomult K up in
          if (n <? 1) || (255 <? n) then Return (SG_LIB_SYNTAX_ERROR K) op1
          else Next (set_es_up_val n op1)
      | None => Next op1
      end
  else if ch_is c "f" then one_file optarg false op
  else if ch_is c "h" || ch_is c "?" then Return 0 (set_do_help true op)
  else if ch_is c "H" then Next (set_hex_count (hex_count op + 1) op)
  else if ch_is c "i" then one_file optarg false op
  else if ch_is c "I" then Next (set_ignore_first true op)
  else if ch_is c "j" || ch_is c "^" then
    let op1 := set_do_json true op in
    match optarg with
    | Some a =>
        if ch_is "^" c then Next (set_json_arg (Some a) op1)
        else match a with
             | String "=" rest => Next (set_json_arg (Some rest) op1)
             | _ => chk_short_loop (chars a) op1
             end
    | None => Next (set_json_arg None op1)
    end
  else if ch_is c "J" then Next (set_js_file optarg (set_do_json true op))
  else if ch_is c "l" then Next (set_do_list_err true op)
  else if ch_is c "n" then Next (set_no_space true op)
  else if ch_is c "N" then Next (set_no_decode true op)
  else if ch_is c "s" then
    match sscanf_x arg with
    | None => Return (SG_LIB_SYNTAX_ERROR K) op
    | Some ui =>
        if 0xff <? ui then Return (SG_LIB_SYNTAX_ERROR K) op
        else Next (set_sstatus ui (set_do_status true op))
    end
  else if ch_is c "v"
  then Next (set_verbose (verbose op + 1) (set_verbose_given true op))
  else if ch_is c "V" then Next (set_version_given true op)
  else if ch_is c "w" then Next (set_wfname optarg op)
  else Return (SG_LIB_SYNTAX_ERROR K) op.

Fixpoint options (gs : list getopt_ev) (op : opts_t) : parse_step :=
  match gs with
  | [] => Next op
  | g :: tl =>
      match opt g op with
      | Next op1 => options tl op1
      | Return c op1 => Return c op1
      end
  end.

Definition strlen (s : string) : Z := Z.of_nat (String.length s).

(** The test of line 386 on one argument, negated: strtol consumed all of
    a non-empty [avp] and the value is a byte. *)
Definition byte_token (avp : string) : bool :=
  let '(val, endptr) := Libc.strtol16 (chars avp) in
  negb (String.eqb avp EmptyString)
  && match endptr with [] => true | _ :: _ => false end
  && negb (val <? 0x00) && negb (0xff <? val).

Definition token_value (avp : string) : Z := fst (Libc.strtol16 (chars avp)).

(** The [--nospace] branch of the loop, lines 362-383. *)
Definition no_space_arg (avp : string) (op : opts_t) (concat_buff : string)
  : outcome + opts_t * string :=
  match no_space_str op with
  | NsNull => inr (set_no_space_str (NsArg avp) op, concat_buff)
  | p =>
      let s := match p with NsArg a => a | _ => concat_buff end in
      let first :=
        if String.eqb concat_buff EmptyString
        then if CONCAT_BUFF_SZ <? strlen s
             then inl (Returned (SG_LIB_SYNTAX_ERROR K) op concat_buff)
             else if CONCAT_BUFF_SZ <=? strlen s
                  then inl (Overrun "concat_buff" (strlen s))
                  else inr s
        else inr concat_buff in
      match first with
      | inl o => inl o
      | inr cb =>
          if CONCAT_BUFF_SZ <=? strlen cb + strlen avp
          then inl (Returned (SG_LIB_SYNTAX_ERROR K) op cb)
          else inr (set_no_space_str NsConcat op, (cb ++ avp)%string)
      end
  end.

(** The loop over the arguments left after the options, lines 360-396. *)
Fixpoint sense_args (avs : list string) (op : opts_t) (concat_buff : string)
  : outcome :=
  match avs with
  | [] => Returned 0 op concat_buff
  | avp :: tl =>
      if no_space op then
        match no_space_arg avp op concat_buff with
        | inl o => o
        | inr (op1, cb) => sense_args tl op1 cb
        end
      else if negb (byte_token avp)
      then Returned (SG_LIB_SYNTAX_ERROR K) op concat_buff
      else if MAX_SENSE_LEN <? sense_len op
      then Returned (SG_LIB_SYNTAX_ERROR K) op concat_buff
      else
        if sense_len op <? 0 then Overrun "sense" (sense_len op)
        else
          match store (sense op) (Z.to_nat (sense_len op))
                      (wrap 8 (token_value avp)) with
          | None => Overrun "sense" (sense_len op)
          | Some a =>
              sense_args tl (set_sense_len (sense_len op + 1) (set_sense a op))
                         concat_buff
          end
  end.

Definition parse_cmd_line (inv : invocation) : outcome :=
  match options (getopt_opts inv) opts_zero with
  | Return code op => Returned code op EmptyString
  | Next op =>
      if err_given op then Returned 0 op EmptyString
      else sense_args (getopt_rest inv) op EmptyString
  end.

End Program.

End SgDecodeSense.

(** ** What reaches the device

    The part of a trace that touches a device, and, for each utility, a
    closed form of it that the properties below are read from. *)

Definition io (tr : list event) : list event := filter touches_device tr.

Definition closing (fd : Z) : list event :=
  if 0 <=? fd then [Close fd] else [].

Section ReadcapSummary.

Variable K : sg_lib_h.
Variable w : SgReadcap.world.

Definition rc16 (op : SgReadcap.opts_t) (fd : Z) : event :=
  Submit fd (Readcap16 (SgReadcap.do_pmi op) (SgReadcap.llba op))
         (SgReadcap.status_of (fst (SgReadcap.w_readcap_16 w))).

Definition rc10 (op : SgReadcap.opts_t) (fd : Z) : event :=
  Submit fd (Readcap10 (SgReadcap.do_pmi op) (wrap 32 (SgReadcap.llba op)))
         (SgReadcap.status_of (fst (SgReadcap.w_readcap_10 w))).

(** What sg_readcap does to the device once it is open (or, with
    [--inhex], not opened: [fd] negative), when it starts with READ
    CAPACITY (10). *)
Definition short_block_io (op : SgReadcap.opts_t) (fd : Z) : list event :=
  let r := fst (SgReadcap.w_readcap_10 w) in
  let again := SgReadcap.set_do_long true op in
  if 0 <=? fd then
    rc10 op fd ::
    (if 0 =? r then
       if (truthy (SgReadcap.do_hex op) || SgReadcap.do_raw op)
          || negb (0xffffffff =?
                   SgReadcap.last_blk_addr
                     (SgReadcap.decode_rcap10 (snd (SgReadcap.w_readcap_10 w))))
       then [Close fd]
       else [rc16 again fd; Close fd]
     else if SG_LIB_CAT_INVALID_OP K =? r then
       Close fd ::
       (if SgReadcap.w_reopen w <? 0
        then [OpenFailed (SgReadcap.name_of (SgReadcap.device_name op))
                         (SgReadcap.w_reopen w)]
        else [Open (SgReadcap.name_of (SgReadcap.device_name op))
                   (SgReadcap.w_reopen w);
              rc16 again (SgReadcap.w_reopen w);
              Close (SgReadcap.w_reopen w)])
     else (if SgReadcap.do_long op then [rc16 op fd] else []) ++ [Close fd])
  else [].

(** The commands after the device is open. *)
Definition commands_io (op : SgReadcap.opts_t) (fd : Z) : list event :=
  if negb (SgReadcap.do_long op) then short_block_io op fd
  else (if 0 <=? fd then [rc16 op fd] else []) ++ closing fd.

(** The whole of [main] after the options. *)
Definition main_body_io (op : SgReadcap.opts_t) : list event :=
  if truthy (SgReadcap.do_help op) then []
  else if SgReadcap.version_given op then []
  else if SgReadcap.do_json op && negb (SgReadcap.w_sgj_init_state w) then []
  else if match SgReadcap.inhex_fn op, SgReadcap.device_name op with
          | None, None => true
          | _, _ => false
          end
  then []
  else
    let op := match SgReadcap.inhex_fn op with
              | Some _ => SgReadcap.set_device_name None op
              | None => op
              end in
    if SgReadcap.do_raw op && (SgReadcap.w_set_binary_mode w <? 0) then []
    else
      let op := if SgReadcap.do_zbc op
                then SgReadcap.set_do_long true op else op in
      if negb (SgReadcap.do_pmi op) && (0 <? SgReadcap.llba op) then []
      else if negb (SgReadcap.w_memalign w) then []
      else
        match SgReadcap.inhex_fn op with
        | Some _ => []
        | None =>
            if SgReadcap.w_open w <? 0
            then [OpenFailed (SgReadcap.name_of (SgReadcap.device_name op))
                             (SgReadcap.w_open w)]
            else Open (SgReadcap.name_of (SgReadcap.device_name op))
                      (SgReadcap.w_open w)
                 :: commands_io op (SgReadcap.w_open w)
        end.

End ReadcapSummary.

(** What a parser of sg_readcap printed. *)
Definition msgs_of (p : SgReadcap.parse_step) : list event :=
  match p with
  | SgReadcap.Next _ m => m
  | SgReadcap.Return _ _ m => m
  end.

Section Simple1Summary.

Variable E : SgSimple1.sg_err_h.
Variable w : SgSimple1.world.

Definition inquiry (fd : Z) : event :=
  Submit fd (SgIo SgSimple1.inqCmdBlk 20000)
         (SgSimple1.status_of E (SgSimple1.w_inquiry w)).

Definition test_unit_ready (fd : Z) : event :=
  Submit fd (SgIo SgSimple1.turCmdBlk 20000)
         (SgSimple1.status_of E (SgSimple1.w_test_unit_ready w)).

(** What sg_simple1 does to the device named [file_name]. *)
Definition simple1_io (file_name : option string) : list event :=
  match file_name with
  | None => []
  | Some file_name =>
      let fd := SgSimple1.w_open w in
      if fd <? 0 then [OpenFailed file_name fd]
      else
        Open file_name fd :: Ioctl fd "SG_GET_VERSION_NUM" ::
        (if (fst (SgSimple1.w_version w) <? 0)
            || (snd (SgSimple1.w_version w) <? 30000)
         then [Close fd]
         else
           inquiry fd ::
           (if SgSimple1.io_ret (SgSimple1.w_inquiry w) <? 0
            then [Close fd]
            else [test_unit_ready fd; Close fd]))
  end.

End Simple1Summary.

(** A run of commands [cmd] on [fd], each with its status, none after one
    whose call failed, and then the close. *)
Definition session (fd : Z) (cmd : command) (l : list event) : Prop :=
  exists sts,
    l = map (fun st => Submit fd cmd st) sts ++ [Close fd]
    /\ submits_after call_failed (map (fun st => (cmd, st)) sts) = false.

Section RequestsSummary.

Variable K : sg_lib_h.
Variable w : SgRequests.world.

(** What one pass sends. *)
Definition pass_io (l : SgRequests.locals) (cdb : list Z) (tmo fd : Z)
           (k : nat) : list event :=
  if 1 <? SgRequests.do_error l then []
  else [Submit fd (ScsiPt cdb tmo)
               (SgRequests.status_of (SgRequests.w_reply w k))].

(** The allocation length and the timeout the loops use: lines 261-262 and
    268-269. *)
Definition maxlen_used (l : SgRequests.locals) : Z :=
  if 0 =? SgRequests.maxlen l then SgRequests.DEF_REQS_RESP_LEN
  else SgRequests.maxlen l.

Definition tmo_used (l : SgRequests.locals) : Z :=
  if 0 =? SgRequests.tmo l then SgRequests.DEF_PT_TIMEOUT
  else SgRequests.tmo l.

Definition request_sense (l : SgRequests.locals) : command :=
  ScsiPt (SgRequests.rs_cdb l (maxlen_used l)) (tmo_used l).

(** What [main] does to the device after the options: nothing, a failed
    open, or an open followed by a session of REQUEST SENSE commands. *)
Definition requests_shape (l : SgRequests.locals) (tr : list event) : Prop :=
  tr = []
  \/ (exists dev, tr = [OpenFailed dev (SgRequests.w_open w)])
  \/ (exists dev tl,
        tr = Open dev (SgRequests.w_open w) :: tl
        /\ session (SgRequests.w_open w) (request_sense l) tl).

(** The number an option argument stands for, [d] without the option. *)
Definition num_or (d : Z) (a : option string) : Z :=
  match a with Some s => sg_get_num K s | None => d end.

End RequestsSummary.

(** The command line of sg_requests as the usage message reads it: is
    option [c] given, and the argument of its last occurrence. *)
Definition given (c : ascii) (gs : list SgRequests.getopt_ev) : bool :=
  existsb (fun g => SgRequests.ch_is (SgRequests.g_c g) c) gs.

Fixpoint last_arg (c : ascii) (gs : list SgRequests.getopt_ev)
  : option string :=
  match gs with
  | [] => None
  | g :: tl =>
      match last_arg c tl with
      | Some a => Some a
      | None =>
          if SgRequests.ch_is (SgRequests.g_c g) c
          then Some (SgRequests.g_optarg g) else None
      end
  end.


(** [sizeof(op->sense)]. *)
Definition SENSE_SZ : nat := Z.to_nat (SgDecodeSense.MAX_SENSE_LEN + 4).

(** The option loop leaves [sense] and [sense_len] alone. *)
Definition same_sense (op op' : SgDecodeSense.opts_t) : Prop :=
  SgDecodeSense.sense op' = SgDecodeSense.sense op
  /\ SgDecodeSense.sense_len op' = SgDecodeSense.sense_len op.

(** The options a step of the option loop leaves. *)
Definition step_op (p : SgDecodeSense.parse_step) : SgDecodeSense.opts_t :=
  match p with
  | SgDecodeSense.Next op => op
  | SgDecodeSense.Return _ op => op
  end.

(** ** Sample inputs

    Concrete values on which the properties below are exercised: the
    exit-status values of sg_lib.h as sg3_utils ships them, a device that
    answers, and a few command lines. *)

Module Samples.

Definition sg0 : string := "/dev/sg0".
Definition five : string := "5".
Definition lba_5 : string := "--lba=5".

Definition K : sg_lib_h :=
  {| SG_LIB_SYNTAX_ERROR := 1;
     SG_LIB_CAT_NOT_READY := 2;
     SG_LIB_CAT_ILLEGAL_REQ := 5;
     SG_LIB_CAT_UNIT_ATTENTION := 6;
     SG_LIB_CAT_INVALID_OP := 9;
     SG_LIB_FILE_ERROR := 15;
     SG_LIB_CAT_NO_SENSE := 20;
     SG_LIB_CAT_RECOVERED := 21;
     SG_LIB_LBA_OUT_OF_RANGE := 22;
     SG_LIB_CONTRADICT := 31;
     SG_LIB_TRANSPORT_ERROR := 35;
     SG_LIB_OK_FALSE := 36;
     SG_LIB_CAT_OTHER := 99;
     ENOMEM := 12;
     sg_convert_errno := fun e => if e <=? 0 then e else 50 + e;
     sg_if_can2stderr := fun _ => true;
     sg_get_llnum := fun s =>
       if String.eqb s "5" then 5
       else if String.eqb s "4294967295" then 4294967295
       else -1;
     sg_get_num := fun s =>
       if String.eqb s "5" then 5
       else if String.eqb s "3" then 3
       else if String.eqb s "18" then 18
       else -1;
     sg_get_num_nomult := fun _ => -1;
     sg_get_sense_progress_fld := fun _ _ => None;
     sg_scsi_normalize_sense := fun _ _ => None;
     sg_err_category_sense := fun _ _ => 0 |}.

Definition E : SgSimple1.sg_err_h :=
  {| SgSimple1.SG_ERR_CAT_CLEAN := 0; SgSimple1.SG_ERR_CAT_RECOVERED := 4 |}.

(** A 512-byte-block disk of 66052 blocks. *)
Definition rcap10_resp : list byte :=
  [x00; x01; x02; x03; x00; x00; x02; x00].

Definition rcap16_resp : list byte :=
  [x00; x00; x00; x00; x00; x01; x02; x03;
   x00; x00; x02; x00; x13; x23; xc1; x05;
   x00; x00; x00; x00; x00; x00; x00; x00;
   x00; x00; x00; x00; x00; x00; x00; x00].

(** sg_readcap: a device that answers both commands. *)
Definition readcap_ok : SgReadcap.world :=
  {| SgReadcap.w_sgj_init_state := true;
     SgReadcap.w_pr_as_json := false;
     SgReadcap.w_set_binary_mode := 0;
     SgReadcap.w_memalign := true;
     SgReadcap.w_f2hex_arr := (0, 0, []);
     SgReadcap.w_open := 3;
     SgReadcap.w_reopen := 4;
     SgReadcap.w_readcap_10 := (0, rcap10_resp);
     SgReadcap.w_readcap_16 := (0, rcap16_resp);
     SgReadcap.w_close := 0;
     SgReadcap.w_js_fopen := true |}.

(** sg_readcap: a device that rejects the opcode of READ CAPACITY (10). *)
Definition readcap_invalid_op : SgReadcap.world :=
  {| SgReadcap.w_sgj_init_state := true;
     SgReadcap.w_pr_as_json := false;
     SgReadcap.w_set_binary_mode := 0;
     SgReadcap.w_memalign := true;
     SgReadcap.w_f2hex_arr := (0, 0, []);
     SgReadcap.w_open := 3;
     SgReadcap.w_reopen := 4;
     SgReadcap.w_readcap_10 := (9, []);
     SgReadcap.w_readcap_16 := (0, rcap16_resp);
     SgReadcap.w_close := 0;
     SgReadcap.w_js_fopen := true |}.

Definition readcap_opt (c : ascii) (a : option string) : SgReadcap.getopt_ev :=
  {| SgReadcap.g_c := c; SgReadcap.g_optarg := a |}.

(** [sg_readcap /dev/sg0] *)
Definition readcap_dev : SgReadcap.invocation :=
  {| SgReadcap.argv := [sg0];
     SgReadcap.getopt_opts := [];
     SgReadcap.getopt_rest := [sg0];
     SgReadcap.SG3_UTILS_OLD_OPTS := false;
     SgReadcap.SG3_UTILS_INVOCATION := false |}.

(** [sg_readcap --lba=5 /dev/sg0] *)
Definition readcap_lba_dev : SgReadcap.invocation :=
  {| SgReadcap.argv := [lba_5; sg0];
     SgReadcap.getopt_opts := [readcap_opt "L" (Some five)];
     SgReadcap.getopt_rest := [sg0];
     SgReadcap.SG3_UTILS_OLD_OPTS := false;
     SgReadcap.SG3_UTILS_INVOCATION := false |}.

(** [sg_readcap --lba=5] *)
Definition readcap_lba_only : SgReadcap.invocation :=
  {| SgReadcap.argv := [lba_5];
     SgReadcap.getopt_opts := [readcap_opt "L" (Some five)];
     SgReadcap.getopt_rest := [];
     SgReadcap.SG3_UTILS_OLD_OPTS := false;
     SgReadcap.SG3_UTILS_INVOCATION := false |}.

Definition io_clean : SgSimple1.sg_io_reply :=
  {| SgSimple1.io_ret := 0; SgSimple1.io_category := 0;
     SgSimple1.io_duration := 1; SgSimple1.io_resid := 0;
     SgSimple1.io_msg_status := 0 |}.


(** An SG_IO on which ioctl returns -1. *)
Definition io_error : SgSimple1.sg_io_reply :=
  {| SgSimple1.io_ret := -1; SgSimple1.io_category := 0;
     SgSimple1.io_duration := 0; SgSimple1.io_resid := 0;
     SgSimple1.io_msg_status := 0 |}.

Definition simple1_world (inq tur : SgSimple1.sg_io_reply) : SgSimple1.world :=
  {| SgSimple1.w_open := 3;
     SgSimple1.w_version := (0, 30536);
     SgSimple1.w_inquiry := inq;
     SgSimple1.w_inqBuff := [];
     SgSimple1.w_test_unit_ready := tur |}.

Definition pt_reply (n cat : Z) : SgRequests.pt_reply :=
  {| SgRequests.r_n := n; SgRequests.r_sense_cat := cat;
     SgRequests.r_transport_err := 0; SgRequests.r_os_err := 5;
     SgRequests.r_rsBuff := [] |}.

(** sg_requests: every REQUEST SENSE comes back as [r]. *)
Definition requests_world (r : SgRequests.pt_reply) : SgRequests.world :=
  {| SgRequests.w_set_binary_mode := 0;
     SgRequests.w_open := 3;
     SgRequests.w_construct := Some 0;
     SgRequests.w_reply := fun _ => r;
     SgRequests.w_start_tm := true;
     SgRequests.w_close := 0 |}.

Definition requests_opt (c : ascii) (a : string) : SgRequests.getopt_ev :=
  {| SgRequests.g_c := c; SgRequests.g_optarg := a |}.

(** [sg_requests /dev/sg0] *)
Definition requests_dev : SgRequests.invocation :=
  {| SgRequests.argv := [sg0];
     SgRequests.getopt_opts := [];
     SgRequests.getopt_rest := [sg0];
     SgRequests.SG3_UTILS_INVOCATION := false |}.

(** [sg_requests --desc --maxlen=18 --num=3 --timeout=5 /dev/sg0] *)
Definition requests_many : SgRequests.invocation :=
  {| SgRequests.argv :=
       ["--desc"; "--maxlen=18"; "--num=3"; "--timeout=5"; sg0]%string;
     SgRequests.getopt_opts :=
       [requests_opt "d" ""; requests_opt "m" "18"; requests_opt "n" "3";
        requests_opt "T" "5"];
     SgRequests.getopt_rest := [sg0];
     SgRequests.SG3_UTILS_INVOCATION := false |}.


Definition decode_bad_byte : SgDecodeSense.invocation :=
  {| SgDecodeSense.argv := ["70"; "1ff"]%string;
     SgDecodeSense.getopt_opts := [];
     SgDecodeSense.getopt_rest := ["70"; "1ff"]%string;
     SgDecodeSense.SG3_UTILS_INVOCATION := false |}.






End Samples.

(** ** sg_decode_sense: [main] and what it calls

    What parse_cmd_line wrote to stderr is not part of the trace; the
    calls of the JSON and decoding library are logged by name. *)

Module SgDecodeSenseMain.

Inductive stream := Stdout | Stderr.

Inductive action :=
| Printf (to : stream) (fmt : string) (ints : list Z) (strs : list string)
| Call (fn : string) (ints : list Z)      (* a library call that prints *)
| RepInvocation (argv : list string)      (* sg_rep_invocation, on stderr *)
| Fopen (name : string) (mode : string) (ok : bool)
| Fread (s : Z)                           (* fread into op->sense returned s *)
| FwriteText (data : list ascii) (s : Z)  (* fwrite of characters returned s *)
| FwriteBytes (data : list Z) (s : Z)     (* fwrite of op->sense returned s *)
| Fclose.

(** How [main] ends: it returns [code], or it has written outside an
    array. *)
Inductive result :=
| Exit (tr : list action) (code : Z)
| Fault (tr : list action) (array : string) (index : Z).

Definition actions (r : result) : list action :=
  match r with Exit tr _ => tr | Fault tr _ _ => tr end.

Definition first (pre : list action) (r : result) : result :=
  match r with
  | Exit tr code => Exit (pre ++ tr) code
  | Fault tr a i => Fault (pre ++ tr) a i
  end.

(** The answers of the outside to one run. *)
Record world := {
  w_memalign : bool;                  (* sg_memalign returns the structure *)
  w_sg_exit2str : Z -> bool -> option string;  (* the text, when it returns true *)
  w_sgj_init_state : bool;
  w_first_bad_char : Z;               (* jsp->first_bad_char after a failure *)
  w_pr_as_json : bool;                (* jsp->pr_as_json after sgj_init_state *)
  w_pr_out_hr : bool;                 (* jsp->pr_out_hr *)
  w_binary_file : option (list Z);    (* fopen(fname, "r"): the bytes of the
                                         file, [None] when it returns NULL *)
  w_errno : Z;                        (* errno after a failed fopen *)
  w_f2hex_arr : Z * list Z;           (* sg_f2hex_arr: result and bytes decoded *)
  w_fopen_w : bool;                   (* fopen(wfname, "w") succeeds *)
  w_fwrite : nat -> Z -> Z;           (* the i-th fwrite, asked for that many bytes *)
  w_js_fopen : bool;                  (* fopen(js_file, "w") succeeds *)
  sg_get_unaligned_be16 : Z -> Z -> Z (* of sg_unaligned.h, on two bytes *)
}.

Definition version_str : string := "1.43 20230517".

Definition usage : list action :=
  [Printf Stderr "Usage: sg_decode_sense [--binary=BFN] [--cdb] ..." [] []].

(** Lines 478-479: the command line is reported on stderr when the
    environment asks for it. *)
Definition rep_invocation (inv : SgDecodeSense.invocation) : list action :=
  if SgDecodeSense.SG3_UTILS_INVOCATION inv
  then [RepInvocation (SgDecodeSense.argv inv)] else [].

(** An element of [op->sense], a [uint8_t]. *)
Definition sense_at (sense : list Z) (k : nat) : Z := wrap 8 (nth k sense 0).

(** [isxdigit] and the value of a digit come from [Libc]; here the digit
    that [%x] prints for a value below 16. *)
Definition hex_char (d : Z) : ascii :=
  if d <? 10 then ascii_of_nat (Z.to_nat (48 + d))
  else ascii_of_nat (Z.to_nat (87 + d)).

(** [sprintf(b + n, "0x%02x,", v)] for a [uint8_t] v, without the
    terminating NUL. *)
Definition sprintf_0x02x (v : Z) : list ascii :=
  ["0"; "x"; hex_char (v / 16); hex_char (v mod 16); ","]%char.

Definition newline : ascii := ascii_of_nat 10.

(** [sizeof(b)] in write2wfn. *)
Definition WFN_B_SZ : Z := 128.

Section Program.

Variable K : sg_lib_h.
Variable w : world.

(** Odd values of [verbose] print to stderr, even ones to stdout. *)
Definition out_of (verbose : Z) : stream :=
  if truthy (Z.land 1 verbose) then Stderr else Stdout.

(** The [for] of enumerate_err_codes from [k], with [fuel] codes left. *)
Fixpoint err_lines (fuel : nat) (k verbose : Z) : list action :=
  match fuel with
  | O => []
  | S fuel' =>
      match w_sg_exit2str w k (1 <? verbose) with
      | Some b => [Printf (out_of verbose) "%d: %s" [k] [b]]
      | None => []
      end ++ err_lines fuel' (k + 1) verbose
  end.

Definition enumerate_err_codes (op : SgDecodeSense.opts_t) : list action :=
  let verbose := SgDecodeSense.verbose op in
  if SgDecodeSense.err_given op && negb (SgDecodeSense.do_list_err op) then
    [match w_sg_exit2str w (SgDecodeSense.es_val op) (1 <? verbose) with
     | Some b => Printf (out_of verbose) "%s" [] [b]
     | None => Printf (out_of verbose) "Unable to decode exit status %d"
                     [SgDecodeSense.es_val op] []
     end]
  else
    let k := if SgDecodeSense.err_given op then SgDecodeSense.es_val op
             else 0 in
    let last := if SgDecodeSense.err_given op
                   && (0 <? SgDecodeSense.es_up_val op)
                then SgDecodeSense.es_up_val op else 127 in
    err_lines (Z.to_nat (last - k + 1)) k verbose.

(** One [fwrite(b, 1, n + 1, fp)] of write2wfn after [b[n] = '\n'], and
    the complaint when it comes back short; [calls] counts the fwrites. *)
Definition flush (wfname : string) (b : list ascii) (calls : nat)
  : list action :=
  let n := Z.of_nat (List.length b) in
  let s := w_fwrite w calls (n + 1) in
  FwriteText (b ++ [newline]) s
  :: (if s =? n + 1 then []
      else [Printf Stderr "only able to write %d of %d bytes to %s"
                  [s; n + 1] [wfname]]).

(** The [for] of write2wfn: [bytes] is [op->sense] from index [k] up to
    [sense_len], [b] what the buffer holds ([n] is its length). *)
Fixpoint write2wfn_loop (wfname : string) (bytes : list Z) (k : Z)
         (b : list ascii) (calls : nat) (tr : list action) : result :=
  match bytes with
  | [] =>
      if 0 <? Z.of_nat (List.length b)
      then if WFN_B_SZ <=? Z.of_nat (List.length b)
           then Fault tr "b" (Z.of_nat (List.length b))
           else Exit (tr ++ flush wfname b calls) 0
      else Exit tr 0
  | v :: tl =>
      let n := Z.of_nat (List.length b) in
      (* sprintf writes five characters and a NUL from b + n on *)
      if WFN_B_SZ <? n + 6 then Fault tr "b" (n + 5)
      else
        let b1 := b ++ sprintf_0x02x (wrap 8 v) in
        if 15 =? k mod 16 then
          if WFN_B_SZ <=? Z.of_nat (List.length b1)
          then Fault tr "b" (Z.of_nat (List.length b1))
          else write2wfn_loop wfname tl (k + 1) [] (S calls)
                              (tr ++ flush wfname b1 calls)
        else write2wfn_loop wfname tl (k + 1) b1 calls tr
  end.

Definition name_of (n : option string) : string :=
  match n with Some s => s | None => EmptyString end.

Definition write2wfn (op : SgDecodeSense.opts_t) : result :=
  write2wfn_loop (name_of (SgDecodeSense.wfname op))
    (firstn (Z.to_nat (SgDecodeSense.sense_len op)) (SgDecodeSense.sense op))
    0 [] 0 [].

(** [sscanf(cp + k, "%2x", &ui)]: [Some ui] when it returns 1.  The
    directive sees at most two characters after white space. *)
Definition sscanf_2x (cp : list ascii) : option Z :=
  match Libc.hex_subject (firstn 2 (Libc.skip_space cp)) with
  | None => None
  | Some (neg, v, _) => Some (if neg then wrap 32 (- v) else v)
  end.

(** How the loop over [no_space_str] ends. *)
Inductive ns_result :=
| NsDone (sense : list Z) (sense_len : Z)
| NsBad
| NsFault (index : Z).

(** The [for] of lines 551-559 from [cp + k]. *)
Fixpoint no_space_loop (cp : list ascii) (sense : list Z) (sense_len : Z)
  : ns_result :=
  match cp with
  | c0 :: ((c1 :: tl) as cp1) =>
      if Libc.isxdigit c0 && Libc.isxdigit c1 then
        match sscanf_2x cp with
        | None => NsBad
        | Some ui =>
            if sense_len <? 0 then NsFault sense_len
            else
              match SgDecodeSense.store sense (Z.to_nat sense_len)
                                        (wrap 8 ui) with
              | None => NsFault sense_len
              | Some a => no_space_loop tl a (sense_len + 1)
              end
        end
      else NsDone sense sense_len
  | _ => NsDone sense sense_len
  end.

(** The label [fini] and what follows it. *)
Definition fini (op : SgDecodeSense.opts_t) (as_json : bool) (ret : Z)
  : result :=
  let ret := if 0 <=? ret then ret else SG_LIB_CAT_OTHER K in
  if as_json then
    let '(ev, fp_ok, ret1) :=
      match SgDecodeSense.js_file op with
      | Some f =>
          if negb (String.eqb f "-") then
            if w_js_fopen w then ([Fopen f "w" true], true, ret)
            else ([Fopen f "w" false;
                   Printf Stderr "unable to open file: %s [%s]" [] [f]],
                  false, sg_convert_errno K (w_errno w))
          else ([], true, ret)
      | None => ([], true, ret)
      end in
    Exit (ev
          ++ (if fp_ok then [Call "sgj_js2file" [ret1]] else [])
          ++ (match SgDecodeSense.js_file op with
              | Some f => if fp_ok && negb (String.eqb f "-")
                          then [Fclose] else []
              | None => []
              end)
          ++ [Call "sgj_finish" []])
         ret1
  else Exit [] ret.

(** Lines 617-675: what is done with the sense data once it is there. *)
Definition output (op : SgDecodeSense.opts_t) (as_json : bool) : result :=
  let sense := SgDecodeSense.sense op in
  let sense_len := SgDecodeSense.sense_len op in
  let data := firstn (Z.to_nat sense_len) sense in
  if 0 <? sense_len then
    if match SgDecodeSense.wfname op with Some _ => true | None => false end
       || truthy (SgDecodeSense.hex_count op)
    then
      let opened :=
        match SgDecodeSense.wfname op with
        | Some f => if w_fopen_w w then inr [Fopen f "w" true]
                    else inl [Fopen f "w" false;
                              Printf Stderr "open: %s" [] [];   (* perror *)
                              Printf Stderr "trying to write to %s" [] [f]]
        | None => inr []
        end in
      match opened with
      | inl ev => first ev (fini op as_json (sg_convert_errno K (w_errno w)))
      | inr ev =>
          let has_wfn :=
            match SgDecodeSense.wfname op with
            | Some _ => true | None => false end in
          let closing := if has_wfn then [Fclose] else [] in
          let hex_count := SgDecodeSense.hex_count op in
          if has_wfn && (1 =? hex_count) then
            match write2wfn op with
            | Exit tr _ => first (ev ++ tr ++ closing) (fini op as_json 0)
            | Fault tr a i => Fault (ev ++ tr) a i
            end
          else if truthy hex_count && negb (2 =? hex_count) then
            first (ev ++ [Call "dStrHexFp"
                               [sense_len; if 1 =? hex_count then 1 else -1]]
                      ++ closing)
                  (fini op as_json 0)
          else if truthy hex_count then
            first (ev ++ [Call "dStrHexFp" [sense_len; 0]] ++ closing)
                  (fini op as_json 0)
          else
            let s := w_fwrite w 0 sense_len in
            first (ev ++ [FwriteBytes data s]
                      ++ (if s =? sense_len then []
                          else [Printf Stderr
                                      "only able to write %d of %d bytes to %s"
                                      [s; sense_len]
                                      [name_of (SgDecodeSense.wfname op)]])
                      ++ closing)
                  (fini op as_json 0)
      end
    else if SgDecodeSense.no_decode op then
      first (if 1 <? SgDecodeSense.verbose op
             then [Printf Stderr "Not decoding as %s because --nodecode given"
                         [] [if SgDecodeSense.do_cdb op then "cdb"%string
                             else "sense"%string]]
             else [])
            (fini op as_json 0)
    else if SgDecodeSense.do_cdb op then
      let opcode := sense_at sense 0 in
      let sa :=
        if (0x75 =? opcode) || (0x7e =? opcode) || (16 <? sense_len)
        then sg_get_unaligned_be16 w (sense_at sense 8) (sense_at sense 9)
        else if 1 <? sense_len then Z.land (sense_at sense 1) 0x1f
             else 0 in
      first [Call "sg_get_opcode_sa_name" [opcode; sa];
             Printf Stdout "%s" [] []]
            (fini op as_json 0)
    else
      first (if as_json
             then Call "sgj_js_sense" [sense_len]
                  :: (if w_pr_out_hr w
                      then [Call "sg_get_sense_str" [sense_len];
                            Call "sgj_hr_str_out" []]
                      else [])
             else [Call "sg_get_sense_str" [sense_len];
                   Printf Stdout "%s" [] []])
            (fini op as_json 0)
  else fini op as_json 0.

(** [fread] or sg_f2hex_arr into [op->sense]: the bytes read replace
    the first elements. *)
Definition fill (sense : list Z) (bytes : list Z) : list Z :=
  map (wrap 8) bytes ++ skipn (List.length bytes) sense.

(** Lines 542-615 and on: [op] is what parse_cmd_line left, which
    returned 0, neither help nor an exit status was asked for, and the
    JSON state is set up. *)
Definition with_data (op : SgDecodeSense.opts_t) (concat_buff : string)
           (as_json : bool) : result :=
  first (if SgDecodeSense.do_status op
         then [Call "sg_get_scsi_status_str" [SgDecodeSense.sstatus op];
               Printf Stdout "SCSI status: %s" [] []]
         else []) (
  let no_space_str :=
    match SgDecodeSense.no_space_str op with
    | SgDecodeSense.NsNull => None
    | SgDecodeSense.NsArg avp => Some avp
    | SgDecodeSense.NsConcat => Some concat_buff
    end in
  let decoded :=
    match no_space_str with
    | Some cp =>
        if 0 =? SgDecodeSense.sense_len op
        then no_space_loop (chars cp) (SgDecodeSense.sense op)
                           (SgDecodeSense.sense_len op)
        else NsDone (SgDecodeSense.sense op) (SgDecodeSense.sense_len op)
    | None => NsDone (SgDecodeSense.sense op) (SgDecodeSense.sense_len op)
    end in
  let ev_ns :=
    match no_space_str with
    | Some cp =>
        if (0 =? SgDecodeSense.sense_len op)
           && (2 <? SgDecodeSense.verbose op)
        then [Printf Stderr "no_space str: %s" [] [cp]] else []
    | None => []
    end in
  first ev_ns (
  match decoded with
  | NsFault i => Fault [] "sense" i
  | NsBad =>
      first [Printf Stderr "bad no_space hex string: %s" []
                   [name_of no_space_str]]
            (fini op as_json (SG_LIB_SYNTAX_ERROR K))
  | NsDone sense sense_len =>
      let op := SgDecodeSense.set_sense_len sense_len
                  (SgDecodeSense.set_sense sense op) in
      let from_file := SgDecodeSense.do_binary op
                       || SgDecodeSense.file_given op in
      if (0 =? sense_len) && negb from_file then
        if SgDecodeSense.do_status op then fini op as_json 0
        else first (Printf Stderr ">> Need sense/cdb/arbitrary data on the command line or in a file" [] []
                    :: usage)
                   (fini op as_json (SG_LIB_SYNTAX_ERROR K))
      else if truthy sense_len && from_file then
        first [Printf Stderr ">> Need sense data on command line or in a file, not both" [] []]
              (fini op as_json (SG_LIB_CONTRADICT K))
      else if SgDecodeSense.do_binary op && SgDecodeSense.file_given op then
        first [Printf Stderr ">> Either a binary file or a ASCII hexadecimal, file not both" [] []]
              (fini op as_json (SG_LIB_CONTRADICT K))
      else if SgDecodeSense.do_binary op then
        let fname := name_of (SgDecodeSense.fname op) in
        match w_binary_file w with
        | None =>
            first [Fopen fname "r" false;
                   Printf Stderr "unable to open file: %s: %s" [] [fname]]
                  (fini op as_json (sg_convert_errno K (w_errno w)))
        | Some contents =>
            let bytes := firstn (Z.to_nat SgDecodeSense.MAX_SENSE_LEN)
                                contents in
            let s := Z.of_nat (List.length bytes) in
            first [Fopen fname "r" true; Fread s; Fclose] (
            if 0 =? s then
              first [Printf Stderr "read nothing from file: %s" [] [fname]]
                    (fini op as_json (SG_LIB_SYNTAX_ERROR K))
            else
              output (SgDecodeSense.set_sense_len s
                        (SgDecodeSense.set_sense (fill sense bytes) op))
                     as_json)
        end
      else if SgDecodeSense.file_given op then
        let fname := name_of (SgDecodeSense.fname op) in
        let '(ret, bytes) := w_f2hex_arr w in
        if truthy ret then
          first [Call "sg_f2hex_arr" [ret];
                 Printf Stderr "unable to decode ASCII hex from file: %s" []
                       [fname]]
                (fini op as_json ret)
        else
          let s := Z.of_nat (List.length bytes) in
          first (Call "sg_f2hex_arr" [ret]
                 :: (if 1 <? SgDecodeSense.verbose op
                     then [Printf Stderr "%d bytes read successfully from %s"
                                 [s] [fname]]
                     else []))
                (output (SgDecodeSense.set_sense_len s
                           (SgDecodeSense.set_sense (fill sense bytes) op))
                        as_json)
      else output op as_json
  end)).

(** [main] after parse_cmd_line has returned [ret] with the options
    [op]. *)
Definition after_parse (ret : Z) (op : SgDecodeSense.opts_t)
           (concat_buff : string) : result :=
  first (if SgDecodeSense.verbose_given op && SgDecodeSense.version_given op
         then [Printf Stderr "Not in DEBUG mode, so '-vV' has no special action" [] []]
         else []) (
  if SgDecodeSense.version_given op
  then Exit [Printf Stderr "version: %s" [] [version_str]] ret
  else if truthy ret then Exit usage ret
  else if SgDecodeSense.do_help op then Exit usage ret
  else if SgDecodeSense.do_list_err op || SgDecodeSense.err_given op
  then Exit (enumerate_err_codes op) ret
  else if SgDecodeSense.do_json op && negb (w_sgj_init_state w) then
    first ((if truthy (w_first_bad_char w)
            then [Printf Stderr "bad argument to --json= option, unrecognized character '%c'"
                        [w_first_bad_char w] []]
            else [])
           ++ [Call "sg_json_usage" []; Printf Stderr "%s" [] []])
          (fini op false (SG_LIB_SYNTAX_ERROR K))
  else
    first (if SgDecodeSense.do_json op then [Call "sgj_start_r" []] else [])
          (with_data op concat_buff
                     (SgDecodeSense.do_json op && w_pr_as_json w))).

Definition main (inv : SgDecodeSense.invocation) : result :=
  first (rep_invocation inv) (
  if negb (w_memalign w)
  then Exit [Printf Stderr "Unable to allocate heap for options structure" [] []]
            (sg_convert_errno K (ENOMEM K))
  else
    match SgDecodeSense.parse_cmd_line K inv with
    | SgDecodeSense.Overrun a i => Fault [] a i
    | SgDecodeSense.Returned ret op concat_buff =>
        after_parse ret op concat_buff
    end).

End Program.

End SgDecodeSenseMain.

(** ** What a command line asks for

    Closed forms of what the option loops compute, which the properties
    of the parsers are stated against. *)

(** sg_simple1: an argument that starts with a dash, and one that starts
    with [-x]. *)
Definition is_switch (a : string) : bool :=
  Libc.has_prefix (chars "-") (chars a).

Definition is_x (a : string) : bool :=
  Libc.has_prefix (chars "-x") (chars a).

(** The device sg_simple1 is asked to open: the only argument that is no
    switch, provided every switch starts with [-x]. *)
Definition named_device (args : list string) : option string :=
  if forallb (fun a => negb (is_switch a) || is_x a) args
  then match filter (fun a => negb (is_switch a)) args with
       | [f] => Some f
       | _ => None
       end
  else None.





(** sg_requests: how many times option [c] is given. *)
Definition times (c : ascii) (gs : list SgRequests.getopt_ev) : Z :=
  Z.of_nat (List.length
              (filter (fun g => SgRequests.ch_is (SgRequests.g_c g) c) gs)).

(** The argument lists of the lines a run printed with the format
    [fmt], in order. *)
Definition printed (fmt : string) (tr : list event) : list (list Z) :=
  flat_map (fun e => match e with
                     | Out f a => if String.eqb f fmt then [a] else []
                     | _ => []
                     end) tr.

(** The format of the progress line of sg_requests, and the two numbers
    it shows for a progress field [p]. *)
Definition progress_fmt : string := "Progress indication: %d.%02d%% done".

Definition progress_shown (p : Z) : list Z :=
  [(p * 100) / 65536; ((p * 100) mod 65536) / 656].

(** sg_requests gets as far as its loop: no [--version], a DEVICE, binary
    mode set when [--raw] asks for it, no contradiction among the options,
    the device opened and the pass-through object constructed. *)
Definition reaches_loop (w : SgRequests.world) (l : SgRequests.locals)
  : Prop :=
  SgRequests.version_given l = false
  /\ SgRequests.device_name l <> None
  /\ (SgRequests.do_raw l = true -> 0 <= SgRequests.w_set_binary_mode w)
  /\ (SgRequests.do_raw l || truthy (SgRequests.do_hex l))
     && (SgRequests.do_progress l || SgRequests.do_time l) = false
  /\ 0 <= SgRequests.w_open w
  /\ SgRequests.w_construct w = Some 0.

(** The progress field sg_requests finds in the [j]-th response. *)
Definition progress_of (K : sg_lib_h) (w : SgRequests.world) (j : nat)
  : option Z :=
  let r := SgRequests.w_reply w j in
  sg_get_sense_progress_fld K (SgRequests.r_rsBuff r)
    (if 0 <=? SgRequests.r_n r then SgRequests.r_n r else 0).

(** The number a command's outcome stands for in an exit status: 0 for a
    command that came back without complaint, else its category (or the
    error of the call). *)
Definition category (st : status) : Z :=
  match st with
  | Done => 0
  | CheckCond cat => cat
  | CallFailed err => err
  end.

(** [(ret >= 0) ? ret : SG_LIB_CAT_OTHER], the last step before a utility
    of sg3_utils returns. *)
Definition or_cat_other (K : sg_lib_h) (ret : Z) : Z :=
  if 0 <=? ret then ret else SG_LIB_CAT_OTHER K.




(** A progress line as sg_requests computes it from a 16-bit field. *)
Definition progress_line (a : list Z) : Prop :=
  exists p, 0 <= p < 65536 /\ a = progress_shown p.


(** sg_decode_sense: the bytes a string of hexadecimal digit pairs
    stands for, up to the first character that is no digit or has no
    partner. *)
Fixpoint hex_pairs (cp : list ascii) : list Z :=
  match cp with
  | c0 :: c1 :: tl =>
      match Libc.hex_digit c0, Libc.hex_digit c1 with
      | Some h, Some l => (16 * h + l) :: hex_pairs tl
      | _, _ => []
      end
  | _ => []
  end.

(** The exit-status codes enumerate_err_codes goes through: from [lo]
    up to [last]. *)
Definition codes (lo last : Z) : list Z :=
  map (fun i => lo + Z.of_nat i) (seq 0 (Z.to_nat (last - lo + 1))).

(** The codes of the lines [%d: %s] in what sg_decode_sense printed, and
    the streams of everything it printed. *)
Definition listed (tr : list SgDecodeSenseMain.action) : list Z :=
  flat_map (fun a => match a with
                     | SgDecodeSenseMain.Printf _ "%d: %s" [k] _ => [k]
                     | _ => []
                     end) tr.

Definition streams (tr : list SgDecodeSenseMain.action)
  : list SgDecodeSenseMain.stream :=
  flat_map (fun a => match a with
                     | SgDecodeSenseMain.Printf s _ _ _ => [s]
                     | _ => []
                     end) tr.

(** The characters handed to fwrite, call by call. *)
Definition written (tr : list SgDecodeSenseMain.action)
  : list (list ascii) :=
  flat_map (fun a => match a with
                     | SgDecodeSenseMain.FwriteText data _ => [data]
                     | _ => []
                     end) tr.

(** A list cut into rows of sixteen. *)
Fixpoint rows_by_16 (fuel : nat) (bytes : list Z) : list (list Z) :=
  match fuel, bytes with
  | S fuel', _ :: _ => firstn 16 bytes :: rows_by_16 fuel' (skipn 16 bytes)
  | _, _ => []
  end.

Definition rows (bytes : list Z) : list (list Z) :=
  rows_by_16 (List.length bytes) bytes.

(** A row as the file written with [--write=WFN --hex] shows it. *)
Definition row_text (row : list Z) : list ascii :=
  flat_map SgDecodeSenseMain.sprintf_0x02x row ++ [SgDecodeSenseMain.newline].

(** sg_decode_sense: an option that names the file the data is read
    from, and whether getopt handed its argument over, as it does for
    the options declared with a colon. *)
Definition takes_file (g : SgDecodeSense.getopt_ev) : bool :=
  SgDecodeSense.ch_is (SgDecodeSense.g_c g) "b"
  || SgDecodeSense.ch_is (SgDecodeSense.g_c g) "f"
  || SgDecodeSense.ch_is (SgDecodeSense.g_c g) "i".

Definition file_named (g : SgDecodeSense.getopt_ev) : bool :=
  negb (takes_file g)
  || match SgDecodeSense.g_optarg g with Some _ => true | None => false end.

(** The lines of a trace printed with the format [msg], and the calls
    of the library that decode sense data or a cdb. *)
Definition says (msg : string) (a : SgDecodeSenseMain.action) : bool :=
  match a with
  | SgDecodeSenseMain.Printf _ fmt _ _ => String.eqb fmt msg
  | _ => false
  end.

Definition decodes (a : SgDecodeSenseMain.action) : bool :=
  match a with
  | SgDecodeSenseMain.Call fn _ =>
      String.eqb fn "sg_get_sense_str" || String.eqb fn "sgj_js_sense"
      || String.eqb fn "sg_get_opcode_sa_name"
  | _ => false
  end.

Definition both_files_msg : string :=
  ">> Either a binary file or a ASCII hexadecimal, file not both".

(** The operands of [--nospace] put together. *)
Definition joined (avs : list string) : string :=
  fold_right String.append EmptyString avs.

(** sg_decode_sense: the fields the option loop never touches
    ([no_space_str]), the ones only the file options touch, and what
    these keep true of them. *)
Definition same_ns (op op' : SgDecodeSense.opts_t) : Prop :=
  SgDecodeSense.no_space_str op' = SgDecodeSense.no_space_str op.

Definition same_file (op op' : SgDecodeSense.opts_t) : Prop :=
  SgDecodeSense.do_binary op' = SgDecodeSense.do_binary op
  /\ SgDecodeSense.file_given op' = SgDecodeSense.file_given op
  /\ SgDecodeSense.fname op' = SgDecodeSense.fname op.

Definition one_source (op : SgDecodeSense.opts_t) : Prop :=
  SgDecodeSense.do_binary op && SgDecodeSense.file_given op = false
  /\ (SgDecodeSense.do_binary op || SgDecodeSense.file_given op = true ->
      SgDecodeSense.fname op <> None).

(** sg_decode_sense: the options that send the data on undecoded:
    [--write=WFN], [--hex] and [--nodecode]. *)
Definition dumping (op : SgDecodeSense.opts_t) : bool :=
  match SgDecodeSense.wfname op with Some _ => true | None => false end
  || truthy (SgDecodeSense.hex_count op)
  || SgDecodeSense.no_decode op.

(** sg_decode_sense: the array and the index of a write outside an
    array, when a run ends in one. *)
Definition fault_of (r : SgDecodeSenseMain.result) : option (string * Z) :=
  match r with
  | SgDecodeSenseMain.Fault _ a i => Some (a, i)
  | SgDecodeSenseMain.Exit _ _ => None
  end.

(** ** More sample inputs *)

Module Cases.

(** sg_simple1: a device whose INQUIRY response has 0xb2 in byte 7. *)
Definition simple1_wide : SgSimple1.world :=
  {| SgSimple1.w_open := 3;
     SgSimple1.w_version := (0, 30536);
     SgSimple1.w_inquiry := Samples.io_clean;
     SgSimple1.w_inqBuff := [x00; x00; x05; x02; x5b; x00; x00; xb2];
     SgSimple1.w_test_unit_ready := Samples.io_clean |}.

(** [sg_requests --hex --progress /dev/sg0] *)
Definition requests_hex_progress : SgRequests.invocation :=
  {| SgRequests.argv := ["--hex"; "--progress"; Samples.sg0]%string;
     SgRequests.getopt_opts :=
       [Samples.requests_opt "H" EmptyString;
        Samples.requests_opt "p" EmptyString];
     SgRequests.getopt_rest := [Samples.sg0];
     SgRequests.SG3_UTILS_INVOCATION := false |}.

(** sg_lib.h with a library that finds the progress field 0x5555 in the
    first two responses and none in the third. *)
Definition K_progress : sg_lib_h :=
  {| SG_LIB_SYNTAX_ERROR := 1;
     SG_LIB_CAT_NOT_READY := 2;
     SG_LIB_CAT_ILLEGAL_REQ := 5;
     SG_LIB_CAT_UNIT_ATTENTION := 6;
     SG_LIB_CAT_INVALID_OP := 9;
     SG_LIB_FILE_ERROR := 15;
     SG_LIB_CAT_NO_SENSE := 20;
     SG_LIB_CAT_RECOVERED := 21;
     SG_LIB_LBA_OUT_OF_RANGE := 22;
     SG_LIB_CONTRADICT := 31;
     SG_LIB_TRANSPORT_ERROR := 35;
     SG_LIB_OK_FALSE := 36;
     SG_LIB_CAT_OTHER := 99;
     ENOMEM := 12;
     sg_convert_errno := sg_convert_errno Samples.K;
     sg_if_can2stderr := fun _ => true;
     sg_get_llnum := sg_get_llnum Samples.K;
     sg_get_num := sg_get_num Samples.K;
     sg_get_num_nomult := fun _ => -1;
     sg_get_sense_progress_fld := fun buf _ =>
       match buf with
       | x70 :: _ => Some 0x5555
       | _ => None
       end;
     sg_scsi_normalize_sense := fun _ _ => None;
     sg_err_category_sense := fun _ _ => 0 |}.

(** A device whose first two responses start with 0x70 and whose later
    ones are empty; every response is 18 bytes long. *)
Definition requests_progress_world : SgRequests.world :=
  {| SgRequests.w_set_binary_mode := 0;
     SgRequests.w_open := 3;
     SgRequests.w_construct := Some 0;
     SgRequests.w_reply := fun k =>
       {| SgRequests.r_n := 18; SgRequests.r_sense_cat := 0;
          SgRequests.r_transport_err := 0; SgRequests.r_os_err := 0;
          SgRequests.r_rsBuff := if Nat.ltb k 2 then [x70; x00; x02] else [] |};
     SgRequests.w_start_tm := true;
     SgRequests.w_close := 0 |}.

(** [sg_requests --progress --num=5 /dev/sg0] *)
Definition requests_progress_5 : SgRequests.invocation :=
  {| SgRequests.argv := ["--progress"; "--num=5"; Samples.sg0]%string;
     SgRequests.getopt_opts :=
       [Samples.requests_opt "p" EmptyString;
        Samples.requests_opt "n" Samples.five];
     SgRequests.getopt_rest := [Samples.sg0];
     SgRequests.SG3_UTILS_INVOCATION := false |}.

(** [sg_requests --num=3 /dev/sg0] with SG3_UTILS_INVOCATION set *)
Definition requests_num_3 : SgRequests.invocation :=
  {| SgRequests.argv := ["--num=3"; Samples.sg0]%string;
     SgRequests.getopt_opts := [Samples.requests_opt "n" "3"];
     SgRequests.getopt_rest := [Samples.sg0];
     SgRequests.SG3_UTILS_INVOCATION := true |}.

(** sg_readcap: a device that is not ready. *)
Definition readcap_not_ready : SgReadcap.world :=
  {| SgReadcap.w_sgj_init_state := true;
     SgReadcap.w_pr_as_json := false;
     SgReadcap.w_set_binary_mode := 0;
     SgReadcap.w_memalign := true;
     SgReadcap.w_f2hex_arr := (0, 0, []);
     SgReadcap.w_open := 3;
     SgReadcap.w_reopen := 4;
     SgReadcap.w_readcap_10 := (2, []);
     SgReadcap.w_readcap_16 := (2, []);
     SgReadcap.w_close := 0;
     SgReadcap.w_js_fopen := true |}.

(** sg_readcap: a device too large for READ CAPACITY (10). *)
Definition readcap_large : SgReadcap.world :=
  {| SgReadcap.w_sgj_init_state := true;
     SgReadcap.w_pr_as_json := false;
     SgReadcap.w_set_binary_mode := 0;
     SgReadcap.w_memalign := true;
     SgReadcap.w_f2hex_arr := (0, 0, []);
     SgReadcap.w_open := 3;
     SgReadcap.w_reopen := 4;
     SgReadcap.w_readcap_10 :=
       (0, [xff; xff; xff; xff; x00; x00; x02; x00]);
     SgReadcap.w_readcap_16 := (0, Samples.rcap16_resp);
     SgReadcap.w_close := 0;
     SgReadcap.w_js_fopen := true |}.

(** The options [sg_readcap /dev/sg0] leaves. *)
Definition readcap_dev_opts : SgReadcap.opts_t :=
  SgReadcap.Build_opts_t false false false false false false false true false
    false 0 0 0 0 0 (Some Samples.sg0) None None None.

Definition data_hex : string := "data.hex".

(** [sg_readcap --inhex=data.hex /dev/sg0] *)
Definition readcap_inhex : SgReadcap.invocation :=
  {| SgReadcap.argv := ["--inhex=data.hex"%string; Samples.sg0];
     SgReadcap.getopt_opts := [Samples.readcap_opt "i" (Some data_hex)];
     SgReadcap.getopt_rest := [Samples.sg0];
     SgReadcap.SG3_UTILS_OLD_OPTS := false;
     SgReadcap.SG3_UTILS_INVOCATION := false |}.


(** sg_lib.h with an sg_get_num_nomult that reads the number 5. *)
Definition K_decode : sg_lib_h :=
  {| SG_LIB_SYNTAX_ERROR := 1;
     SG_LIB_CAT_NOT_READY := 2;
     SG_LIB_CAT_ILLEGAL_REQ := 5;
     SG_LIB_CAT_UNIT_ATTENTION := 6;
     SG_LIB_CAT_INVALID_OP := 9;
     SG_LIB_FILE_ERROR := 15;
     SG_LIB_CAT_NO_SENSE := 20;
     SG_LIB_CAT_RECOVERED := 21;
     SG_LIB_LBA_OUT_OF_RANGE := 22;
     SG_LIB_CONTRADICT := 31;
     SG_LIB_TRANSPORT_ERROR := 35;
     SG_LIB_OK_FALSE := 36;
     SG_LIB_CAT_OTHER := 99;
     ENOMEM := 12;
     sg_convert_errno := sg_convert_errno Samples.K;
     sg_if_can2stderr := fun _ => true;
     sg_get_llnum := sg_get_llnum Samples.K;
     sg_get_num := sg_get_num Samples.K;
     sg_get_num_nomult := fun s => if String.eqb s "5" then 5 else -1;
     sg_get_sense_progress_fld := fun _ _ => None;
     sg_scsi_normalize_sense := fun _ _ => None;
     sg_err_category_sense := fun _ _ => 0 |}.

(** sg_decode_sense: the JSON state is set up, files open, and
    [sense.bin] holds a fixed-format sense buffer of eighteen bytes. *)
Definition decode_world : SgDecodeSenseMain.world :=
  {| SgDecodeSenseMain.w_memalign := true;
     SgDecodeSenseMain.w_sg_exit2str :=
       fun k _ => if (k =? 0) || (k =? 2) || (k =? 5)
                  then Some "known"%string else None;
     SgDecodeSenseMain.w_sgj_init_state := true;
     SgDecodeSenseMain.w_first_bad_char := 0;
     SgDecodeSenseMain.w_pr_as_json := true;
     SgDecodeSenseMain.w_pr_out_hr := false;
     SgDecodeSenseMain.w_binary_file :=
       Some [0x70; 0; 5; 0; 0; 0; 0; 10; 0; 0; 0; 0; 0x20; 0; 0; 0; 0; 0];
     SgDecodeSenseMain.w_errno := 2;
     SgDecodeSenseMain.w_f2hex_arr := (0, [0x70; 0; 5]);
     SgDecodeSenseMain.w_fopen_w := true;
     SgDecodeSenseMain.w_fwrite := fun _ n => n;
     SgDecodeSenseMain.w_js_fopen := true;
     SgDecodeSenseMain.sg_get_unaligned_be16 := fun hi lo => hi * 256 + lo |}.

Definition decode_opt (c : ascii) (a : option string)
  : SgDecodeSense.getopt_ev :=
  {| SgDecodeSense.g_c := c; SgDecodeSense.g_optarg := a |}.

(** [sg_decode_sense --binary=sense.bin] *)
Definition decode_binary : SgDecodeSense.invocation :=
  {| SgDecodeSense.argv := ["--binary=sense.bin"%string];
     SgDecodeSense.getopt_opts := [decode_opt "b" (Some "sense.bin"%string)];
     SgDecodeSense.getopt_rest := [];
     SgDecodeSense.SG3_UTILS_INVOCATION := false |}.

(** [sg_decode_sense --hex 70 00 05] *)
Definition decode_hex : SgDecodeSense.invocation :=
  {| SgDecodeSense.argv := ["--hex"; "70"; "00"; "05"]%string;
     SgDecodeSense.getopt_opts := [decode_opt "H" None];
     SgDecodeSense.getopt_rest := ["70"%string; "00"%string; "05"%string];
     SgDecodeSense.SG3_UTILS_INVOCATION := false |}.


(** [sg_decode_sense --err=5 junk] and [sg_decode_sense --err=5], both
    with SG3_UTILS_INVOCATION set *)
Definition decode_err_junk : SgDecodeSense.invocation :=
  {| SgDecodeSense.argv := ["--err=5"; "junk"]%string;
     SgDecodeSense.getopt_opts := [decode_opt "e" (Some "5"%string)];
     SgDecodeSense.getopt_rest := ["junk"%string];
     SgDecodeSense.SG3_UTILS_INVOCATION := true |}.

Definition decode_err : SgDecodeSense.invocation :=
  {| SgDecodeSense.argv := ["--err=5"%string];
     SgDecodeSense.getopt_opts := [decode_opt "e" (Some "5"%string)];
     SgDecodeSense.getopt_rest := [];
     SgDecodeSense.SG3_UTILS_INVOCATION := true |}.

(** [sg_decode_sense --nospace 000...0 00], the first operand 1024
    characters long. *)
Definition long_operand : string :=
  string_of_list_ascii (repeat "0"%char 1024).

Definition decode_nospace_long : SgDecodeSense.invocation :=
  {| SgDecodeSense.argv := ["--nospace"%string; long_operand; "00"%string];
     SgDecodeSense.getopt_opts := [decode_opt "n" None];
     SgDecodeSense.getopt_rest := [long_operand; "00"%string];
     SgDecodeSense.SG3_UTILS_INVOCATION := false |}.



End Cases.

(** * Properties *)

(** ** Bit-level lemmas *)

Lemma u8_range (b : byte) : 0 <= u8 b < 256.
Proof.
  unfold u8. pose proof (Byte.to_N_bounded b) as H. lia.
Qed.

Lemma lor_shiftl_add (hi lo n : Z) :
  0 <= n -> 0 <= lo < 2 ^ n -> Z.lor (Z.shiftl hi n) lo = hi * 2 ^ n + lo.
Proof.
  intros Hn Hlo.
  rewrite Z.shiftl_mul_pow2 by assumption.
  assert (Hd : Z.land (hi * 2 ^ n) lo = 0).
  { apply Z.bits_inj'; intros k Hk. rewrite Z.land_spec, Z.bits_0.
    destruct (Z.ltb_spec k n) as [Hlt | Hge].
    - rewrite Z.mul_pow2_bits_low by lia. reflexivity.
    - destruct (Z.eq_dec lo 0) as [-> | Hnz].
      + rewrite Z.bits_0. apply andb_false_r.
      + rewrite (Z.bits_above_log2 lo k); [ apply andb_false_r | lia | ].
        apply Z.lt_le_trans with n; [ | assumption ].
        apply Z.log2_lt_pow2; lia. }
  rewrite <- Z.lxor_lor by exact Hd.
  symmetry. apply Z.add_nocarry_lxor. exact Hd.
Qed.

Lemma land_ones_mod (x n : Z) : 0 <= n -> Z.land x (Z.ones n) = x mod 2 ^ n.
Proof. intros; apply Z.land_ones; assumption. Qed.

Lemma shiftr_land_bits (x hi lo : Z) :
  0 <= lo <= hi ->
  Z.land (Z.shiftr x lo) (Z.ones (hi - lo + 1)) = Layout.bits x hi lo.
Proof.
  intros H. unfold Layout.bits.
  rewrite land_ones_mod by lia.
  rewrite Z.shiftr_div_pow2 by lia. reflexivity.
Qed.

Lemma notnot_land_bit (x k : Z) :
  0 <= k -> notnot (Z.land x (2 ^ k)) = Layout.bit x k.
Proof.
  intros Hk. unfold notnot, Layout.bit.
  destruct (Z.testbit x k) eqn:Hb.
  - destruct (Z.eqb_spec (Z.land x (2 ^ k)) 0) as [E | _]; [ | reflexivity ].
    apply (f_equal (fun z => Z.testbit z k)) in E.
    rewrite Z.land_spec, Hb, Z.pow2_bits_true, Z.bits_0 in E by lia.
    discriminate.
  - destruct (Z.eqb_spec (Z.land x (2 ^ k)) 0) as [_ | N]; [ reflexivity | ].
    exfalso; apply N. apply Z.bits_inj'; intros j Hj.
    rewrite Z.land_spec, Z.bits_0.
    destruct (Z.eq_dec j k) as [-> | Hne].
    + rewrite Hb; reflexivity.
    + rewrite Z.pow2_bits_false by lia. apply andb_false_r.
Qed.

Lemma lor_mul_add (k lo n : Z) :
  0 <= n -> 0 <= lo < 2 ^ n -> Z.lor (k * 2 ^ n) lo = k * 2 ^ n + lo.
Proof.
  intros Hn Hlo. rewrite <- lor_shiftl_add by assumption.
  rewrite Z.shiftl_mul_pow2 by assumption. reflexivity.
Qed.

Lemma be32_value (a b c d : byte) (tl : list byte) :
  SgUnaligned.sg_get_unaligned_be32 (a :: b :: c :: d :: tl) =
  Layout.be_value (a :: b :: c :: d :: nil).
Proof.
  unfold SgUnaligned.sg_get_unaligned_be32, Layout.be_value, byte_at.
  cbn [nth fold_left].
  pose proof (u8_range a); pose proof (u8_range b);
    pose proof (u8_range c); pose proof (u8_range d).
  rewrite !Z.shiftl_mul_pow2 by lia.
  rewrite (lor_mul_add (u8 a) (u8 b * 2 ^ 16) 24) by lia.
  replace (u8 a * 2 ^ 24 + u8 b * 2 ^ 16)
    with ((u8 a * 2 ^ 8 + u8 b) * 2 ^ 16) by lia.
  rewrite (lor_mul_add _ (u8 c * 2 ^ 8) 16) by lia.
  replace ((u8 a * 2 ^ 8 + u8 b) * 2 ^ 16 + u8 c * 2 ^ 8)
    with (((u8 a * 2 ^ 8 + u8 b) * 2 ^ 8 + u8 c) * 2 ^ 8) by lia.
  rewrite (lor_mul_add _ (u8 d) 8) by lia.
  lia.
Qed.

Lemma be_value_range (bs : list byte) :
  0 <= Layout.be_value bs < 2 ^ (8 * Z.of_nat (List.length bs)).
Proof.
  unfold Layout.be_value.
  assert (G : forall l acc n, 0 <= n -> 0 <= acc < 2 ^ n ->
            0 <= fold_left (fun acc b => acc * 256 + u8 b) l acc
              < 2 ^ (n + 8 * Z.of_nat (List.length l))).
  { induction l as [| x l IH]; intros acc n Hn Hacc; cbn [fold_left List.length].
    - rewrite Z.add_0_r. assumption.
    - pose proof (u8_range x).
      replace (n + 8 * Z.of_nat (S (List.length l)))
        with ((n + 8) + 8 * Z.of_nat (List.length l)) by lia.
      apply IH; [ lia | ].
      rewrite Z.pow_add_r by lia. change (2 ^ 8) with 256. nia. }
  apply (G bs 0 0); [ lia | change (2 ^ 0) with 1; lia ].
Qed.

Lemma be_value_app (xs ys : list byte) :
  Layout.be_value (xs ++ ys) =
  Layout.be_value xs * 2 ^ (8 * Z.of_nat (List.length ys)) + Layout.be_value ys.
Proof.
  unfold Layout.be_value.
  assert (G : forall l acc,
            fold_left (fun acc b => acc * 256 + u8 b) l acc =
            acc * 2 ^ (8 * Z.of_nat (List.length l)) +
            fold_left (fun acc b => acc * 256 + u8 b) l 0).
  { induction l as [| x l IH]; intros acc; cbn [fold_left List.length].
    - change (2 ^ (8 * Z.of_nat 0)) with 1. lia.
    - rewrite (IH (acc * 256 + u8 x)), (IH (0 * 256 + u8 x)).
      replace (8 * Z.of_nat (S (List.length l)))
        with (8 + 8 * Z.of_nat (List.length l)) by lia.
      rewrite Z.pow_add_r by lia. change (2 ^ 8) with 256. lia. }
  rewrite fold_left_app. apply G.
Qed.

Lemma be64_value (a b c d e f g h : byte) (tl : list byte) :
  SgUnaligned.sg_get_unaligned_be64
    (a :: b :: c :: d :: e :: f :: g :: h :: tl) =
  Layout.be_value (a :: b :: c :: d :: e :: f :: g :: h :: nil).
Proof.
  unfold SgUnaligned.sg_get_unaligned_be64. cbn [skipn].
  rewrite !be32_value.
  pose proof (be_value_range (e :: f :: g :: h :: nil)) as R.
  cbn [List.length] in R. change (2 ^ (8 * Z.of_nat 4)) with (2 ^ 32) in R.
  rewrite lor_shiftl_add by lia.
  change (a :: b :: c :: d :: e :: f :: g :: h :: nil)
    with ((a :: b :: c :: d :: nil) ++ (e :: f :: g :: h :: nil)).
  rewrite be_value_app. reflexivity.
Qed.

(** ** The number readers on sample texts *)

Example strtol16_7f : Libc.strtol16 (chars "7f") = (127, []).
Proof. reflexivity. Qed.

Example strtol16_0x7F : Libc.strtol16 (chars " -0X7Fz") = (-127, chars "z").
Proof. reflexivity. Qed.

Example strtol16_none : Libc.strtol16 (chars "zz") = (0, chars "zz").
Proof. reflexivity. Qed.

Example sscanf_lba : Libc.sscanf_SCNx64 (chars "ffffffff") = Some 4294967295.
Proof. reflexivity. Qed.

(** ** sg_readcap: decoding the two responses *)

Lemma land_low_bits (x n : Z) :
  0 < n -> Z.land x (Z.ones n) = Layout.bits x (n - 1) 0.
Proof.
  intros Hn. unfold Layout.bits.
  rewrite land_ones_mod by lia.
  change (2 ^ 0) with 1. rewrite Z.div_1_r.
  replace (n - 1 - 0 + 1) with n by lia. reflexivity.
Qed.

Lemma Zb_truthy_notnot (x : Z) :
  SgReadcap.Zb (truthy (notnot x)) = notnot x.
Proof. unfold notnot, truthy. destruct (x =? 0); reflexivity. Qed.

(** C1: for an 8-byte READ CAPACITY (10) response, the last logical block
    address [main] extracts is the big-endian integer held in bytes 0-3
    and the block size is the big-endian integer held in bytes 4-7. *)
Theorem readcap10_decode_big_endian (resp_buff : list byte) :
  List.length resp_buff = 8%nat ->
  SgReadcap.last_blk_addr (SgReadcap.decode_rcap10 resp_buff)
    = Layout.be_value (Layout.bytes_from resp_buff 0 4)
  /\ SgReadcap.block_size (SgReadcap.decode_rcap10 resp_buff)
    = Layout.be_value (Layout.bytes_from resp_buff 4 4).
Proof.
  intros Hlen.
  do 9 (destruct resp_buff as [| ? resp_buff]; try discriminate Hlen).
  unfold SgReadcap.decode_rcap10, Layout.bytes_from.
  cbn [SgReadcap.last_blk_addr SgReadcap.block_size skipn firstn].
  rewrite !be32_value. split; reflexivity.
Qed.

Lemma readcap10_decode_big_endian_witness :
  SgReadcap.last_blk_addr
    (SgReadcap.decode_rcap10 [x00; x01; x02; x03; x00; x00; x02; x00])
    = Layout.be_value [x00; x01; x02; x03]
  /\ SgReadcap.block_size
    (SgReadcap.decode_rcap10 [x00; x01; x02; x03; x00; x00; x02; x00])
    = Layout.be_value [x00; x00; x02; x00].
Proof.
  apply (readcap10_decode_big_endian
           [x00; x01; x02; x03; x00; x00; x02; x00]).
  reflexivity.
Defined.

Example readcap10_sample :
  SgReadcap.decode_rcap10 [x00; x01; x02; x03; x00; x00; x02; x00]
  = SgReadcap.Build_rcap10 66051 512.
Proof. reflexivity. Qed.

(** C6: for a 32-byte READ CAPACITY (16) response, every field [main]
    extracts has its documented value: the last logical block address is
    the big-endian integer in bytes 0-7, the block length the one in bytes
    8-11, rc_basis bits 5-4, p_type bits 3-1 and prot_en bit 0 of byte 12,
    p_i_exponent and lbppbe the high and low nibble of byte 13, lbpme and
    lbprz bits 7 and 6 of byte 14, and the lowest aligned LBA the low six
    bits of byte 14 shifted left by 8 plus byte 15. *)
Theorem readcap16_decode_fields (resp_buff : list byte) :
  List.length resp_buff = 32%nat ->
  let d := SgReadcap.decode_rcap16 resp_buff in
  SgReadcap.llast_blk_addr d
    = Layout.be_value (Layout.bytes_from resp_buff 0 8)
  /\ SgReadcap.block_size16 d
    = Layout.be_value (Layout.bytes_from resp_buff 8 4)
  /\ SgReadcap.rc_basis d = Layout.bits (byte_at resp_buff 12) 5 4
  /\ SgReadcap.p_type d = Layout.bits (byte_at resp_buff 12) 3 1
  /\ SgReadcap.prot_en d = Layout.bit (byte_at resp_buff 12) 0
  /\ SgReadcap.p_i_exponent d = Layout.bits (byte_at resp_buff 13) 7 4
  /\ SgReadcap.lbppbe d = Layout.bits (byte_at resp_buff 13) 3 0
  /\ SgReadcap.Zb (SgReadcap.lbpme d) = Layout.bit (byte_at resp_buff 14) 7
  /\ SgReadcap.Zb (SgReadcap.lbprz d) = Layout.bit (byte_at resp_buff 14) 6
  /\ SgReadcap.lalba d
    = Layout.bits (byte_at resp_buff 14) 5 0 * 2 ^ 8 + byte_at resp_buff 15.
Proof.
  intros Hlen d. subst d. unfold SgReadcap.decode_rcap16.
  cbn [SgReadcap.llast_blk_addr SgReadcap.block_size16 SgReadcap.rc_basis
       SgReadcap.p_type SgReadcap.prot_en SgReadcap.p_i_exponent
       SgReadcap.lbppbe SgReadcap.lbpme SgReadcap.lbprz SgReadcap.lalba].
  repeat split.
  - do 33 (destruct resp_buff as [| ? resp_buff]; try discriminate Hlen).
    unfold Layout.bytes_from. cbn [skipn firstn]. apply be64_value.
  - do 33 (destruct resp_buff as [| ? resp_buff]; try discriminate Hlen).
    unfold Layout.bytes_from. cbn [skipn firstn]. apply be32_value.
  - apply (shiftr_land_bits _ 5 4). lia.
  - apply (shiftr_land_bits _ 3 1). lia.
  - apply (notnot_land_bit _ 0). lia.
  - apply (shiftr_land_bits _ 7 4). lia.
  - apply (land_low_bits _ 4). lia.
  - rewrite Zb_truthy_notnot. apply (notnot_land_bit _ 7). lia.
  - rewrite Zb_truthy_notnot. apply (notnot_land_bit _ 6). lia.
  - rewrite Z.shiftl_mul_pow2 by lia.
    rewrite <- (land_low_bits _ 6) by lia. reflexivity.
Qed.

(** ** sg_readcap: the LBA option *)

























(** ** Traces *)

Lemma io_app (a b : list event) : io (a ++ b) = io a ++ io b.
Proof. apply filter_app. Qed.

Lemma trace_before (pre : list event) (r : run) :
  trace (before pre r) = pre ++ trace r.
Proof. reflexivity. Qed.

Lemma exit_code_before (pre : list event) (r : run) :
  exit_code (before pre r) = exit_code r.
Proof. reflexivity. Qed.

(** The report of the command line touches no device. *)
Lemma io_readcap_rep_invocation (inv : SgReadcap.invocation) :
  io (SgReadcap.rep_invocation inv) = [].
Proof.
  unfold SgReadcap.rep_invocation.
  destruct (SgReadcap.SG3_UTILS_INVOCATION inv); reflexivity.
Qed.

Lemma io_requests_rep_invocation (inv : SgRequests.invocation) :
  io (SgRequests.rep_invocation inv) = [].
Proof.
  unfold SgRequests.rep_invocation.
  destruct (SgRequests.SG3_UTILS_INVOCATION inv); reflexivity.
Qed.

Lemma readcap_report_io (inv : SgReadcap.invocation) (r : run) :
  io (trace (before (SgReadcap.rep_invocation inv) r)) = io (trace r).
Proof.
  rewrite trace_before, io_app, io_readcap_rep_invocation. reflexivity.
Qed.

Lemma requests_report_io (inv : SgRequests.invocation) (r : run) :
  io (trace (before (SgRequests.rep_invocation inv) r)) = io (trace r).
Proof.
  rewrite trace_before, io_app, io_requests_rep_invocation. reflexivity.
Qed.

Lemma readcap_report_submitted (inv : SgReadcap.invocation) (r : run) :
  submitted (trace (before (SgReadcap.rep_invocation inv) r))
  = submitted (trace r).
Proof.
  unfold SgReadcap.rep_invocation.
  destruct (SgReadcap.SG3_UTILS_INVOCATION inv); reflexivity.
Qed.

Lemma requests_report_submitted (inv : SgRequests.invocation) (r : run) :
  submitted (trace (before (SgRequests.rep_invocation inv) r))
  = submitted (trace r).
Proof.
  unfold SgRequests.rep_invocation.
  destruct (SgRequests.SG3_UTILS_INVOCATION inv); reflexivity.
Qed.

Lemma readcap_report_exit (inv : SgReadcap.invocation) (r : run) :
  exit_code (before (SgReadcap.rep_invocation inv) r) = exit_code r.
Proof. reflexivity. Qed.

Lemma requests_report_exit (inv : SgRequests.invocation) (r : run) :
  exit_code (before (SgRequests.rep_invocation inv) r) = exit_code r.
Proof. reflexivity. Qed.

Lemma submitted_io (tr : list event) : submitted (io tr) = submitted tr.
Proof.
  unfold io. induction tr as [| e tr IH]; [ reflexivity | ].
  destruct e; cbn; rewrite ?IH; reflexivity.
Qed.

Lemma fd_scoped_io (tr : list event) (cur : option Z) :
  fd_scoped cur (io tr) = fd_scoped cur tr.
Proof.
  unfold io. revert cur.
  induction tr as [| e tr IH]; intros cur; [ reflexivity | ].
  destruct e; cbn; try apply IH.
  - destruct cur; [ reflexivity | apply IH ].
  - destruct cur; [ rewrite IH; reflexivity | reflexivity ].
  - destruct cur; [ rewrite IH; reflexivity | reflexivity ].
Qed.

Lemma io_nil_quiet (tr : list event) :
  io tr = [] <-> Forall (fun e => touches_device e = false) tr.
Proof.
  unfold io. induction tr as [| e tr IH]; cbn.
  - split; [ constructor | reflexivity ].
  - destruct (touches_device e) eqn:He.
    + split; [ discriminate | ]. intros H. inversion H; congruence.
    + rewrite IH. split; [ intros; constructor; assumption | ].
      intros H; inversion H; assumption.
Qed.

(** Splitting every test a goal branches on. *)
Ltac split_ifs :=
  repeat match goal with
         | |- context [if ?b then _ else _] => destruct b eqn:?
         | |- context [match ?x with Some _ => _ | None => _ end] =>
             destruct x eqn:?
         | |- context [match ?p with pair _ _ => _ end] => destruct p
         end.

(** ** sg_readcap: what reaches the device *)

Section ReadcapDevice.

Variable K : sg_lib_h.
Variable w : SgReadcap.world.

Lemma io_fini (op : SgReadcap.opts_t) (fd ret res : Z) :
  io (trace (SgReadcap.fini K w op fd ret res)) = closing fd.
Proof.
  unfold SgReadcap.fini, closing.
  split_ifs; reflexivity.
Qed.

Lemma io_after_commands (op : SgReadcap.opts_t) (fd ret res : Z) :
  io (trace (SgReadcap.after_commands K w op fd ret res)) = closing fd.
Proof.
  unfold SgReadcap.after_commands. rewrite trace_before, io_app, io_fini.
  destruct (SgReadcap.do_brief op); reflexivity.
Qed.

Lemma io_dump (op : SgReadcap.opts_t) (name : string) (len : Z) :
  io (SgReadcap.dump op name len) = [].
Proof. unfold SgReadcap.dump. split_ifs; reflexivity. Qed.

Lemma io_long_block (op : SgReadcap.opts_t) (fd ret res : Z)
      (buf : list byte) :
  io (trace (SgReadcap.long_block K w op fd ret res buf))
  = (if SgReadcap.do_long op && (0 <=? fd) then [rc16 w op fd] else [])
    ++ closing fd.
Proof.
  unfold SgReadcap.long_block, rc16.
  destruct (SgReadcap.do_long op); cbn [andb];
    [ | rewrite io_after_commands; reflexivity ].
  destruct (0 <=? fd) eqn:Hfd; cbn [Z.eqb]; split_ifs;
    rewrite trace_before, ?io_app, ?io_fini, ?io_after_commands, ?io_dump;
    reflexivity.
Qed.

Lemma readcap_do_long_set (op : SgReadcap.opts_t) :
  SgReadcap.do_long (SgReadcap.set_do_long true op) = true.
Proof. destruct op; reflexivity. Qed.

Lemma closing_neg (fd : Z) : (0 <=? fd) = false -> closing fd = [].
Proof. unfold closing. intros ->. reflexivity. Qed.

Lemma closing_pos (fd : Z) : (0 <=? fd) = true -> closing fd = [Close fd].
Proof. unfold closing. intros ->. reflexivity. Qed.

Lemma io_short_block (op : SgReadcap.opts_t) (fd res0 : Z)
      (buf : list byte) :
  io (trace (SgReadcap.short_block K w op fd res0 buf)) = short_block_io K w op fd.
Proof.
  unfold SgReadcap.short_block, short_block_io, rc10.
  destruct (0 <=? fd) eqn:Hfd.
  - destruct (0 =? fst (SgReadcap.w_readcap_10 w)).
    + destruct (truthy (SgReadcap.do_hex op) || SgReadcap.do_raw op);
        cbn [orb].
      * rewrite trace_before, !io_app, io_fini, io_dump, closing_pos by assumption.
        reflexivity.
      * destruct (negb _); [ destruct (SgReadcap.do_brief op) | ];
          rewrite trace_before, ?io_app, ?io_fini, ?io_long_block,
            ?readcap_do_long_set, ?Hfd, ?closing_pos by assumption;
          cbn [andb]; split_ifs; reflexivity.
    + destruct (SG_LIB_CAT_INVALID_OP K =? fst (SgReadcap.w_readcap_10 w));
        cbn [andb].
      * destruct (SgReadcap.w_reopen w <? 0) eqn:Hre.
        -- rewrite trace_before, !io_app, io_fini, closing_neg.
           ++ reflexivity.
           ++ apply Z.ltb_lt in Hre. apply Z.leb_gt. assumption.
        -- assert (Hpos : (0 <=? SgReadcap.w_reopen w) = true).
           { apply Z.ltb_ge in Hre. apply Z.leb_le. assumption. }
           rewrite trace_before, !io_app, io_long_block, readcap_do_long_set,
             Hpos, closing_pos by assumption.
           cbn [andb]. split_ifs; reflexivity.
      * rewrite trace_before, !io_app, io_long_block, Hfd, andb_true_r,
          closing_pos by assumption.
        reflexivity.
  - cbn [Z.eqb].
    destruct (truthy (SgReadcap.do_hex op) || SgReadcap.do_raw op).
    + rewrite trace_before, !io_app, io_fini, io_dump, closing_neg by assumption.
      reflexivity.
    + destruct (negb _); [ destruct (SgReadcap.do_brief op) | ];
        rewrite trace_before, ?io_app, ?io_fini, ?io_long_block, ?Hfd,
          ?andb_false_r, ?closing_neg by assumption;
        cbn [andb]; split_ifs; reflexivity.
Qed.

Lemma io_commands (op : SgReadcap.opts_t) (fd res : Z) (buf : list byte) :
  io (trace (SgReadcap.commands K w op fd res buf)) = commands_io K w op fd.
Proof.
  unfold SgReadcap.commands, commands_io.
  destruct (SgReadcap.do_long op) eqn:Hl; cbn [negb].
  - rewrite io_long_block, Hl. reflexivity.
  - apply io_short_block.
Qed.

Lemma commands_io_no_device (op : SgReadcap.opts_t) (fd : Z) :
  fd < 0 -> commands_io K w op fd = [].
Proof.
  intros Hfd. assert (H : (0 <=? fd) = false) by (apply Z.leb_gt; assumption).
  unfold commands_io, short_block_io, closing. rewrite H.
  destruct (negb (SgReadcap.do_long op)); reflexivity.
Qed.

Lemma commands_io_scoped (op : SgReadcap.opts_t) (fd : Z) :
  0 <= fd -> fd_scoped (Some fd) (commands_io K w op fd) = true.
Proof.
  intros Hfd. assert (H : (0 <=? fd) = true) by (apply Z.leb_le; assumption).
  unfold commands_io, short_block_io, closing, rc10, rc16. rewrite H.
  split_ifs; cbn; rewrite ?Z.eqb_refl; reflexivity.
Qed.

Lemma io_usage_for (op : SgReadcap.opts_t) : io (SgReadcap.usage_for op) = [].
Proof. unfold SgReadcap.usage_for. destruct (SgReadcap.opt_new op); reflexivity. Qed.

Lemma io_main_body (op : SgReadcap.opts_t) :
  io (trace (SgReadcap.main_body K w op)) = main_body_io K w op.
Proof.
  unfold SgReadcap.main_body, main_body_io.
  destruct (truthy (SgReadcap.do_help op)); [ apply io_usage_for | ].
  rewrite trace_before, io_app.
  replace (io (if SgReadcap.verbose_given op && SgReadcap.version_given op
               then _ else _)) with (@nil event)
    by (split_ifs; reflexivity).
  cbn [app].
  destruct (SgReadcap.version_given op); [ reflexivity | ].
  destruct (SgReadcap.do_json op && negb (SgReadcap.w_sgj_init_state w));
    [ reflexivity | ].
  destruct (match SgReadcap.inhex_fn op, SgReadcap.device_name op with
            | None, None => true
            | _, _ => false
            end);
    [ cbn [trace fst io filter touches_device]; apply io_usage_for | ].
  cbv zeta.
  set (op1 := match SgReadcap.inhex_fn op with
              | Some _ => SgReadcap.set_device_name None op
              | None => op
              end).
  rewrite trace_before, io_app.
  replace (io (match SgReadcap.inhex_fn op, SgReadcap.device_name op with
               | Some _, Some _ => _
               | _, _ => _
               end)) with (@nil event)
    by (destruct (SgReadcap.inhex_fn op), (SgReadcap.device_name op);
        split_ifs; reflexivity).
  cbn [app].
  destruct (SgReadcap.do_raw op1 && (SgReadcap.w_set_binary_mode w <? 0));
    [ reflexivity | ].
  set (op2 := if SgReadcap.do_zbc op1
              then SgReadcap.set_do_long true op1 else op1).
  destruct (negb (SgReadcap.do_pmi op2) && (0 <? SgReadcap.llba op2)).
  { rewrite trace_before, io_app, io_fini. cbn [io filter touches_device].
    rewrite io_usage_for. reflexivity. }
  destruct (negb (SgReadcap.w_memalign w)); [ reflexivity | ].
  destruct (SgReadcap.inhex_fn op2).
  - destruct (SgReadcap.w_f2hex_arr w) as [[res in_len] data].
    destruct (truthy res).
    + rewrite trace_before, io_app, io_fini. split_ifs; reflexivity.
    + destruct (in_len <? 4).
      * rewrite trace_before, io_app, io_fini. split_ifs; reflexivity.
      * rewrite trace_before, io_app, io_commands, commands_io_no_device by lia.
        split_ifs; reflexivity.
  - destruct (SgReadcap.w_open w <? 0) eqn:Hop.
    + rewrite trace_before, io_app, io_fini, closing_neg.
      * reflexivity.
      * apply Z.ltb_lt in Hop. apply Z.leb_gt. assumption.
    + rewrite trace_before, io_app, io_commands. reflexivity.
Qed.

Lemma main_body_io_scoped (op : SgReadcap.opts_t) :
  fd_scoped None (main_body_io K w op) = true.
Proof.
  unfold main_body_io. cbv zeta.
  destruct (truthy _); [ reflexivity | ].
  destruct (SgReadcap.version_given op); [ reflexivity | ].
  destruct (_ && _); [ reflexivity | ].
  destruct (SgReadcap.inhex_fn op), (SgReadcap.device_name op);
    try reflexivity.
  all: destruct (_ && _); [ reflexivity | ].
  all: destruct (_ && _); [ reflexivity | ].
  all: destruct (negb _); [ reflexivity | ].
  all: destruct (SgReadcap.inhex_fn _); [ reflexivity | ].
  all: destruct (SgReadcap.w_open w <? 0) eqn:Hop; [ reflexivity | ].
  all: cbn [fd_scoped]; apply commands_io_scoped.
  all: apply Z.ltb_ge; assumption.
Qed.

(** The parsers only print. *)

Lemma io_chk_short_opts (c : ascii) (op : SgReadcap.opts_t) :
  io (snd (SgReadcap.chk_short_opts K c op)) = [].
Proof. unfold SgReadcap.chk_short_opts. split_ifs; reflexivity. Qed.

Lemma io_chk_short_loop (cs : list ascii) (op : SgReadcap.opts_t) :
  io (msgs_of (SgReadcap.chk_short_loop K cs op)) = [].
Proof.
  revert op. induction cs as [| c cs IH]; intros op; [ reflexivity | ].
  cbn [SgReadcap.chk_short_loop].
  pose proof (io_chk_short_opts c op) as Hc.
  destruct (SgReadcap.chk_short_opts K c op) as [[q op1] m]. cbn [snd] in Hc.
  destruct (_ =? q); [ exact Hc | ].
  destruct (_ =? q); [ exact Hc | ].
  specialize (IH op1).
  destruct (SgReadcap.chk_short_loop K cs op1); cbn [msgs_of] in *;
    rewrite io_app, Hc, IH; reflexivity.
Qed.

Lemma io_usage : io SgReadcap.usage = [].
Proof. reflexivity. Qed.

Lemma io_new_opt_L (optarg : string) (op : SgReadcap.opts_t) :
  io (msgs_of (SgReadcap.new_opt_L K optarg op)) = [].
Proof. unfold SgReadcap.new_opt_L. split_ifs; reflexivity. Qed.

Lemma io_new_opt (g : SgReadcap.getopt_ev) (a_one : Z)
      (op : SgReadcap.opts_t) :
  io (msgs_of (fst (SgReadcap.new_opt K g a_one op))) = [].
Proof.
  unfold SgReadcap.new_opt.
  repeat match goal with
         | |- context [if ?b then _ else _] =>
             destruct b eqn:?; cbn [fst msgs_of]; try reflexivity
         end.
  all: repeat match goal with
         | |- context [match ?x with Some _ => _ | None => _ end] =>
             destruct x
         | |- context [match ?s with EmptyString => _ | String _ _ => _ end] =>
             destruct s as [| [[] [] [] [] [] [] [] []] ?]
         end.
  all: cbn [fst msgs_of];
    solve [ reflexivity | apply io_chk_short_loop | apply io_new_opt_L ].
Qed.

Lemma io_extra_args (tl : list string) :
  io (map (fun _ : string => Out "Unexpected extra argument: %s" []) tl) = [].
Proof. induction tl; [ reflexivity | assumption ]. Qed.

Lemma io_new_positional (rest : list string) (op : SgReadcap.opts_t) :
  io (msgs_of (SgReadcap.new_positional K rest op)) = [].
Proof.
  unfold SgReadcap.new_positional.
  destruct rest as [| a tl]; [ reflexivity | ].
  destruct (SgReadcap.device_name op).
  - cbn [msgs_of]. rewrite io_app, io_extra_args. reflexivity.
  - destruct tl; [ reflexivity | ].
    cbn [msgs_of]. rewrite io_app, io_extra_args. reflexivity.
Qed.

Lemma io_new_parse_loop (gs : list SgReadcap.getopt_ev) (rest : list string)
      (a_one : Z) (op : SgReadcap.opts_t) :
  io (msgs_of (SgReadcap.new_parse_loop K gs rest a_one op)) = [].
Proof.
  revert a_one op. induction gs as [| g gs IH]; intros a_one op.
  - apply io_new_positional.
  - cbn [SgReadcap.new_parse_loop].
    pose proof (io_new_opt g a_one op) as Hg.
    destruct (SgReadcap.new_opt K g a_one op) as [[op1 m | c op1 m] a1];
      cbn [fst msgs_of] in Hg; [ | exact Hg ].
    specialize (IH a1 op1).
    destruct (SgReadcap.new_parse_loop K gs rest a1 op1); cbn [msgs_of] in *;
      rewrite io_app, Hg, IH; reflexivity.
Qed.

Lemma io_old_arg (a : string) (op : SgReadcap.opts_t) :
  io (msgs_of (SgReadcap.old_arg K a op)) = [].
Proof.
  unfold SgReadcap.old_arg, SgReadcap.old_opt_lba.
  destruct (chars a) as [| c cp0]; [ reflexivity | ].
  destruct (SgReadcap.ch_is "-" c).
  - destruct (SgReadcap.old_scan cp0 op) as [op1 | cp jmp op1];
      [ reflexivity | ].
    destruct cp; [ reflexivity | ].
    split_ifs; reflexivity.
  - destruct (SgReadcap.device_name op); reflexivity.
Qed.

Lemma io_old_parse_loop (args : list string) (op : SgReadcap.opts_t) :
  io (msgs_of (SgReadcap.old_parse_loop K args op)) = [].
Proof.
  revert op. induction args as [| a args IH]; intros op; [ reflexivity | ].
  cbn [SgReadcap.old_parse_loop].
  pose proof (io_old_arg a op) as Ha.
  destruct (SgReadcap.old_arg K a op) as [op1 m | c op1 m];
    cbn [msgs_of] in Ha; [ | exact Ha ].
  specialize (IH op1).
  destruct (SgReadcap.old_parse_loop K args op1); cbn [msgs_of] in *;
    rewrite io_app, Ha, IH; reflexivity.
Qed.

Lemma io_finished (p : SgReadcap.parse_step) :
  snd (SgReadcap.finished p) = msgs_of p.
Proof. destruct p; reflexivity. Qed.

Lemma io_parse_cmd_line (inv : SgReadcap.invocation) (op : SgReadcap.opts_t) :
  io (snd (SgReadcap.parse_cmd_line K inv op)) = [].
Proof.
  unfold SgReadcap.parse_cmd_line, SgReadcap.new_parse_cmd_line,
    SgReadcap.old_parse_cmd_line.
  destruct (SgReadcap.SG3_UTILS_OLD_OPTS inv).
  - pose proof (io_old_parse_loop (SgReadcap.argv inv)
                  (SgReadcap.set_opt_new false op)) as H1.
    rewrite <- io_finished in H1.
    destruct (SgReadcap.finished _) as [[res op1] m]. cbn [snd] in H1.
    destruct ((res =? 0) && SgReadcap.opt_new op1); [ | exact H1 ].
    pose proof (io_new_parse_loop (SgReadcap.getopt_opts inv)
                  (SgReadcap.getopt_rest inv) 0 op1) as H2.
    rewrite <- io_finished in H2.
    destruct (SgReadcap.finished _) as [[res2 op2] m2]. cbn [snd] in *.
    rewrite io_app, H1, H2. reflexivity.
  - pose proof (io_new_parse_loop (SgReadcap.getopt_opts inv)
                  (SgReadcap.getopt_rest inv) 0
                  (SgReadcap.set_opt_new true op)) as H1.
    rewrite <- io_finished in H1.
    destruct (SgReadcap.finished _) as [[res op1] m]. cbn [snd] in H1.
    destruct ((res =? 0) && negb (SgReadcap.opt_new op1)); [ | exact H1 ].
    pose proof (io_old_parse_loop (SgReadcap.argv inv) op1) as H2.
    rewrite <- io_finished in H2.
    destruct (SgReadcap.finished _) as [[res2 op2] m2]. cbn [snd] in *.
    rewrite io_app, H1, H2. reflexivity.
Qed.

(** What [main] does to the device: nothing when the command line is
    refused, else what [main_body] does. *)
Lemma io_main (inv : SgReadcap.invocation) :
  io (trace (SgReadcap.main K w inv))
  = let '(res, op, _) := SgReadcap.parse_cmd_line K inv SgReadcap.opts_zero in
    if truthy res then [] else main_body_io K w op.
Proof.
  unfold SgReadcap.main. rewrite readcap_report_io.
  pose proof (io_parse_cmd_line inv SgReadcap.opts_zero) as Hp.
  destruct (SgReadcap.parse_cmd_line K inv SgReadcap.opts_zero)
    as [[res op] msgs].
  cbn [snd] in Hp.
  destruct (truthy res).
  - exact Hp.
  - rewrite trace_before, io_app, Hp, io_main_body. reflexivity.
Qed.

End ReadcapDevice.

(** ** sg_readcap: an LBA without --pmi *)

Lemma readcap_fini_exit_positive (K : sg_lib_h) (w : SgReadcap.world)
      (op : SgReadcap.opts_t) (ret res : Z) :
  0 < ret -> exit_code (SgReadcap.fini K w op (-1) ret res) = ret.
Proof.
  intros Hret. unfold SgReadcap.fini. cbn [Z.leb Z.compare].
  assert (H0 : (0 <=? ret) = true) by (apply Z.leb_le; lia).
  assert (H1 : (0 =? ret) = false) by (apply Z.eqb_neq; lia).
  rewrite H0.
  destruct (SgReadcap.do_json op); [ | reflexivity ].
  destruct (SgReadcap.js_file op) as [f |];
    [ destruct (negb (f =? "-")%string && negb (SgReadcap.w_js_fopen w)) | ];
    cbn [exit_code snd]; rewrite H1; reflexivity.
Qed.

(** C10, as the code has it: with a non-zero LBA and no [--pmi] nothing
    reaches the device (no open is attempted, no command submitted),
    whatever else is on the command line; and when the run gets as far as
    the check (no help or version requested, the JSON state set up, a
    DEVICE or [--inhex] given, binary mode set when asked for) the exit
    status is SG_LIB_CONTRADICT. *)
Theorem lba_without_pmi_stops_before_device
        (K : sg_lib_h) (w : SgReadcap.world) (inv : SgReadcap.invocation)
        (op : SgReadcap.opts_t) (msgs : list event) :
  SgReadcap.parse_cmd_line K inv SgReadcap.opts_zero = (0, op, msgs) ->
  SgReadcap.do_pmi op = false ->
  0 < SgReadcap.llba op ->
  io (trace (SgReadcap.main K w inv)) = []
  /\ (SgReadcap.do_help op = 0 ->
      SgReadcap.version_given op = false ->
      (SgReadcap.do_json op = true -> SgReadcap.w_sgj_init_state w = true) ->
      (SgReadcap.inhex_fn op <> None \/ SgReadcap.device_name op <> None) ->
      (SgReadcap.do_raw op = true -> 0 <= SgReadcap.w_set_binary_mode w) ->
      0 < SG_LIB_CONTRADICT K ->
      exit_code (SgReadcap.main K w inv) = SG_LIB_CONTRADICT K).
Proof.
  intros Hparse Hpmi Hlba.
  assert (Hlt : (0 <? SgReadcap.llba op) = true) by (apply Z.ltb_lt; assumption).
  split.
  - rewrite io_main, Hparse. cbn [truthy Z.eqb negb].
    unfold main_body_io.
    destruct op as [brief json long pmi raw ro zbc onew vg vrg help hex lba
                    verb llba dev inhex jarg jsf].
    cbn in Hpmi, Hlt |- *. subst pmi.
    destruct inhex, dev, zbc; cbn; rewrite ?Hlt; cbn;
      split_ifs; reflexivity.
  - intros Hhelp Hver Hjson Hdev Hraw Hcontra.
    unfold SgReadcap.main. rewrite readcap_report_exit, Hparse.
    cbn [truthy Z.eqb negb].
    rewrite exit_code_before. unfold SgReadcap.main_body.
    destruct op as [brief json long pmi raw ro zbc onew vg vrg help hex lba
                    verb llba dev inhex jarg jsf].
    cbn -[SgReadcap.fini] in Hpmi, Hlt, Hhelp, Hver, Hjson, Hdev, Hraw |- *.
    subst pmi help vrg. cbn -[SgReadcap.fini].
    assert (Hj : json && negb (SgReadcap.w_sgj_init_state w) = false).
    { destruct json; [ rewrite Hjson by reflexivity | ]; reflexivity. }
    rewrite Hj.
    assert (Hr : raw && (SgReadcap.w_set_binary_mode w <? 0) = false).
    { destruct raw; [ | reflexivity ]. cbn [andb].
      apply Z.ltb_ge. apply Hraw. reflexivity. }
    destruct inhex as [fn |], dev as [d |];
      try (exfalso; destruct Hdev as [H | H]; apply H; reflexivity).
    all: cbn -[SgReadcap.fini]; rewrite ?exit_code_before, Hr.
    all: destruct zbc; cbn -[SgReadcap.fini]; rewrite Hlt;
      cbn -[SgReadcap.fini];
      rewrite ?exit_code_before; apply readcap_fini_exit_positive; assumption.
Qed.

(** ** sg_simple1: what reaches the device, and the exit status *)

Section Simple1Device.

Variable E : SgSimple1.sg_err_h.
Variable w : SgSimple1.world.

Lemma io_simple1_parse_args (args : list string) (do_extra : Z)
      (file_name : option string) :
  io (snd (SgSimple1.parse_args args do_extra file_name)) = [].
Proof.
  revert do_extra file_name.
  induction args as [| a args IH]; intros do_extra file_name;
    [ reflexivity | ].
  cbn [SgSimple1.parse_args].
  destruct (Libc.has_prefix (chars "-x") (chars a)); [ apply IH | ].
  destruct (Libc.has_prefix (chars "-") (chars a)); [ reflexivity | ].
  destruct file_name; [ reflexivity | apply IH ].
Qed.

Lemma io_simple1_classify (what : string) (r : SgSimple1.sg_io_reply) :
  io (snd (SgSimple1.classify E what r)) = [].
Proof. unfold SgSimple1.classify. split_ifs; reflexivity. Qed.

Lemma io_simple1_extra (do_extra : Z) (what : string)
      (r : SgSimple1.sg_io_reply) :
  io (SgSimple1.extra do_extra what r) = [].
Proof. unfold SgSimple1.extra. split_ifs; reflexivity. Qed.

Lemma io_simple1_main (args : list string) :
  io (trace (SgSimple1.main E w args))
  = simple1_io E w (snd (fst (SgSimple1.parse_args args 0 None))).
Proof.
  unfold SgSimple1.main, simple1_io, inquiry, test_unit_ready.
  pose proof (io_simple1_parse_args args 0 None) as Hp.
  destruct (SgSimple1.parse_args args 0 None) as [[do_extra file_name] ev0].
  cbn [fst snd] in *.
  destruct file_name as [fn |];
    [ | cbn [trace fst]; rewrite io_app, Hp; reflexivity ].
  destruct (SgSimple1.w_open w <? 0);
    [ cbn [trace fst]; rewrite io_app, Hp; reflexivity | ].
  destruct (_ || _);
    [ cbn [trace fst]; rewrite !io_app, Hp; reflexivity | ].
  destruct (SgSimple1.io_ret (SgSimple1.w_inquiry w) <? 0);
    [ cbn [trace fst]; rewrite !io_app, Hp; reflexivity | ].
  pose proof (io_simple1_classify "INQUIRY" (SgSimple1.w_inquiry w)) as Hc1.
  destruct (SgSimple1.classify E "INQUIRY" (SgSimple1.w_inquiry w))
    as [ok1 evc1].
  cbn [snd] in Hc1.
  destruct (SgSimple1.io_ret (SgSimple1.w_test_unit_ready w) <? 0).
  - cbn [trace fst]. rewrite !io_app, Hp, Hc1.
    destruct ok1; rewrite ?io_app, ?io_simple1_extra; reflexivity.
  - pose proof (io_simple1_classify "Test Unit Ready"
                  (SgSimple1.w_test_unit_ready w)) as Hc2.
    destruct (SgSimple1.classify E "Test Unit Ready"
                (SgSimple1.w_test_unit_ready w)) as [ok2 evc2].
    cbn [snd] in Hc2.
    cbn [trace fst]. rewrite !io_app, Hp, Hc1, Hc2, io_simple1_extra.
    destruct ok1, ok2; rewrite ?io_app, ?io_simple1_extra; reflexivity.
Qed.

Lemma simple1_io_scoped (file_name : option string) :
  fd_scoped None (simple1_io E w file_name) = true.
Proof.
  unfold simple1_io, inquiry, test_unit_ready.
  destruct file_name; [ | reflexivity ].
  split_ifs; cbn; rewrite ?Z.eqb_refl; reflexivity.
Qed.



(** Every command is sent with the same timeout, 20000 milliseconds. *)
Lemma simple1_timeouts (file_name : option string) :
  Forall (fun cs => exists cdb, fst cs = SgIo cdb 20000)
         (submitted (simple1_io E w file_name)).
Proof.
  unfold simple1_io, inquiry, test_unit_ready.
  destruct file_name; [ | constructor ].
  split_ifs; cbn; repeat constructor; eexists; reflexivity.
Qed.


End Simple1Device.

(** ** sg_requests: what reaches the device *)

Lemma session_nil (fd : Z) (cmd : command) : session fd cmd [Close fd].
Proof. exists []. split; reflexivity. Qed.

Lemma session_last (fd : Z) (cmd : command) (st : status) :
  session fd cmd [Submit fd cmd st; Close fd].
Proof.
  exists [st]. split; [ reflexivity | ].
  cbn. rewrite andb_false_r. reflexivity.
Qed.

Lemma session_cons (fd : Z) (cmd : command) (st : status) (l : list event) :
  call_failed st = false -> session fd cmd l ->
  session fd cmd (Submit fd cmd st :: l).
Proof.
  intros Hst (sts & -> & Hno). exists (st :: sts). split; [ reflexivity | ].
  cbn. rewrite Hst, Hno. reflexivity.
Qed.

Lemma session_submitted (fd : Z) (cmd : command) (l : list event) :
  session fd cmd l ->
  Forall (fun cs => fst cs = cmd) (submitted l)
  /\ submits_after call_failed (submitted l) = false
  /\ fd_scoped (Some fd) l = true.
Proof.
  intros (sts & -> & Hno).
  assert (Hs : submitted (map (fun st => Submit fd cmd st) sts ++ [Close fd])
               = map (fun st => (cmd, st)) sts).
  { clear Hno. induction sts as [| st sts IH]; [ reflexivity | ].
    cbn. rewrite IH. reflexivity. }
  rewrite Hs. repeat split.
  - clear. induction sts; constructor; [ reflexivity | assumption ].
  - assumption.
  - clear. induction sts as [| st sts IH]; cbn; rewrite Z.eqb_refl;
      [ reflexivity | exact IH ].
Qed.

Section RequestsDevice.

Variable K : sg_lib_h.
Variable w : SgRequests.world.

Lemma io_requests_finish (l : SgRequests.locals) (nrh : bool) (fd ret : Z)
      (c : SgRequests.counters) :
  io (trace (SgRequests.finish K w l nrh fd ret c)) = closing fd.
Proof.
  unfold SgRequests.finish, closing. split_ifs; reflexivity.
Qed.

Lemma io_requests_on_sense (l : SgRequests.locals) (cat ret : Z)
      (c : SgRequests.counters) :
  io (snd (SgRequests.on_sense K l cat ret c)) = [].
Proof. unfold SgRequests.on_sense. split_ifs; reflexivity. Qed.

Lemma io_requests_after_loop (l : SgRequests.locals) (nrh : bool)
      (fd a ret : Z) (buf : list byte) (c : SgRequests.counters) :
  io (trace (SgRequests.after_loop K w l nrh fd a ret buf c)) = closing fd.
Proof.
  unfold SgRequests.after_loop.
  rewrite trace_before, io_app, io_requests_finish.
  destruct (_ && _); reflexivity.
Qed.

Lemma requests_status_call_failed (r : SgRequests.pt_reply) :
  call_failed (SgRequests.status_of r) = (-1 =? SgRequests.r_n r).
Proof. unfold SgRequests.status_of. split_ifs; reflexivity. Qed.

Lemma io_requests_request (l : SgRequests.locals) (cdb : list Z)
      (tmo fd : Z) (k : nat) (c : SgRequests.counters) :
  let '(n, _, ev, _) := SgRequests.request w l cdb tmo fd k c in
  io ev = pass_io w l cdb tmo fd k
  /\ n = if 1 <? SgRequests.do_error l then 0
         else SgRequests.r_n (SgRequests.w_reply w k).
Proof.
  unfold SgRequests.request, pass_io.
  destruct (1 <? SgRequests.do_error l); [ split; reflexivity | ].
  rewrite io_app. split; [ | reflexivity ].
  destruct (_ && _); reflexivity.
Qed.

Lemma session_pass (l : SgRequests.locals) (cdb : list Z) (tmo fd : Z)
      (k : nat) (n : Z) (rest : list event) :
  n = (if 1 <? SgRequests.do_error l then 0
       else SgRequests.r_n (SgRequests.w_reply w k)) ->
  (-1 =? n) = false ->
  session fd (ScsiPt cdb tmo) rest ->
  session fd (ScsiPt cdb tmo) (pass_io w l cdb tmo fd k ++ rest).
Proof.
  intros Hn Hne Hrest. unfold pass_io.
  destruct (1 <? SgRequests.do_error l); [ exact Hrest | ].
  cbn [app]. apply session_cons; [ | exact Hrest ].
  rewrite requests_status_call_failed, <- Hn. exact Hne.
Qed.

Lemma session_pass_last (l : SgRequests.locals) (cdb : list Z) (tmo fd : Z)
      (k : nat) :
  session fd (ScsiPt cdb tmo) (pass_io w l cdb tmo fd k ++ [Close fd]).
Proof.
  unfold pass_io. destruct (1 <? SgRequests.do_error l);
    [ apply session_nil | apply session_last ].
Qed.

Lemma plain_loop_session (l : SgRequests.locals) (nrh : bool)
      (cdb : list Z) (tmo fd : Z) (fuel : nat) :
  0 <= fd ->
  forall (k : nat) (a ret : Z) (buf : list byte) (c : SgRequests.counters),
    session fd (ScsiPt cdb tmo)
      (io (trace (SgRequests.plain_loop K w l nrh cdb tmo fd fuel k a ret
                                        buf c))).
Proof.
  intros Hfd. assert (Hc : closing fd = [Close fd]).
  { apply closing_pos. apply Z.leb_le. assumption. }
  induction fuel as [| fuel IH]; intros k a ret buf c.
  - cbn [SgRequests.plain_loop]. rewrite io_requests_after_loop, Hc.
    apply session_nil.
  - cbn [SgRequests.plain_loop].
    pose proof (io_requests_request l cdb tmo fd k c) as Hreq.
    destruct (SgRequests.request w l cdb tmo fd k c) as [[[n buf1] ev] c0].
    destruct Hreq as [Hev Hn].
    destruct (-1 =? n) eqn:Hm1.
    + rewrite trace_before, io_app, io_requests_finish, Hev, Hc.
      apply session_pass_last.
    + pose proof (io_requests_on_sense l
                    (SgRequests.r_sense_cat (SgRequests.w_reply w k)) 0 c0)
        as Hos.
      destruct (if -2 =? n then _ else _) as [[c1 ret1] ev1] eqn:Hsw.
      assert (Hev1 : io ev1 = []).
      { destruct (-2 =? n).
        - rewrite Hsw in Hos. exact Hos.
        - inversion Hsw. reflexivity. }
      destruct (if 7 <? _ then _ else _) as [c2 ev2] eqn:Hn2.
      assert (Hev2 : io ev2 = []).
      { revert Hn2. split_ifs; intros Hn2; inversion Hn2; reflexivity. }
      destruct (truthy ret1).
      * rewrite trace_before, !io_app, io_requests_finish, Hev, Hev1, Hev2, Hc.
        rewrite !app_nil_r. apply session_pass_last.
      * rewrite trace_before, !io_app, Hev, Hev1, Hev2.
        replace (io (if 0 <? _ then _ else _)) with (@nil event)
          by (split_ifs; reflexivity).
        rewrite !app_nil_r. apply (session_pass l cdb tmo fd k n); auto.
Qed.

Lemma progress_loop_session (l : SgRequests.locals) (nrh : bool)
      (cdb : list Z) (tmo fd : Z) (fuel : nat) :
  0 <= fd ->
  forall (k : nat) (ret : Z) (c : SgRequests.counters),
    session fd (ScsiPt cdb tmo)
      (io (trace (SgRequests.progress_loop K w l nrh cdb tmo fd fuel k ret
                                           c))).
Proof.
  intros Hfd. assert (Hc : closing fd = [Close fd]).
  { apply closing_pos. apply Z.leb_le. assumption. }
  induction fuel as [| fuel IH]; intros k ret c.
  - cbn [SgRequests.progress_loop]. rewrite io_requests_finish, Hc.
    apply session_nil.
  - cbn [SgRequests.progress_loop].
    pose proof (io_requests_request l cdb tmo fd k c) as Hreq.
    destruct (SgRequests.request w l cdb tmo fd k c) as [[[n buf1] ev] c0].
    destruct Hreq as [Hev Hn].
    destruct (-1 =? n) eqn:Hm1.
    + rewrite trace_before, io_app, io_requests_finish, Hev, Hc.
      apply session_pass_last.
    + pose proof (io_requests_on_sense l
                    (SgRequests.r_sense_cat (SgRequests.w_reply w k)) ret c0)
        as Hos.
      destruct (if -2 =? n then _ else _) as [[c1 ret1] ev1] eqn:Hsw.
      assert (Hev1 : io ev1 = []).
      { destruct (-2 =? n).
        - rewrite Hsw in Hos. exact Hos.
        - inversion Hsw. reflexivity. }
      destruct (truthy ret1).
      * rewrite trace_before, !io_app, io_requests_finish, Hev, Hev1, Hc.
        rewrite !app_nil_r. apply session_pass_last.
      * destruct (_ <? 0).
        -- rewrite trace_before, !io_app, io_requests_finish, Hev, Hev1, Hc.
           replace (io (if 1 <? SgRequests.verbose l
                        then [Out "Parameter data in hex" _] else []))
             with (@nil event) by (split_ifs; reflexivity).
           replace (io (if 1 <? SgRequests.verbose l
                        then [Out "No progress indication found, iteration %d" _]
                        else []))
             with (@nil event) by (split_ifs; reflexivity).
           rewrite !app_nil_r. apply session_pass_last.
        -- rewrite trace_before, !io_app, Hev, Hev1.
           replace (io (if 1 <? SgRequests.verbose l
                        then [Out "Parameter data in hex" _] else []))
             with (@nil event) by (split_ifs; reflexivity).
           cbn [app io filter touches_device]. rewrite !app_nil_r.
           apply (session_pass l cdb tmo fd k n); auto.
Qed.

Lemma requests_main_body_shape (l : SgRequests.locals) :
  requests_shape w l (io (trace (SgRequests.main_body K w l))).
Proof.
  unfold SgRequests.main_body, requests_shape, request_sense, maxlen_used,
    tmo_used.
  rewrite trace_before, io_app.
  replace (io (if SgRequests.verbose_given l && SgRequests.version_given l
               then _ else _)) with (@nil event)
    by (split_ifs; reflexivity).
  cbn [app].
  destruct (SgRequests.version_given l); [ left; reflexivity | ].
  destruct (SgRequests.device_name l) as [dev |]; [ | left; reflexivity ].
  destruct (_ && _); [ left; reflexivity | ].
  destruct (_ && _).
  { left. rewrite trace_before, io_app, io_requests_finish. reflexivity. }
  destruct (SgRequests.w_open w <? 0) eqn:Hop.
  { right; left. exists dev.
    rewrite trace_before, io_app, io_requests_finish, closing_neg.
    - split_ifs; reflexivity.
    - apply Z.ltb_lt in Hop. apply Z.leb_gt. assumption. }
  apply Z.ltb_ge in Hop.
  right; right. exists dev.
  rewrite trace_before, io_app. cbn [io filter touches_device app].
  eexists. split; [ reflexivity | ].
  destruct (match SgRequests.w_construct w with
            | Some err => truthy err
            | None => true
            end).
  - rewrite trace_before, io_app, io_requests_finish, closing_pos
      by (apply Z.leb_le; assumption).
    match goal with
    | |- context [io (if ?b then _ else _)] => destruct b
    end; apply session_nil.
  - destruct (SgRequests.do_progress l).
    + apply progress_loop_session. assumption.
    + apply plain_loop_session. assumption.
Qed.

Lemma requests_shape_facts (l : SgRequests.locals) (tr : list event) :
  requests_shape w l tr ->
  Forall (fun cs => fst cs = request_sense l) (submitted tr)
  /\ submits_after call_failed (submitted tr) = false
  /\ fd_scoped None tr = true.
Proof.
  intros [-> | [(dev & ->) | (dev & tl & -> & Hs)]].
  - repeat split. constructor.
  - repeat split. constructor.
  - apply session_submitted in Hs. exact Hs.
Qed.

(** The option loop only prints. *)
Lemma io_requests_parse (inv : SgRequests.invocation) (code : Z)
      (msgs : list event) :
  SgRequests.parse K inv = SgRequests.Exit code msgs -> io msgs = [].
Proof.
  unfold SgRequests.parse.
  assert (Hopt : forall g l c m,
             SgRequests.opt K g l = SgRequests.Exit c m -> io m = []).
  { intros g l c m. unfold SgRequests.opt. destruct l.
    split_ifs; intros H; inversion H; reflexivity. }
  assert (Hopts : forall gs l c m,
             SgRequests.options K gs l = SgRequests.Exit c m -> io m = []).
  { induction gs as [| g gs IH]; intros l c m; cbn [SgRequests.options].
    - discriminate.
    - destruct (SgRequests.opt K g l) eqn:Hg.
      + apply IH.
      + intros H. inversion H; subst. eapply Hopt. exact Hg. }
  destruct (SgRequests.options K (SgRequests.getopt_opts inv)
              SgRequests.locals_init) eqn:Ho.
  - unfold SgRequests.positional.
    destruct (SgRequests.getopt_rest inv) as [| a tl]; [ discriminate | ].
    destruct l. destruct device_name; [ | destruct tl ]; try discriminate.
    all: intros H; inversion H.
    all: change (io (Out ?f ?x :: ?tl)) with (io tl);
      rewrite io_app, io_extra_args; reflexivity.
  - intros H. inversion H; subst. eapply Hopts. exact Ho.
Qed.

Lemma requests_main_shape (inv : SgRequests.invocation) :
  match SgRequests.parse K inv with
  | SgRequests.Parsed l =>
      requests_shape w l (io (trace (SgRequests.main K w inv)))
  | SgRequests.Exit _ _ => io (trace (SgRequests.main K w inv)) = []
  end.
Proof.
  unfold SgRequests.main. rewrite requests_report_io.
  destruct (SgRequests.parse K inv) eqn:Hp.
  - apply requests_main_body_shape.
  - apply (io_requests_parse inv code msgs Hp).
Qed.

End RequestsDevice.

Section RequestsOptions.

Variable K : sg_lib_h.

Lemma requests_opt_fields (g : SgRequests.getopt_ev)
      (l0 l1 : SgRequests.locals) :
  SgRequests.opt K g l0 = SgRequests.Parsed l1 ->
  SgRequests.desc l1
    = SgRequests.desc l0 || SgRequests.ch_is (SgRequests.g_c g) "d"
  /\ SgRequests.do_error l1
    = SgRequests.do_error l0
      + (if SgRequests.ch_is (SgRequests.g_c g) "e" then 1 else 0)
  /\ SgRequests.maxlen l1
    = (if SgRequests.ch_is (SgRequests.g_c g) "m"
       then sg_get_num K (SgRequests.g_optarg g) else SgRequests.maxlen l0)
  /\ SgRequests.tmo l1
    = (if SgRequests.ch_is (SgRequests.g_c g) "T"
       then sg_get_num K (SgRequests.g_optarg g) else SgRequests.tmo l0)
  /\ (0 <= SgRequests.maxlen l0 <= 255 -> 0 <= SgRequests.maxlen l1 <= 255)
  /\ (0 <= SgRequests.tmo l0 -> 0 <= SgRequests.tmo l1).
Proof.
  unfold SgRequests.opt. destruct g as [c optarg]. destruct l0.
  cbn [SgRequests.g_c SgRequests.g_optarg SgRequests.desc SgRequests.do_error
       SgRequests.maxlen SgRequests.tmo].
  unfold SgRequests.MAX_REQS_RESP_LEN.
  repeat match goal with
         | |- context [if SgRequests.ch_is c ?x then _ else _] =>
             destruct (SgRequests.ch_is c x) eqn:?
         | |- context [if ?b then _ else _] => destruct b eqn:?
         end.
  all: intros H; inversion H; subst; clear H.
  all: cbn [SgRequests.desc SgRequests.do_error SgRequests.maxlen
            SgRequests.tmo].
  all: unfold SgRequests.ch_is in *.
  all: repeat match goal with
         | H : Ascii.eqb ?c _ = true |- _ => apply Ascii.eqb_eq in H; subst c
         end.
  all: cbn [Ascii.eqb Bool.eqb] in *; try discriminate.
  all: repeat match goal with
         | H : Ascii.eqb ?c ?x = false |- context [Ascii.eqb ?c ?x] =>
             rewrite H
         end.
  all: rewrite ?orb_false_r, ?orb_true_r, ?Z.add_0_r.
  all: repeat split; try reflexivity; try lia.
Qed.

Lemma requests_options_fields (gs : list SgRequests.getopt_ev) :
  forall l0 l : SgRequests.locals,
    SgRequests.options K gs l0 = SgRequests.Parsed l ->
    SgRequests.desc l = SgRequests.desc l0 || given "d" gs
    /\ SgRequests.do_error l
      = SgRequests.do_error l0
        + Z.of_nat (List.length
                      (filter (fun g => SgRequests.ch_is (SgRequests.g_c g) "e")
                              gs))
    /\ SgRequests.maxlen l = num_or K (SgRequests.maxlen l0) (last_arg "m" gs)
    /\ SgRequests.tmo l = num_or K (SgRequests.tmo l0) (last_arg "T" gs)
    /\ (0 <= SgRequests.maxlen l0 <= 255 -> 0 <= SgRequests.maxlen l <= 255)
    /\ (0 <= SgRequests.tmo l0 -> 0 <= SgRequests.tmo l).
Proof.
  induction gs as [| g gs IH]; intros l0 l; cbn [SgRequests.options].
  - intros H. inversion H; subst. cbn.
    rewrite orb_false_r, Z.add_0_r. tauto.
  - destruct (SgRequests.opt K g l0) as [l1 |] eqn:Hg; [ | discriminate ].
    intros H. apply IH in H.
    destruct H as (Hd & He & Hm & Ht & Hmr & Htr).
    apply requests_opt_fields in Hg.
    destruct Hg as (Hd1 & He1 & Hm1 & Ht1 & Hmr1 & Htr1).
    cbn [given existsb last_arg filter].
    split; [ | split; [ | split; [ | split; [ | split; tauto ] ] ] ].
    + rewrite Hd, Hd1. unfold given. rewrite orb_assoc. reflexivity.
    + rewrite He, He1.
      destruct (SgRequests.ch_is (SgRequests.g_c g) "e");
        cbn [List.length]; lia.
    + rewrite Hm, Hm1.
      destruct (last_arg "m" gs); [ reflexivity | ].
      destruct (SgRequests.ch_is (SgRequests.g_c g) "m"); reflexivity.
    + rewrite Ht, Ht1.
      destruct (last_arg "T" gs); [ reflexivity | ].
      destruct (SgRequests.ch_is (SgRequests.g_c g) "T"); reflexivity.
Qed.

Lemma given_filter (c : ascii) (gs : list SgRequests.getopt_ev) :
  (Z.of_nat (List.length
               (filter (fun g => SgRequests.ch_is (SgRequests.g_c g) c) gs))
   =? 0) = negb (given c gs).
Proof.
  unfold given. induction gs as [| g gs IH]; [ reflexivity | ].
  cbn [filter existsb].
  destruct (SgRequests.ch_is (SgRequests.g_c g) c); [ | exact IH ].
  cbn [List.length orb negb]. apply Z.eqb_neq. lia.
Qed.

(** What the command line says, read off the options: the fields of the
    locals that shape the command. *)
Lemma requests_parse_fields (inv : SgRequests.invocation)
      (l : SgRequests.locals) :
  SgRequests.parse K inv = SgRequests.Parsed l ->
  SgRequests.desc l = given "d" (SgRequests.getopt_opts inv)
  /\ truthy (SgRequests.do_error l) = given "e" (SgRequests.getopt_opts inv)
  /\ SgRequests.maxlen l
    = num_or K 0 (last_arg "m" (SgRequests.getopt_opts inv))
  /\ SgRequests.tmo l = num_or K 0 (last_arg "T" (SgRequests.getopt_opts inv))
  /\ 0 <= SgRequests.maxlen l <= 255
  /\ 0 <= SgRequests.tmo l.
Proof.
  unfold SgRequests.parse.
  destruct (SgRequests.options K (SgRequests.getopt_opts inv)
              SgRequests.locals_init) as [l1 |] eqn:Ho; [ | discriminate ].
  apply requests_options_fields in Ho.
  destruct Ho as (Hd & He & Hm & Ht & Hmr & Htr).
  cbn [SgRequests.locals_init SgRequests.desc SgRequests.do_error
       SgRequests.maxlen SgRequests.tmo orb Z.add] in *.
  intros Hpos.
  assert (Hsame : SgRequests.desc l = SgRequests.desc l1
                  /\ SgRequests.do_error l = SgRequests.do_error l1
                  /\ SgRequests.maxlen l = SgRequests.maxlen l1
                  /\ SgRequests.tmo l = SgRequests.tmo l1).
  { unfold SgRequests.positional in Hpos.
    destruct (SgRequests.getopt_rest inv) as [| a tl];
      [ inversion Hpos; subst; tauto | ].
    destruct l1. destruct device_name; [ discriminate | ].
    destruct tl; [ | discriminate ].
    inversion Hpos; subst. repeat split; reflexivity. }
  destruct Hsame as (-> & -> & -> & ->).
  repeat split; try assumption; try lia.
  unfold truthy. rewrite He, given_filter, negb_involutive. reflexivity.
Qed.

End RequestsOptions.

(** ** sg_requests: the exit status of a single REQUEST SENSE *)

Section RequestsExit.

Variable K : sg_lib_h.
Variable w : SgRequests.world.


Lemma requests_finish_exit_zero (l : SgRequests.locals) (nrh : bool)
      (fd : Z) (c : SgRequests.counters) :
  0 <= SgRequests.w_close w ->
  exit_code (SgRequests.finish K w l nrh fd 0 c) = 0.
Proof.
  intros Hcl. unfold SgRequests.finish.
  assert (H0 : (SgRequests.w_close w <? 0) = false) by (apply Z.ltb_ge; lia).
  rewrite H0. destruct (0 <=? fd); reflexivity.
Qed.



End RequestsExit.

(** ** sg_decode_sense: sense bytes from the command line *)

Lemma store_length (a : list Z) (i : nat) (v : Z) (a' : list Z) :
  SgDecodeSense.store a i v = Some a' -> List.length a' = List.length a.
Proof.
  revert i a'. induction a as [| x a IH]; intros i a'; [ discriminate | ].
  destruct i as [| i]; cbn [SgDecodeSense.store].
  - intros H; inversion H; reflexivity.
  - destruct (SgDecodeSense.store a i v) eqn:Hs; [ | discriminate ].
    intros H; inversion H; subst. cbn [List.length]. f_equal.
    apply (IH i). assumption.
Qed.

Lemma store_in_bounds (a : list Z) (i : nat) (v : Z) :
  (i < List.length a)%nat -> exists a', SgDecodeSense.store a i v = Some a'.
Proof.
  revert i. induction a as [| x a IH]; intros i Hi; [ inversion Hi | ].
  destruct i as [| i]; cbn [SgDecodeSense.store].
  - eexists; reflexivity.
  - destruct (IH i) as [a' Ha]; [ cbn in Hi; lia | ].
    rewrite Ha. eexists; reflexivity.
Qed.

(** The first [i] elements stay, element [i] becomes [v]. *)
Lemma store_firstn (a : list Z) (i : nat) (v : Z) (a' : list Z) :
  SgDecodeSense.store a i v = Some a' ->
  firstn (S i) a' = firstn i a ++ [v].
Proof.
  revert i a'. induction a as [| x a IH]; intros i a'; [ discriminate | ].
  destruct i as [| i]; cbn [SgDecodeSense.store].
  - intros H; inversion H; reflexivity.
  - destruct (SgDecodeSense.store a i v) eqn:Hs; [ | discriminate ].
    intros H; inversion H; subst.
    change (firstn (S (S i)) (x :: l)) with (x :: firstn (S i) l).
    rewrite (IH i l Hs). reflexivity.
Qed.

Lemma byte_token_value (avp : string) :
  SgDecodeSense.byte_token avp = true ->
  0 <= SgDecodeSense.token_value avp <= 255.
Proof.
  unfold SgDecodeSense.byte_token, SgDecodeSense.token_value.
  destruct (Libc.strtol16 (chars avp)) as [val endptr]. cbn [fst].
  intros H. apply andb_true_iff in H. destruct H as [H Hhi].
  apply andb_true_iff in H. destruct H as [_ Hlo].
  apply negb_true_iff in Hhi, Hlo.
  apply Z.ltb_ge in Hhi, Hlo. lia.
Qed.

Lemma decode_sense_fields_sense (a : list Z) (n : Z)
      (op : SgDecodeSense.opts_t) :
  let op' := SgDecodeSense.set_sense_len n (SgDecodeSense.set_sense a op) in
  SgDecodeSense.sense op' = a
  /\ SgDecodeSense.sense_len op' = n
  /\ SgDecodeSense.no_space op' = SgDecodeSense.no_space op.
Proof. destruct op; repeat split; reflexivity. Qed.

Lemma decode_sense_fields_ns (p : SgDecodeSense.ns_ptr)
      (op : SgDecodeSense.opts_t) :
  let op' := SgDecodeSense.set_no_space_str p op in
  SgDecodeSense.sense op' = SgDecodeSense.sense op
  /\ SgDecodeSense.sense_len op' = SgDecodeSense.sense_len op
  /\ SgDecodeSense.no_space op' = SgDecodeSense.no_space op.
Proof. destruct op; repeat split; reflexivity. Qed.

Section DecodeSenseArgs.

Variable K : sg_lib_h.


(** Without [--nospace]: the arguments taken are byte tokens, stored in
    order from [sense_len] on; anything else ends in a syntax error. *)
Lemma sense_args_tokens (avs : list string) :
  forall (op : SgDecodeSense.opts_t) (cb : string),
    SgDecodeSense.no_space op = false ->
    List.length (SgDecodeSense.sense op) = SENSE_SZ ->
    0 <= SgDecodeSense.sense_len op <= SgDecodeSense.MAX_SENSE_LEN + 1 ->
    match SgDecodeSense.sense_args K avs op cb with
    | SgDecodeSense.Overrun _ _ => False
    | SgDecodeSense.Returned code op' _ =>
        (code = 0
         /\ Forall (fun avp => SgDecodeSense.byte_token avp = true) avs
         /\ SgDecodeSense.sense_len op'
            = SgDecodeSense.sense_len op + Z.of_nat (List.length avs)
         /\ firstn (Z.to_nat (SgDecodeSense.sense_len op'))
                   (SgDecodeSense.sense op')
            = firstn (Z.to_nat (SgDecodeSense.sense_len op))
                     (SgDecodeSense.sense op)
              ++ map SgDecodeSense.token_value avs)
        \/ (code = SG_LIB_SYNTAX_ERROR K
            /\ (Exists (fun avp => SgDecodeSense.byte_token avp = false) avs
                \/ SgDecodeSense.MAX_SENSE_LEN + 1
                   < SgDecodeSense.sense_len op + Z.of_nat (List.length avs)))
    end.
Proof.
  induction avs as [| avp avs IH]; intros op cb Hns Hlen Hsl;
    cbn [SgDecodeSense.sense_args].
  - left. cbn [List.length map]. rewrite Z.add_0_r, app_nil_r.
    repeat split. constructor.
  - rewrite Hns.
    destruct (SgDecodeSense.byte_token avp) eqn:Htok; cbn [negb].
    2:{ right. split; [ reflexivity | ]. left. constructor. assumption. }
    destruct (SgDecodeSense.MAX_SENSE_LEN <? SgDecodeSense.sense_len op)
      eqn:Hmax.
    { right. split; [ reflexivity | ]. right.
      apply Z.ltb_lt in Hmax. cbn [List.length]. lia. }
    apply Z.ltb_ge in Hmax.
    destruct (SgDecodeSense.sense_len op <? 0) eqn:Hneg;
      [ apply Z.ltb_lt in Hneg; lia | ].
    destruct (store_in_bounds (SgDecodeSense.sense op)
                (Z.to_nat (SgDecodeSense.sense_len op))
                (wrap 8 (SgDecodeSense.token_value avp))) as [a Ha].
    { rewrite Hlen. unfold SENSE_SZ, SgDecodeSense.MAX_SENSE_LEN in *. lia. }
    rewrite Ha.
    pose proof (decode_sense_fields_sense a (SgDecodeSense.sense_len op + 1)
                  op) as (Hs & Hl & Hn).
    cbv zeta in Hs, Hl, Hn.
    set (op1 := SgDecodeSense.set_sense_len _ _) in *.
    specialize (IH op1 cb).
    destruct (SgDecodeSense.sense_args K avs op1 cb) as [code op' cb' |];
      [ | apply IH; [ rewrite Hn; assumption
                    | rewrite Hs, (store_length _ _ _ _ Ha); assumption
                    | rewrite Hl; lia ] ].
    destruct IH as [(Hc & Hall & Hsl' & Hfirst) | (Hc & Hbad)].
    + rewrite Hn; assumption.
    + rewrite Hs, (store_length _ _ _ _ Ha); assumption.
    + rewrite Hl; lia.
    + left. split; [ assumption | ].
      split; [ constructor; assumption | ].
      split; [ rewrite Hsl', Hl; cbn [List.length]; lia | ].
      rewrite Hfirst, Hl, Hs.
      replace (Z.to_nat (SgDecodeSense.sense_len op + 1))
        with (S (Z.to_nat (SgDecodeSense.sense_len op))) by lia.
      rewrite (store_firstn _ _ _ _ Ha).
      unfold wrap. rewrite Z.mod_small
        by (pose proof (byte_token_value avp Htok); lia).
      rewrite <- app_assoc. reflexivity.
    + right. split; [ assumption | ].
      destruct Hbad as [Hex | Hover].
      * left. apply Exists_cons_tl. assumption.
      * right. rewrite Hl in Hover. cbn [List.length]. lia.
Qed.

End DecodeSenseArgs.

Section DecodeSenseParse.

Variable K : sg_lib_h.

Lemma same_sense_trans (a b c : SgDecodeSense.opts_t) :
  same_sense a b -> same_sense b c -> same_sense a c.
Proof. unfold same_sense. intros [-> ->] [-> ->]. split; reflexivity. Qed.

Lemma same_sense_chk_short_opts (c : ascii) (op : SgDecodeSense.opts_t) :
  same_sense op (snd (SgDecodeSense.chk_short_opts K c op)).
Proof.
  unfold SgDecodeSense.chk_short_opts, same_sense.
  destruct op. split_ifs; split; reflexivity.
Qed.

Lemma same_sense_chk_short_loop (cs : list ascii) :
  forall op, same_sense op (step_op (SgDecodeSense.chk_short_loop K cs op)).
Proof.
  induction cs as [| c cs IH]; intros op;
    cbn [SgDecodeSense.chk_short_loop]; [ split; reflexivity | ].
  pose proof (same_sense_chk_short_opts c op) as Hc.
  destruct (SgDecodeSense.chk_short_opts K c op) as [q op1]. cbn [snd] in Hc.
  split_ifs; cbn [step_op]; try assumption.
  eapply same_sense_trans; [ exact Hc | apply IH ].
Qed.

Lemma same_sense_opt (g : SgDecodeSense.getopt_ev)
      (op : SgDecodeSense.opts_t) :
  same_sense op (step_op (SgDecodeSense.opt K g op)).
Proof.
  unfold SgDecodeSense.opt, SgDecodeSense.one_file.
  repeat match goal with
         | |- context [if ?b then _ else _] => destruct b
         | |- context [match ?x with Some _ => _ | None => _ end] =>
             destruct x
         | |- context [match ?s with EmptyString => _ | String _ _ => _ end] =>
             destruct s as [| [[] [] [] [] [] [] [] []] ?]
         end.
  all: cbn [step_op].
  all: try (eapply same_sense_trans; [ | apply same_sense_chk_short_loop ]).
  all: destruct op; split; reflexivity.
Qed.

Lemma same_sense_options (gs : list SgDecodeSense.getopt_ev) :
  forall op, same_sense op (step_op (SgDecodeSense.options K gs op)).
Proof.
  induction gs as [| g gs IH]; intros op; cbn [SgDecodeSense.options];
    [ split; reflexivity | ].
  pose proof (same_sense_opt g op) as Hg.
  destruct (SgDecodeSense.opt K g op); cbn [step_op] in *; [ | assumption ].
  eapply same_sense_trans; [ exact Hg | apply IH ].
Qed.

End DecodeSenseParse.

(** ** sg_readcap: sample decodings *)

Lemma readcap16_decode_fields_witness :
  let d := SgReadcap.decode_rcap16 Samples.rcap16_resp in
  SgReadcap.llast_blk_addr d
    = Layout.be_value (Layout.bytes_from Samples.rcap16_resp 0 8)
  /\ SgReadcap.block_size16 d
    = Layout.be_value (Layout.bytes_from Samples.rcap16_resp 8 4)
  /\ SgReadcap.rc_basis d = Layout.bits (byte_at Samples.rcap16_resp 12) 5 4
  /\ SgReadcap.p_type d = Layout.bits (byte_at Samples.rcap16_resp 12) 3 1
  /\ SgReadcap.prot_en d = Layout.bit (byte_at Samples.rcap16_resp 12) 0
  /\ SgReadcap.p_i_exponent d
    = Layout.bits (byte_at Samples.rcap16_resp 13) 7 4
  /\ SgReadcap.lbppbe d = Layout.bits (byte_at Samples.rcap16_resp 13) 3 0
  /\ SgReadcap.Zb (SgReadcap.lbpme d)
    = Layout.bit (byte_at Samples.rcap16_resp 14) 7
  /\ SgReadcap.Zb (SgReadcap.lbprz d)
    = Layout.bit (byte_at Samples.rcap16_resp 14) 6
  /\ SgReadcap.lalba d
    = Layout.bits (byte_at Samples.rcap16_resp 14) 5 0 * 2 ^ 8
      + byte_at Samples.rcap16_resp 15.
Proof.
  apply (readcap16_decode_fields Samples.rcap16_resp). reflexivity.
Defined.

Example readcap16_sample :
  SgReadcap.decode_rcap16 Samples.rcap16_resp
  = SgReadcap.Build_rcap16 66051 512 1 1 1 2 3 true true 261.
Proof. reflexivity. Qed.


(** [sg_readcap --lba=5 /dev/sg0]: nothing reaches the device and the exit
    status is SG_LIB_CONTRADICT. *)
Lemma lba_without_pmi_stops_before_device_witness :
  io (trace (SgReadcap.main Samples.K Samples.readcap_ok
                            Samples.readcap_lba_dev)) = []
  /\ exit_code (SgReadcap.main Samples.K Samples.readcap_ok
                               Samples.readcap_lba_dev)
     = SG_LIB_CONTRADICT Samples.K.
Proof.
  destruct (lba_without_pmi_stops_before_device
              Samples.K Samples.readcap_ok Samples.readcap_lba_dev
              _ _ eq_refl eq_refl eq_refl) as [Hq Hx].
  split; [ exact Hq | ].
  apply Hx.
  all: vm_compute.
  all: first [ reflexivity | right; discriminate | intros H; discriminate H ].
Defined.

(** [sg_readcap --lba=5], no DEVICE: the LBA is non-zero and [--pmi] is
    absent, yet the exit status is that of a syntax error. *)
Lemma lba_without_pmi_counterexample :
  exists op msgs,
    SgReadcap.parse_cmd_line Samples.K Samples.readcap_lba_only
                             SgReadcap.opts_zero = (0, op, msgs)
    /\ SgReadcap.do_pmi op = false
    /\ 0 < SgReadcap.llba op
    /\ exit_code (SgReadcap.main Samples.K Samples.readcap_ok
                                 Samples.readcap_lba_only)
       = SG_LIB_SYNTAX_ERROR Samples.K
    /\ SG_LIB_SYNTAX_ERROR Samples.K <> SG_LIB_CONTRADICT Samples.K.
Proof.
  eexists. eexists. split; [ reflexivity | ].
  repeat split. discriminate.
Qed.

(** ** The descriptor is closed once *)

(** C5: in sg_simple1, sg_readcap and sg_requests alike, on every run a
    descriptor is opened only while none is held, commands and the close
    go to the descriptor held, and none is held when the program exits:
    each descriptor that was opened is closed exactly once. *)
Theorem descriptor_closed_once :
  (forall (E : SgSimple1.sg_err_h) (w : SgSimple1.world) (args : list string),
      fd_scoped None (trace (SgSimple1.main E w args)) = true)
  /\ (forall (K : sg_lib_h) (w : SgReadcap.world) (inv : SgReadcap.invocation),
      fd_scoped None (trace (SgReadcap.main K w inv)) = true)
  /\ (forall (K : sg_lib_h) (w : SgRequests.world)
             (inv : SgRequests.invocation),
      fd_scoped None (trace (SgRequests.main K w inv)) = true).
Proof.
  split; [ | split ].
  - intros E w args.
    rewrite <- fd_scoped_io, io_simple1_main. apply simple1_io_scoped.
  - intros K w inv. rewrite <- fd_scoped_io, io_main.
    destruct (SgReadcap.parse_cmd_line K inv SgReadcap.opts_zero)
      as [[res op] msgs].
    destruct (truthy res); [ reflexivity | apply main_body_io_scoped ].
  - intros K w inv. rewrite <- fd_scoped_io.
    pose proof (requests_main_shape K w inv) as H.
    destruct (SgRequests.parse K inv).
    + apply requests_shape_facts in H. tauto.
    + rewrite H. reflexivity.
Qed.

Example descriptor_reopened_sample :
  io (trace (SgReadcap.main Samples.K Samples.readcap_invalid_op
                            Samples.readcap_dev))
  = [Open Samples.sg0 3; Submit 3 (Readcap10 false 0) (CheckCond 9); Close 3;
     Open Samples.sg0 4; Submit 4 (Readcap16 false 0) Done; Close 4].
Proof. reflexivity. Qed.

(** ** After a failed command *)







(** ** The exit status *)





(** The whole of two sample runs. *)
Example simple1_sample_run :
  SgSimple1.main Samples.E
    (Samples.simple1_world Samples.io_clean Samples.io_error) [Samples.sg0]
  = ([Open Samples.sg0 3; Ioctl 3 "SG_GET_VERSION_NUM";
      Submit 3 (SgIo [18; 0; 0; 0; 96; 0] 20000) Done;
      Out "Some of the INQUIRY command's results:" [];
      Out "    %.8s  %.16s  %.4s  " [];
      Out "[wide=%d sync=%d cmdque=%d sftre=%d]" [0; 0; 0; 0];
      Submit 3 (SgIo [0; 0; 0; 0; 0; 0] 20000) (CallFailed (-1));
      Out "sg_simple1: Test Unit Ready SG_IO ioctl error" [];
      Close 3], 1).
Proof. reflexivity. Qed.

Example readcap_sample_run :
  SgReadcap.main Samples.K Samples.readcap_ok Samples.readcap_dev
  = ([Open Samples.sg0 3; Submit 3 (Readcap10 false 0) Done;
      JsNv "returned_logical_block_address" 66051;
      JsNv "logical_block_length_in_bytes" 512;
      Out "Read Capacity results:" [];
      Out "   Last LBA=%u (0x%x), Number of logical blocks=%u"
          [66051; 66051; 66052];
      Out "   Logical block length=%u bytes" [512];
      Out "Hence:" [];
      Out "   Device size: %u bytes, ..." [33818624];
      Close 3], 0).
Proof. reflexivity. Qed.

(** ** sg_requests: the command descriptor block and the timeout *)

Lemma requests_submitted_shape (K : sg_lib_h) (w : SgRequests.world)
      (inv : SgRequests.invocation) :
  match SgRequests.parse K inv with
  | SgRequests.Parsed l =>
      Forall (fun cs => fst cs = request_sense l)
             (submitted (trace (SgRequests.main K w inv)))
  | SgRequests.Exit _ _ => submitted (trace (SgRequests.main K w inv)) = []
  end.
Proof.
  rewrite <- submitted_io.
  pose proof (requests_main_shape K w inv) as H.
  destruct (SgRequests.parse K inv).
  - apply requests_shape_facts in H. tauto.
  - rewrite H. reflexivity.
Qed.

(** The six bytes of the command, read off the command line. *)
Lemma request_sense_layout (K : sg_lib_h) (inv : SgRequests.invocation)
      (l : SgRequests.locals) :
  SgRequests.parse K inv = SgRequests.Parsed l ->
  let opts := SgRequests.getopt_opts inv in
  let maxlen := num_or K 0 (last_arg "m" opts) in
  request_sense l
  = ScsiPt [ if given "e" opts then 0xff else 0x03;
             if given "d" opts then 1 else 0;
             0;
             0;
             if 0 =? maxlen then 252 else maxlen;
             0 ]
           (tmo_used l).
Proof.
  intros Hp opts maxlen. subst opts maxlen.
  apply requests_parse_fields in Hp.
  destruct Hp as (Hd & He & Hm & _ & Hrange & _).
  unfold request_sense, SgRequests.rs_cdb, maxlen_used.
  rewrite He, Hd, <- Hm. cbn [nth].
  assert (Hw : wrap 8 (if 0 =? SgRequests.maxlen l
                       then SgRequests.DEF_REQS_RESP_LEN
                       else SgRequests.maxlen l)
               = if 0 =? SgRequests.maxlen l then 252
                 else SgRequests.maxlen l).
  { unfold wrap, SgRequests.DEF_REQS_RESP_LEN.
    destruct (0 =? SgRequests.maxlen l); apply Z.mod_small;
      change (2 ^ 8) with 256; lia. }
  rewrite Hw.
  destruct (given "d" (SgRequests.getopt_opts inv)); reflexivity.
Qed.

Example request_sense_cdb_sample :
  submitted (trace (SgRequests.main Samples.K
                      (Samples.requests_world (Samples.pt_reply 18 0))
                      Samples.requests_many))
  = [(ScsiPt [3; 1; 0; 0; 18; 0] 5, Done);
     (ScsiPt [3; 1; 0; 0; 18; 0] 5, Done);
     (ScsiPt [3; 1; 0; 0; 18; 0] 5, Done)].
Proof. reflexivity. Qed.

(** C4, as the code has it.  sg_simple1 sends both its commands with the
    timeout 20000 milliseconds.  sg_requests sends every command of a run
    with one and the same timeout in seconds: the [--timeout] argument,
    or 60 when that is absent or 0. *)
Theorem command_timeouts :
  (forall (E : SgSimple1.sg_err_h) (w : SgSimple1.world) (args : list string),
      Forall (fun cs => exists cdb, fst cs = SgIo cdb 20000)
             (submitted (trace (SgSimple1.main E w args))))
  /\ (forall (K : sg_lib_h) (w : SgRequests.world)
             (inv : SgRequests.invocation),
      let tmo := num_or K 0 (last_arg "T" (SgRequests.getopt_opts inv)) in
      Forall (fun cs =>
                exists cdb,
                  fst cs = ScsiPt cdb (if 0 =? tmo
                                       then SgRequests.DEF_PT_TIMEOUT
                                       else tmo))
             (submitted (trace (SgRequests.main K w inv)))).
Proof.
  split.
  - intros E w args. rewrite <- submitted_io, io_simple1_main.
    apply simple1_timeouts.
  - intros K w inv tmo. subst tmo.
    pose proof (requests_submitted_shape K w inv) as H.
    destruct (SgRequests.parse K inv) as [l | code msgs] eqn:Hp;
      [ | rewrite H; constructor ].
    apply requests_parse_fields in Hp.
    destruct Hp as (_ & _ & _ & Ht & _ & _).
    eapply Forall_impl; [ | exact H ].
    intros cs ->. eexists. unfold request_sense, tmo_used.
    rewrite <- Ht. reflexivity.
Qed.

(** [sg_requests /dev/sg0] waits up to 60 seconds for its command, and
    with [--timeout=5] up to 5 seconds: neither 20 seconds nor fixed in
    the program. *)
Lemma requests_timeout_not_20_seconds :
  submitted (trace (SgRequests.main Samples.K
                      (Samples.requests_world (Samples.pt_reply 18 0))
                      Samples.requests_dev))
  = [(ScsiPt [3; 0; 0; 0; 252; 0] 60, Done)]
  /\ Forall (fun cs => exists cdb, fst cs = ScsiPt cdb 5)
            (submitted (trace (SgRequests.main Samples.K
                                 (Samples.requests_world
                                    (Samples.pt_reply 18 0))
                                 Samples.requests_many)))
  /\ submitted (trace (SgRequests.main Samples.K
                         (Samples.requests_world (Samples.pt_reply 18 0))
                         Samples.requests_many)) <> [].
Proof.
  split; [ reflexivity | split ].
  - repeat constructor; eexists; reflexivity.
  - discriminate.
Qed.

(** ** sg_decode_sense: bytes given on the command line *)

(** [--status=100000001]: the number is read in 64 bits and its low 32
    bits are what [sstatus] gets. *)
Example sscanf_x_keeps_low_bits :
  SgDecodeSense.sscanf_x "100000001" = Some 1
  /\ SgDecodeSense.sscanf_x "ffffffffffffffffff" = Some 0xffffffff
  /\ SgDecodeSense.sscanf_x "-1" = Some 0xffffffff
  /\ SgDecodeSense.sscanf_x "0x1f" = Some 31.
Proof. repeat split; vm_compute; reflexivity. Qed.



Example sense_bytes_refused :
  exists op cb,
    SgDecodeSense.parse_cmd_line Samples.K
      Samples.decode_bad_byte
    = SgDecodeSense.Returned (SG_LIB_SYNTAX_ERROR Samples.K) op cb
    /\ SgDecodeSense.sense_len op = 1.
Proof. eexists. eexists. split; reflexivity. Qed.


(** ** The report of the command line

    What sg_rep_invocation writes is none of the formatted lines. *)

Lemma readcap_report_printed (fmt : string) (inv : SgReadcap.invocation)
      (r : run) :
  printed fmt (trace (before (SgReadcap.rep_invocation inv) r))
  = printed fmt (trace r).
Proof.
  unfold SgReadcap.rep_invocation.
  destruct (SgReadcap.SG3_UTILS_INVOCATION inv); reflexivity.
Qed.

Lemma requests_report_printed (fmt : string) (inv : SgRequests.invocation)
      (r : run) :
  printed fmt (trace (before (SgRequests.rep_invocation inv) r))
  = printed fmt (trace r).
Proof.
  unfold SgRequests.rep_invocation.
  destruct (SgRequests.SG3_UTILS_INVOCATION inv); reflexivity.
Qed.

Ltac requests_report :=
  rewrite ?requests_report_submitted, ?requests_report_io,
    ?requests_report_printed, ?requests_report_exit.

Ltac readcap_report :=
  rewrite ?readcap_report_submitted, ?readcap_report_io,
    ?readcap_report_printed, ?readcap_report_exit.

(** ** sg_simple1: the argument loop and the INQUIRY report *)

Lemma is_x_switch (a : string) : is_x a = true -> is_switch a = true.
Proof.
  unfold is_x, is_switch, chars.
  destruct a as [| c a]; cbn [list_ascii_of_string Libc.has_prefix];
    [ discriminate | ].
  destruct (Ascii.eqb "-" c); [ reflexivity | discriminate ].
Qed.

Lemma simple1_parse_args_file (args : list string) :
  forall (do_extra : Z) (file_name : option string),
    snd (fst (SgSimple1.parse_args args do_extra file_name))
    = if forallb (fun a => negb (is_switch a) || is_x a) args
      then match (match file_name with Some f => [f] | None => [] end)
                 ++ filter (fun a => negb (is_switch a)) args with
           | [f] => Some f
           | _ => None
           end
      else None.
Proof.
  induction args as [| a args IH]; intros do_extra file_name.
  - destruct file_name; reflexivity.
  - cbn [SgSimple1.parse_args forallb filter].
    fold (is_x a). fold (is_switch a).
    destruct (is_x a) eqn:Hx.
    + rewrite (is_x_switch a Hx). cbn [negb orb andb]. apply IH.
    + destruct (is_switch a) eqn:Hs; cbn [negb orb andb fst snd].
      * reflexivity.
      * destruct file_name as [f |].
        -- cbn [fst snd app].
           destruct (forallb _ args); [ | reflexivity ].
           destruct (filter _ args); reflexivity.
        -- rewrite IH. reflexivity.
Qed.

Lemma simple1_parse_args_quiet (args : list string) :
  forall (do_extra : Z) (file_name : option string),
    snd (fst (SgSimple1.parse_args args do_extra file_name)) <> None ->
    snd (SgSimple1.parse_args args do_extra file_name) = [].
Proof.
  induction args as [| a args IH]; intros do_extra file_name; [ reflexivity | ].
  cbn [SgSimple1.parse_args].
  destruct (Libc.has_prefix (chars "-x") (chars a)); [ apply IH | ].
  destruct (Libc.has_prefix (chars "-") (chars a));
    [ intros H; exfalso; apply H; reflexivity | ].
  destruct file_name; [ intros H; exfalso; apply H; reflexivity | apply IH ].
Qed.

(** X1: sg_simple1 opens a device exactly when its arguments, apart from
    switches that start with [-x], are one file name: that file is then the
    first thing opened; in every other case (no name, two names, any other
    switch, wherever it stands) nothing is opened and the exit status is
    1. *)
Theorem simple1_opens_the_named_device
        (E : SgSimple1.sg_err_h) (w : SgSimple1.world) (args : list string) :
  match named_device args with
  | Some f =>
      exists tl,
        io (trace (SgSimple1.main E w args))
        = (if SgSimple1.w_open w <? 0
           then OpenFailed f (SgSimple1.w_open w)
           else Open f (SgSimple1.w_open w)) :: tl
  | None =>
      io (trace (SgSimple1.main E w args)) = []
      /\ exit_code (SgSimple1.main E w args) = 1
  end.
Proof.
  pose proof (simple1_parse_args_file args 0 None) as Hf.
  cbn [app] in Hf. fold (named_device args) in Hf.
  rewrite io_simple1_main. unfold SgSimple1.main.
  destruct (SgSimple1.parse_args args 0 None) as [[do_extra file_name] ev0].
  cbn [fst snd] in Hf |- *. rewrite <- Hf.
  destruct file_name as [f |].
  - unfold simple1_io. destruct (SgSimple1.w_open w <? 0); eexists; reflexivity.
  - split; reflexivity.
Qed.

Example named_device_sample :
  named_device ["-x"; "/dev/sg0"]%string = Some "/dev/sg0"%string
  /\ named_device ["/dev/sg0"; "-v"]%string = None
  /\ named_device ["/dev/sg0"; "/dev/sg1"]%string = None.
Proof. repeat split; reflexivity. Qed.

Lemma simple1_parse_args_msgs (args : list string) :
  forall (do_extra : Z) (file_name : option string) (e : event),
    In e (snd (SgSimple1.parse_args args do_extra file_name)) ->
    e = Out "Unrecognized switch: %s" [] \/ e = Out "too many arguments" [].
Proof.
  induction args as [| a args IH]; intros do_extra file_name e;
    [ intros [] | ].
  cbn [SgSimple1.parse_args].
  destruct (Libc.has_prefix (chars "-x") (chars a)); [ apply IH | ].
  destruct (Libc.has_prefix (chars "-") (chars a)).
  { intros [<- | []]. left; reflexivity. }
  destruct file_name; [ | apply IH ].
  intros [<- | []]. right; reflexivity.
Qed.

(** Sign extension of [char] leaves the low bits of the byte alone. *)
Lemma signed_char_bit (b k : Z) :
  0 <= b < 256 -> 0 <= k < 8 ->
  notnot (Z.land (SgSimple1.signed_char b) (2 ^ k)) = Layout.bit b k.
Proof.
  intros Hb Hk. rewrite notnot_land_bit by lia.
  unfold SgSimple1.signed_char, Layout.bit.
  destruct (128 <=? b); [ | reflexivity ].
  rewrite <- (Z.mod_pow2_bits_low (b - 256) 8 k) by lia.
  rewrite <- (Z.mod_pow2_bits_low b 8 k) by lia.
  replace (b - 256) with (b + (-1) * 2 ^ 8) by lia.
  rewrite Z.mod_add by lia. reflexivity.
Qed.

(** X2: the line of INQUIRY flags is printed only after an INQUIRY whose
    SG_IO call returned and was classified clean or recovered, and the four
    numbers in it are bits 5, 4, 1 and 0 of byte 7 of the response, the
    conversion of that byte through [char] notwithstanding. *)
Theorem simple1_inquiry_flags
        (E : SgSimple1.sg_err_h) (w : SgSimple1.world) (args : list string)
        (a : list Z) :
  In (Out "[wide=%d sync=%d cmdque=%d sftre=%d]" a)
     (trace (SgSimple1.main E w args)) ->
  let f := byte_at (SgSimple1.w_inqBuff w) 7 in
  a = [Layout.bit f 5; Layout.bit f 4; Layout.bit f 1; Layout.bit f 0]
  /\ 0 <= SgSimple1.io_ret (SgSimple1.w_inquiry w)
  /\ (SgSimple1.io_category (SgSimple1.w_inquiry w) = SgSimple1.SG_ERR_CAT_CLEAN E
      \/ SgSimple1.io_category (SgSimple1.w_inquiry w)
         = SgSimple1.SG_ERR_CAT_RECOVERED E).
Proof.
  intros Hin f.
  assert (Hf : 0 <= f < 256) by apply u8_range.
  assert (Hbits :
            [notnot (Z.land (SgSimple1.signed_char f) 0x20);
             notnot (Z.land (SgSimple1.signed_char f) 0x10);
             notnot (Z.land (SgSimple1.signed_char f) 2);
             notnot (Z.land (SgSimple1.signed_char f) 1)]
            = [Layout.bit f 5; Layout.bit f 4; Layout.bit f 1; Layout.bit f 0]).
  { rewrite <- (signed_char_bit f 5), <- (signed_char_bit f 4),
      <- (signed_char_bit f 1), <- (signed_char_bit f 0) by lia.
    reflexivity. }
  revert Hin. unfold SgSimple1.main.
  pose proof (simple1_parse_args_msgs args 0 None) as Hm.
  destruct (SgSimple1.parse_args args 0 None) as [[do_extra file_name] ev0].
  cbn [snd] in Hm.
  assert (Hev0 : ~ In (Out "[wide=%d sync=%d cmdque=%d sftre=%d]" a) ev0).
  { intros H. apply Hm in H. destruct H as [H | H]; discriminate H. }
  unfold SgSimple1.classify, SgSimple1.extra. fold f.
  destruct file_name as [fn |].
  2: { cbn [trace fst]. rewrite in_app_iff. cbn [In].
       intros [H | [H | []]]; [ contradiction | discriminate H ]. }
  destruct (SgSimple1.w_open w <? 0).
  { cbn [trace fst]. rewrite in_app_iff. cbn [In].
    intros [H | [H | [H | []]]]; [ contradiction | discriminate H .. ]. }
  destruct (_ || _).
  { cbn [trace fst]. rewrite !in_app_iff. cbn [In].
    intros [[H | [H | [H | []]]] | [H | [H | []]]];
      [ contradiction | discriminate H .. ]. }
  destruct (Z.ltb_spec (SgSimple1.io_ret (SgSimple1.w_inquiry w)) 0)
    as [Hlt | Hge].
  { cbn [trace fst]. rewrite !in_app_iff. cbn [In].
    intros H. exfalso.
    repeat match goal with
           | H : _ \/ _ |- _ => destruct H as [H | H]
           | H : In _ ev0 |- _ => contradiction
           | H : False |- _ => contradiction
           | H : _ = _ |- _ => discriminate H
           end. }
  intros Hin.
  set (ci := SgSimple1.io_category (SgSimple1.w_inquiry w)) in *.
  set (ct := SgSimple1.io_category (SgSimple1.w_test_unit_ready w)) in *.
  assert (Hboth :
            a = [Layout.bit f 5; Layout.bit f 4; Layout.bit f 1; Layout.bit f 0]
            /\ ((ci =? SgSimple1.SG_ERR_CAT_CLEAN E) = true
                \/ (ci =? SgSimple1.SG_ERR_CAT_RECOVERED E) = true)).
  { rewrite <- Hbits. revert Hin.
    destruct (ci =? SgSimple1.SG_ERR_CAT_CLEAN E),
      (ci =? SgSimple1.SG_ERR_CAT_RECOVERED E),
      (ct =? SgSimple1.SG_ERR_CAT_CLEAN E),
      (ct =? SgSimple1.SG_ERR_CAT_RECOVERED E),
      (SgSimple1.io_ret (SgSimple1.w_test_unit_ready w) <? 0),
      (truthy do_extra);
      cbn [trace fst app]; rewrite ?in_app_iff; cbn [In]; intros Hin;
      repeat match goal with
             | H : _ \/ _ |- _ => destruct H as [H | H]
             | H : In _ ev0 |- _ => contradiction
             | H : False |- _ => contradiction
             | H : Out _ _ = Out _ _ |- _ =>
                 first [ discriminate H
                       | inversion H; split; [ reflexivity | tauto ] ]
             | H : _ = _ |- _ => discriminate H
             end. }
  destruct Hboth as [Ha Hok].
  split; [ exact Ha | split; [ lia | ] ].
  destruct Hok as [H | H]; apply Z.eqb_eq in H; tauto.
Qed.

Lemma simple1_inquiry_flags_witness :
  [1; 1; 1; 0]
  = [Layout.bit (byte_at (SgSimple1.w_inqBuff Cases.simple1_wide) 7) 5;
     Layout.bit (byte_at (SgSimple1.w_inqBuff Cases.simple1_wide) 7) 4;
     Layout.bit (byte_at (SgSimple1.w_inqBuff Cases.simple1_wide) 7) 1;
     Layout.bit (byte_at (SgSimple1.w_inqBuff Cases.simple1_wide) 7) 0]
  /\ 0 <= SgSimple1.io_ret (SgSimple1.w_inquiry Cases.simple1_wide)
  /\ (SgSimple1.io_category (SgSimple1.w_inquiry Cases.simple1_wide)
      = SgSimple1.SG_ERR_CAT_CLEAN Samples.E
      \/ SgSimple1.io_category (SgSimple1.w_inquiry Cases.simple1_wide)
         = SgSimple1.SG_ERR_CAT_RECOVERED Samples.E).
Proof.
  apply (simple1_inquiry_flags Samples.E Cases.simple1_wide [Samples.sg0]
           [1; 1; 1; 0]).
  vm_compute. do 5 right. left. reflexivity.
Defined.

(** ** sg_requests: what the options leave in the locals *)

Section RequestsFlags.

Variable K : sg_lib_h.

Lemma requests_opt_flags (g : SgRequests.getopt_ev)
      (l0 l1 : SgRequests.locals) :
  SgRequests.opt K g l0 = SgRequests.Parsed l1 ->
  SgRequests.num_rs l1
    = (if SgRequests.ch_is (SgRequests.g_c g) "n"
       then sg_get_num K (SgRequests.g_optarg g) else SgRequests.num_rs l0)
  /\ SgRequests.do_raw l1
    = SgRequests.do_raw l0 || SgRequests.ch_is (SgRequests.g_c g) "r"
  /\ SgRequests.do_hex l1
    = SgRequests.do_hex l0
      + (if SgRequests.ch_is (SgRequests.g_c g) "H" then 1 else 0)
  /\ SgRequests.do_progress l1
    = SgRequests.do_progress l0 || SgRequests.ch_is (SgRequests.g_c g) "p"
  /\ SgRequests.do_time l1
    = SgRequests.do_time l0 || SgRequests.ch_is (SgRequests.g_c g) "t"
  /\ SgRequests.do_status l1
    = SgRequests.do_status l0 || SgRequests.ch_is (SgRequests.g_c g) "s"
  /\ SgRequests.version_given l1
    = SgRequests.version_given l0 || SgRequests.ch_is (SgRequests.g_c g) "V"
  /\ SgRequests.device_name l1 = SgRequests.device_name l0
  /\ (1 <= SgRequests.num_rs l0 -> 1 <= SgRequests.num_rs l1).
Proof.
  unfold SgRequests.opt. destruct g as [c optarg]. destruct l0.
  cbn [SgRequests.g_c SgRequests.g_optarg SgRequests.num_rs SgRequests.do_raw
       SgRequests.do_hex SgRequests.do_progress SgRequests.do_time
       SgRequests.do_status SgRequests.version_given SgRequests.device_name].
  repeat match goal with
         | |- context [if SgRequests.ch_is c ?x then _ else _] =>
             destruct (SgRequests.ch_is c x) eqn:?
         | |- context [if ?b then _ else _] => destruct b eqn:?
         end.
  all: intros H; inversion H; subst; clear H.
  all: cbn [SgRequests.num_rs SgRequests.do_raw SgRequests.do_hex
            SgRequests.do_progress SgRequests.do_time SgRequests.do_status
            SgRequests.version_given SgRequests.device_name].
  all: unfold SgRequests.ch_is in *.
  all: repeat match goal with
         | H : Ascii.eqb ?c _ = true |- _ => apply Ascii.eqb_eq in H; subst c
         end.
  all: cbn [Ascii.eqb Bool.eqb] in *; try discriminate.
  all: repeat match goal with
         | H : Ascii.eqb ?c ?x = false |- context [Ascii.eqb ?c ?x] =>
             rewrite H
         end.
  all: rewrite ?orb_false_r, ?orb_true_r, ?Z.add_0_r.
  all: repeat split; try reflexivity; try lia.
Qed.

Lemma given_cons (c : ascii) (g : SgRequests.getopt_ev)
      (gs : list SgRequests.getopt_ev) (b : bool) :
  (b || SgRequests.ch_is (SgRequests.g_c g) c) || given c gs
  = b || given c (g :: gs).
Proof. unfold given. cbn [existsb]. rewrite orb_assoc. reflexivity. Qed.

Lemma requests_options_flags (gs : list SgRequests.getopt_ev) :
  forall l0 l : SgRequests.locals,
    SgRequests.options K gs l0 = SgRequests.Parsed l ->
    SgRequests.num_rs l = num_or K (SgRequests.num_rs l0) (last_arg "n" gs)
    /\ SgRequests.do_raw l = SgRequests.do_raw l0 || given "r" gs
    /\ SgRequests.do_hex l = SgRequests.do_hex l0 + times "H" gs
    /\ SgRequests.do_progress l = SgRequests.do_progress l0 || given "p" gs
    /\ SgRequests.do_time l = SgRequests.do_time l0 || given "t" gs
    /\ SgRequests.do_status l = SgRequests.do_status l0 || given "s" gs
    /\ SgRequests.version_given l
      = SgRequests.version_given l0 || given "V" gs
    /\ SgRequests.device_name l = SgRequests.device_name l0
    /\ (1 <= SgRequests.num_rs l0 -> 1 <= SgRequests.num_rs l).
Proof.
  induction gs as [| g gs IH]; intros l0 l; cbn [SgRequests.options].
  - intros H. inversion H; subst. unfold times. cbn.
    rewrite !orb_false_r, Z.add_0_r. tauto.
  - destruct (SgRequests.opt K g l0) as [l1 |] eqn:Hg; [ | discriminate ].
    intros H. apply IH in H.
    destruct H as (Hn & Hr & Hh & Hp & Ht & Hs & Hv & Hd & Hn1).
    apply requests_opt_flags in Hg.
    destruct Hg as (Gn & Gr & Gh & Gp & Gt & Gs & Gv & Gd & Gn1).
    assert (Hone : 1 <= SgRequests.num_rs l0 -> 1 <= SgRequests.num_rs l)
      by tauto.
    rewrite Hn, Hr, Hh, Hp, Ht, Hs, Hv, Hd, Gn, Gr, Gh, Gp, Gt, Gs, Gv, Gd
      in *.
    rewrite !given_cons.
    split; [ | split; [ | split; [ | repeat split; try reflexivity;
                                     exact Hone ] ] ];
      try reflexivity.
    + cbn [last_arg]. destruct (last_arg "n" gs); [ reflexivity | ].
      destruct (SgRequests.ch_is (SgRequests.g_c g) "n"); reflexivity.
    + unfold times. cbn [filter].
      destruct (SgRequests.ch_is (SgRequests.g_c g) "H");
        cbn [List.length]; lia.
Qed.

Lemma times_given (c : ascii) (gs : list SgRequests.getopt_ev) :
  truthy (times c gs) = given c gs.
Proof.
  unfold truthy, times. rewrite given_filter. apply negb_involutive.
Qed.

(** The locals after an accepted command line, read off the options. *)
Lemma requests_parse_flags (inv : SgRequests.invocation)
      (l : SgRequests.locals) :
  SgRequests.parse K inv = SgRequests.Parsed l ->
  let gs := SgRequests.getopt_opts inv in
  SgRequests.num_rs l = num_or K 1 (last_arg "n" gs)
  /\ 1 <= SgRequests.num_rs l
  /\ SgRequests.do_error l = times "e" gs
  /\ SgRequests.do_raw l = given "r" gs
  /\ truthy (SgRequests.do_hex l) = given "H" gs
  /\ SgRequests.do_progress l = given "p" gs
  /\ SgRequests.do_time l = given "t" gs
  /\ SgRequests.do_status l = given "s" gs
  /\ SgRequests.version_given l = given "V" gs
  /\ SgRequests.device_name l = hd_error (SgRequests.getopt_rest inv).
Proof.
  cbv zeta. unfold SgRequests.parse.
  destruct (SgRequests.options K (SgRequests.getopt_opts inv)
              SgRequests.locals_init) as [l1 |] eqn:Ho; [ | discriminate ].
  pose proof (requests_options_fields K _ _ _ Ho) as (_ & He & _).
  apply requests_options_flags in Ho.
  destruct Ho as (Hn & Hr & Hh & Hp & Ht & Hs & Hv & Hd & Hn1).
  cbn [SgRequests.locals_init SgRequests.num_rs SgRequests.do_raw
       SgRequests.do_hex SgRequests.do_progress SgRequests.do_time
       SgRequests.do_status SgRequests.version_given SgRequests.device_name
       SgRequests.do_error orb Z.add] in *.
  intros Hpos.
  assert (Hsame : SgRequests.num_rs l = SgRequests.num_rs l1
                  /\ SgRequests.do_error l = SgRequests.do_error l1
                  /\ SgRequests.do_raw l = SgRequests.do_raw l1
                  /\ SgRequests.do_hex l = SgRequests.do_hex l1
                  /\ SgRequests.do_progress l = SgRequests.do_progress l1
                  /\ SgRequests.do_time l = SgRequests.do_time l1
                  /\ SgRequests.do_status l = SgRequests.do_status l1
                  /\ SgRequests.version_given l = SgRequests.version_given l1
                  /\ SgRequests.device_name l
                     = hd_error (SgRequests.getopt_rest inv)).
  { unfold SgRequests.positional in Hpos.
    destruct (SgRequests.getopt_rest inv) as [| a tl].
    - inversion Hpos; subst. repeat split; try reflexivity. exact Hd.
    - destruct l1. cbn in Hd. subst device_name.
      destruct tl; [ | discriminate ].
      inversion Hpos; subst. repeat split; reflexivity. }
  destruct Hsame as (-> & -> & -> & -> & -> & -> & -> & -> & ->).
  rewrite Hh, times_given.
  repeat split; try assumption; try reflexivity; try lia.
Qed.

End RequestsFlags.

(** ** sg_requests: how many commands are sent *)

Section RequestsCount.

Variable K : sg_lib_h.
Variable w : SgRequests.world.

(** The passes a loop makes: some number of them, at most the fuel, each
    sending what [pass_io] says, and then the close. *)
Lemma plain_loop_passes (l : SgRequests.locals) (nrh : bool)
      (cdb : list Z) (tmo fd : Z) (fuel : nat) :
  0 <= fd ->
  forall (k : nat) (a ret : Z) (buf : list byte) (c : SgRequests.counters),
  exists m : nat,
    (m <= fuel)%nat
    /\ io (trace (SgRequests.plain_loop K w l nrh cdb tmo fd fuel k a ret
                                        buf c))
       = flat_map (pass_io w l cdb tmo fd) (seq k m) ++ [Close fd].
Proof.
  intros Hfd. assert (Hc : closing fd = [Close fd]).
  { apply closing_pos. apply Z.leb_le. assumption. }
  induction fuel as [| fuel IH]; intros k a ret buf c.
  - exists O. split; [ lia | ].
    cbn [SgRequests.plain_loop]. rewrite io_requests_after_loop, Hc.
    reflexivity.
  - cbn [SgRequests.plain_loop].
    pose proof (io_requests_request w l cdb tmo fd k c) as Hreq.
    destruct (SgRequests.request w l cdb tmo fd k c) as [[[n buf1] ev] c0].
    destruct Hreq as [Hev Hn].
    assert (Hone : forall tl, pass_io w l cdb tmo fd k ++ tl
                   = flat_map (pass_io w l cdb tmo fd) (seq k 1) ++ tl).
    { intros tl. cbn [seq flat_map]. rewrite app_nil_r. reflexivity. }
    destruct (-1 =? n) eqn:Hm1.
    { exists 1%nat. split; [ lia | ].
      rewrite trace_before, io_app, io_requests_finish, Hev, Hc.
      apply Hone. }
    pose proof (io_requests_on_sense K l
                  (SgRequests.r_sense_cat (SgRequests.w_reply w k)) 0 c0)
      as Hos.
    destruct (if -2 =? n then _ else _) as [[c1 ret1] ev1] eqn:Hsw.
    assert (Hev1 : io ev1 = []).
    { destruct (-2 =? n).
      - rewrite Hsw in Hos. exact Hos.
      - inversion Hsw. reflexivity. }
    destruct (if 7 <? _ then _ else _) as [c2 ev2] eqn:Hn2.
    assert (Hev2 : io ev2 = []).
    { revert Hn2. split_ifs; intros Hn2; inversion Hn2; reflexivity. }
    destruct (truthy ret1).
    { exists 1%nat. split; [ lia | ].
      rewrite trace_before, !io_app, io_requests_finish, Hev, Hev1, Hev2, Hc.
      cbn [app]; rewrite ?app_nil_r. apply Hone. }
    match goal with
    | |- context [SgRequests.plain_loop K w l nrh cdb tmo fd fuel (S k)
                    ?a1 ?r1 ?b1 ?c1] =>
        destruct (IH (S k) a1 r1 b1 c1) as (m & Hm & Hio)
    end.
    exists (S m). split; [ lia | ].
    rewrite trace_before, !io_app, Hev, Hev1, Hev2, Hio.
    replace (io (if 0 <? _ then _ else _)) with (@nil event)
      by (split_ifs; reflexivity).
    cbn [seq flat_map app]. rewrite ?app_nil_r, <- app_assoc. reflexivity.
Qed.

Lemma progress_loop_passes (l : SgRequests.locals) (nrh : bool)
      (cdb : list Z) (tmo fd : Z) (fuel : nat) :
  0 <= fd ->
  forall (k : nat) (ret : Z) (c : SgRequests.counters),
  exists m : nat,
    (m <= fuel)%nat
    /\ io (trace (SgRequests.progress_loop K w l nrh cdb tmo fd fuel k ret c))
       = flat_map (pass_io w l cdb tmo fd) (seq k m) ++ [Close fd].
Proof.
  intros Hfd. assert (Hc : closing fd = [Close fd]).
  { apply closing_pos. apply Z.leb_le. assumption. }
  induction fuel as [| fuel IH]; intros k ret c.
  - exists O. split; [ lia | ].
    cbn [SgRequests.progress_loop]. rewrite io_requests_finish, Hc.
    reflexivity.
  - cbn [SgRequests.progress_loop].
    pose proof (io_requests_request w l cdb tmo fd k c) as Hreq.
    destruct (SgRequests.request w l cdb tmo fd k c) as [[[n buf1] ev] c0].
    destruct Hreq as [Hev Hn].
    assert (Hone : forall tl, pass_io w l cdb tmo fd k ++ tl
                   = flat_map (pass_io w l cdb tmo fd) (seq k 1) ++ tl).
    { intros tl. cbn [seq flat_map]. rewrite app_nil_r. reflexivity. }
    destruct (-1 =? n) eqn:Hm1.
    { exists 1%nat. split; [ lia | ].
      rewrite trace_before, io_app, io_requests_finish, Hev, Hc.
      apply Hone. }
    pose proof (io_requests_on_sense K l
                  (SgRequests.r_sense_cat (SgRequests.w_reply w k)) ret c0)
      as Hos.
    destruct (if -2 =? n then _ else _) as [[c1 ret1] ev1] eqn:Hsw.
    assert (Hev1 : io ev1 = []).
    { destruct (-2 =? n).
      - rewrite Hsw in Hos. exact Hos.
      - inversion Hsw. reflexivity. }
    assert (Hpd : forall x, io (if 1 <? SgRequests.verbose l
                                then [Out "Parameter data in hex" x] else [])
                            = []).
    { intros x. destruct (1 <? SgRequests.verbose l); reflexivity. }
    destruct (truthy ret1).
    { exists 1%nat. split; [ lia | ].
      rewrite trace_before, !io_app, io_requests_finish, Hev, Hev1, Hc.
      cbn [app]; rewrite ?app_nil_r. apply Hone. }
    destruct (_ <? 0).
    { exists 1%nat. split; [ lia | ].
      rewrite trace_before, !io_app, io_requests_finish, Hev, Hev1, Hpd, Hc.
      replace (io (if 1 <? SgRequests.verbose l
                   then [Out "No progress indication found, iteration %d" _]
                   else []))
        with (@nil event) by (split_ifs; reflexivity).
      cbn [app]; rewrite ?app_nil_r. apply Hone. }
    destruct (IH (S k) ret1 c1) as (m & Hm & Hio).
    exists (S m). split; [ lia | ].
    rewrite trace_before, !io_app, Hev, Hev1, Hpd, Hio.
    cbn [io filter touches_device seq flat_map app].
    rewrite ?app_nil_r, <- app_assoc. reflexivity.
Qed.

End RequestsCount.

Section RequestsSent.

Variable K : sg_lib_h.
Variable w : SgRequests.world.

Lemma submitted_app (a b : list event) :
  submitted (a ++ b) = submitted a ++ submitted b.
Proof.
  induction a as [| e a IH]; [ reflexivity | ].
  destruct e; cbn [app submitted]; rewrite ?IH; reflexivity.
Qed.

Lemma submitted_passes (l : SgRequests.locals) (cdb : list Z) (tmo fd : Z)
      (m : nat) :
  forall k : nat,
    submitted (flat_map (pass_io w l cdb tmo fd) (seq k m))
    = if 1 <? SgRequests.do_error l then []
      else map (fun j => (ScsiPt cdb tmo,
                          SgRequests.status_of (SgRequests.w_reply w j)))
               (seq k m).
Proof.
  induction m as [| m IH]; intros k.
  - destruct (1 <? SgRequests.do_error l); reflexivity.
  - cbn [seq flat_map map]. rewrite submitted_app, IH. unfold pass_io.
    destruct (1 <? SgRequests.do_error l); reflexivity.
Qed.

(** What [main] does to the device after the options, pass by pass. *)
Lemma requests_main_body_passes (l : SgRequests.locals) :
  exists m : nat,
    (m <= Z.to_nat (SgRequests.num_rs l))%nat
    /\ submitted (trace (SgRequests.main_body K w l))
       = if 1 <? SgRequests.do_error l then []
         else map (fun j => (request_sense l,
                             SgRequests.status_of (SgRequests.w_reply w j)))
                  (seq 0 m).
Proof.
  assert (Hnone : forall t : list event,
             t = [] \/ (exists dev fd, t = [OpenFailed dev fd]) ->
             exists m : nat,
               (m <= Z.to_nat (SgRequests.num_rs l))%nat
               /\ submitted t
                  = if 1 <? SgRequests.do_error l then []
                    else map (fun j => (request_sense l,
                                        SgRequests.status_of
                                          (SgRequests.w_reply w j)))
                             (seq 0 m)).
  { intros t H. exists O. split; [ lia | ].
    destruct H as [-> | (dev & fd & ->)];
      destruct (1 <? SgRequests.do_error l); reflexivity. }
  assert (Hsome : forall (dev : string) (fd : Z) (m : nat) (t : list event),
             (m <= Z.to_nat (SgRequests.num_rs l))%nat ->
             t = Open dev fd
                 :: flat_map (pass_io w l (SgRequests.rs_cdb l (maxlen_used l))
                                      (tmo_used l) fd) (seq 0 m)
                    ++ [Close fd] ->
             exists m : nat,
               (m <= Z.to_nat (SgRequests.num_rs l))%nat
               /\ submitted t
                  = if 1 <? SgRequests.do_error l then []
                    else map (fun j => (request_sense l,
                                        SgRequests.status_of
                                          (SgRequests.w_reply w j)))
                             (seq 0 m)).
  { intros dev fd m t Hm ->. exists m. split; [ exact Hm | ].
    cbn [submitted]. rewrite submitted_app, submitted_passes.
    cbn [submitted]. rewrite app_nil_r. reflexivity. }
  rewrite <- submitted_io.
  unfold SgRequests.main_body.
  rewrite trace_before, io_app.
  replace (io (if SgRequests.verbose_given l && SgRequests.version_given l
               then _ else _)) with (@nil event)
    by (split_ifs; reflexivity).
  cbn [app].
  destruct (SgRequests.version_given l); [ apply Hnone; left; reflexivity | ].
  destruct (SgRequests.device_name l) as [dev |];
    [ | apply Hnone; left; reflexivity ].
  destruct (_ && _); [ apply Hnone; left; reflexivity | ].
  destruct (_ && _).
  { apply Hnone. left. rewrite trace_before, io_app, io_requests_finish.
    reflexivity. }
  destruct (SgRequests.w_open w <? 0) eqn:Hop.
  { apply Hnone. right. exists dev, (SgRequests.w_open w).
    rewrite trace_before, io_app, io_requests_finish, closing_neg.
    - split_ifs; reflexivity.
    - apply Z.ltb_lt in Hop. apply Z.leb_gt. assumption. }
  apply Z.ltb_ge in Hop.
  rewrite trace_before, io_app. cbn [io filter touches_device app].
  destruct (match SgRequests.w_construct w with
            | Some err => truthy err
            | None => true
            end).
  { apply (Hsome dev (SgRequests.w_open w) O); [ lia | ].
    rewrite trace_before, io_app, io_requests_finish, closing_pos
      by (apply Z.leb_le; assumption).
    match goal with
    | |- context [io (if ?b then _ else _)] => destruct b
    end; reflexivity. }
  fold (maxlen_used l). fold (tmo_used l).
  destruct (SgRequests.do_progress l).
  - destruct (progress_loop_passes K w l
                (negb (SgRequests.do_raw l || truthy (SgRequests.do_hex l)))
                (SgRequests.rs_cdb l (maxlen_used l)) (tmo_used l)
                (SgRequests.w_open w) (Z.to_nat (SgRequests.num_rs l)) Hop
                O 0 SgRequests.counters_init) as (m & Hm & Hio).
    apply (Hsome dev (SgRequests.w_open w) m); [ exact Hm | ].
    rewrite Hio. reflexivity.
  - destruct (plain_loop_passes K w l
                (negb (SgRequests.do_raw l || truthy (SgRequests.do_hex l)))
                (SgRequests.rs_cdb l (maxlen_used l)) (tmo_used l)
                (SgRequests.w_open w) (Z.to_nat (SgRequests.num_rs l)) Hop
                O 0 0 (SgRequests.zeros 256) SgRequests.counters_init)
      as (m & Hm & Hio).
    apply (Hsome dev (SgRequests.w_open w) m); [ exact Hm | ].
    rewrite Hio. reflexivity.
Qed.

(** X3: the commands sg_requests sends are answered by the device in
    order, one REQUEST SENSE per pass, and there are never more of them
    than [--num] asks for (one without the option); with [--error] given
    twice or more none is sent at all. *)
Theorem requests_commands_sent (inv : SgRequests.invocation) :
  exists (m : nat) (cmd : command),
    (m <= Z.to_nat (num_or K 1 (last_arg "n" (SgRequests.getopt_opts inv))))%nat
    /\ submitted (trace (SgRequests.main K w inv))
       = if 1 <? times "e" (SgRequests.getopt_opts inv) then []
         else map (fun j => (cmd, SgRequests.status_of (SgRequests.w_reply w j)))
                  (seq 0 m).
Proof.
  unfold SgRequests.main. requests_report.
  destruct (SgRequests.parse K inv) as [l | code msgs] eqn:Hp.
  - destruct (requests_main_body_passes l) as (m & Hm & Hs).
    pose proof (requests_parse_flags K inv l Hp) as (Hn & _ & He & _).
    exists m, (request_sense l).
    rewrite <- Hn, <- He. split; assumption.
  - exists O, (ScsiPt [] 0). split; [ lia | ].
    rewrite <- submitted_io. cbn [trace fst].
    rewrite (io_requests_parse K inv code msgs Hp).
    destruct (1 <? _); reflexivity.
Qed.

End RequestsSent.

(** X4: every REQUEST SENSE that sg_requests sends has six CDB bytes, an
    allocation length between 1 and 255 (never 0: an absent or zero
    [--maxlen] becomes 252, and anything outside 0..255 is refused before
    the device is opened) and a timeout of at least one second. *)
Theorem requests_allocation_length_and_timeout_in_range
        (K : sg_lib_h) (w : SgRequests.world) (inv : SgRequests.invocation) :
  Forall (fun cs => exists cdb tmo,
              fst cs = ScsiPt cdb tmo
              /\ List.length cdb = 6%nat
              /\ 1 <= nth 4 cdb 0 <= 255
              /\ 1 <= tmo)
         (submitted (trace (SgRequests.main K w inv))).
Proof.
  rewrite <- submitted_io.
  pose proof (requests_main_shape K w inv) as Hshape.
  destruct (SgRequests.parse K inv) as [l | code msgs] eqn:Hp.
  2: { rewrite Hshape. constructor. }
  apply requests_shape_facts in Hshape. destruct Hshape as (Hcmd & _).
  pose proof (requests_parse_fields K inv l Hp)
    as (_ & _ & _ & _ & Hml & Htmo).
  eapply Forall_impl; [ | exact Hcmd ].
  intros cs ->. unfold request_sense.
  exists (SgRequests.rs_cdb l (maxlen_used l)), (tmo_used l).
  split; [ reflexivity | ]. split; [ reflexivity | ].
  unfold maxlen_used, tmo_used, SgRequests.rs_cdb,
    SgRequests.DEF_REQS_RESP_LEN, SgRequests.DEF_PT_TIMEOUT, wrap.
  cbn [nth].
  destruct (Z.eqb_spec 0 (SgRequests.maxlen l)),
    (Z.eqb_spec 0 (SgRequests.tmo l));
    rewrite ?Z.mod_small by lia; lia.
Qed.

(** X5: [--raw] or [--hex] together with [--progress] or [--time] is
    refused.  When the command line parses, names a device and has no
    [--version], nothing is done to any device, no open and no command,
    and the exit status is SG_LIB_CONTRADICT (a value that is not
    negative, which [finish] passes on); only when [--raw] is given and
    sg_set_binary_mode fails does main return SG_LIB_FILE_ERROR before
    it gets to that check. *)
Theorem requests_raw_hex_exclude_progress_time
        (K : sg_lib_h) (w : SgRequests.world) (inv : SgRequests.invocation)
        (l : SgRequests.locals) :
  let gs := SgRequests.getopt_opts inv in
  SgRequests.parse K inv = SgRequests.Parsed l ->
  given "V" gs = false ->
  SgRequests.getopt_rest inv <> [] ->
  given "r" gs || given "H" gs = true ->
  given "p" gs || given "t" gs = true ->
  0 <= SG_LIB_CONTRADICT K ->
  io (trace (SgRequests.main K w inv)) = []
  /\ exit_code (SgRequests.main K w inv)
     = if given "r" gs && (SgRequests.w_set_binary_mode w <? 0)
       then SG_LIB_FILE_ERROR K
       else SG_LIB_CONTRADICT K.
Proof.
  intros gs Hp Hv Hrest Hrh Hpt Hcon.
  pose proof (requests_parse_flags K inv l Hp)
    as (_ & _ & _ & Hr & Hh & Hpr & Ht & _ & Hver & Hdev).
  fold gs in Hr, Hh, Hpr, Ht, Hver.
  unfold SgRequests.main. requests_report. rewrite Hp.
  unfold SgRequests.main_body.
  rewrite trace_before, exit_code_before, io_app, Hver, Hv.
  rewrite andb_false_r. cbn [io filter app].
  destruct (SgRequests.device_name l) as [dev |].
  2: { destruct (SgRequests.getopt_rest inv); [ contradiction | discriminate ]. }
  rewrite Hr.
  destruct (given "r" gs && (SgRequests.w_set_binary_mode w <? 0)).
  { split; reflexivity. }
  rewrite negb_involutive, Hh, Hpr, Ht, Hrh, Hpt. cbn [andb].
  rewrite trace_before, exit_code_before, io_app, io_requests_finish.
  split; [ reflexivity | ].
  unfold SgRequests.finish. cbn [Z.leb Z.compare exit_code snd].
  destruct (Z.leb_spec 0 (SG_LIB_CONTRADICT K)); [ reflexivity | lia ].
Qed.

(** [sg_requests --hex --progress /dev/sg0] *)
Lemma requests_raw_hex_exclude_progress_time_witness :
  io (trace (SgRequests.main Samples.K
               (Samples.requests_world (Samples.pt_reply 0 0))
               Cases.requests_hex_progress)) = []
  /\ exit_code (SgRequests.main Samples.K
                  (Samples.requests_world (Samples.pt_reply 0 0))
                  Cases.requests_hex_progress)
     = SG_LIB_CONTRADICT Samples.K.
Proof.
  eapply (requests_raw_hex_exclude_progress_time Samples.K
            (Samples.requests_world (Samples.pt_reply 0 0))
            Cases.requests_hex_progress).
  - vm_compute. reflexivity.
  - reflexivity.
  - discriminate.
  - reflexivity.
  - reflexivity.
  - vm_compute. discriminate.
Defined.

(** ** sg_requests: the progress line *)

Lemma printed_app (fmt : string) (a b : list event) :
  printed fmt (a ++ b) = printed fmt a ++ printed fmt b.
Proof. apply flat_map_app. Qed.

Lemma printed_extra_args (fmt : string) (tl : list string) :
  (fmt =? "Unexpected extra argument: %s")%string = false ->
  printed fmt (map (fun _ : string => Out "Unexpected extra argument: %s" [])
                   tl) = [].
Proof.
  intros H. induction tl as [| a tl IH]; [ reflexivity | ].
  cbn [map printed flat_map]. rewrite String.eqb_sym, H. exact IH.
Qed.

Section RequestsProgress.

Variable K : sg_lib_h.
Variable w : SgRequests.world.

Hypothesis progress_is_16_bit :
  forall (buf : list byte) (n p : Z),
    sg_get_sense_progress_fld K buf n = Some p -> 0 <= p < 65536.

Lemma printed_requests_finish (l : SgRequests.locals) (nrh : bool)
      (fd ret : Z) (c : SgRequests.counters) :
  printed progress_fmt (trace (SgRequests.finish K w l nrh fd ret c)) = [].
Proof. unfold SgRequests.finish. split_ifs; reflexivity. Qed.

Lemma printed_requests_on_sense (l : SgRequests.locals) (cat ret : Z)
      (c : SgRequests.counters) :
  printed progress_fmt (snd (SgRequests.on_sense K l cat ret c)) = [].
Proof. unfold SgRequests.on_sense. split_ifs; reflexivity. Qed.

Lemma printed_requests_request (l : SgRequests.locals) (cdb : list Z)
      (tmo fd : Z) (k : nat) (c : SgRequests.counters) :
  printed progress_fmt (snd (fst (SgRequests.request w l cdb tmo fd k c))) = [].
Proof. unfold SgRequests.request. split_ifs; reflexivity. Qed.

Lemma printed_requests_after_loop (l : SgRequests.locals) (nrh : bool)
      (fd a ret : Z) (buf : list byte) (c : SgRequests.counters) :
  printed progress_fmt
    (trace (SgRequests.after_loop K w l nrh fd a ret buf c)) = [].
Proof.
  unfold SgRequests.after_loop.
  rewrite trace_before, printed_app, printed_requests_finish.
  destruct (_ && _); reflexivity.
Qed.

Lemma printed_plain_loop (l : SgRequests.locals) (nrh : bool)
      (cdb : list Z) (tmo fd : Z) (fuel : nat) :
  forall (k : nat) (a ret : Z) (buf : list byte) (c : SgRequests.counters),
    printed progress_fmt
      (trace (SgRequests.plain_loop K w l nrh cdb tmo fd fuel k a ret buf c))
    = [].
Proof.
  induction fuel as [| fuel IH]; intros k a ret buf c;
    cbn [SgRequests.plain_loop]; [ apply printed_requests_after_loop | ].
  pose proof (printed_requests_request l cdb tmo fd k c) as Hev.
  destruct (SgRequests.request w l cdb tmo fd k c) as [[[n buf1] ev] c0].
  cbn [fst snd] in Hev.
  destruct (-1 =? n).
  { rewrite trace_before, printed_app, printed_requests_finish, Hev.
    reflexivity. }
  pose proof (printed_requests_on_sense l
                (SgRequests.r_sense_cat (SgRequests.w_reply w k)) 0 c0) as Hos.
  destruct (if -2 =? n then _ else _) as [[c1 ret1] ev1] eqn:Hsw.
  assert (Hev1 : printed progress_fmt ev1 = []).
  { destruct (-2 =? n).
    - rewrite Hsw in Hos. exact Hos.
    - inversion Hsw. reflexivity. }
  destruct (if 7 <? _ then _ else _) as [c2 ev2] eqn:Hn2.
  assert (Hev2 : printed progress_fmt ev2 = []).
  { revert Hn2. split_ifs; intros Hn2; inversion Hn2; reflexivity. }
  destruct (truthy ret1).
  { rewrite trace_before, !printed_app, printed_requests_finish, Hev, Hev1,
      Hev2. reflexivity. }
  rewrite trace_before, !printed_app, Hev, Hev1, Hev2, IH.
  replace (printed progress_fmt (if 0 <? _ then _ else _)) with (@nil (list Z))
    by (split_ifs; reflexivity).
  reflexivity.
Qed.

Lemma printed_progress_loop (l : SgRequests.locals) (nrh : bool)
      (cdb : list Z) (tmo fd : Z) (fuel : nat) :
  forall (k : nat) (ret : Z) (c : SgRequests.counters),
    Forall progress_line
      (printed progress_fmt
         (trace (SgRequests.progress_loop K w l nrh cdb tmo fd fuel k ret c))).
Proof.
  induction fuel as [| fuel IH]; intros k ret c;
    cbn [SgRequests.progress_loop].
  { rewrite printed_requests_finish. constructor. }
  pose proof (printed_requests_request l cdb tmo fd k c) as Hev.
  destruct (SgRequests.request w l cdb tmo fd k c) as [[[n buf1] ev] c0].
  cbn [fst snd] in Hev.
  destruct (-1 =? n).
  { rewrite trace_before, printed_app, printed_requests_finish, Hev.
    constructor. }
  pose proof (printed_requests_on_sense l
                (SgRequests.r_sense_cat (SgRequests.w_reply w k)) ret c0)
    as Hos.
  destruct (if -2 =? n then _ else _) as [[c1 ret1] ev1] eqn:Hsw.
  assert (Hev1 : printed progress_fmt ev1 = []).
  { destruct (-2 =? n).
    - rewrite Hsw in Hos. exact Hos.
    - inversion Hsw. reflexivity. }
  assert (Hpd : forall x, printed progress_fmt
                            (if 1 <? SgRequests.verbose l
                             then [Out "Parameter data in hex" x] else [])
                          = []).
  { intros x. destruct (1 <? SgRequests.verbose l); reflexivity. }
  destruct (truthy ret1).
  { rewrite trace_before, !printed_app, printed_requests_finish, Hev, Hev1.
    constructor. }
  destruct (sg_get_sense_progress_fld K buf1 (if 0 <=? n then n else 0))
    as [p |] eqn:Hfld.
  2: { cbn [Z.ltb Z.compare].
       rewrite trace_before, !printed_app, printed_requests_finish, Hev,
         Hev1, Hpd.
       replace (printed progress_fmt
                  (if 1 <? SgRequests.verbose l
                   then [Out "No progress indication found, iteration %d" _]
                   else []))
         with (@nil (list Z)) by (split_ifs; reflexivity).
       constructor. }
  apply progress_is_16_bit in Hfld.
  destruct (Z.ltb_spec p 0) as [Hneg | _]; [ lia | ].
  rewrite trace_before, !printed_app, Hev, Hev1, Hpd.
  cbn [app].
  change (printed progress_fmt [Out "Progress indication: %d.%02d%% done"
                                    [p * 100 / 65536;
                                     (p * 100) mod 65536 / 656]])
    with [progress_shown p].
  cbn [app]. constructor; [ exists p; split; [ exact Hfld | reflexivity ] | ].
  apply IH.
Qed.

Lemma printed_requests_parse (inv : SgRequests.invocation) (code : Z)
      (msgs : list event) :
  SgRequests.parse K inv = SgRequests.Exit code msgs ->
  printed progress_fmt msgs = [].
Proof.
  unfold SgRequests.parse.
  assert (Hopt : forall g l c m,
             SgRequests.opt K g l = SgRequests.Exit c m ->
             printed progress_fmt m = []).
  { intros g l c m. unfold SgRequests.opt. destruct l.
    split_ifs; intros H; inversion H; reflexivity. }
  assert (Hopts : forall gs l c m,
             SgRequests.options K gs l = SgRequests.Exit c m ->
             printed progress_fmt m = []).
  { induction gs as [| g gs IH]; intros l c m; cbn [SgRequests.options].
    - discriminate.
    - destruct (SgRequests.opt K g l) eqn:Hg.
      + apply IH.
      + intros H. inversion H; subst. eapply Hopt. exact Hg. }
  destruct (SgRequests.options K (SgRequests.getopt_opts inv)
              SgRequests.locals_init) eqn:Ho.
  - unfold SgRequests.positional.
    destruct (SgRequests.getopt_rest inv) as [| a tl]; [ discriminate | ].
    destruct l. destruct device_name; [ | destruct tl ]; try discriminate.
    all: intros H; inversion H.
    all: change (printed progress_fmt (Out ?f ?x :: ?tl))
           with (printed progress_fmt tl);
      rewrite printed_app, printed_extra_args by reflexivity; reflexivity.
  - intros H. inversion H; subst. eapply Hopts. exact Ho.
Qed.

Lemma printed_requests_main (inv : SgRequests.invocation) :
  Forall progress_line (printed progress_fmt (trace (SgRequests.main K w inv))).
Proof.
  unfold SgRequests.main. requests_report.
  destruct (SgRequests.parse K inv) as [l | code msgs] eqn:Hp.
  2: { cbn [trace fst]. rewrite (printed_requests_parse inv code msgs Hp).
       constructor. }
  unfold SgRequests.main_body.
  rewrite trace_before, printed_app.
  replace (printed progress_fmt
             (if SgRequests.verbose_given l && SgRequests.version_given l
              then _ else _)) with (@nil (list Z))
    by (split_ifs; reflexivity).
  cbn [app].
  destruct (SgRequests.version_given l); [ constructor | ].
  destruct (SgRequests.device_name l) as [dev |]; [ | constructor ].
  destruct (_ && _); [ constructor | ].
  destruct (_ && _).
  { rewrite trace_before, printed_app, printed_requests_finish. constructor. }
  destruct (SgRequests.w_open w <? 0).
  { rewrite trace_before, printed_app, printed_requests_finish.
    split_ifs; constructor. }
  rewrite trace_before, printed_app. cbn [printed flat_map app].
  destruct (match SgRequests.w_construct w with
            | Some err => truthy err
            | None => true
            end).
  { rewrite trace_before, printed_app, printed_requests_finish.
    match goal with
    | |- context [printed _ (if ?b then _ else _)] => destruct b
    end; constructor. }
  destruct (SgRequests.do_progress l).
  - apply printed_progress_loop.
  - rewrite printed_plain_loop. constructor.
Qed.

End RequestsProgress.

(** X6: every progress line sg_requests prints shows a percentage below
    100 with a two-digit fraction: for the 16-bit progress field [p] of the
    response the two numbers are [p * 100 / 65536] and
    [(p * 100 mod 65536) / 656], both between 0 and 99. *)
Theorem requests_progress_percentage
        (K : sg_lib_h) (w : SgRequests.world) (inv : SgRequests.invocation) :
  (forall (buf : list byte) (n p : Z),
      sg_get_sense_progress_fld K buf n = Some p -> 0 <= p < 65536) ->
  Forall (fun a => exists p whole frac,
              0 <= p < 65536
              /\ a = [whole; frac]
              /\ whole = (p * 100) / 65536 /\ 0 <= whole <= 99
              /\ frac = ((p * 100) mod 65536) / 656 /\ 0 <= frac <= 99)
         (printed progress_fmt (trace (SgRequests.main K w inv))).
Proof.
  intros H16.
  eapply Forall_impl; [ | apply (printed_requests_main K w H16 inv) ].
  intros a (p & Hp & ->). unfold progress_shown.
  exists p, ((p * 100) / 65536), (((p * 100) mod 65536) / 656).
  split; [ exact Hp | ]. split; [ reflexivity | ].
  split; [ reflexivity | ]. split.
  - split; [ apply Z.div_pos; lia | ].
    apply Z.lt_succ_r. apply Z.div_lt_upper_bound; lia.
  - split; [ reflexivity | ].
    pose proof (Z.mod_pos_bound (p * 100) 65536 ltac:(lia)) as Hm.
    split; [ apply Z.div_pos; lia | ].
    apply Z.lt_succ_r. apply Z.div_lt_upper_bound; lia.
Qed.

Lemma requests_progress_percentage_witness :
  Forall (fun a => exists p whole frac,
              0 <= p < 65536
              /\ a = [whole; frac]
              /\ whole = (p * 100) / 65536 /\ 0 <= whole <= 99
              /\ frac = ((p * 100) mod 65536) / 656 /\ 0 <= frac <= 99)
         (printed progress_fmt
            (trace (SgRequests.main Cases.K_progress
                      Cases.requests_progress_world
                      Cases.requests_progress_5))).
Proof.
  apply (requests_progress_percentage Cases.K_progress
           Cases.requests_progress_world Cases.requests_progress_5).
  intros buf n p H. cbn in H.
  destruct buf as [| [] ?]; inversion H; lia.
Defined.

Example requests_progress_sample :
  printed progress_fmt
    (trace (SgRequests.main Cases.K_progress Cases.requests_progress_world
              Cases.requests_progress_5))
  = [[33; 33]; [33; 33]]
  /\ List.length
       (submitted
          (trace (SgRequests.main Cases.K_progress
                    Cases.requests_progress_world
                    Cases.requests_progress_5))) = 3%nat.
Proof. split; vm_compute; reflexivity. Qed.

(** ** sg_requests: when the loops stop *)

Section RequestsStops.

Variable K : sg_lib_h.
Variable w : SgRequests.world.

Lemma requests_request_sends (l : SgRequests.locals) (cdb : list Z)
      (tmo fd : Z) (k : nat) (c : SgRequests.counters) :
  SgRequests.do_error l <= 1 ->
  exists ev,
    SgRequests.request w l cdb tmo fd k c
    = (SgRequests.r_n (SgRequests.w_reply w k),
       SgRequests.r_rsBuff (SgRequests.w_reply w k), ev, c)
    /\ io ev = [Submit fd (ScsiPt cdb tmo)
                       (SgRequests.status_of (SgRequests.w_reply w k))].
Proof.
  intros He. unfold SgRequests.request.
  destruct (Z.ltb_spec 1 (SgRequests.do_error l)) as [Hlt | _]; [ lia | ].
  eexists. split; [ reflexivity | ].
  rewrite io_app. destruct (_ && _); reflexivity.
Qed.

(** With more than one command asked for, the [switch] on the sense
    category leaves [ret] alone. *)
Lemma requests_on_sense_many (l : SgRequests.locals) (cat ret : Z)
      (c : SgRequests.counters) :
  SgRequests.num_rs l <> 1 ->
  snd (fst (SgRequests.on_sense K l cat ret c)) = ret.
Proof.
  intros Hn. unfold SgRequests.on_sense.
  destruct (Z.eqb_spec 1 (SgRequests.num_rs l)) as [E | _]; [ congruence | ].
  split_ifs; reflexivity.
Qed.

Lemma plain_loop_all (l : SgRequests.locals) (nrh : bool) (cdb : list Z)
      (tmo fd : Z) (fuel : nat) :
  0 <= fd -> SgRequests.do_error l <= 1 ->
  forall (k : nat) (a : Z) (buf : list byte) (c : SgRequests.counters),
    (SgRequests.num_rs l = 1 -> (fuel <= 1)%nat) ->
    (forall j, (k <= j < k + fuel)%nat ->
               SgRequests.r_n (SgRequests.w_reply w j) <> -1) ->
    io (trace (SgRequests.plain_loop K w l nrh cdb tmo fd fuel k a 0 buf c))
    = map (fun j => Submit fd (ScsiPt cdb tmo)
                           (SgRequests.status_of (SgRequests.w_reply w j)))
          (seq k fuel)
      ++ [Close fd].
Proof.
  intros Hfd He. assert (Hc : closing fd = [Close fd]).
  { apply closing_pos. apply Z.leb_le. assumption. }
  induction fuel as [| fuel IH]; intros k a buf c Hone Hall.
  - cbn [SgRequests.plain_loop]. rewrite io_requests_after_loop, Hc.
    reflexivity.
  - cbn [SgRequests.plain_loop].
    destruct (requests_request_sends l cdb tmo fd k c He) as (ev & -> & Hev).
    destruct (Z.eqb_spec (-1) (SgRequests.r_n (SgRequests.w_reply w k)))
      as [E | _].
    { exfalso. apply (Hall k); [ lia | congruence ]. }
    pose proof (io_requests_on_sense K l
                  (SgRequests.r_sense_cat (SgRequests.w_reply w k)) 0 c)
      as Hos.
    pose proof (requests_on_sense_many l
                  (SgRequests.r_sense_cat (SgRequests.w_reply w k)) 0 c)
      as Hmany.
    destruct (if -2 =? _ then _ else _) as [[c1 ret1] ev1] eqn:Hsw.
    assert (Hev1 : io ev1 = []
                   /\ (SgRequests.num_rs l <> 1 -> ret1 = 0)).
    { destruct (-2 =? _).
      - rewrite Hsw in Hos, Hmany. split; assumption.
      - inversion Hsw. split; reflexivity. }
    destruct Hev1 as [Hev1 Hret1].
    destruct (if 7 <? _ then _ else _) as [c2 ev2] eqn:Hn2.
    assert (Hev2 : io ev2 = []).
    { revert Hn2. split_ifs; intros Hn2; inversion Hn2; reflexivity. }
    destruct (truthy ret1) eqn:Htr.
    + assert (Hf : fuel = O).
      { destruct (Z.eq_dec (SgRequests.num_rs l) 1) as [E1 | N1].
        - specialize (Hone E1). lia.
        - rewrite (Hret1 N1) in Htr. discriminate Htr. }
      subst fuel.
      rewrite trace_before, !io_app, io_requests_finish, Hev, Hev1, Hev2, Hc.
      reflexivity.
    + assert (Hz : ret1 = 0).
      { unfold truthy in Htr. apply negb_false_iff in Htr.
        apply Z.eqb_eq in Htr. exact Htr. }
      subst ret1.
      rewrite trace_before, !io_app, Hev, Hev1, Hev2.
      replace (io (if 0 <? _ then _ else _)) with (@nil event)
        by (split_ifs; reflexivity).
      rewrite IH.
      * reflexivity.
      * intros E1. specialize (Hone E1). lia.
      * intros j Hj. apply Hall. lia.
Qed.

Lemma progress_loop_stops (l : SgRequests.locals) (nrh : bool)
      (cdb : list Z) (tmo fd : Z) (i : nat) :
  0 <= fd -> SgRequests.do_error l <= 1 -> 0 <= SgRequests.w_close w ->
  forall (fuel k : nat) (c : SgRequests.counters),
    (i < fuel)%nat ->
    (forall j, (k <= j <= k + i)%nat ->
               0 <= SgRequests.r_n (SgRequests.w_reply w j)) ->
    (forall j, (k <= j < k + i)%nat ->
               exists p, 0 <= p /\ progress_of K w j = Some p) ->
    progress_of K w (k + i) = None ->
    io (trace (SgRequests.progress_loop K w l nrh cdb tmo fd fuel k 0 c))
    = map (fun j => Submit fd (ScsiPt cdb tmo)
                           (SgRequests.status_of (SgRequests.w_reply w j)))
          (seq k (S i))
      ++ [Close fd]
    /\ exit_code (SgRequests.progress_loop K w l nrh cdb tmo fd fuel k 0 c)
       = 0.
Proof.
  intros Hfd He Hcl. assert (Hc : closing fd = [Close fd]).
  { apply closing_pos. apply Z.leb_le. assumption. }
  induction i as [| i IH]; intros fuel k c Hi Hn Hp Hnone;
    (destruct fuel as [| fuel]; [ lia | ]);
    cbn [SgRequests.progress_loop];
    destruct (requests_request_sends l cdb tmo fd k c He) as (ev & -> & Hev);
    (assert (Hk : 0 <= SgRequests.r_n (SgRequests.w_reply w k))
      by (apply Hn; lia));
    (destruct (Z.eqb_spec (-1) (SgRequests.r_n (SgRequests.w_reply w k)))
      as [E | _]; [ lia | ]);
    (destruct (Z.eqb_spec (-2) (SgRequests.r_n (SgRequests.w_reply w k)))
      as [E | _]; [ lia | ]);
    cbn [truthy Z.eqb negb].
  - replace (k + 0)%nat with k in Hnone by lia.
    unfold progress_of in Hnone. rewrite Hnone. cbn [Z.ltb Z.compare].
    rewrite trace_before, exit_code_before, !io_app, io_requests_finish, Hev,
      Hc.
    split.
    + replace (io (if 1 <? SgRequests.verbose l
                   then [Out "Parameter data in hex" _] else []))
        with (@nil event) by (split_ifs; reflexivity).
      replace (io (if 1 <? SgRequests.verbose l
                   then [Out "No progress indication found, iteration %d" _]
                   else []))
        with (@nil event) by (split_ifs; reflexivity).
      reflexivity.
    + apply requests_finish_exit_zero. assumption.
  - destruct (Hp k) as (p & Hp0 & Hpk); [ lia | ].
    unfold progress_of in Hpk. rewrite Hpk.
    destruct (Z.ltb_spec p 0) as [Hneg | _]; [ lia | ].
    rewrite trace_before, exit_code_before, !io_app, Hev.
    destruct (IH fuel (S k) c) as [Hio Hex].
    + lia.
    + intros j Hj. apply Hn. lia.
    + intros j Hj. apply Hp. lia.
    + replace (S k + i)%nat with (k + S i)%nat by lia. exact Hnone.
    + rewrite Hio, Hex. split; [ | reflexivity ].
      replace (io (if 1 <? SgRequests.verbose l
                   then [Out "Parameter data in hex" _] else []))
        with (@nil event) by (split_ifs; reflexivity).
      reflexivity.
Qed.

(** The first pass of either loop submits the command. *)
Lemma plain_loop_first (l : SgRequests.locals) (nrh : bool) (cdb : list Z)
      (tmo fd : Z) (fuel k : nat) (a ret : Z) (buf : list byte)
      (c : SgRequests.counters) :
  SgRequests.do_error l <= 1 ->
  exists tl,
    io (trace (SgRequests.plain_loop K w l nrh cdb tmo fd (S fuel) k a ret
                                     buf c))
    = Submit fd (ScsiPt cdb tmo) (SgRequests.status_of (SgRequests.w_reply w k))
      :: tl.
Proof.
  intros He. cbn [SgRequests.plain_loop].
  destruct (requests_request_sends l cdb tmo fd k c He) as (ev & -> & Hev).
  destruct (-1 =? _).
  { rewrite trace_before, io_app, Hev. eexists. reflexivity. }
  destruct (if -2 =? _ then _ else _) as [[c1 ret1] ev1].
  destruct (if 7 <? _ then _ else _) as [c2 ev2].
  destruct (truthy ret1); rewrite trace_before, !io_app, Hev;
    eexists; reflexivity.
Qed.

Lemma progress_loop_first (l : SgRequests.locals) (nrh : bool)
      (cdb : list Z) (tmo fd : Z) (fuel k : nat) (ret : Z)
      (c : SgRequests.counters) :
  SgRequests.do_error l <= 1 ->
  exists tl,
    io (trace (SgRequests.progress_loop K w l nrh cdb tmo fd (S fuel) k ret c))
    = Submit fd (ScsiPt cdb tmo) (SgRequests.status_of (SgRequests.w_reply w k))
      :: tl.
Proof.
  intros He. cbn [SgRequests.progress_loop].
  destruct (requests_request_sends l cdb tmo fd k c He) as (ev & -> & Hev).
  destruct (-1 =? _).
  { rewrite trace_before, io_app, Hev. eexists. reflexivity. }
  destruct (if -2 =? _ then _ else _) as [[c1 ret1] ev1].
  destruct (truthy ret1).
  { rewrite trace_before, !io_app, Hev. eexists. reflexivity. }
  cbv zeta.
  destruct (_ <? 0); rewrite trace_before, !io_app, Hev;
    eexists; reflexivity.
Qed.

(** [main_body] up to the loops, when the run gets that far. *)
Lemma requests_main_body_reaches (l : SgRequests.locals) :
  reaches_loop w l ->
  exists dev pre,
    io pre = [Open dev (SgRequests.w_open w)]
    /\ SgRequests.main_body K w l
       = before pre
           (let nrh := negb (SgRequests.do_raw l
                             || truthy (SgRequests.do_hex l)) in
            let cdb := SgRequests.rs_cdb l (maxlen_used l) in
            if SgRequests.do_progress l
            then SgRequests.progress_loop K w l nrh cdb (tmo_used l)
                   (SgRequests.w_open w) (Z.to_nat (SgRequests.num_rs l))
                   0 0 SgRequests.counters_init
            else SgRequests.plain_loop K w l nrh cdb (tmo_used l)
                   (SgRequests.w_open w) (Z.to_nat (SgRequests.num_rs l))
                   0 0 0 (SgRequests.zeros 256) SgRequests.counters_init).
Proof.
  intros (Hver & Hdev & Hbin & Hcontra & Hopen & Hcons).
  unfold SgRequests.main_body. rewrite Hver.
  destruct (SgRequests.device_name l) as [dev |]; [ | congruence ].
  assert (Hb : SgRequests.do_raw l && (SgRequests.w_set_binary_mode w <? 0)
               = false).
  { destruct (SgRequests.do_raw l); [ | reflexivity ].
    cbn [andb]. apply Z.ltb_ge. apply Hbin. reflexivity. }
  rewrite Hb, negb_involutive, Hcontra.
  assert (Ho : (SgRequests.w_open w <? 0) = false) by (apply Z.ltb_ge; lia).
  rewrite Ho, Hcons. cbn [truthy Z.eqb negb].
  exists dev. eexists. split; [ | unfold before; cbn [trace exit_code fst snd];
                                   rewrite app_assoc; reflexivity ].
  rewrite io_app. rewrite andb_false_r. reflexivity.
Qed.

End RequestsStops.

(** Without [--progress], every pass of the loop submits the command. *)
Lemma requests_plain_run
      (K : sg_lib_h) (w : SgRequests.world) (inv : SgRequests.invocation)
      (l : SgRequests.locals) :
  SgRequests.parse K inv = SgRequests.Parsed l ->
  reaches_loop w l ->
  SgRequests.do_progress l = false ->
  SgRequests.do_error l <= 1 ->
  (forall j, (j < Z.to_nat (SgRequests.num_rs l))%nat ->
             SgRequests.r_n (SgRequests.w_reply w j) <> -1) ->
  submitted (trace (SgRequests.main K w inv))
  = map (fun j => (request_sense l,
                   SgRequests.status_of (SgRequests.w_reply w j)))
        (seq 0 (Z.to_nat (SgRequests.num_rs l))).
Proof.
  intros Hp Hreach Hprog He Hall.
  pose proof (requests_parse_flags K inv l Hp) as (Hn & Hn1 & _).
  unfold SgRequests.main. requests_report. rewrite Hp.
  destruct (requests_main_body_reaches K w l Hreach) as (dev & pre & Hpre & ->).
  rewrite Hprog. cbv zeta.
  rewrite <- submitted_io, trace_before, io_app, Hpre.
  destruct Hreach as (_ & _ & _ & _ & Hopen & _).
  rewrite plain_loop_all.
  - cbn [app submitted]. rewrite submitted_app. cbn [submitted].
    rewrite app_nil_r. unfold request_sense.
    generalize (seq 0 (Z.to_nat (SgRequests.num_rs l))).
    intros js. induction js as [| j js IH]; [ reflexivity | ].
    cbn [map submitted]. rewrite IH. reflexivity.
  - exact Hopen.
  - exact He.
  - intros E. rewrite E. cbn. lia.
  - intros j Hj. apply Hall. lia.
Qed.

(** With or without [--progress], the first pass submits it. *)
Lemma requests_first_pass
      (K : sg_lib_h) (w : SgRequests.world) (inv : SgRequests.invocation)
      (l : SgRequests.locals) :
  SgRequests.parse K inv = SgRequests.Parsed l ->
  reaches_loop w l ->
  SgRequests.do_error l <= 1 ->
  0 < SgRequests.num_rs l ->
  exists tl,
    submitted (trace (SgRequests.main K w inv))
    = (request_sense l, SgRequests.status_of (SgRequests.w_reply w 0)) :: tl.
Proof.
  intros Hp Hreach He Hnum.
  unfold SgRequests.main. requests_report. rewrite Hp.
  destruct (requests_main_body_reaches K w l Hreach) as (dev & pre & Hpre & ->).
  cbv zeta.
  rewrite <- submitted_io, trace_before, io_app, Hpre.
  destruct (Z.to_nat (SgRequests.num_rs l)) as [| fuel] eqn:Hfuel; [ lia | ].
  destruct (SgRequests.do_progress l).
  - destruct (progress_loop_first K w l
                (negb (SgRequests.do_raw l || truthy (SgRequests.do_hex l)))
                (SgRequests.rs_cdb l (maxlen_used l)) (tmo_used l)
                (SgRequests.w_open w) fuel 0 0 SgRequests.counters_init He)
      as (tl & ->).
    eexists. unfold request_sense. reflexivity.
  - destruct (plain_loop_first K w l
                (negb (SgRequests.do_raw l || truthy (SgRequests.do_hex l)))
                (SgRequests.rs_cdb l (maxlen_used l)) (tmo_used l)
                (SgRequests.w_open w) fuel 0 0 0 (SgRequests.zeros 256)
                SgRequests.counters_init He)
      as (tl & ->).
    eexists. unfold request_sense. reflexivity.
Qed.

(** C7: sg_requests sends one and the same REQUEST SENSE command on every
    pass of its loop.  Every command it submits carries six bytes: the
    opcode 0x03, or 0xff when [--error] is given; bit 0 of byte 1 set
    exactly when [--desc] is given; the allocation length in byte 4,
    which is the [--maxlen] argument, or 252 when that is absent or 0;
    and zero everywhere else.  And it does submit it: when the device is
    open and the pass-through object built, with [--error] given at most
    once, the first pass sends this command, and without [--progress],
    unless the response processing returns -1, each of the [--num] passes
    does. *)
Theorem request_sense_cdb_layout
        (K : sg_lib_h) (w : SgRequests.world) (inv : SgRequests.invocation) :
  let opts := SgRequests.getopt_opts inv in
  let maxlen := num_or K 0 (last_arg "m" opts) in
  let cdb := [ if given "e" opts then 0xff else 0x03;
               if given "d" opts then 1 else 0;
               0;
               0;
               if 0 =? maxlen then 252 else maxlen;
               0 ] in
  let sent := submitted (trace (SgRequests.main K w inv)) in
  Forall (fun cs => exists tmo, fst cs = ScsiPt cdb tmo) sent
  /\ forall l,
      SgRequests.parse K inv = SgRequests.Parsed l ->
      reaches_loop w l ->
      SgRequests.do_error l <= 1 ->
      (0 < SgRequests.num_rs l ->
       exists tmo tl,
         sent = (ScsiPt cdb tmo,
                 SgRequests.status_of (SgRequests.w_reply w 0)) :: tl)
      /\ (SgRequests.do_progress l = false ->
          (forall j, (j < Z.to_nat (SgRequests.num_rs l))%nat ->
                     SgRequests.r_n (SgRequests.w_reply w j) <> -1) ->
          exists tmo,
            sent
            = map (fun j => (ScsiPt cdb tmo,
                             SgRequests.status_of (SgRequests.w_reply w j)))
                  (seq 0 (Z.to_nat (num_or K 1 (last_arg "n" opts))))).
Proof.
  intros opts maxlen cdb sent. subst sent cdb maxlen opts.
  split.
  - pose proof (requests_submitted_shape K w inv) as H.
    destruct (SgRequests.parse K inv) as [l | code msgs] eqn:Hp;
      [ | rewrite H; constructor ].
    eapply Forall_impl; [ | exact H ].
    intros cs ->. exists (tmo_used l).
    exact (request_sense_layout K inv l Hp).
  - intros l Hp Hreach He.
    pose proof (request_sense_layout K inv l Hp) as Hcdb. cbv zeta in Hcdb.
    pose proof (requests_parse_flags K inv l Hp) as (Hn & _).
    split.
    + intros Hnum.
      destruct (requests_first_pass K w inv l Hp Hreach He Hnum) as (tl & Hs).
      exists (tmo_used l), tl. rewrite Hs, Hcdb. reflexivity.
    + intros Hprog Hall. exists (tmo_used l).
      rewrite (requests_plain_run K w inv l Hp Hreach Hprog He Hall).
      rewrite Hcdb, Hn. reflexivity.
Qed.

(** [sg_requests --desc --maxlen=18 --num=3 --timeout=5 /dev/sg0]: three
    commands, each with the descriptor bit and the allocation length
    18. *)
Lemma request_sense_cdb_layout_witness :
  exists tmo,
    submitted (trace (SgRequests.main Samples.K
                        (Samples.requests_world (Samples.pt_reply 18 0))
                        Samples.requests_many))
    = [(ScsiPt [3; 1; 0; 0; 18; 0] tmo, Done);
       (ScsiPt [3; 1; 0; 0; 18; 0] tmo, Done);
       (ScsiPt [3; 1; 0; 0; 18; 0] tmo, Done)].
Proof.
  destruct (request_sense_cdb_layout Samples.K
              (Samples.requests_world (Samples.pt_reply 18 0))
              Samples.requests_many) as (_ & H).
  destruct (H (SgRequests.Build_locals true 0 0 18 3 false false false false
                 5 0 false false (Some Samples.sg0)))
    as (_ & Hall).
  - vm_compute. reflexivity.
  - unfold reaches_loop. cbn.
    repeat split; try reflexivity; try discriminate; lia.
  - cbn. lia.
  - destruct Hall as (tmo & Hs).
    + reflexivity.
    + intros j _. cbn. lia.
    + exists tmo. rewrite Hs. reflexivity.
Defined.

(** X7: without [--progress], and unless a pass-through call itself fails
    (the response processing returns -1), sg_requests sends exactly as many
    REQUEST SENSE commands as [--num] asks for: a command that comes back
    with sense data does not end the loop. *)
Theorem requests_sends_every_command
        (K : sg_lib_h) (w : SgRequests.world) (inv : SgRequests.invocation)
        (l : SgRequests.locals) :
  SgRequests.parse K inv = SgRequests.Parsed l ->
  reaches_loop w l ->
  SgRequests.do_progress l = false ->
  SgRequests.do_error l <= 1 ->
  (forall j, (j < Z.to_nat (SgRequests.num_rs l))%nat ->
             SgRequests.r_n (SgRequests.w_reply w j) <> -1) ->
  submitted (trace (SgRequests.main K w inv))
  = map (fun j => (request_sense l,
                   SgRequests.status_of (SgRequests.w_reply w j)))
        (seq 0 (Z.to_nat (num_or K 1 (last_arg "n"
                                         (SgRequests.getopt_opts inv))))).
Proof.
  intros Hp Hreach Hprog He Hall.
  pose proof (requests_parse_flags K inv l Hp) as (Hn & _).
  rewrite <- Hn. apply requests_plain_run; assumption.
Qed.

(** X8: with [--progress] the loop ends at the first response in which no
    progress indication is found.  Take a run that reaches the loop (the
    command line parses, without [--version], names a device that opens,
    the pass-through object is built, and should [--raw] be given binary
    mode is set), with [--error] given at most once, in which the commands
    0 to i complete with a result of sg_cmds_process_resp that is not
    negative, where i is below [--num].  When the responses 0 to i-1 carry
    a progress indication that is not negative and response i carries
    none, i+1 commands are sent whatever [--num] says, and the exit status
    is 0 when the close succeeds. *)
Theorem requests_progress_stops_without_indication
        (K : sg_lib_h) (w : SgRequests.world) (inv : SgRequests.invocation)
        (l : SgRequests.locals) (i : nat) :
  SgRequests.parse K inv = SgRequests.Parsed l ->
  reaches_loop w l ->
  SgRequests.do_progress l = true ->
  SgRequests.do_error l <= 1 ->
  0 <= SgRequests.w_close w ->
  (i < Z.to_nat (SgRequests.num_rs l))%nat ->
  (forall j, (j <= i)%nat -> 0 <= SgRequests.r_n (SgRequests.w_reply w j)) ->
  (forall j, (j < i)%nat -> exists p, 0 <= p /\ progress_of K w j = Some p) ->
  progress_of K w i = None ->
  submitted (trace (SgRequests.main K w inv))
  = map (fun j => (request_sense l, Done)) (seq 0 (S i))
  /\ exit_code (SgRequests.main K w inv) = 0.
Proof.
  intros Hp Hreach Hprog He Hcl Hi Hn Hpr Hnone.
  unfold SgRequests.main. requests_report. rewrite Hp.
  destruct (requests_main_body_reaches K w l Hreach) as (dev & pre & Hpre & ->).
  rewrite Hprog. cbv zeta.
  rewrite <- submitted_io, trace_before, exit_code_before, io_app, Hpre.
  destruct Hreach as (_ & _ & _ & _ & Hopen & _).
  destruct (progress_loop_stops K w l
              (negb (SgRequests.do_raw l || truthy (SgRequests.do_hex l)))
              (SgRequests.rs_cdb l (maxlen_used l)) (tmo_used l)
              (SgRequests.w_open w) i Hopen He Hcl
              (Z.to_nat (SgRequests.num_rs l)) 0 SgRequests.counters_init)
    as [Hio Hex].
  - exact Hi.
  - intros j Hj. apply Hn. lia.
  - intros j Hj. apply Hpr. lia.
  - exact Hnone.
  - rewrite Hio, Hex. split; [ | reflexivity ].
    cbn [app submitted]. rewrite submitted_app. cbn [submitted].
    rewrite app_nil_r. unfold request_sense.
    assert (Hdone : forall j, In j (seq 0 (S i)) ->
                      SgRequests.status_of (SgRequests.w_reply w j) = Done).
    { intros j Hj. apply in_seq in Hj. unfold SgRequests.status_of.
      pose proof (Hn j ltac:(lia)) as Hnj.
      destruct (Z.eqb_spec (-1) (SgRequests.r_n (SgRequests.w_reply w j)));
        [ lia | ].
      destruct (Z.eqb_spec (-2) (SgRequests.r_n (SgRequests.w_reply w j)));
        [ lia | reflexivity ]. }
    revert Hdone. generalize (seq 0 (S i)).
    intros js Hdone. induction js as [| j js IH]; [ reflexivity | ].
    cbn [map submitted].
    rewrite (Hdone j) by (left; reflexivity).
    rewrite IH by (intros j' Hj'; apply Hdone; right; exact Hj').
    reflexivity.
Qed.

Lemma requests_sends_every_command_witness :
  submitted
    (trace (SgRequests.main Samples.K
              (Samples.requests_world (Samples.pt_reply (-2) 5))
              Cases.requests_num_3))
  = map (fun j => (request_sense
                     (SgRequests.Build_locals false 0 0 0 3 false false false
                        false 0 0 false false (Some Samples.sg0)),
                   SgRequests.status_of
                     (SgRequests.w_reply
                        (Samples.requests_world (Samples.pt_reply (-2) 5)) j)))
        (seq 0 (Z.to_nat (num_or Samples.K 1
                            (last_arg "n" (SgRequests.getopt_opts
                                             Cases.requests_num_3))))).
Proof.
  apply (requests_sends_every_command Samples.K
           (Samples.requests_world (Samples.pt_reply (-2) 5))
           Cases.requests_num_3
           (SgRequests.Build_locals false 0 0 0 3 false false false false 0 0
              false false (Some Samples.sg0))).
  - vm_compute. reflexivity.
  - unfold reaches_loop. cbn.
    repeat split; try reflexivity; try discriminate; lia.
  - reflexivity.
  - cbn. lia.
  - intros j _. cbn. lia.
Defined.

Lemma requests_progress_stops_without_indication_witness :
  submitted
    (trace (SgRequests.main Cases.K_progress Cases.requests_progress_world
              Cases.requests_progress_5))
  = map (fun j => (request_sense
                     (SgRequests.Build_locals false 0 0 0 5 true false false
                        false 0 0 false false (Some Samples.sg0)),
                   Done))
        (seq 0 3)
  /\ exit_code (SgRequests.main Cases.K_progress Cases.requests_progress_world
                  Cases.requests_progress_5) = 0.
Proof.
  apply (requests_progress_stops_without_indication Cases.K_progress
           Cases.requests_progress_world Cases.requests_progress_5
           (SgRequests.Build_locals false 0 0 0 5 true false false false 0 0
              false false (Some Samples.sg0)) 2).
  - vm_compute. reflexivity.
  - unfold reaches_loop. cbn.
    repeat split; try reflexivity; try discriminate; lia.
  - reflexivity.
  - cbn. lia.
  - cbn. lia.
  - cbn. lia.
  - intros j _. cbn. lia.
  - intros j Hj. exists 0x5555. split; [ lia | ].
    destruct j as [| [| j]]; [ reflexivity | reflexivity | lia ].
  - reflexivity.
Defined.

(** ** sg_requests: the exit status is never negative *)

Section RequestsExitRange.

Variable K : sg_lib_h.
Variable w : SgRequests.world.

Hypothesis syntax_error_nonneg : 0 <= SG_LIB_SYNTAX_ERROR K.
Hypothesis file_error_nonneg : 0 <= SG_LIB_FILE_ERROR K.
Hypothesis cat_other_nonneg : 0 <= SG_LIB_CAT_OTHER K.

Lemma requests_finish_nonneg (l : SgRequests.locals) (nrh : bool)
      (fd ret : Z) (c : SgRequests.counters) :
  0 <= exit_code (SgRequests.finish K w l nrh fd ret c).
Proof.
  unfold SgRequests.finish.
  destruct (if 0 <=? fd then _ else _) as [ev2 ret1].
  cbn [exit_code snd].
  destruct (Z.leb_spec 0 ret1); lia.
Qed.

Lemma requests_plain_loop_nonneg (l : SgRequests.locals) (nrh : bool)
      (cdb : list Z) (tmo fd : Z) (fuel : nat) :
  forall (k : nat) (a ret : Z) (buf : list byte) (c : SgRequests.counters),
    0 <= exit_code (SgRequests.plain_loop K w l nrh cdb tmo fd fuel k a ret
                                          buf c).
Proof.
  induction fuel as [| fuel IH]; intros k a ret buf c;
    cbn [SgRequests.plain_loop].
  - unfold SgRequests.after_loop. rewrite exit_code_before.
    apply requests_finish_nonneg.
  - destruct (SgRequests.request w l cdb tmo fd k c) as [[[n buf1] ev] c0].
    destruct (-1 =? n);
      [ rewrite exit_code_before; apply requests_finish_nonneg | ].
    destruct (if -2 =? n then _ else _) as [[c1 ret1] ev1].
    destruct (if 7 <? _ then _ else _) as [c2 ev2].
    destruct (truthy ret1); rewrite exit_code_before;
      [ apply requests_finish_nonneg | apply IH ].
Qed.

Lemma requests_progress_loop_nonneg (l : SgRequests.locals) (nrh : bool)
      (cdb : list Z) (tmo fd : Z) (fuel : nat) :
  forall (k : nat) (ret : Z) (c : SgRequests.counters),
    0 <= exit_code (SgRequests.progress_loop K w l nrh cdb tmo fd fuel k ret
                                             c).
Proof.
  induction fuel as [| fuel IH]; intros k ret c;
    cbn [SgRequests.progress_loop]; [ apply requests_finish_nonneg | ].
  destruct (SgRequests.request w l cdb tmo fd k c) as [[[n buf1] ev] c0].
  destruct (-1 =? n);
    [ rewrite exit_code_before; apply requests_finish_nonneg | ].
  destruct (if -2 =? n then _ else _) as [[c1 ret1] ev1].
  destruct (truthy ret1);
    [ rewrite exit_code_before; apply requests_finish_nonneg | ].
  destruct (_ <? 0); rewrite exit_code_before;
    [ apply requests_finish_nonneg | apply IH ].
Qed.

Lemma requests_parse_exit_codes (inv : SgRequests.invocation) (code : Z)
      (msgs : list event) :
  SgRequests.parse K inv = SgRequests.Exit code msgs ->
  code = 0 \/ code = SG_LIB_SYNTAX_ERROR K.
Proof.
  unfold SgRequests.parse.
  assert (Hopt : forall g l c m,
             SgRequests.opt K g l = SgRequests.Exit c m ->
             c = 0 \/ c = SG_LIB_SYNTAX_ERROR K).
  { intros g l c m. unfold SgRequests.opt. destruct l.
    split_ifs; intros H; inversion H; tauto. }
  assert (Hopts : forall gs l c m,
             SgRequests.options K gs l = SgRequests.Exit c m ->
             c = 0 \/ c = SG_LIB_SYNTAX_ERROR K).
  { induction gs as [| g gs IH]; intros l c m; cbn [SgRequests.options].
    - discriminate.
    - destruct (SgRequests.opt K g l) eqn:Hg.
      + apply IH.
      + intros H. inversion H; subst. eapply Hopt. exact Hg. }
  destruct (SgRequests.options K (SgRequests.getopt_opts inv)
              SgRequests.locals_init) eqn:Ho.
  - unfold SgRequests.positional.
    destruct (SgRequests.getopt_rest inv) as [| a tl]; [ discriminate | ].
    destruct l. destruct device_name; [ | destruct tl ]; try discriminate.
    all: intros H; inversion H; tauto.
  - intros H. inversion H; subst. eapply Hopts. exact Ho.
Qed.

Lemma requests_main_nonneg (inv : SgRequests.invocation) :
  0 <= exit_code (SgRequests.main K w inv).
Proof.
  unfold SgRequests.main. requests_report.
  destruct (SgRequests.parse K inv) as [l | code msgs] eqn:Hp.
  2: { apply requests_parse_exit_codes in Hp. cbn [exit_code snd].
       destruct Hp; lia. }
  unfold SgRequests.main_body. rewrite exit_code_before.
  destruct (SgRequests.version_given l); [ cbn; lia | ].
  destruct (SgRequests.device_name l) as [dev |]; [ | exact syntax_error_nonneg ].
  destruct (_ && _); [ exact file_error_nonneg | ].
  destruct (_ && _);
    [ rewrite exit_code_before; apply requests_finish_nonneg | ].
  destruct (SgRequests.w_open w <? 0);
    [ rewrite exit_code_before; apply requests_finish_nonneg | ].
  rewrite exit_code_before.
  destruct (match SgRequests.w_construct w with
            | Some err => truthy err
            | None => true
            end);
    [ rewrite exit_code_before; apply requests_finish_nonneg | ].
  destruct (SgRequests.do_progress l);
    [ apply requests_progress_loop_nonneg | apply requests_plain_loop_nonneg ].
Qed.

End RequestsExitRange.

(** ** sg_readcap: the exit status *)

Section ReadcapExit.

Variable K : sg_lib_h.
Variable w : SgReadcap.world.

Hypothesis close_ok : 0 <= SgReadcap.w_close w.

Lemma readcap_fini_exit (op : SgReadcap.opts_t) (fd ret res : Z) :
  SgReadcap.do_json op = false ->
  exit_code (SgReadcap.fini K w op fd ret res) = or_cat_other K ret.
Proof.
  intros Hj. unfold SgReadcap.fini, or_cat_other. rewrite Hj.
  destruct (Z.ltb_spec (SgReadcap.w_close w) 0) as [Hlt | _]; [ lia | ].
  destruct (0 <=? fd); reflexivity.
Qed.

Lemma readcap_after_commands_exit (op : SgReadcap.opts_t) (fd ret res : Z) :
  SgReadcap.do_json op = false ->
  exit_code (SgReadcap.after_commands K w op fd ret res) = or_cat_other K ret.
Proof.
  intros Hj. unfold SgReadcap.after_commands.
  rewrite exit_code_before. apply readcap_fini_exit. assumption.
Qed.

Lemma readcap_long_block_exit (op : SgReadcap.opts_t) (fd ret res : Z)
      (buf : list byte) :
  SgReadcap.do_json op = false -> 0 <= fd ->
  exit_code (SgReadcap.long_block K w op fd ret res buf)
  = or_cat_other K (if SgReadcap.do_long op
                    then fst (SgReadcap.w_readcap_16 w) else ret).
Proof.
  intros Hj Hfd. unfold SgReadcap.long_block.
  destruct (SgReadcap.do_long op);
    [ | apply readcap_after_commands_exit; assumption ].
  destruct (Z.leb_spec 0 fd) as [_ | Hlt]; [ | lia ].
  destruct (Z.eqb_spec 0 (fst (SgReadcap.w_readcap_16 w))) as [E | N].
  - rewrite <- E.
    destruct (_ || _); [ | destruct (SgReadcap.do_brief op) ];
      rewrite exit_code_before; apply readcap_fini_exit; assumption.
  - destruct (_ =? _); rewrite exit_code_before;
      apply readcap_after_commands_exit; assumption.
Qed.

Lemma readcap_do_json_set_do_long (b : bool) (op : SgReadcap.opts_t) :
  SgReadcap.do_json (SgReadcap.set_do_long b op) = SgReadcap.do_json op.
Proof. destruct op; reflexivity. Qed.

(** The commands sent once the device is open, and the exit status: that
    of the last of them. *)
Lemma readcap_commands_exit (op : SgReadcap.opts_t) (fd res : Z)
      (buf : list byte) :
  SgReadcap.do_json op = false -> 0 <= fd -> 0 <= SgReadcap.w_reopen w ->
  exists pre c st,
    submitted (trace (SgReadcap.commands K w op fd res buf)) = pre ++ [(c, st)]
    /\ exit_code (SgReadcap.commands K w op fd res buf)
       = or_cat_other K (category st).
Proof.
  intros Hj Hfd Hre.
  assert (Hfdb : (0 <=? fd) = true) by (apply Z.leb_le; assumption).
  assert (Hreb : (0 <=? SgReadcap.w_reopen w) = true)
    by (apply Z.leb_le; assumption).
  assert (Hrel : (SgReadcap.w_reopen w <? 0) = false)
    by (apply Z.ltb_ge; assumption).
  assert (Hst : forall r, category (SgReadcap.status_of r) = r).
  { intros r. unfold SgReadcap.status_of.
    destruct (Z.eqb_spec r 0) as [-> | _]; reflexivity. }
  rewrite <- submitted_io, io_commands.
  unfold SgReadcap.commands, commands_io.
  destruct (SgReadcap.do_long op) eqn:Hl; cbn [negb].
  - rewrite readcap_long_block_exit, Hl, Hfdb by assumption.
    unfold rc16, closing. rewrite Hfdb. cbn [app submitted].
    exists [], (Readcap16 (SgReadcap.do_pmi op) (SgReadcap.llba op)),
      (SgReadcap.status_of (fst (SgReadcap.w_readcap_16 w))).
    rewrite Hst. split; reflexivity.
  - unfold short_block_io, SgReadcap.short_block, rc10, rc16.
    rewrite Hfdb.
    destruct (Z.eqb_spec 0 (fst (SgReadcap.w_readcap_10 w))) as [E | N].
    + destruct (truthy (SgReadcap.do_hex op) || SgReadcap.do_raw op);
        cbn [orb].
      * rewrite exit_code_before, readcap_fini_exit by assumption.
        exists [], (Readcap10 (SgReadcap.do_pmi op)
                              (wrap 32 (SgReadcap.llba op))),
          (SgReadcap.status_of (fst (SgReadcap.w_readcap_10 w))).
        rewrite Hst, <- E. split; reflexivity.
      * destruct (negb (0xffffffff =? _));
          [ destruct (SgReadcap.do_brief op) | ];
          rewrite exit_code_before.
        -- rewrite readcap_fini_exit by assumption.
           exists [], (Readcap10 (SgReadcap.do_pmi op)
                                 (wrap 32 (SgReadcap.llba op))),
             (SgReadcap.status_of (fst (SgReadcap.w_readcap_10 w))).
           rewrite Hst, <- E. split; reflexivity.
        -- rewrite readcap_fini_exit by assumption.
           exists [], (Readcap10 (SgReadcap.do_pmi op)
                                 (wrap 32 (SgReadcap.llba op))),
             (SgReadcap.status_of (fst (SgReadcap.w_readcap_10 w))).
           rewrite Hst, <- E. split; reflexivity.
        -- rewrite readcap_long_block_exit, readcap_do_long_set
             by (rewrite ?readcap_do_json_set_do_long; assumption).
           eexists [_], _, (SgReadcap.status_of (fst (SgReadcap.w_readcap_16 w))).
           rewrite Hst. split; reflexivity.
    + destruct (SG_LIB_CAT_INVALID_OP K =? fst (SgReadcap.w_readcap_10 w));
        cbn [andb].
      * rewrite Hrel, exit_code_before, readcap_long_block_exit,
          readcap_do_long_set
          by (rewrite ?readcap_do_json_set_do_long; assumption).
        eexists [_], _, (SgReadcap.status_of (fst (SgReadcap.w_readcap_16 w))).
        rewrite Hst. split; reflexivity.
      * rewrite exit_code_before, readcap_long_block_exit, Hl by assumption.
        cbn [app submitted].
        exists [], (Readcap10 (SgReadcap.do_pmi op)
                              (wrap 32 (SgReadcap.llba op))),
          (SgReadcap.status_of (fst (SgReadcap.w_readcap_10 w))).
        rewrite Hst. split; reflexivity.
Qed.

End ReadcapExit.

Lemma readcap_do_json_set_device_name (n : option string)
      (op : SgReadcap.opts_t) :
  SgReadcap.do_json (SgReadcap.set_device_name n op) = SgReadcap.do_json op.
Proof. destruct op; reflexivity. Qed.

Section ReadcapCases.

Variable K : sg_lib_h.
Variable w : SgReadcap.world.

(** [main] after the options either sends nothing, or opens the device
    and runs the command blocks on it, with [do_long] also set by
    [--zbc]. *)
Lemma readcap_main_body_cases (op : SgReadcap.opts_t) :
  submitted (trace (SgReadcap.main_body K w op)) = []
  \/ exists pre op2 buf,
       0 <= SgReadcap.w_open w
       /\ submitted pre = []
       /\ SgReadcap.main_body K w op
          = before pre (SgReadcap.commands K w op2 (SgReadcap.w_open w) 0 buf)
       /\ SgReadcap.do_json op2 = SgReadcap.do_json op
       /\ SgReadcap.do_long op2 = SgReadcap.do_long op || SgReadcap.do_zbc op
       /\ SgReadcap.do_pmi op2 = SgReadcap.do_pmi op
       /\ SgReadcap.llba op2 = SgReadcap.llba op
       /\ SgReadcap.inhex_fn op = None.
Proof.
  unfold SgReadcap.main_body.
  destruct (truthy (SgReadcap.do_help op)).
  { left. rewrite <- submitted_io. cbn [trace fst]. rewrite io_usage_for.
    reflexivity. }
  set (pre0 := if SgReadcap.verbose_given op && SgReadcap.version_given op
               then [Out "Not in DEBUG mode, so '-vV' has no special action" []]
               else []).
  assert (Hpre0 : submitted pre0 = [])
    by (subst pre0; destruct (_ && _); reflexivity).
  assert (Hio0 : io pre0 = [])
    by (subst pre0; destruct (_ && _); reflexivity).
  clearbody pre0.
  destruct (SgReadcap.version_given op).
  { left. rewrite trace_before, submitted_app, Hpre0. reflexivity. }
  destruct (SgReadcap.do_json op && negb (SgReadcap.w_sgj_init_state w)).
  { left. rewrite trace_before, submitted_app, Hpre0. reflexivity. }
  destruct (SgReadcap.inhex_fn op) as [fn |] eqn:Hin.
  - (* --inhex: the device is not opened *)
    left. rewrite <- submitted_io, trace_before, io_app.
    rewrite Hio0. cbn [app].
    assert (Hev0 : forall (P : list event -> Prop),
               P [] ->
               P (io (match SgReadcap.device_name op with
                      | Some _ =>
                          if SgReadcap.do_json op && SgReadcap.w_pr_as_json w
                          then []
                          else [Out "ignoring DEVICE, best to give DEVICE or --inhex=FN, but not both" []]
                      | None => []
                      end))).
    { intros P HP. destruct (SgReadcap.device_name op); [ | exact HP ].
      destruct (SgReadcap.do_json op && SgReadcap.w_pr_as_json w); exact HP. }
    replace (match SgReadcap.device_name op with
             | Some _ => false
             | None => false
             end) with false
      by (destruct (SgReadcap.device_name op); reflexivity).
    cbv zeta.
    rewrite trace_before, io_app.
    apply Hev0. cbn [app].
    set (op1 := SgReadcap.set_device_name None op).
    assert (Hin1 : forall b : bool, SgReadcap.inhex_fn
                        (if b then SgReadcap.set_do_long true op1 else op1)
                      = Some fn).
    { intros b. subst op1. destruct op, b; exact Hin. }
    destruct (SgReadcap.do_raw op1 && (SgReadcap.w_set_binary_mode w <? 0));
      [ reflexivity | ].
    set (op2 := if SgReadcap.do_zbc op1
                then SgReadcap.set_do_long true op1 else op1).
    assert (Hin2 : SgReadcap.inhex_fn op2 = Some fn) by apply Hin1.
    destruct (negb (SgReadcap.do_pmi op2) && (0 <? SgReadcap.llba op2)).
    { rewrite trace_before, io_app, io_fini. cbn [io filter touches_device].
      rewrite io_usage_for. reflexivity. }
    destruct (negb (SgReadcap.w_memalign w)); [ reflexivity | ].
    rewrite Hin2.
    destruct (SgReadcap.w_f2hex_arr w) as [[res in_len] data].
    destruct (truthy res).
    + rewrite trace_before, io_app, io_fini. split_ifs; reflexivity.
    + destruct (in_len <? 4).
      * rewrite trace_before, io_app, io_fini. split_ifs; reflexivity.
      * rewrite trace_before, io_app, io_commands, commands_io_no_device
          by lia.
        split_ifs; reflexivity.
  - destruct (SgReadcap.device_name op) as [dev |] eqn:Hdev.
    2: { left. rewrite <- submitted_io, trace_before, io_app.
         cbn [trace fst io filter touches_device]. rewrite io_usage_for.
         rewrite app_nil_r, Hio0. reflexivity. }
    cbv zeta.
    destruct (SgReadcap.do_raw op && (SgReadcap.w_set_binary_mode w <? 0)).
    { left. rewrite trace_before, submitted_app, Hpre0. reflexivity. }
    set (op2 := if SgReadcap.do_zbc op
                then SgReadcap.set_do_long true op else op).
    assert (Hop2 : SgReadcap.do_json op2 = SgReadcap.do_json op
                   /\ SgReadcap.do_long op2
                      = SgReadcap.do_long op || SgReadcap.do_zbc op
                   /\ SgReadcap.do_pmi op2 = SgReadcap.do_pmi op
                   /\ SgReadcap.llba op2 = SgReadcap.llba op
                   /\ SgReadcap.inhex_fn op2 = None).
    { subst op2. destruct op. cbn in Hin |- *.
      destruct do_zbc; cbn; rewrite ?orb_true_r, ?orb_false_r; tauto. }
    destruct Hop2 as (H1 & H2 & H3 & H4 & H5).
    destruct (negb (SgReadcap.do_pmi op2) && (0 <? SgReadcap.llba op2)).
    { left. rewrite <- submitted_io, !trace_before, !io_app, io_fini.
      cbn [io filter touches_device app]. rewrite io_usage_for, Hio0.
      reflexivity. }
    destruct (negb (SgReadcap.w_memalign w)).
    { left. rewrite !trace_before, !submitted_app, Hpre0. reflexivity. }
    rewrite H5.
    destruct (SgReadcap.w_open w <? 0) eqn:Hop.
    { left. rewrite <- submitted_io, !trace_before, !io_app, io_fini,
        closing_neg.
      - rewrite Hio0. reflexivity.
      - apply Z.ltb_lt in Hop. apply Z.leb_gt. assumption. }
    apply Z.ltb_ge in Hop.
    right.
    exists (pre0 ++ [] ++ [Open (SgReadcap.name_of (SgReadcap.device_name op2))
                               (SgReadcap.w_open w)]),
      op2, (repeat x00 32).
    split; [ exact Hop | ].
    split; [ rewrite submitted_app, Hpre0; reflexivity | ].
    split; [ | tauto ].
    unfold before. cbn [trace exit_code fst snd].
    rewrite <- !app_assoc. reflexivity.
Qed.

End ReadcapCases.

(** X9: when sg_readcap has sent a command, its exit status is the result
    of the last command it sent: 0 when that came back clean, its category
    otherwise (SG_LIB_CAT_OTHER if that is negative).  This is so without
    [--json], when the close succeeds and, after an invalid-opcode READ
    CAPACITY (10), the device can be opened again. *)
Theorem readcap_exit_status_is_last_command
        (K : sg_lib_h) (w : SgReadcap.world) (inv : SgReadcap.invocation)
        (op : SgReadcap.opts_t) (msgs : list event)
        (pre : list (command * status)) (c : command) (st : status) :
  SgReadcap.parse_cmd_line K inv SgReadcap.opts_zero = (0, op, msgs) ->
  SgReadcap.do_json op = false ->
  0 <= SgReadcap.w_close w ->
  0 <= SgReadcap.w_reopen w ->
  submitted (trace (SgReadcap.main K w inv)) = pre ++ [(c, st)] ->
  exit_code (SgReadcap.main K w inv) = or_cat_other K (category st).
Proof.
  intros Hparse Hj Hcl Hre.
  pose proof (io_parse_cmd_line K inv SgReadcap.opts_zero) as Hm.
  rewrite Hparse in Hm. cbn [snd] in Hm.
  unfold SgReadcap.main. readcap_report. rewrite Hparse. cbn [truthy Z.eqb negb].
  rewrite trace_before, exit_code_before, submitted_app.
  rewrite <- (submitted_io msgs), Hm. cbn [submitted app].
  destruct (readcap_main_body_cases K w op)
    as [-> | (pre1 & op2 & buf & Hop & Hpre & -> & Hj2 & _)].
  { intros H. destruct pre; discriminate H. }
  rewrite trace_before, exit_code_before, submitted_app, Hpre. cbn [app].
  destruct (readcap_commands_exit K w Hcl op2 (SgReadcap.w_open w) 0 buf)
    as (pre2 & c2 & st2 & Hs & He); try assumption; try congruence.
  rewrite Hs, He. intros H. apply app_inj_tail in H.
  destruct H as [_ H]. inversion H. reflexivity.
Qed.

Lemma readcap_exit_status_is_last_command_witness :
  exit_code (SgReadcap.main Samples.K Cases.readcap_not_ready
               Samples.readcap_dev)
  = or_cat_other Samples.K (category (CheckCond 2)).
Proof.
  eapply (readcap_exit_status_is_last_command Samples.K
            Cases.readcap_not_ready Samples.readcap_dev _ _ [] _
            (CheckCond 2)).
  - vm_compute. reflexivity.
  - reflexivity.
  - cbn. lia.
  - cbn. lia.
  - vm_compute. reflexivity.
Defined.

(** ** sg_readcap: which command is sent *)

(** X10: the first command sg_readcap sends is READ CAPACITY (16) when
    [do_long] is set after the options or [--zbc] is given, and it is then
    the only one; otherwise it is READ CAPACITY (10), with the LBA cut to
    32 bits, and a second command follows only as READ CAPACITY (16),
    after an invalid-opcode result or after a clean response whose last
    block address is 0xffffffff. *)
Theorem readcap_command_selection
        (K : sg_lib_h) (w : SgReadcap.world) (inv : SgReadcap.invocation)
        (op : SgReadcap.opts_t) (msgs : list event)
        (c : command) (st : status) (tl : list (command * status)) :
  SgReadcap.parse_cmd_line K inv SgReadcap.opts_zero = (0, op, msgs) ->
  submitted (trace (SgReadcap.main K w inv)) = (c, st) :: tl ->
  let rc16 := Readcap16 (SgReadcap.do_pmi op) (SgReadcap.llba op) in
  let rc10 := Readcap10 (SgReadcap.do_pmi op) (wrap 32 (SgReadcap.llba op)) in
  if SgReadcap.do_long op || SgReadcap.do_zbc op
  then c = rc16 /\ tl = []
  else c = rc10
       /\ (tl = []
           \/ (exists st2, tl = [(rc16, st2)])
              /\ (st = CheckCond (SG_LIB_CAT_INVALID_OP K)
                  \/ (st = Done
                      /\ SgReadcap.last_blk_addr
                           (SgReadcap.decode_rcap10
                              (snd (SgReadcap.w_readcap_10 w)))
                         = 0xffffffff))).
Proof.
  intros Hparse.
  pose proof (io_parse_cmd_line K inv SgReadcap.opts_zero) as Hm.
  rewrite Hparse in Hm. cbn [snd] in Hm.
  unfold SgReadcap.main. readcap_report. rewrite Hparse. cbn [truthy Z.eqb negb].
  rewrite trace_before, submitted_app.
  rewrite <- (submitted_io msgs), Hm. cbn [submitted app].
  destruct (readcap_main_body_cases K w op)
    as [-> | (pre1 & op2 & buf & Hop & Hpre & -> & _ & Hlong & Hpmi & Hllba & _)].
  { discriminate. }
  rewrite trace_before, submitted_app, Hpre. cbn [app].
  rewrite <- submitted_io, io_commands. cbv zeta. rewrite <- Hlong.
  unfold commands_io, short_block_io, rc10, rc16, closing.
  assert (Hfd : (0 <=? SgReadcap.w_open w) = true)
    by (apply Z.leb_le; assumption).
  rewrite Hfd, Hpmi, Hllba.
  destruct (SgReadcap.do_long op2); cbn [negb].
  { cbn [app submitted]. intros H. inversion H. split; reflexivity. }
  assert (Hl : forall o, SgReadcap.do_pmi (SgReadcap.set_do_long true o)
                         = SgReadcap.do_pmi o
                         /\ SgReadcap.llba (SgReadcap.set_do_long true o)
                            = SgReadcap.llba o).
  { intros o. destruct o; split; reflexivity. }
  destruct (Hl op2) as [-> ->]. rewrite Hpmi, Hllba.
  unfold SgReadcap.status_of.
  destruct (Z.eqb_spec 0 (fst (SgReadcap.w_readcap_10 w))) as [E | N].
  - rewrite <- E, Z.eqb_refl.
    destruct (truthy (SgReadcap.do_hex op2) || SgReadcap.do_raw op2);
      cbn [orb negb].
    { cbn [submitted]. intros H. inversion H. split; [ reflexivity | ].
      left; reflexivity. }
    destruct (Z.eqb_spec 0xffffffff
                (SgReadcap.last_blk_addr
                   (SgReadcap.decode_rcap10 (snd (SgReadcap.w_readcap_10 w)))))
      as [E1 | N1]; cbn [negb submitted]; intros H; inversion H;
      (split; [ reflexivity | ]).
    + right. split; [ eexists; reflexivity | ].
      right. split; [ reflexivity | symmetry; exact E1 ].
    + left; reflexivity.
  - destruct (Z.eqb_spec (fst (SgReadcap.w_readcap_10 w)) 0) as [E0 | _];
      [ congruence | ].
    destruct (Z.eqb_spec (SG_LIB_CAT_INVALID_OP K)
                (fst (SgReadcap.w_readcap_10 w))) as [E1 | N1].
    + destruct (SgReadcap.w_reopen w <? 0); cbn [submitted];
        intros H; inversion H; (split; [ reflexivity | ]).
      * left; reflexivity.
      * right. split; [ eexists; reflexivity | ].
        left. rewrite E1. reflexivity.
    + cbn [app submitted]. intros H. inversion H.
      split; [ reflexivity | left; reflexivity ].
Qed.

Lemma readcap_command_selection_witness :
  Readcap10 false 0
  = Readcap10 false (wrap 32 0)
  /\ ([(Readcap16 false 0, Done)] = []
      \/ (exists st2, [(Readcap16 false 0, Done)] = [(Readcap16 false 0, st2)])
         /\ (Done = CheckCond (SG_LIB_CAT_INVALID_OP Samples.K)
             \/ (Done = Done
                 /\ SgReadcap.last_blk_addr
                      (SgReadcap.decode_rcap10
                         (snd (SgReadcap.w_readcap_10 Cases.readcap_large)))
                    = 0xffffffff))).
Proof.
  apply (readcap_command_selection Samples.K Cases.readcap_large
           Samples.readcap_dev Cases.readcap_dev_opts [] (Readcap10 false 0)
           Done [(Readcap16 false 0, Done)]).
  - vm_compute. reflexivity.
  - vm_compute. reflexivity.
Defined.

(** ** sg_readcap: the numbers of the READ CAPACITY (10) report *)





(** ** sg_readcap: response data from a file *)

(** X12: with [--inhex=FN] sg_readcap leaves every device alone: nothing
    is opened and no command is sent, also when a DEVICE is named. *)
Theorem readcap_inhex_leaves_device_alone
        (K : sg_lib_h) (w : SgReadcap.world) (inv : SgReadcap.invocation)
        (res : Z) (op : SgReadcap.opts_t) (msgs : list event) :
  SgReadcap.parse_cmd_line K inv SgReadcap.opts_zero = (res, op, msgs) ->
  SgReadcap.inhex_fn op <> None ->
  io (trace (SgReadcap.main K w inv)) = [].
Proof.
  intros Hparse Hin. rewrite io_main, Hparse.
  destruct (truthy res); [ reflexivity | ].
  unfold main_body_io.
  destruct (SgReadcap.inhex_fn op) as [fn |] eqn:Hfn; [ | congruence ].
  assert (Hkeep : forall (b : bool) (o : SgReadcap.opts_t),
             SgReadcap.inhex_fn o = Some fn ->
             SgReadcap.inhex_fn (if b then SgReadcap.set_do_long true o else o)
             = Some fn).
  { intros b o Ho. destruct o, b; exact Ho. }
  assert (Hdev : SgReadcap.inhex_fn (SgReadcap.set_device_name None op)
                 = Some fn) by (destruct op; exact Hfn).
  cbv zeta. rewrite (Hkeep _ _ Hdev).
  split_ifs; reflexivity.
Qed.

Lemma readcap_inhex_leaves_device_alone_witness :
  io (trace (SgReadcap.main Samples.K Samples.readcap_ok Cases.readcap_inhex))
  = [].
Proof.
  eapply (readcap_inhex_leaves_device_alone Samples.K Samples.readcap_ok
            Cases.readcap_inhex).
  - vm_compute. reflexivity.
  - cbn. discriminate.
Defined.

(** ** sg_readcap: a command line that is refused *)

Section ReadcapRefused.

Variable K : sg_lib_h.







End ReadcapRefused.


(** [sg_readcap --lba=12q /dev/sg0] with SG3_UTILS_INVOCATION set: the
    command line is reported, then the parser complains. *)


(** ** sg_decode_sense: a string of digit pairs *)

Lemma xdigit_plain (c : ascii) :
  Libc.isxdigit c = true ->
  Libc.isspace c = false /\ Ascii.eqb c "-" = false /\ Ascii.eqb c "+" = false.
Proof.
  destruct c as [[] [] [] [] [] [] [] []]; vm_compute;
    intros H; try discriminate H; repeat split; reflexivity.
Qed.

Lemma sscanf_2x_pair (c0 c1 : ascii) (tl : list ascii) (h l : Z) :
  Libc.hex_digit c0 = Some h -> Libc.hex_digit c1 = Some l ->
  SgDecodeSenseMain.sscanf_2x (c0 :: c1 :: tl) = Some (16 * h + l).
Proof.
  intros H0 H1.
  assert (X0 : Libc.isxdigit c0 = true) by (unfold Libc.isxdigit; rewrite H0; reflexivity).
  destruct (xdigit_plain c0 X0) as (Hsp & Hm & Hp).
  unfold SgDecodeSenseMain.sscanf_2x.
  cbn [Libc.skip_space]. rewrite Hsp. cbn [firstn].
  unfold Libc.hex_subject. cbn [Libc.skip_space]. rewrite Hsp.
  unfold Libc.skip_sign. rewrite Hm, Hp.
  cbn [Libc.skip_0x]. rewrite X0.
  cbn [Libc.hex_digits]. rewrite H0, H1.
  apply f_equal. lia.
Qed.

Lemma hex_digit_range (c : ascii) (d : Z) :
  Libc.hex_digit c = Some d -> 0 <= d < 16.
Proof.
  unfold Libc.hex_digit. cbv zeta.
  destruct ((48 <=? Libc.code c) && (Libc.code c <=? 57)) eqn:E1.
  { intros H; inversion H; subst. apply andb_true_iff in E1. lia. }
  destruct ((97 <=? Libc.code c) && (Libc.code c <=? 102)) eqn:E2.
  { intros H; inversion H; subst. apply andb_true_iff in E2. lia. }
  destruct ((65 <=? Libc.code c) && (Libc.code c <=? 70)) eqn:E3.
  { intros H; inversion H; subst. apply andb_true_iff in E3. lia. }
  intros H; discriminate H.
Qed.

Lemma store_some_bound (a : list Z) (i : nat) (v : Z) (a' : list Z) :
  SgDecodeSense.store a i v = Some a' -> (i < List.length a)%nat.
Proof.
  revert i a'. induction a as [| x a IH]; intros i a'; [ discriminate | ].
  destruct i as [| i]; cbn [SgDecodeSense.store List.length]; [ lia | ].
  destruct (SgDecodeSense.store a i v) eqn:Hs; [ | discriminate ].
  intros _. apply IH in Hs. lia.
Qed.

Lemma store_none_bound (a : list Z) (i : nat) (v : Z) :
  SgDecodeSense.store a i v = None -> (List.length a <= i)%nat.
Proof.
  intros H. destruct (Nat.lt_ge_cases i (List.length a)) as [Hlt | Hge];
    [ | exact Hge ].
  destruct (store_in_bounds a i v Hlt) as [a' Ha]. congruence.
Qed.

Lemma no_space_loop_spec (cp : list ascii) :
  forall (n : nat) (sense : list Z),
    (n <= List.length sense)%nat ->
    match SgDecodeSenseMain.no_space_loop cp sense (Z.of_nat n) with
    | SgDecodeSenseMain.NsDone s m =>
        m = Z.of_nat (n + List.length (hex_pairs cp))
        /\ List.length s = List.length sense
        /\ firstn (n + List.length (hex_pairs cp)) s
           = firstn n sense ++ hex_pairs cp
    | SgDecodeSenseMain.NsBad => False
    | SgDecodeSenseMain.NsFault i =>
        (List.length sense < n + List.length (hex_pairs cp))%nat
        /\ i = Z.of_nat (List.length sense)
    end.
Proof.
  assert (Hgen : forall (k : nat) (cp : list ascii),
             (List.length cp <= k)%nat ->
             forall (n : nat) (sense : list Z),
               (n <= List.length sense)%nat ->
               match SgDecodeSenseMain.no_space_loop cp sense (Z.of_nat n) with
               | SgDecodeSenseMain.NsDone s m =>
                   m = Z.of_nat (n + List.length (hex_pairs cp))
                   /\ List.length s = List.length sense
                   /\ firstn (n + List.length (hex_pairs cp)) s
                      = firstn n sense ++ hex_pairs cp
               | SgDecodeSenseMain.NsBad => False
               | SgDecodeSenseMain.NsFault i =>
                   (List.length sense < n + List.length (hex_pairs cp))%nat
                   /\ i = Z.of_nat (List.length sense)
               end).
  { clear cp. induction k as [| k IH]; intros cp Hk n sense Hn.
    - destruct cp; [ | cbn in Hk; lia ].
      cbn. rewrite Nat.add_0_r, app_nil_r. repeat split; reflexivity.
    - destruct cp as [| c0 [| c1 tl]].
      + cbn. rewrite Nat.add_0_r, app_nil_r. repeat split; reflexivity.
      + cbn. rewrite Nat.add_0_r, app_nil_r. repeat split; reflexivity.
      + cbn [SgDecodeSenseMain.no_space_loop hex_pairs].
        unfold Libc.isxdigit.
        destruct (Libc.hex_digit c0) as [h |] eqn:H0.
        2: { cbn. rewrite Nat.add_0_r, app_nil_r. repeat split; reflexivity. }
        destruct (Libc.hex_digit c1) as [l |] eqn:H1.
        2: { cbn. rewrite Nat.add_0_r, app_nil_r. repeat split; reflexivity. }
        cbn [andb]. rewrite (sscanf_2x_pair c0 c1 tl h l H0 H1).
        destruct (Z.ltb_spec (Z.of_nat n) 0) as [Hneg | _]; [ lia | ].
        rewrite Nat2Z.id.
        pose proof (hex_digit_range c0 h H0) as Hh.
        pose proof (hex_digit_range c1 l H1) as Hl.
        assert (Hw : wrap 8 (16 * h + l) = 16 * h + l).
        { unfold wrap. apply Z.mod_small. change (2 ^ 8) with 256. lia. }
        rewrite Hw.
        destruct (SgDecodeSense.store sense n (16 * h + l)) as [a |] eqn:Hs.
        * pose proof (store_length _ _ _ _ Hs) as Hlen.
          pose proof (store_some_bound _ _ _ _ Hs) as Hlt.
          pose proof (store_firstn _ _ _ _ Hs) as Hfirst.
          replace (Z.of_nat n + 1) with (Z.of_nat (S n)) by lia.
          specialize (IH tl ltac:(cbn in Hk; lia) (S n) a ltac:(lia)).
          destruct (SgDecodeSenseMain.no_space_loop tl a (Z.of_nat (S n)))
            as [s m | | i].
          -- destruct IH as (Hm & Hls & Hf).
             cbn [List.length].
             replace (n + S (List.length (hex_pairs tl)))%nat
               with (S n + List.length (hex_pairs tl))%nat by lia.
             split; [ exact Hm | ]. split; [ lia | ].
             rewrite Hf, Hfirst, <- app_assoc. reflexivity.
          -- exact IH.
          -- destruct IH as (Hi1 & Hi2). cbn [List.length].
             split; [ lia | lia ].
        * apply store_none_bound in Hs. cbn [List.length].
          split; lia. }
  intros n sense Hn. apply (Hgen (List.length cp) cp (le_n _) n sense Hn).
Qed.

(** X14: the loop of main that decodes the [--nospace] string takes the
    leading pairs of hexadecimal digits, stores one byte per pair from
    [sense[0]] on and counts them in [sense_len]; its error branch, the
    message about a bad hex string, is never taken.  It stays inside
    [sense] exactly when there are no more pairs than elements: with more
    it writes at the index just past the array. *)
Theorem nospace_string_decodes_hex_pairs
        (cp : list ascii) (sense : list Z) :
  match SgDecodeSenseMain.no_space_loop cp sense 0 with
  | SgDecodeSenseMain.NsDone s m =>
      m = Z.of_nat (List.length (hex_pairs cp))
      /\ List.length s = List.length sense
      /\ firstn (List.length (hex_pairs cp)) s = hex_pairs cp
      /\ (List.length (hex_pairs cp) <= List.length sense)%nat
  | SgDecodeSenseMain.NsBad => False
  | SgDecodeSenseMain.NsFault i =>
      (List.length sense < List.length (hex_pairs cp))%nat
      /\ i = Z.of_nat (List.length sense)
  end.
Proof.
  pose proof (no_space_loop_spec cp 0 sense (Nat.le_0_l _)) as H.
  change (Z.of_nat 0) with 0 in H.
  destruct (SgDecodeSenseMain.no_space_loop cp sense 0) as [s m | | i];
    [ | exact H | exact H ].
  cbn [Nat.add firstn app] in H. destruct H as (Hm & Hl & Hf).
  repeat split; try assumption.
  rewrite <- Hl. rewrite <- Hf at 1. rewrite length_firstn. lia.
Qed.

(** ** sg_decode_sense: the list of exit-status codes *)

Lemma listed_app (a b : list SgDecodeSenseMain.action) :
  listed (a ++ b) = listed a ++ listed b.
Proof. unfold listed. apply flat_map_app. Qed.

Lemma streams_app (a b : list SgDecodeSenseMain.action) :
  streams (a ++ b) = streams a ++ streams b.
Proof. unfold streams. apply flat_map_app. Qed.

Lemma err_lines_listed (w : SgDecodeSenseMain.world) (verbose : Z) :
  forall (fuel : nat) (k : Z),
    listed (SgDecodeSenseMain.err_lines w fuel k verbose)
    = filter (fun c => match SgDecodeSenseMain.w_sg_exit2str w c (1 <? verbose)
                       with Some _ => true | None => false end)
             (map (fun i => k + Z.of_nat i) (seq 0 fuel))
    /\ List.length (SgDecodeSenseMain.err_lines w fuel k verbose)
       = List.length (listed (SgDecodeSenseMain.err_lines w fuel k verbose))
    /\ Forall (eq (SgDecodeSenseMain.out_of verbose))
              (streams (SgDecodeSenseMain.err_lines w fuel k verbose)).
Proof.
  induction fuel as [| fuel IH]; intros k.
  - cbn. repeat split; constructor.
  - cbn [SgDecodeSenseMain.err_lines].
    destruct (IH (k + 1)) as (H1 & H2 & H3).
    rewrite listed_app, streams_app, !length_app, <- H2, H1.
    change (seq 0 (S fuel)) with (0%nat :: seq 1 fuel).
    rewrite <- seq_shift. cbn [map filter]. rewrite map_map.
    replace (k + Z.of_nat 0) with k by lia.
    assert (Hshift : map (fun x => k + Z.of_nat (S x)) (seq 0 fuel)
                     = map (fun i => k + 1 + Z.of_nat i) (seq 0 fuel)).
    { apply map_ext. intros i. lia. }
    rewrite Hshift.
    destruct (SgDecodeSenseMain.w_sg_exit2str w k (1 <? verbose)) as [b |].
    + change (listed [SgDecodeSenseMain.Printf
                        (SgDecodeSenseMain.out_of verbose) "%d: %s" [k] [b]])
        with [k].
      change (streams [SgDecodeSenseMain.Printf
                         (SgDecodeSenseMain.out_of verbose) "%d: %s" [k] [b]])
        with [SgDecodeSenseMain.out_of verbose].
      cbn [app List.length].
      repeat split; try reflexivity.
      constructor; [ reflexivity | exact H3 ].
    + cbn [listed streams flat_map app List.length].
      repeat split; try reflexivity. exact H3.
Qed.

(** X15: enumerate_err_codes sends all it prints to one stream, stderr
    when [verbose] is odd and stdout otherwise.  For [--err=ES] without
    [--list-err] that is one line; otherwise it is one line [%d: %s] for
    each code that sg_exit2str knows, in increasing order, from 0 to 127
    for [--list-err] alone, and with [--err=ES,LES] from ES up to LES
    (up to 127 when LES is not given). *)
Theorem enumerate_err_codes_lists_known_codes
        (w : SgDecodeSenseMain.world) (op : SgDecodeSense.opts_t) :
  let verbose := SgDecodeSense.verbose op in
  let lines := SgDecodeSenseMain.enumerate_err_codes w op in
  let lo := if SgDecodeSense.err_given op then SgDecodeSense.es_val op
            else 0 in
  let last := if SgDecodeSense.err_given op
                 && (0 <? SgDecodeSense.es_up_val op)
              then SgDecodeSense.es_up_val op else 127 in
  Forall (eq (SgDecodeSenseMain.out_of verbose)) (streams lines)
  /\ if SgDecodeSense.err_given op && negb (SgDecodeSense.do_list_err op)
     then List.length lines = 1%nat
     else listed lines
          = filter (fun c =>
                      match SgDecodeSenseMain.w_sg_exit2str w c (1 <? verbose)
                      with Some _ => true | None => false end)
                   (codes lo last)
          /\ List.length lines = List.length (listed lines).
Proof.
  cbv zeta. unfold SgDecodeSenseMain.enumerate_err_codes, codes.
  destruct (SgDecodeSense.err_given op && negb (SgDecodeSense.do_list_err op)).
  - split; [ | reflexivity ].
    destruct (SgDecodeSenseMain.w_sg_exit2str w (SgDecodeSense.es_val op) _);
      cbn; constructor; constructor || reflexivity.
  - match goal with
    | |- context [SgDecodeSenseMain.err_lines w ?f ?k ?v] =>
        destruct (err_lines_listed w v f k) as (H1 & H2 & H3)
    end.
    split; [ exact H3 | ]. split; [ exact H1 | exact H2 ].
Qed.

(** ** sg_decode_sense: the file written with [--write=WFN --hex] *)

Lemma rows_by_16_fuel (f1 : nat) :
  forall (f2 : nat) (l : list Z),
    (List.length l <= f1)%nat -> (List.length l <= f2)%nat ->
    rows_by_16 f1 l = rows_by_16 f2 l.
Proof.
  induction f1 as [| f1 IH]; intros f2 l H1 H2.
  - destruct l; [ | cbn in H1; lia ]. destruct f2; reflexivity.
  - destruct l as [| x l]; [ destruct f2; reflexivity | ].
    destruct f2 as [| f2]; [ cbn in H2; lia | ].
    cbn [rows_by_16]. f_equal.
    cbn [List.length] in H1, H2.
    assert (Hs : (List.length (skipn 16 (x :: l)) <= List.length l)%nat).
    { rewrite length_skipn. cbn [List.length]. lia. }
    apply IH; lia.
Qed.

Lemma rows_cons (x : Z) (l : list Z) :
  rows (x :: l) = firstn 16 (x :: l) :: rows (skipn 16 (x :: l)).
Proof.
  unfold rows. cbn [List.length rows_by_16]. f_equal.
  apply rows_by_16_fuel.
  - rewrite length_skipn. cbn [List.length]. lia.
  - apply le_n.
Qed.

Lemma rows_full (row rest : list Z) :
  List.length row = 16%nat -> rows (row ++ rest) = row :: rows rest.
Proof.
  intros H. destruct row as [| x row]; [ discriminate H | ].
  change ((x :: row) ++ rest) with (x :: (row ++ rest)).
  rewrite rows_cons.
  change (x :: (row ++ rest)) with ((x :: row) ++ rest).
  rewrite firstn_app, skipn_app, H, Nat.sub_diag.
  rewrite firstn_all2, skipn_all2 by (rewrite H; apply le_n).
  cbn [firstn skipn app]. rewrite app_nil_r. reflexivity.
Qed.

Lemma rows_short (row : list Z) :
  row <> [] -> (List.length row < 16)%nat -> rows row = [row].
Proof.
  intros Hne H. destruct row as [| x row]; [ congruence | ].
  rewrite rows_cons.
  rewrite firstn_all2, skipn_all2 by lia. reflexivity.
Qed.

Lemma sprintf_0x02x_length (v : Z) :
  List.length (SgDecodeSenseMain.sprintf_0x02x v) = 5%nat.
Proof. reflexivity. Qed.

Lemma row_chars_length (row : list Z) :
  List.length (flat_map SgDecodeSenseMain.sprintf_0x02x row)
  = (5 * List.length row)%nat.
Proof.
  induction row as [| v row IH]; [ reflexivity | ].
  cbn [flat_map]. rewrite length_app, sprintf_0x02x_length, IH.
  cbn [List.length]. lia.
Qed.

Lemma written_app (a b : list SgDecodeSenseMain.action) :
  written (a ++ b) = written a ++ written b.
Proof. unfold written. apply flat_map_app. Qed.

Lemma written_flush (w : SgDecodeSenseMain.world) (wf : string)
      (b : list ascii) (calls : nat) :
  written (SgDecodeSenseMain.flush w wf b calls)
  = [b ++ [SgDecodeSenseMain.newline]].
Proof.
  unfold SgDecodeSenseMain.flush. cbv zeta.
  destruct (_ =? _); reflexivity.
Qed.

Lemma write2wfn_loop_rows (w : SgDecodeSenseMain.world) (wf : string)
      (bytes : list Z) :
  forall (row : list Z) (k : Z) (calls : nat)
         (tr : list SgDecodeSenseMain.action),
    0 <= k -> k mod 16 = Z.of_nat (List.length row) ->
    exists tr',
      SgDecodeSenseMain.write2wfn_loop w wf bytes k
        (flat_map SgDecodeSenseMain.sprintf_0x02x row) calls tr
      = SgDecodeSenseMain.Exit (tr ++ tr') 0
      /\ written tr' = map row_text (rows (row ++ map (wrap 8) bytes)).
Proof.
  induction bytes as [| v bytes IH]; intros row k calls tr Hk Hrow.
  - assert (Hlt : (List.length row < 16)%nat)
      by (pose proof (Z.mod_pos_bound k 16 ltac:(lia)); lia).
    cbn [SgDecodeSenseMain.write2wfn_loop map]. rewrite app_nil_r.
    rewrite row_chars_length.
    destruct row as [| x row].
    + cbn. exists []. rewrite app_nil_r. split; reflexivity.
    + destruct (Z.ltb_spec 0 (Z.of_nat (5 * List.length (x :: row))))
        as [_ | Hbad]; [ | cbn [List.length] in Hbad; lia ].
      destruct (Z.leb_spec SgDecodeSenseMain.WFN_B_SZ
                  (Z.of_nat (5 * List.length (x :: row)))) as [Hbad | _].
      { unfold SgDecodeSenseMain.WFN_B_SZ in Hbad. lia. }
      eexists. split; [ reflexivity | ].
      rewrite written_flush, rows_short by (congruence || exact Hlt).
      reflexivity.
  - assert (Hlt : (List.length row < 16)%nat)
      by (pose proof (Z.mod_pos_bound k 16 ltac:(lia)); lia).
    cbn [SgDecodeSenseMain.write2wfn_loop map]. cbv zeta.
    rewrite row_chars_length.
    destruct (Z.ltb_spec SgDecodeSenseMain.WFN_B_SZ
                (Z.of_nat (5 * List.length row) + 6)) as [Hbad | _].
    { unfold SgDecodeSenseMain.WFN_B_SZ in Hbad. lia. }
    assert (Hb1 : flat_map SgDecodeSenseMain.sprintf_0x02x row
                  ++ SgDecodeSenseMain.sprintf_0x02x (wrap 8 v)
                  = flat_map SgDecodeSenseMain.sprintf_0x02x
                             (row ++ [wrap 8 v])).
    { rewrite flat_map_app. cbn [flat_map]. rewrite app_nil_r. reflexivity. }
    rewrite Hb1.
    assert (Hcons : row ++ wrap 8 v :: map (wrap 8) bytes
                    = (row ++ [wrap 8 v]) ++ map (wrap 8) bytes)
      by (rewrite <- app_assoc; reflexivity).
    assert (Hk1 : (k + 1) mod 16 = (k mod 16 + 1) mod 16).
    { rewrite (Z.add_mod k 1 16) by lia.
      change (1 mod 16) with 1. reflexivity. }
    destruct (Z.eqb_spec 15 (k mod 16)) as [H15 | Hn15].
    + rewrite row_chars_length, length_app. cbn [List.length].
      destruct (Z.leb_spec SgDecodeSenseMain.WFN_B_SZ
                  (Z.of_nat (5 * (List.length row + 1)))) as [Hbad | _].
      { unfold SgDecodeSenseMain.WFN_B_SZ in Hbad. lia. }
      destruct (IH [] (k + 1) (S calls)
                   (tr ++ SgDecodeSenseMain.flush w wf
                            (flat_map SgDecodeSenseMain.sprintf_0x02x
                                      (row ++ [wrap 8 v])) calls))
        as (tr' & Hrun & Hwr).
      { lia. }
      { rewrite Hk1, <- H15. reflexivity. }
      cbn [flat_map] in Hrun. rewrite Hrun.
      eexists. split; [ rewrite <- app_assoc; reflexivity | ].
      rewrite written_app, written_flush, Hwr, Hcons.
      rewrite (rows_full (row ++ [wrap 8 v]))
        by (rewrite length_app; cbn [List.length]; lia).
      reflexivity.
    + destruct (IH (row ++ [wrap 8 v]) (k + 1) calls tr)
        as (tr' & Hrun & Hwr).
      { lia. }
      { rewrite Hk1, length_app. cbn [List.length].
        rewrite Z.mod_small by lia. lia. }
      rewrite Hrun. exists tr'. split; [ reflexivity | ].
      rewrite Hwr, Hcons. reflexivity.
Qed.

Lemma write2wfn_rows_exit (w : SgDecodeSenseMain.world)
      (op : SgDecodeSense.opts_t) :
  exists tr, SgDecodeSenseMain.write2wfn w op = SgDecodeSenseMain.Exit tr 0.
Proof.
  unfold SgDecodeSenseMain.write2wfn.
  destruct (write2wfn_loop_rows w
              (SgDecodeSenseMain.name_of (SgDecodeSense.wfname op))
              (firstn (Z.to_nat (SgDecodeSense.sense_len op))
                      (SgDecodeSense.sense op))
              [] 0 0%nat [] (Z.le_refl 0) eq_refl) as (tr & Hrun & _).
  exists tr. exact Hrun.
Qed.

(** X16: write2wfn never writes outside its buffer [b] of 128 characters
    and always returns.  What it hands to fwrite is the sense data cut
    into rows of sixteen bytes: one call for each row, with each byte as
    [0x%02x,] and a newline at the end, at most 81 characters. *)
Theorem write2wfn_rows_of_sixteen
        (w : SgDecodeSenseMain.world) (op : SgDecodeSense.opts_t) :
  let data := map (wrap 8)
                  (firstn (Z.to_nat (SgDecodeSense.sense_len op))
                          (SgDecodeSense.sense op)) in
  exists tr,
    SgDecodeSenseMain.write2wfn w op = SgDecodeSenseMain.Exit tr 0
    /\ written tr = map row_text (rows data)
    /\ List.concat (rows data) = data
    /\ Forall (fun line => (List.length line <= 81)%nat) (written tr).
Proof.
  cbv zeta. unfold SgDecodeSenseMain.write2wfn.
  destruct (write2wfn_loop_rows w
              (SgDecodeSenseMain.name_of (SgDecodeSense.wfname op))
              (firstn (Z.to_nat (SgDecodeSense.sense_len op))
                      (SgDecodeSense.sense op))
              [] 0 0%nat [] (Z.le_refl 0) eq_refl) as (tr & Hrun & Hwr).
  cbn [flat_map app] in Hrun, Hwr.
  exists tr. split; [ exact Hrun | ]. split; [ exact Hwr | ].
  set (data := map (wrap 8) _) in *. clearbody data.
  assert (Hrows : forall n l, (List.length l <= n)%nat ->
                    List.concat (rows l) = l
                    /\ Forall (fun r => (List.length r <= 16)%nat) (rows l)).
  { induction n as [| n IHn]; intros l Hl.
    - destruct l; [ split; [ reflexivity | constructor ] | cbn in Hl; lia ].
    - destruct l as [| x l]; [ split; [ reflexivity | constructor ] | ].
      rewrite rows_cons. cbn [List.concat].
      destruct (IHn (skipn 16 (x :: l))) as (Hc & Hf).
      { rewrite length_skipn. cbn [List.length] in *. lia. }
      rewrite Hc, firstn_skipn. split; [ reflexivity | ].
      constructor; [ | exact Hf ].
      rewrite length_firstn. lia. }
  destruct (Hrows (List.length data) data (le_n _)) as (Hc & Hf).
  split; [ exact Hc | ].
  rewrite Hwr. rewrite Forall_map.
  eapply Forall_impl; [ | exact Hf ].
  intros r Hr. cbv beta in Hr. unfold row_text.
  rewrite length_app, row_chars_length. cbn [List.length]. lia.
Qed.

(** ** sg_decode_sense: the operands of [--nospace] *)

Lemma strlen_append (a b : string) :
  SgDecodeSense.strlen (a ++ b) = SgDecodeSense.strlen a + SgDecodeSense.strlen b.
Proof.
  unfold SgDecodeSense.strlen.
  induction a as [| c a IH]; [ reflexivity | ].
  cbn [String.append String.length]. lia.
Qed.

Lemma append_assoc (a b c : string) :
  ((a ++ b) ++ c)%string = (a ++ (b ++ c))%string.
Proof.
  induction a as [| x a IH]; [ reflexivity | ].
  cbn [String.append]. rewrite IH. reflexivity.
Qed.

Lemma append_empty_r (a : string) : (a ++ EmptyString)%string = a.
Proof.
  induction a as [| x a IH]; [ reflexivity | ].
  cbn [String.append]. rewrite IH. reflexivity.
Qed.

Lemma strlen_nonneg (a : string) : 0 <= SgDecodeSense.strlen a.
Proof. unfold SgDecodeSense.strlen. lia. Qed.

Lemma eqb_empty_strlen (a : string) :
  String.eqb a EmptyString = true -> SgDecodeSense.strlen a = 0.
Proof. intros H. apply String.eqb_eq in H. subst. reflexivity. Qed.

Lemma set_no_space_str_twice (p q : SgDecodeSense.ns_ptr)
      (op : SgDecodeSense.opts_t) :
  SgDecodeSense.set_no_space_str p (SgDecodeSense.set_no_space_str q op)
  = SgDecodeSense.set_no_space_str p op.
Proof. destruct op; reflexivity. Qed.

Lemma set_no_space_str_fields (p : SgDecodeSense.ns_ptr)
      (op : SgDecodeSense.opts_t) :
  SgDecodeSense.no_space_str (SgDecodeSense.set_no_space_str p op) = p
  /\ SgDecodeSense.no_space (SgDecodeSense.set_no_space_str p op)
     = SgDecodeSense.no_space op.
Proof. destruct op; split; reflexivity. Qed.

Section DecodeSenseNospace.

Variable K : sg_lib_h.

(** From the second operand on: [concat_buff] grows by one operand at a
    time as long as it stays below its size. *)
Lemma nospace_concat_loop (avs : list string) :
  forall (op : SgDecodeSense.opts_t) (cb : string),
    SgDecodeSense.no_space op = true ->
    SgDecodeSense.strlen cb < SgDecodeSense.CONCAT_BUFF_SZ ->
    match SgDecodeSense.sense_args K avs
            (SgDecodeSense.set_no_space_str SgDecodeSense.NsConcat op) cb with
    | SgDecodeSense.Overrun _ _ => False
    | SgDecodeSense.Returned code op' cb' =>
        op' = SgDecodeSense.set_no_space_str SgDecodeSense.NsConcat op
        /\ SgDecodeSense.strlen cb' < SgDecodeSense.CONCAT_BUFF_SZ
        /\ if SgDecodeSense.strlen (cb ++ joined avs)
              <? SgDecodeSense.CONCAT_BUFF_SZ
           then code = 0 /\ cb' = (cb ++ joined avs)%string
           else code = SG_LIB_SYNTAX_ERROR K
    end.
Proof.
  induction avs as [| avp avs IH]; intros op cb Hns Hcb.
  - cbn [SgDecodeSense.sense_args].
    change (joined []) with EmptyString. rewrite append_empty_r.
    split; [ reflexivity | ]. split; [ exact Hcb | ].
    destruct (Z.ltb_spec (SgDecodeSense.strlen cb)
                         SgDecodeSense.CONCAT_BUFF_SZ); [ | lia ].
    split; reflexivity.
  - cbn [SgDecodeSense.sense_args].
    change (joined (avp :: avs)) with (avp ++ joined avs)%string.
    destruct (set_no_space_str_fields SgDecodeSense.NsConcat op) as (Hp & Hn).
    rewrite Hn, Hns.
    unfold SgDecodeSense.no_space_arg. rewrite Hp.
    assert (Hfirst :
              (if String.eqb cb EmptyString
               then if SgDecodeSense.CONCAT_BUFF_SZ <? SgDecodeSense.strlen cb
                    then inl (SgDecodeSense.Returned (SG_LIB_SYNTAX_ERROR K)
                                (SgDecodeSense.set_no_space_str
                                   SgDecodeSense.NsConcat op) cb)
                    else if SgDecodeSense.CONCAT_BUFF_SZ
                            <=? SgDecodeSense.strlen cb
                         then inl (SgDecodeSense.Overrun "concat_buff"
                                     (SgDecodeSense.strlen cb))
                         else inr cb
               else inr cb) = inr cb).
    { destruct (String.eqb cb EmptyString); [ | reflexivity ].
      destruct (Z.ltb_spec SgDecodeSense.CONCAT_BUFF_SZ
                           (SgDecodeSense.strlen cb)); [ lia | ].
      destruct (Z.leb_spec SgDecodeSense.CONCAT_BUFF_SZ
                           (SgDecodeSense.strlen cb)); [ lia | ].
      reflexivity. }
    cbv zeta. rewrite Hfirst.
    pose proof (strlen_nonneg (joined avs)) as Hj.
    pose proof (strlen_nonneg avp) as Ha.
    rewrite !strlen_append.
    destruct (Z.leb_spec SgDecodeSense.CONCAT_BUFF_SZ
                (SgDecodeSense.strlen cb + SgDecodeSense.strlen avp))
      as [Hfull | Hroom].
    + split; [ reflexivity | ]. split; [ exact Hcb | ].
      destruct (Z.ltb_spec
                  (SgDecodeSense.strlen cb
                   + (SgDecodeSense.strlen avp
                      + SgDecodeSense.strlen (joined avs)))
                  SgDecodeSense.CONCAT_BUFF_SZ); [ lia | reflexivity ].
    + rewrite set_no_space_str_twice.
      specialize (IH op (cb ++ avp)%string Hns).
      rewrite strlen_append in IH. specialize (IH Hroom).
      destruct (SgDecodeSense.sense_args K avs _ (cb ++ avp)%string)
        as [code op' cb' |]; [ | exact IH ].
      destruct IH as (Hop & Hlen & Hres).
      split; [ exact Hop | ]. split; [ exact Hlen | ].
      rewrite append_assoc, !strlen_append in Hres. exact Hres.
Qed.

(** With [--nospace] set by the options, from the first operand on. *)
Lemma nospace_args_outcome (avs : list string) (op : SgDecodeSense.opts_t) :
  SgDecodeSense.no_space op = true ->
  SgDecodeSense.no_space_str op = SgDecodeSense.NsNull ->
  match avs with
  | [] =>
      SgDecodeSense.sense_args K avs op EmptyString
      = SgDecodeSense.Returned 0 op EmptyString
  | [a] =>
      SgDecodeSense.sense_args K avs op EmptyString
      = SgDecodeSense.Returned 0
          (SgDecodeSense.set_no_space_str (SgDecodeSense.NsArg a) op)
          EmptyString
  | a :: _ :: _ =>
      match SgDecodeSense.sense_args K avs op EmptyString with
      | SgDecodeSense.Overrun arr i =>
          arr = "concat_buff"%string
          /\ i = SgDecodeSense.CONCAT_BUFF_SZ
          /\ SgDecodeSense.strlen a = SgDecodeSense.CONCAT_BUFF_SZ
      | SgDecodeSense.Returned code op' cb' =>
          SgDecodeSense.strlen a <> SgDecodeSense.CONCAT_BUFF_SZ
          /\ SgDecodeSense.strlen cb' < SgDecodeSense.CONCAT_BUFF_SZ
          /\ if SgDecodeSense.strlen (joined avs)
                <? SgDecodeSense.CONCAT_BUFF_SZ
             then code = 0 /\ cb' = joined avs
                  /\ op' = SgDecodeSense.set_no_space_str
                             SgDecodeSense.NsConcat op
             else code = SG_LIB_SYNTAX_ERROR K
                  /\ (op' = SgDecodeSense.set_no_space_str
                              SgDecodeSense.NsConcat op
                      \/ op' = SgDecodeSense.set_no_space_str
                                 (SgDecodeSense.NsArg a) op)
      end
  end.
Proof.
  intros Hns Hnull.
  destruct avs as [| a [| b rest]].
  - reflexivity.
  - cbn [SgDecodeSense.sense_args]. rewrite Hns.
    unfold SgDecodeSense.no_space_arg. rewrite Hnull. reflexivity.
  - cbn [SgDecodeSense.sense_args]. rewrite Hns.
    unfold SgDecodeSense.no_space_arg at 1. rewrite Hnull.
    destruct (set_no_space_str_fields (SgDecodeSense.NsArg a) op)
      as (Hp & Hn).
    rewrite Hn, Hns.
    unfold SgDecodeSense.no_space_arg. rewrite Hp.
    change (String.eqb EmptyString EmptyString) with true. cbv iota zeta.
    pose proof (strlen_nonneg a) as Ha.
    pose proof (strlen_nonneg b) as Hb.
    pose proof (strlen_nonneg (joined rest)) as Hr.
    change (joined (a :: b :: rest))
      with (a ++ (b ++ joined rest))%string.
    rewrite !strlen_append.
    destruct (Z.ltb_spec SgDecodeSense.CONCAT_BUFF_SZ
                         (SgDecodeSense.strlen a)) as [Hlong | Hfit].
    { split; [ lia | ].
      split; [ vm_compute; reflexivity | ].
      destruct (Z.ltb_spec
                  (SgDecodeSense.strlen a
                   + (SgDecodeSense.strlen b
                      + SgDecodeSense.strlen (joined rest)))
                  SgDecodeSense.CONCAT_BUFF_SZ); [ lia | ].
      split; [ reflexivity | right; reflexivity ]. }
    destruct (Z.leb_spec SgDecodeSense.CONCAT_BUFF_SZ
                         (SgDecodeSense.strlen a)) as [Heq | Hlt].
    { repeat split; lia. }
    destruct (Z.leb_spec SgDecodeSense.CONCAT_BUFF_SZ
                (SgDecodeSense.strlen a + SgDecodeSense.strlen b))
      as [Hfull | Hroom].
    { split; [ lia | ]. split; [ exact Hlt | ].
      destruct (Z.ltb_spec
                  (SgDecodeSense.strlen a
                   + (SgDecodeSense.strlen b
                      + SgDecodeSense.strlen (joined rest)))
                  SgDecodeSense.CONCAT_BUFF_SZ); [ lia | ].
      split; [ reflexivity | right; reflexivity ]. }
    rewrite set_no_space_str_twice.
    pose proof (nospace_concat_loop rest op (a ++ b)%string Hns) as Hloop.
    rewrite strlen_append in Hloop. specialize (Hloop Hroom).
    destruct (SgDecodeSense.sense_args K rest _ (a ++ b)%string)
      as [code op' cb' |]; [ | contradiction ].
    destruct Hloop as (Hop & Hlen & Hres).
    split; [ lia | ]. split; [ exact Hlen | ].
    rewrite append_assoc, !strlen_append in Hres.
    destruct (Z.ltb_spec
                (SgDecodeSense.strlen a
                 + (SgDecodeSense.strlen b
                    + SgDecodeSense.strlen (joined rest)))
                SgDecodeSense.CONCAT_BUFF_SZ).
    + destruct Hres as (Hc & Hcb). repeat split; assumption.
    + split; [ exact Hres | left; exact Hop ].
Qed.

End DecodeSenseNospace.

(** ** sg_decode_sense: what the option loop leaves alone *)

Section DecodeSenseOptions.

Variable K : sg_lib_h.

Lemma same_chk_short_opts (c : ascii) (op : SgDecodeSense.opts_t) :
  same_ns op (snd (SgDecodeSense.chk_short_opts K c op))
  /\ same_file op (snd (SgDecodeSense.chk_short_opts K c op)).
Proof.
  unfold SgDecodeSense.chk_short_opts, same_ns, same_file.
  destruct op. split_ifs; repeat split; reflexivity.
Qed.

Lemma same_chk_short_loop (cs : list ascii) :
  forall op,
    same_ns op (step_op (SgDecodeSense.chk_short_loop K cs op))
    /\ same_file op (step_op (SgDecodeSense.chk_short_loop K cs op)).
Proof.
  induction cs as [| c cs IH]; intros op;
    cbn [SgDecodeSense.chk_short_loop];
    [ unfold same_ns, same_file; repeat split; reflexivity | ].
  pose proof (same_chk_short_opts c op) as Hc.
  destruct (SgDecodeSense.chk_short_opts K c op) as [q op1]. cbn [snd] in Hc.
  split_ifs; cbn [step_op]; try assumption.
  specialize (IH op1). unfold same_ns, same_file in *.
  destruct Hc as (H1 & H2 & H3 & H4). destruct IH as (I1 & I2 & I3 & I4).
  repeat split; congruence.
Qed.

Lemma same_ns_opt (g : SgDecodeSense.getopt_ev) (op : SgDecodeSense.opts_t) :
  same_ns op (step_op (SgDecodeSense.opt K g op)).
Proof.
  unfold SgDecodeSense.opt, SgDecodeSense.one_file.
  repeat match goal with
         | |- context [if ?b then _ else _] => destruct b
         | |- context [match ?x with Some _ => _ | None => _ end] =>
             destruct x
         | |- context [match ?s with EmptyString => _ | String _ _ => _ end] =>
             destruct s as [| [[] [] [] [] [] [] [] []] ?]
         end.
  all: cbn [step_op].
  all: try match goal with
           | |- same_ns _ (step_op (SgDecodeSense.chk_short_loop K ?cs ?o)) =>
               destruct (same_chk_short_loop cs o) as [Hl _];
               unfold same_ns in *; rewrite Hl
           end.
  all: unfold same_ns; destruct op; reflexivity.
Qed.

Lemma same_ns_options (gs : list SgDecodeSense.getopt_ev) :
  forall op, same_ns op (step_op (SgDecodeSense.options K gs op)).
Proof.
  induction gs as [| g gs IH]; intros op; cbn [SgDecodeSense.options];
    [ reflexivity | ].
  pose proof (same_ns_opt g op) as Hg.
  destruct (SgDecodeSense.opt K g op) as [op1 | c op1];
    cbn [step_op] in *; [ | assumption ].
  specialize (IH op1). unfold same_ns in *. congruence.
Qed.

Lemma same_file_opt (g : SgDecodeSense.getopt_ev)
      (op : SgDecodeSense.opts_t) :
  takes_file g = false ->
  same_file op (step_op (SgDecodeSense.opt K g op)).
Proof.
  unfold takes_file, SgDecodeSense.opt. intros Hg.
  apply orb_false_iff in Hg. destruct Hg as [Hg Hi].
  apply orb_false_iff in Hg. destruct Hg as [Hb Hf].
  cbv zeta. rewrite Hb, Hf, Hi.
  repeat match goal with
         | |- context [if ?b then _ else _] => destruct b
         | |- context [match ?x with Some _ => _ | None => _ end] =>
             destruct x
         | |- context [match ?s with EmptyString => _ | String _ _ => _ end] =>
             destruct s as [| [[] [] [] [] [] [] [] []] ?]
         end.
  all: cbn [step_op].
  all: try match goal with
           | |- same_file _ (step_op (SgDecodeSense.chk_short_loop K ?cs ?o)) =>
               destruct (same_chk_short_loop cs o) as [_ (Hl1 & Hl2 & Hl3)];
               unfold same_file in *; rewrite Hl1, Hl2, Hl3
           end.
  all: unfold same_file; destruct op; repeat split; reflexivity.
Qed.

(** A file option is taken once: the second one is refused, so at most
    one of [do_binary] and [file_given] gets set, and [fname] with it. *)
Lemma one_source_one_file (optarg : string) (binary : bool)
      (op : SgDecodeSense.opts_t) :
  one_source op ->
  one_source (step_op (SgDecodeSense.one_file K (Some optarg) binary op)).
Proof.
  unfold SgDecodeSense.one_file, one_source. intros [Ha Hb].
  destruct (SgDecodeSense.fname op) eqn:Hf; cbn [step_op].
  { rewrite Hf. split; [ exact Ha | intros _; discriminate ]. }
  assert (Hnone : SgDecodeSense.do_binary op = false
                  /\ SgDecodeSense.file_given op = false).
  { destruct (SgDecodeSense.do_binary op), (SgDecodeSense.file_given op);
      try (split; reflexivity); exfalso; apply Hb; reflexivity. }
  destruct Hnone as [Hnb Hnf].
  destruct op; cbn in Hnb, Hnf; subst.
  destruct binary; cbn; split; try reflexivity; intros _; discriminate.
Qed.

Lemma one_source_opt (g : SgDecodeSense.getopt_ev)
      (op : SgDecodeSense.opts_t) :
  file_named g = true -> one_source op ->
  one_source (step_op (SgDecodeSense.opt K g op)).
Proof.
  unfold file_named. intros Hg Hop.
  destruct (takes_file g) eqn:Htf.
  - cbn [negb orb] in Hg.
    destruct (SgDecodeSense.g_optarg g) as [a |] eqn:Ha;
      [ | discriminate Hg ].
    unfold takes_file in Htf. unfold SgDecodeSense.opt. cbv zeta.
    rewrite Ha.
    destruct (SgDecodeSense.ch_is (SgDecodeSense.g_c g) "b") eqn:Hb;
      [ apply one_source_one_file; exact Hop | ].
    assert (Hc : SgDecodeSense.ch_is (SgDecodeSense.g_c g) "c" = false).
    { cbn [orb] in Htf. unfold SgDecodeSense.ch_is in *.
      destruct (Ascii.eqb_spec (SgDecodeSense.g_c g) "c") as [E | _];
        [ rewrite E in Htf; discriminate Htf | reflexivity ]. }
    assert (He : SgDecodeSense.ch_is (SgDecodeSense.g_c g) "e" = false).
    { cbn [orb] in Htf. unfold SgDecodeSense.ch_is in *.
      destruct (Ascii.eqb_spec (SgDecodeSense.g_c g) "e") as [E | _];
        [ rewrite E in Htf; discriminate Htf | reflexivity ]. }
    rewrite Hc, He.
    destruct (SgDecodeSense.ch_is (SgDecodeSense.g_c g) "f") eqn:Hf;
      [ apply one_source_one_file; exact Hop | ].
    assert (Hh : SgDecodeSense.ch_is (SgDecodeSense.g_c g) "h"
                 || SgDecodeSense.ch_is (SgDecodeSense.g_c g) "?" = false).
    { cbn [orb] in Htf. unfold SgDecodeSense.ch_is in *.
      destruct (Ascii.eqb_spec (SgDecodeSense.g_c g) "h") as [E | _];
        [ rewrite E in Htf; discriminate Htf | ].
      destruct (Ascii.eqb_spec (SgDecodeSense.g_c g) "?") as [E | _];
        [ rewrite E in Htf; discriminate Htf | reflexivity ]. }
    assert (HH : SgDecodeSense.ch_is (SgDecodeSense.g_c g) "H" = false).
    { cbn [orb] in Htf. unfold SgDecodeSense.ch_is in *.
      destruct (Ascii.eqb_spec (SgDecodeSense.g_c g) "H") as [E | _];
        [ rewrite E in Htf; discriminate Htf | reflexivity ]. }
    rewrite Hh, HH.
    cbn [orb] in Htf. rewrite Htf.
    apply one_source_one_file; exact Hop.
  - pose proof (same_file_opt g op Htf) as (H1 & H2 & H3).
    unfold one_source in *. rewrite H1, H2, H3. exact Hop.
Qed.

Lemma one_source_options (gs : list SgDecodeSense.getopt_ev) :
  forall op,
    forallb file_named gs = true -> one_source op ->
    one_source (step_op (SgDecodeSense.options K gs op)).
Proof.
  induction gs as [| g gs IH]; intros op Hgs Hop;
    cbn [SgDecodeSense.options]; [ exact Hop | ].
  cbn [forallb] in Hgs. apply andb_true_iff in Hgs. destruct Hgs as [Hg Hgs].
  pose proof (one_source_opt g op Hg Hop) as H1.
  destruct (SgDecodeSense.opt K g op) as [op1 | c op1];
    cbn [step_op] in *; [ | exact H1 ].
  apply IH; assumption.
Qed.

(** The loop over the operands changes none of the option flags. *)
Lemma sense_args_keeps (avs : list string) :
  forall (op : SgDecodeSense.opts_t) (cb : string),
    match SgDecodeSense.sense_args K avs op cb with
    | SgDecodeSense.Overrun _ _ => True
    | SgDecodeSense.Returned _ op' _ =>
        same_file op op'
        /\ SgDecodeSense.no_space op' = SgDecodeSense.no_space op
        /\ (SgDecodeSense.no_space op = false -> same_ns op op')
        /\ (SgDecodeSense.no_space op = true -> same_sense op op')
    end.
Proof.
  assert (Hns : forall p op,
             same_file op (SgDecodeSense.set_no_space_str p op)
             /\ SgDecodeSense.no_space (SgDecodeSense.set_no_space_str p op)
                = SgDecodeSense.no_space op
             /\ same_sense op (SgDecodeSense.set_no_space_str p op))
    by (intros p op; destruct op; repeat split; reflexivity).
  assert (Hse : forall a n op,
             same_file op (SgDecodeSense.set_sense_len n
                             (SgDecodeSense.set_sense a op))
             /\ SgDecodeSense.no_space (SgDecodeSense.set_sense_len n
                                          (SgDecodeSense.set_sense a op))
                = SgDecodeSense.no_space op
             /\ same_ns op (SgDecodeSense.set_sense_len n
                              (SgDecodeSense.set_sense a op)))
    by (intros a n op; destruct op; repeat split; reflexivity).
  assert (Hrefl : forall op, same_file op op /\ same_ns op op
                             /\ same_sense op op)
    by (intros op; repeat split; reflexivity).
  induction avs as [| avp avs IH]; intros op cb;
    cbn [SgDecodeSense.sense_args].
  { destruct (Hrefl op) as (H1 & H2 & H3). repeat split; try assumption;
      try reflexivity; apply H1 || apply H3. }
  destruct (SgDecodeSense.no_space op) eqn:Hflag.
  - unfold SgDecodeSense.no_space_arg.
    destruct (SgDecodeSense.no_space_str op) eqn:Hp.
    + specialize (IH (SgDecodeSense.set_no_space_str
                        (SgDecodeSense.NsArg avp) op) cb).
      destruct (Hns (SgDecodeSense.NsArg avp) op) as (F1 & F2 & F3).
      destruct (SgDecodeSense.sense_args K avs _ cb) as [c op' cb' |];
        [ | exact I ].
      destruct IH as (I1 & I2 & I3 & I4).
      rewrite F2, Hflag in *.
      split; [ unfold same_file in *; intuition congruence | ].
      split; [ assumption | ].
      split; [ intros H; discriminate H | ].
      intros _. eapply same_sense_trans; [ exact F3 | apply I4; reflexivity ].
    + cbv zeta.
      repeat match goal with
             | |- context [if ?b then _ else _] => destruct b
             end;
        try exact I;
        try (destruct (Hrefl op) as (H1 & H2 & H3);
             split; [ exact H1 | ]; split; [ exact Hflag | ];
             split; [ intros H; discriminate H | intros _; exact H3 ]).
      all: match goal with
           | |- context [SgDecodeSense.sense_args K ?l ?o ?c] =>
               specialize (IH o c);
               destruct (SgDecodeSense.sense_args K l o c)
                 as [c0 op' cb' |]; [ | exact I ]
           end.
      all: destruct (Hns SgDecodeSense.NsConcat op) as (F1 & F2 & F3).
      all: destruct IH as (I1 & I2 & I3 & I4).
      all: rewrite F2, Hflag in *.
      all: split; [ unfold same_file in *; intuition congruence | ].
      all: split; [ assumption | ].
      all: split; [ intros H; discriminate H | ].
      all: intros _; eapply same_sense_trans;
        [ exact F3 | apply I4; reflexivity ].
    + cbv zeta.
      repeat match goal with
             | |- context [if ?b then _ else _] => destruct b
             end;
        try exact I;
        try (destruct (Hrefl op) as (H1 & H2 & H3);
             split; [ exact H1 | ]; split; [ exact Hflag | ];
             split; [ intros H; discriminate H | intros _; exact H3 ]).
      all: match goal with
           | |- context [SgDecodeSense.sense_args K ?l ?o ?c] =>
               specialize (IH o c);
               destruct (SgDecodeSense.sense_args K l o c)
                 as [c0 op' cb' |]; [ | exact I ]
           end.
      all: destruct (Hns SgDecodeSense.NsConcat op) as (F1 & F2 & F3).
      all: destruct IH as (I1 & I2 & I3 & I4).
      all: rewrite F2, Hflag in *.
      all: split; [ unfold same_file in *; intuition congruence | ].
      all: split; [ assumption | ].
      all: split; [ intros H; discriminate H | ].
      all: intros _; eapply same_sense_trans;
        [ exact F3 | apply I4; reflexivity ].
  - destruct (Hrefl op) as (H1 & H2 & H3).
    destruct (negb (SgDecodeSense.byte_token avp)).
    { split; [ exact H1 | ]. split; [ exact Hflag | ].
      split; [ intros _; exact H2 | intros H; discriminate H ]. }
    destruct (SgDecodeSense.MAX_SENSE_LEN <? SgDecodeSense.sense_len op).
    { split; [ exact H1 | ]. split; [ exact Hflag | ].
      split; [ intros _; exact H2 | intros H; discriminate H ]. }
    destruct (SgDecodeSense.sense_len op <? 0); [ exact I | ].
    destruct (SgDecodeSense.store _ _ _) as [a |]; [ | exact I ].
    specialize (IH (SgDecodeSense.set_sense_len (SgDecodeSense.sense_len op + 1)
                      (SgDecodeSense.set_sense a op)) cb).
    destruct (Hse a (SgDecodeSense.sense_len op + 1) op) as (F1 & F2 & F3).
    destruct (SgDecodeSense.sense_args K avs _ cb) as [c op' cb' |];
      [ | exact I ].
    destruct IH as (I1 & I2 & I3 & I4).
    rewrite F2, Hflag in *.
    split; [ unfold same_file in *; intuition congruence | ].
    split; [ assumption | ].
    split; [ | intros H; discriminate H ].
    intros _. specialize (I3 eq_refl). unfold same_ns in *. congruence.
Qed.

End DecodeSenseOptions.

(** ** sg_decode_sense: what [main] never prints or calls *)

Lemma actions_first (pre : list SgDecodeSenseMain.action)
      (r : SgDecodeSenseMain.result) :
  SgDecodeSenseMain.actions (SgDecodeSenseMain.first pre r)
  = pre ++ SgDecodeSenseMain.actions r.
Proof. destruct r; reflexivity. Qed.

Lemma existsb_first (P : SgDecodeSenseMain.action -> bool)
      (pre : list SgDecodeSenseMain.action) (r : SgDecodeSenseMain.result) :
  existsb P (SgDecodeSenseMain.actions (SgDecodeSenseMain.first pre r))
  = existsb P pre || existsb P (SgDecodeSenseMain.actions r).
Proof. rewrite actions_first. apply existsb_app. Qed.

Section DecodeSenseNever.

Variable K : sg_lib_h.
Variable w : SgDecodeSenseMain.world.
Variable P : SgDecodeSenseMain.action -> bool.

Hypothesis P_fwrite : forall d s, P (SgDecodeSenseMain.FwriteText d s) = false.
Hypothesis P_short_write :
  forall i t,
    P (SgDecodeSenseMain.Printf SgDecodeSenseMain.Stderr
         "only able to write %d of %d bytes to %s" i t) = false.
Hypothesis P_err_line :
  forall s i t,
    P (SgDecodeSenseMain.Printf s "%d: %s" i t) = false
    /\ P (SgDecodeSenseMain.Printf s "%s" i t) = false
    /\ P (SgDecodeSenseMain.Printf s "Unable to decode exit status %d" i t)
       = false.

Lemma flush_never (wf : string) (b : list ascii) (calls : nat) :
  existsb P (SgDecodeSenseMain.flush w wf b calls) = false.
Proof.
  unfold SgDecodeSenseMain.flush. cbv zeta. cbn [existsb].
  rewrite P_fwrite. destruct (_ =? _); cbn [existsb orb];
    [ reflexivity | ].
  rewrite P_short_write. reflexivity.
Qed.

Lemma write2wfn_loop_never (wf : string) (bytes : list Z) :
  forall (k : Z) (b : list ascii) (calls : nat)
         (tr : list SgDecodeSenseMain.action),
    existsb P tr = false ->
    existsb P (SgDecodeSenseMain.actions
                 (SgDecodeSenseMain.write2wfn_loop w wf bytes k b calls tr))
    = false.
Proof.
  induction bytes as [| v bytes IH]; intros k b calls tr Htr;
    cbn [SgDecodeSenseMain.write2wfn_loop]; cbv zeta.
  - repeat match goal with
           | |- context [if ?c then _ else _] => destruct c
           end; cbn [SgDecodeSenseMain.actions]; try exact Htr.
    rewrite existsb_app, Htr, flush_never. reflexivity.
  - repeat match goal with
           | |- context [if ?c then _ else _] => destruct c
           end; cbn [SgDecodeSenseMain.actions]; try exact Htr.
    + apply IH. rewrite existsb_app, Htr, flush_never. reflexivity.
    + apply IH. exact Htr.
Qed.

Lemma write2wfn_never (op : SgDecodeSense.opts_t) :
  existsb P (SgDecodeSenseMain.actions (SgDecodeSenseMain.write2wfn w op))
  = false.
Proof.
  unfold SgDecodeSenseMain.write2wfn. apply write2wfn_loop_never. reflexivity.
Qed.

Lemma err_lines_never (verbose : Z) :
  forall (fuel : nat) (k : Z),
    existsb P (SgDecodeSenseMain.err_lines w fuel k verbose) = false.
Proof.
  induction fuel as [| fuel IH]; intros k; [ reflexivity | ].
  cbn [SgDecodeSenseMain.err_lines]. rewrite existsb_app, IH.
  destruct (SgDecodeSenseMain.w_sg_exit2str w k _); [ | reflexivity ].
  cbn [existsb]. destruct (P_err_line (SgDecodeSenseMain.out_of verbose)
                                      [k] [s]) as (H & _).
  rewrite H. reflexivity.
Qed.

Lemma enumerate_err_codes_never (op : SgDecodeSense.opts_t) :
  existsb P (SgDecodeSenseMain.enumerate_err_codes w op) = false.
Proof.
  unfold SgDecodeSenseMain.enumerate_err_codes. cbv zeta.
  destruct (_ && negb _); [ | apply err_lines_never ].
  destruct (SgDecodeSenseMain.w_sg_exit2str w _ _); cbn [existsb].
  - destruct (P_err_line
                (SgDecodeSenseMain.out_of (SgDecodeSense.verbose op))
                [] [s]) as (_ & H & _).
    rewrite H. reflexivity.
  - destruct (P_err_line
                (SgDecodeSenseMain.out_of (SgDecodeSense.verbose op))
                [SgDecodeSense.es_val op] []) as (_ & _ & H).
    rewrite H. reflexivity.
Qed.

End DecodeSenseNever.

Section DecodeSenseQuiet.

Variable K : sg_lib_h.
Variable w : SgDecodeSenseMain.world.

Lemma fini_never (P : SgDecodeSenseMain.action -> bool)
      (op : SgDecodeSense.opts_t) (as_json : bool) (ret : Z) :
  P = says both_files_msg \/ P = decodes ->
  existsb P (SgDecodeSenseMain.actions
               (SgDecodeSenseMain.fini K w op as_json ret)) = false.
Proof.
  intros [-> | ->]; unfold SgDecodeSenseMain.fini; cbv zeta;
    (destruct as_json; [ | reflexivity ]);
    (destruct (SgDecodeSense.js_file op) as [f |]; [ | reflexivity ]);
    (destruct (negb (String.eqb f "-")); [ | reflexivity ]);
    destruct (SgDecodeSenseMain.w_js_fopen w); reflexivity.
Qed.

Lemma write2wfn_quiet (P : SgDecodeSenseMain.action -> bool)
      (op : SgDecodeSense.opts_t) :
  P = says both_files_msg \/ P = decodes ->
  existsb P (SgDecodeSenseMain.actions (SgDecodeSenseMain.write2wfn w op))
  = false.
Proof.
  intros [-> | ->]; apply write2wfn_never; intros; reflexivity.
Qed.

Lemma enumerate_err_codes_quiet (P : SgDecodeSenseMain.action -> bool)
      (op : SgDecodeSense.opts_t) :
  P = says both_files_msg \/ P = decodes ->
  existsb P (SgDecodeSenseMain.enumerate_err_codes w op) = false.
Proof.
  intros [-> | ->]; apply enumerate_err_codes_never; intros;
    repeat split; reflexivity.
Qed.

Ltac never_leaf HP :=
  cbn [SgDecodeSenseMain.actions];
  repeat first [ rewrite existsb_first
               | rewrite existsb_app
               | rewrite (fini_never _ _ _ _ HP) ];
  cbn [existsb orb says decodes SgDecodeSenseMain.actions];
  try reflexivity.

(** Whatever the options, [output] does not print the message about two
    files. *)
Lemma output_never_says (op : SgDecodeSense.opts_t) (as_json : bool) :
  existsb (says both_files_msg)
          (SgDecodeSenseMain.actions (SgDecodeSenseMain.output K w op as_json))
  = false.
Proof.
  assert (HP : says both_files_msg = says both_files_msg
               \/ says both_files_msg = decodes) by (left; reflexivity).
  pose proof (write2wfn_quiet _ op HP) as Hw.
  unfold SgDecodeSenseMain.output. cbv zeta.
  destruct (SgDecodeSenseMain.write2wfn w op) as [trw cw | trw aw iw];
    cbn [SgDecodeSenseMain.actions] in Hw.
  all: repeat match goal with
              | |- context [if ?c then _ else _] => destruct c
              | |- context [match ?x with Some _ => _ | None => _ end] =>
                  destruct x
              end.
  all: never_leaf HP.
  all: rewrite ?Hw; reflexivity.
Qed.

(** With [--write], [--hex] or [--nodecode], [output] calls none of the
    decoding functions. *)
Lemma output_never_decodes (op : SgDecodeSense.opts_t) (as_json : bool) :
  dumping op = true ->
  existsb decodes
          (SgDecodeSenseMain.actions (SgDecodeSenseMain.output K w op as_json))
  = false.
Proof.
  assert (HP : decodes = says both_files_msg \/ decodes = decodes)
    by (right; reflexivity).
  pose proof (write2wfn_quiet _ op HP) as Hw.
  unfold dumping, SgDecodeSenseMain.output. cbv zeta. intros Hd.
  destruct (SgDecodeSenseMain.write2wfn w op) as [trw cw | trw aw iw];
    cbn [SgDecodeSenseMain.actions] in Hw.
  all: destruct (0 <? SgDecodeSense.sense_len op);
    [ | never_leaf HP ].
  all: destruct (SgDecodeSense.wfname op) as [f |];
    destruct (truthy (SgDecodeSense.hex_count op));
    destruct (SgDecodeSense.no_decode op);
    try discriminate Hd; cbn [orb andb].
  all: repeat match goal with
              | |- context [if ?c then _ else _] => destruct c
              end.
  all: never_leaf HP.
  all: rewrite ?Hw; reflexivity.
Qed.

Ltac split_data :=
  repeat match goal with
         | |- context [if ?c then _ else _] => destruct c
         | |- context [match ?x with Some _ => _ | None => _ end] =>
             destruct x
         | |- context [match ?x with
                       | SgDecodeSenseMain.NsDone _ _ => _
                       | SgDecodeSenseMain.NsBad => _
                       | SgDecodeSenseMain.NsFault _ => _
                       end] => destruct x
         | |- context [match ?x with pair _ _ => _ end] => destruct x
         end.

Lemma with_data_never_says (op : SgDecodeSense.opts_t) (cb : string)
      (as_json : bool) :
  SgDecodeSense.do_binary op && SgDecodeSense.file_given op = false ->
  existsb (says both_files_msg)
          (SgDecodeSenseMain.actions
             (SgDecodeSenseMain.with_data K w op cb as_json))
  = false.
Proof.
  assert (HP : says both_files_msg = says both_files_msg
               \/ says both_files_msg = decodes) by (left; reflexivity).
  intros Hone. unfold SgDecodeSenseMain.with_data. cbv zeta.
  destruct op. cbn in Hone.
  cbn [SgDecodeSense.do_binary SgDecodeSense.file_given SgDecodeSense.fname
       SgDecodeSense.do_status SgDecodeSense.sstatus SgDecodeSense.verbose
       SgDecodeSense.no_space_str SgDecodeSense.sense SgDecodeSense.sense_len
       SgDecodeSense.set_sense SgDecodeSense.set_sense_len].
  destruct do_binary, file_given; try discriminate Hone; cbn [andb orb negb].
  all: destruct no_space_str; split_data.
  all: never_leaf HP.
  all: rewrite ?output_never_says; reflexivity.
Qed.

Lemma with_data_never_decodes (op : SgDecodeSense.opts_t) (cb : string)
      (as_json : bool) :
  dumping op = true ->
  existsb decodes
          (SgDecodeSenseMain.actions
             (SgDecodeSenseMain.with_data K w op cb as_json))
  = false.
Proof.
  assert (HP : decodes = says both_files_msg \/ decodes = decodes)
    by (right; reflexivity).
  assert (Hout : forall a n (o : SgDecodeSense.opts_t) j,
             dumping o = true ->
             existsb decodes
               (SgDecodeSenseMain.actions
                  (SgDecodeSenseMain.output K w
                     (SgDecodeSense.set_sense_len n
                        (SgDecodeSense.set_sense a o)) j)) = false).
  { intros a n o j Ho. apply output_never_decodes.
    destruct o; exact Ho. }
  intros Hd. unfold SgDecodeSenseMain.with_data. cbv zeta.
  destruct (SgDecodeSense.no_space_str op); split_data.
  all: never_leaf HP.
  all: rewrite ?Hout by (destruct op; exact Hd);
    try reflexivity.
Qed.

Lemma rep_invocation_quiet (P : SgDecodeSenseMain.action -> bool)
      (inv : SgDecodeSense.invocation) :
  P = says both_files_msg \/ P = decodes ->
  existsb P (SgDecodeSenseMain.rep_invocation inv) = false.
Proof.
  unfold SgDecodeSenseMain.rep_invocation.
  intros [-> | ->]; destruct (SgDecodeSense.SG3_UTILS_INVOCATION inv);
    reflexivity.
Qed.

Lemma main_never (P : SgDecodeSenseMain.action -> bool)
      (inv : SgDecodeSense.invocation) :
  P = says both_files_msg \/ P = decodes ->
  (forall ret op cb as_json,
      SgDecodeSense.parse_cmd_line K inv = SgDecodeSense.Returned ret op cb ->
      existsb P (SgDecodeSenseMain.actions
                   (SgDecodeSenseMain.with_data K w op cb as_json)) = false) ->
  existsb P (SgDecodeSenseMain.actions (SgDecodeSenseMain.main K w inv))
  = false.
Proof.
  intros HP Hdata.
  pose proof (enumerate_err_codes_quiet P) as Henum.
  unfold SgDecodeSenseMain.main.
  rewrite existsb_first, (rep_invocation_quiet P inv HP). cbn [orb].
  destruct (SgDecodeSense.parse_cmd_line K inv) as [ret op cb | a i].
  2: { destruct HP as [-> | ->]; split_data; reflexivity. }
  pose proof (fun j => Hdata ret op cb j eq_refl) as Hwith.
  clear Hdata. specialize (Henum op HP).
  unfold SgDecodeSenseMain.after_parse.
  assert (Hfini : forall j r,
             existsb P (SgDecodeSenseMain.actions
                          (SgDecodeSenseMain.fini K w op j r)) = false)
    by (intros; apply fini_never; exact HP).
  split_data.
  all: repeat first [ rewrite existsb_first | rewrite existsb_app ].
  all: cbn [SgDecodeSenseMain.actions].
  all: rewrite ?Hwith, ?Henum, ?Hfini.
  all: destruct HP as [-> | ->]; reflexivity.
Qed.

End DecodeSenseQuiet.

Section DecodeSenseSources.

Variable K : sg_lib_h.

Lemma parse_cmd_line_one_source (inv : SgDecodeSense.invocation) :
  forallb file_named (SgDecodeSense.getopt_opts inv) = true ->
  match SgDecodeSense.parse_cmd_line K inv with
  | SgDecodeSense.Returned _ op _ => one_source op
  | SgDecodeSense.Overrun _ _ => True
  end.
Proof.
  intros Hgs. unfold SgDecodeSense.parse_cmd_line.
  assert (Hz : one_source SgDecodeSense.opts_zero)
    by (split; [ reflexivity | intros H; discriminate H ]).
  pose proof (one_source_options K _ _ Hgs Hz) as Hopt.
  destruct (SgDecodeSense.options K (SgDecodeSense.getopt_opts inv)
                                  SgDecodeSense.opts_zero) as [op1 | c op1];
    cbn [step_op] in Hopt; [ | exact Hopt ].
  destruct (SgDecodeSense.err_given op1); [ exact Hopt | ].
  pose proof (sense_args_keeps K (SgDecodeSense.getopt_rest inv) op1
                               EmptyString) as Hk.
  destruct (SgDecodeSense.sense_args K _ op1 EmptyString)
    as [code op' cb' |]; [ | exact I ].
  destruct Hk as ((H1 & H2 & H3) & _).
  unfold one_source in *. rewrite H1, H2, H3. exact Hopt.
Qed.

End DecodeSenseSources.

(** X17: sg_decode_sense takes its data from one file at most.  When
    getopt hands over the argument of every [--binary=], [--file=] and
    [--inhex=] it reports, parse_cmd_line never leaves both [do_binary]
    and [file_given] set, and leaves [fname] set when one of them is.  So
    the third check of main is dead: it never prints that a binary file
    and a hexadecimal file cannot both be given. *)
Theorem decode_sense_reads_one_file
        (K : sg_lib_h) (w : SgDecodeSenseMain.world)
        (inv : SgDecodeSense.invocation) :
  forallb file_named (SgDecodeSense.getopt_opts inv) = true ->
  match SgDecodeSense.parse_cmd_line K inv with
  | SgDecodeSense.Returned _ op _ =>
      SgDecodeSense.do_binary op && SgDecodeSense.file_given op = false
      /\ (SgDecodeSense.do_binary op || SgDecodeSense.file_given op = true ->
          SgDecodeSense.fname op <> None)
  | SgDecodeSense.Overrun _ _ => True
  end
  /\ existsb (says both_files_msg)
             (SgDecodeSenseMain.actions (SgDecodeSenseMain.main K w inv))
     = false.
Proof.
  intros Hgs. pose proof (parse_cmd_line_one_source K inv Hgs) as Hp.
  split; [ exact Hp | ].
  apply main_never; [ left; reflexivity | ].
  intros ret op cb as_json Hret. rewrite Hret in Hp.
  apply with_data_never_says. exact (proj1 Hp).
Qed.

(** [sg_decode_sense --binary=sense.bin]: one file, read in binary. *)
Lemma decode_sense_reads_one_file_witness :
  existsb (says both_files_msg)
          (SgDecodeSenseMain.actions
             (SgDecodeSenseMain.main Samples.K Cases.decode_world
                                     Cases.decode_binary))
  = false.
Proof.
  apply (decode_sense_reads_one_file Samples.K Cases.decode_world
                                     Cases.decode_binary).
  vm_compute; reflexivity.
Defined.

(** X18: with [--write=WFN], [--hex] or [--nodecode] among the options
    parse_cmd_line returns, main decodes nothing: it calls neither
    sg_get_sense_str nor sgj_js_sense nor sg_get_opcode_sa_name, whatever
    the data and wherever it comes from. *)
Theorem decode_sense_dump_is_not_decoded
        (K : sg_lib_h) (w : SgDecodeSenseMain.world)
        (inv : SgDecodeSense.invocation)
        (ret : Z) (op : SgDecodeSense.opts_t) (cb : string) :
  SgDecodeSense.parse_cmd_line K inv = SgDecodeSense.Returned ret op cb ->
  dumping op = true ->
  existsb decodes (SgDecodeSenseMain.actions (SgDecodeSenseMain.main K w inv))
  = false.
Proof.
  intros Hp Hd. apply main_never; [ right; reflexivity | ].
  intros ret' op' cb' as_json Hret. rewrite Hp in Hret.
  inversion Hret; subst. apply with_data_never_decodes. exact Hd.
Qed.

(** [sg_decode_sense --hex 70 00 05]. *)
Lemma decode_sense_dump_is_not_decoded_witness :
  existsb decodes
          (SgDecodeSenseMain.actions
             (SgDecodeSenseMain.main Samples.K Cases.decode_world
                                     Cases.decode_hex))
  = false.
Proof.
  eapply (decode_sense_dump_is_not_decoded Samples.K Cases.decode_world
                                           Cases.decode_hex).
  - vm_compute; reflexivity.
  - vm_compute; reflexivity.
Defined.



(** X20: once the option loop has taken [--err=ES], the operands are not
    looked at.  Of two command lines with the same options and any
    operands, hex bytes or not, only the report of the command line can
    tell the runs apart, which sg_rep_invocation writes first when
    SG3_UTILS_INVOCATION is set: all that main does after it is the same,
    and it returns 0. *)
Theorem err_option_ignores_operands
        (K : sg_lib_h) (w : SgDecodeSenseMain.world)
        (inv inv' : SgDecodeSense.invocation) (op : SgDecodeSense.opts_t) :
  SgDecodeSense.options K (SgDecodeSense.getopt_opts inv)
                        SgDecodeSense.opts_zero
  = SgDecodeSense.Next op ->
  SgDecodeSense.err_given op = true ->
  SgDecodeSense.getopt_opts inv' = SgDecodeSense.getopt_opts inv ->
  exists r,
    SgDecodeSenseMain.main K w inv
    = SgDecodeSenseMain.first (SgDecodeSenseMain.rep_invocation inv) r
    /\ SgDecodeSenseMain.main K w inv'
       = SgDecodeSenseMain.first (SgDecodeSenseMain.rep_invocation inv') r
    /\ (SgDecodeSenseMain.w_memalign w = true ->
        exists tr, r = SgDecodeSenseMain.Exit tr 0).
Proof.
  intros Hopt Herr Hsame.
  unfold SgDecodeSenseMain.main, SgDecodeSense.parse_cmd_line.
  rewrite Hsame, Hopt, Herr.
  eexists. split; [ reflexivity | ]. split; [ reflexivity | ].
  intros Hmem. rewrite Hmem. cbn [negb].
  unfold SgDecodeSenseMain.after_parse. rewrite Herr, orb_true_r.
  change (truthy 0) with false. cbv iota.
  repeat match goal with
         | |- context [if ?c then _ else _] => destruct c
         end; cbn [SgDecodeSenseMain.first]; eexists; reflexivity.
Qed.

(** [sg_decode_sense --err=5 junk] and [sg_decode_sense --err=5], both
    with SG3_UTILS_INVOCATION set: the reports differ, the rest does
    not. *)
Lemma err_option_ignores_operands_witness :
  exists r,
    SgDecodeSenseMain.main Cases.K_decode Cases.decode_world Cases.decode_err
    = SgDecodeSenseMain.first
        [SgDecodeSenseMain.RepInvocation ["--err=5"%string]] r
    /\ SgDecodeSenseMain.main Cases.K_decode Cases.decode_world
                              Cases.decode_err_junk
       = SgDecodeSenseMain.first
           [SgDecodeSenseMain.RepInvocation ["--err=5"; "junk"]%string] r.
Proof.
  destruct (err_option_ignores_operands Cases.K_decode Cases.decode_world
              Cases.decode_err Cases.decode_err_junk
              (SgDecodeSense.set_es_val 5
                 (SgDecodeSense.set_err_given true SgDecodeSense.opts_zero))
              eq_refl eq_refl eq_refl)
    as (r & H1 & H2 & _).
  exists r. split; [ exact H1 | exact H2 ].
Defined.

(** ** sg_decode_sense: writes outside an array *)

Lemma fault_of_first (pre : list SgDecodeSenseMain.action)
      (r : SgDecodeSenseMain.result) :
  fault_of (SgDecodeSenseMain.first pre r) = fault_of r.
Proof. destruct r; reflexivity. Qed.

Lemma hex_pairs_length (cp : list ascii) :
  (2 * List.length (hex_pairs cp) <= List.length cp)%nat.
Proof.
  assert (H : forall n cp, (List.length cp <= n)%nat ->
                (2 * List.length (hex_pairs cp) <= List.length cp)%nat).
  { clear cp. induction n as [| n IH]; intros cp Hn.
    - destruct cp; [ cbn; lia | cbn in Hn; lia ].
    - destruct cp as [| c0 [| c1 tl]]; cbn [hex_pairs List.length]; try lia.
      destruct (Libc.hex_digit c0); [ | cbn; lia ].
      destruct (Libc.hex_digit c1); [ | cbn; lia ].
      cbn [List.length]. specialize (IH tl). cbn [List.length] in Hn.
      specialize (IH ltac:(lia)). lia. }
  apply (H (List.length cp)). apply le_n.
Qed.

Lemma chars_length (s : string) :
  Z.of_nat (List.length (chars s)) = SgDecodeSense.strlen s.
Proof.
  unfold chars, SgDecodeSense.strlen. f_equal.
  induction s as [| c s IH]; [ reflexivity | ].
  cbn [list_ascii_of_string List.length String.length]. rewrite IH.
  reflexivity.
Qed.

Section DecodeSenseFaults.

Variable K : sg_lib_h.
Variable w : SgDecodeSenseMain.world.

Lemma fault_of_fini (op : SgDecodeSense.opts_t) (as_json : bool) (ret : Z) :
  fault_of (SgDecodeSenseMain.fini K w op as_json ret) = None.
Proof.
  unfold SgDecodeSenseMain.fini. cbv zeta.
  destruct as_json; [ | reflexivity ].
  destruct (SgDecodeSense.js_file op) as [f |]; [ | reflexivity ].
  destruct (negb (String.eqb f "-")); [ | reflexivity ].
  destruct (SgDecodeSenseMain.w_js_fopen w); reflexivity.
Qed.

Lemma fault_of_output (op : SgDecodeSense.opts_t) (as_json : bool) :
  fault_of (SgDecodeSenseMain.output K w op as_json) = None.
Proof.
  destruct (write2wfn_rows_exit w op) as (trw & Hw).
  unfold SgDecodeSenseMain.output. cbv zeta. rewrite Hw.
  repeat match goal with
         | |- context [if ?c then _ else _] => destruct c
         | |- context [match ?x with Some _ => _ | None => _ end] =>
             destruct x
         end.
  all: rewrite ?fault_of_first, ?fault_of_fini; reflexivity.
Qed.

(** [with_data] writes outside an array only in the loop over the
    [--nospace] string. *)
Lemma fault_of_with_data (op : SgDecodeSense.opts_t) (cb : string)
      (as_json : bool) :
  fault_of (SgDecodeSenseMain.with_data K w op cb as_json)
  = match SgDecodeSense.no_space_str op with
    | SgDecodeSense.NsNull => None
    | p =>
        if 0 =? SgDecodeSense.sense_len op then
          match SgDecodeSenseMain.no_space_loop
                  (chars (match p with
                          | SgDecodeSense.NsArg avp => avp
                          | _ => cb
                          end))
                  (SgDecodeSense.sense op) (SgDecodeSense.sense_len op) with
          | SgDecodeSenseMain.NsFault i => Some ("sense"%string, i)
          | _ => None
          end
        else None
    end.
Proof.
  unfold SgDecodeSenseMain.with_data. cbv zeta.
  rewrite !fault_of_first.
  destruct (SgDecodeSense.no_space_str op);
    repeat match goal with
           | |- context [if ?c then _ else _] => destruct c
           | |- context [match ?x with Some _ => _ | None => _ end] =>
               destruct x
           | |- context [match ?x with
                         | SgDecodeSenseMain.NsDone _ _ => _
                         | SgDecodeSenseMain.NsBad => _
                         | SgDecodeSenseMain.NsFault _ => _
                         end] => destruct x
           | |- context [match ?x with pair _ _ => _ end] => destruct x
           end.
  all: rewrite ?fault_of_first, ?fault_of_fini, ?fault_of_output; reflexivity.
Qed.

Lemma fault_of_main (inv : SgDecodeSense.invocation) :
  fault_of (SgDecodeSenseMain.main K w inv)
  = match SgDecodeSense.parse_cmd_line K inv with
    | SgDecodeSense.Overrun a i =>
        if SgDecodeSenseMain.w_memalign w then Some (a, i) else None
    | SgDecodeSense.Returned ret op cb =>
        if SgDecodeSenseMain.w_memalign w
           && negb (SgDecodeSense.version_given op) && negb (truthy ret)
           && negb (SgDecodeSense.do_help op)
           && negb (SgDecodeSense.do_list_err op || SgDecodeSense.err_given op)
           && negb (SgDecodeSense.do_json op
                    && negb (SgDecodeSenseMain.w_sgj_init_state w))
        then fault_of (SgDecodeSenseMain.with_data K w op cb
                         (SgDecodeSense.do_json op
                          && SgDecodeSenseMain.w_pr_as_json w))
        else None
    end.
Proof.
  unfold SgDecodeSenseMain.main. rewrite fault_of_first.
  destruct (SgDecodeSenseMain.w_memalign w); cbn [negb andb];
    [ | destruct (SgDecodeSense.parse_cmd_line K inv); reflexivity ].
  destruct (SgDecodeSense.parse_cmd_line K inv) as [ret op cb | a i];
    [ | reflexivity ].
  unfold SgDecodeSenseMain.after_parse. rewrite fault_of_first.
  destruct (SgDecodeSense.version_given op); [ reflexivity | ].
  destruct (truthy ret); [ reflexivity | ].
  destruct (SgDecodeSense.do_help op); [ reflexivity | ].
  destruct (SgDecodeSense.do_list_err op || SgDecodeSense.err_given op);
    [ reflexivity | ].
  destruct (SgDecodeSense.do_json op
            && negb (SgDecodeSenseMain.w_sgj_init_state w));
    cbn [negb andb].
  - rewrite fault_of_first, fault_of_fini. reflexivity.
  - rewrite fault_of_first. reflexivity.
Qed.

End DecodeSenseFaults.

(** X21: sg_decode_sense writes outside an array in two cases only, both
    with [--nospace] and without [--err].  Either there are two or more
    operands and the first has exactly 1024 characters: parse_cmd_line
    then copies it with its NUL into [concat_buff], one element too far.
    Or there is one operand with more pairs of hexadecimal digits than
    [sense] has elements: the loop of main stores them all and reaches
    [sense[MAX_SENSE_LEN + 4]].  In every other run all writes stay
    inside [concat_buff], [sense] and the buffer of write2wfn. *)
Theorem decode_sense_writes_outside_only_with_nospace
        (K : sg_lib_h) (w : SgDecodeSenseMain.world)
        (inv : SgDecodeSense.invocation)
        (tr : list SgDecodeSenseMain.action) (a : string) (i : Z) :
  SG_LIB_SYNTAX_ERROR K <> 0 ->
  SgDecodeSenseMain.main K w inv = SgDecodeSenseMain.Fault tr a i ->
  exists op0,
    SgDecodeSense.options K (SgDecodeSense.getopt_opts inv)
                          SgDecodeSense.opts_zero
    = SgDecodeSense.Next op0
    /\ SgDecodeSense.err_given op0 = false
    /\ SgDecodeSense.no_space op0 = true
    /\ ((a = "concat_buff"%string
         /\ i = SgDecodeSense.CONCAT_BUFF_SZ
         /\ exists first second rest,
             SgDecodeSense.getopt_rest inv = first :: second :: rest
             /\ SgDecodeSense.strlen first = SgDecodeSense.CONCAT_BUFF_SZ)
        \/ (a = "sense"%string
            /\ i = SgDecodeSense.MAX_SENSE_LEN + 4
            /\ exists s,
                SgDecodeSense.getopt_rest inv = [s]
                /\ SgDecodeSense.MAX_SENSE_LEN + 4
                   < Z.of_nat (List.length (hex_pairs (chars s))))).
Proof.
  intros Hsyn Hmain.
  assert (Hf : fault_of (SgDecodeSenseMain.main K w inv) = Some (a, i))
    by (rewrite Hmain; reflexivity).
  clear Hmain. rewrite fault_of_main in Hf.
  assert (Hguard : forall (b : bool) (X : option (string * Z)),
             (if b then X else None) = Some (a, i) -> X = Some (a, i))
    by (intros b X; destruct b; [ trivial | discriminate ]).
  assert (Hnone : forall (b : bool) (op : SgDecodeSense.opts_t) cb j,
             SgDecodeSense.no_space_str op = SgDecodeSense.NsNull ->
             (if b then fault_of (SgDecodeSenseMain.with_data K w op cb j)
              else None) <> Some (a, i)).
  { intros b op cb j Hnull H. apply Hguard in H.
    rewrite fault_of_with_data, Hnull in H. discriminate H. }
  unfold SgDecodeSense.parse_cmd_line in Hf.
  pose proof (same_ns_options K (SgDecodeSense.getopt_opts inv)
                              SgDecodeSense.opts_zero) as Hns0.
  pose proof (same_sense_options K (SgDecodeSense.getopt_opts inv)
                                 SgDecodeSense.opts_zero) as [Hs0 Hl0].
  unfold same_ns in Hns0.
  change (SgDecodeSense.no_space_str SgDecodeSense.opts_zero)
    with SgDecodeSense.NsNull in Hns0.
  change (SgDecodeSense.sense_len SgDecodeSense.opts_zero) with 0 in Hl0.
  destruct (SgDecodeSense.options K (SgDecodeSense.getopt_opts inv)
                                  SgDecodeSense.opts_zero)
    as [op0 | c op1] eqn:Hopt; cbn [step_op] in Hns0, Hs0, Hl0.
  2: { exfalso. exact (Hnone _ _ _ _ Hns0 Hf). }
  destruct (SgDecodeSense.err_given op0) eqn:Herr.
  { exfalso. exact (Hnone _ _ _ _ Hns0 Hf). }
  exists op0. split; [ reflexivity | ]. split; [ exact Herr | ].
  assert (Hlen0 : List.length (SgDecodeSense.sense op0) = SENSE_SZ)
    by (rewrite Hs0; reflexivity).
  destruct (SgDecodeSense.no_space op0) eqn:Hflag.
  - split; [ reflexivity | ].
    pose proof (nospace_args_outcome K (SgDecodeSense.getopt_rest inv) op0
                                     Hflag Hns0) as Hout.
    destruct (SgDecodeSense.getopt_rest inv) as [| s [| b rest]].
    + rewrite Hout in Hf. exfalso. exact (Hnone _ _ _ _ Hns0 Hf).
    + rewrite Hout in Hf. apply Hguard in Hf.
      rewrite fault_of_with_data in Hf.
      destruct (set_no_space_str_fields (SgDecodeSense.NsArg s) op0)
        as (Hp & _).
      destruct (decode_sense_fields_ns (SgDecodeSense.NsArg s) op0)
        as (Hs1 & Hl1 & _).
      rewrite Hp, Hs1, Hl1, Hl0 in Hf.
      change (0 =? 0) with true in Hf. cbv iota in Hf.
      pose proof (no_space_loop_spec (chars s) 0 (SgDecodeSense.sense op0)
                                     (Nat.le_0_l _)) as Hloop.
      change (Z.of_nat 0) with 0 in Hloop.
      destruct (SgDecodeSenseMain.no_space_loop (chars s)
                  (SgDecodeSense.sense op0) 0) as [s' m | | j];
        try discriminate Hf.
      inversion Hf; subst a i. destruct Hloop as (Hlt & Hj).
      right. split; [ reflexivity | ].
      rewrite Hlen0 in Hlt, Hj. cbn [Nat.add] in Hlt.
      split; [ rewrite Hj; reflexivity | ].
      exists s. split; [ reflexivity | ].
      change (SgDecodeSense.MAX_SENSE_LEN + 4) with (Z.of_nat SENSE_SZ). lia.
    + destruct (SgDecodeSense.sense_args K (s :: b :: rest) op0 EmptyString)
        as [code op' cb' | arr j].
      * exfalso. destruct Hout as (_ & Hcb & Hres).
        destruct (SgDecodeSense.strlen (joined (s :: b :: rest))
                  <? SgDecodeSense.CONCAT_BUFF_SZ).
        -- destruct Hres as (Hc & Hcb' & Hop'). subst code op'.
           apply Hguard in Hf. rewrite fault_of_with_data in Hf.
           destruct (set_no_space_str_fields SgDecodeSense.NsConcat op0)
             as (Hp & _).
           destruct (decode_sense_fields_ns SgDecodeSense.NsConcat op0)
             as (Hs1 & Hl1 & _).
           rewrite Hp, Hs1, Hl1, Hl0 in Hf.
           change (0 =? 0) with true in Hf. cbv iota in Hf.
           pose proof (no_space_loop_spec (chars cb') 0
                         (SgDecodeSense.sense op0) (Nat.le_0_l _)) as Hloop.
           change (Z.of_nat 0) with 0 in Hloop.
           destruct (SgDecodeSenseMain.no_space_loop (chars cb')
                       (SgDecodeSense.sense op0) 0) as [s' m | | j];
             try discriminate Hf.
           destruct Hloop as (Hlt & _). rewrite Hlen0 in Hlt.
           cbn [Nat.add] in Hlt.
           pose proof (hex_pairs_length (chars cb')) as Hhalf.
           pose proof (chars_length cb') as Hchars.
           unfold SgDecodeSense.CONCAT_BUFF_SZ in Hcb.
           assert (Hsz : Z.of_nat SENSE_SZ = 8196) by reflexivity.
           lia.
        -- destruct Hres as (Hc & _). subst code.
           assert (Ht : truthy (SG_LIB_SYNTAX_ERROR K) = true).
           { unfold truthy. destruct (Z.eqb_spec (SG_LIB_SYNTAX_ERROR K) 0);
               [ contradiction | reflexivity ]. }
           rewrite Ht in Hf. cbn [negb] in Hf.
           rewrite !andb_false_r in Hf. cbn [andb] in Hf.
           discriminate Hf.
      * destruct Hout as (Harr & Hj & Hlen).
        destruct (SgDecodeSenseMain.w_memalign w); [ | discriminate Hf ].
        inversion Hf; subst a i.
        left. split; [ exact Harr | ]. split; [ exact Hj | ].
        exists s, b, rest. split; [ reflexivity | exact Hlen ].
  - exfalso.
    assert (Hsl0 : 0 <= SgDecodeSense.sense_len op0
                   <= SgDecodeSense.MAX_SENSE_LEN + 1)
      by (rewrite Hl0; unfold SgDecodeSense.MAX_SENSE_LEN; lia).
    pose proof (sense_args_tokens K (SgDecodeSense.getopt_rest inv) op0
                  EmptyString Hflag Hlen0 Hsl0) as Htok.
    pose proof (sense_args_keeps K (SgDecodeSense.getopt_rest inv) op0
                  EmptyString) as Hkeep.
    destruct (SgDecodeSense.sense_args K (SgDecodeSense.getopt_rest inv) op0
                                       EmptyString) as [code op' cb' | arr j];
      [ | exact Htok ].
    destruct Hkeep as (_ & _ & Hsame & _). specialize (Hsame Hflag).
    unfold same_ns in Hsame. rewrite Hns0 in Hsame.
    exact (Hnone _ _ _ _ Hsame Hf).
Qed.

(** [sg_decode_sense --nospace 000...0 00] with 1024 zeros in the first
    operand overruns [concat_buff]. *)
Lemma decode_sense_writes_outside_only_with_nospace_witness :
  SgDecodeSenseMain.main Samples.K Cases.decode_world
                         Cases.decode_nospace_long
  = SgDecodeSenseMain.Fault [] "concat_buff" 1024
  /\ exists op0,
      SgDecodeSense.options Samples.K
        (SgDecodeSense.getopt_opts Cases.decode_nospace_long)
        SgDecodeSense.opts_zero
      = SgDecodeSense.Next op0
      /\ SgDecodeSense.no_space op0 = true.
Proof.
  assert (Hrun : SgDecodeSenseMain.main Samples.K Cases.decode_world
                                        Cases.decode_nospace_long
                 = SgDecodeSenseMain.Fault [] "concat_buff" 1024)
    by (vm_compute; reflexivity).
  split; [ exact Hrun | ].
  destruct (decode_sense_writes_outside_only_with_nospace
              Samples.K Cases.decode_world Cases.decode_nospace_long
              [] "concat_buff" 1024 ltac:(discriminate) Hrun)
    as (op0 & Hopt & _ & Hns & _).
  exists op0. split; assumption.
Defined.

(** ** sg_requests: the sign of the exit status *)

(** X22: sg_requests never exits with a negative status.  Whatever the
    command line and the device do, the value main returns is 0 or more,
    provided the three values of sg_lib.h it returns directly are:
    negative results of the library are replaced by SG_LIB_CAT_OTHER
    before main returns. *)
Theorem requests_exit_status_not_negative
        (K : sg_lib_h) (w : SgRequests.world) (inv : SgRequests.invocation) :
  0 <= SG_LIB_SYNTAX_ERROR K ->
  0 <= SG_LIB_FILE_ERROR K ->
  0 <= SG_LIB_CAT_OTHER K ->
  0 <= exit_code (SgRequests.main K w inv).
Proof.
  intros Hs Hf Ho. apply requests_main_nonneg; assumption.
Qed.

(** [sg_requests /dev/sg0] on a device that answers with sense data of
    category 2. *)
Lemma requests_exit_status_not_negative_witness :
  0 <= exit_code (SgRequests.main Samples.K
                    (Samples.requests_world (Samples.pt_reply (-2) 2))
                    Samples.requests_dev).
Proof.
  apply (requests_exit_status_not_negative Samples.K
           (Samples.requests_world (Samples.pt_reply (-2) 2))
           Samples.requests_dev); cbn; lia.
Defined.
